(** * cwc: window-management core, embedded in Rocq

    A shallow embedding of the container / BSP / master-stack layout code,
    the keyboard binding dispatch and the interactive-resize edge inference
    of the cwc compositor, together with the properties its specification
    states about them.

    Conventions of the embedding:
    - C [int] values are integers of [Z]; signed overflow is undefined in C
      and is not modelled.  [uint32_t] bit fields are [Z] with the wrap to
      32 bits written out.
    - C [double] values are binary64 primitive floats.
    - Heap objects ([struct cwc_container], [struct cwc_toplevel],
      [struct bsp_node]) live in arenas indexed by their address (a [nat]);
      a dereference of a pointer that is [NULL] or not in the arena, a failed
      [cwc_assert] and an access past the end of an array make the operation
      return [None].
    - The functions that follow parent / child pointers of the BSP tree
      recursively take a [fuel] argument and return [None] when it runs out.
    - One output is modelled; every container of the model lives on it. *)

From Stdlib Require Import ZArith Floats Lia Bool.
From stdpp Require Import base option list gmap.

Local Open Scope Z_scope.

(** ** C doubles *)

Module CDouble.

Definition INT_MIN : Z := - 2 ^ 31.
Definition INT_MAX : Z := 2 ^ 31 - 1.

(** [(double)z] for an [int] z: exact, an int has at most 31 bits. *)
Definition of_int (z : Z) : float :=
  if z <? 0 then PrimFloat.opp (PrimFloat.of_uint63 (Uint63.of_Z (- z)))
  else PrimFloat.of_uint63 (Uint63.of_Z z).

(** [(int)f]: truncation toward zero.  Out of range, infinite and NaN
    arguments are undefined in C; they give [INT_MIN] as the x86-64
    conversion instruction does. *)
Definition to_int (f : float) : Z :=
  match Prim2SF f with
  | S754_zero _ => 0
  | S754_finite sign m e =>
      let mag := if 0 <=? e then Z.shiftl (Z.pos m) e
                 else Z.shiftr (Z.pos m) (- e) in
      let v := if sign then - mag else mag in
      if (INT_MIN <=? v) && (v <=? INT_MAX) then v else INT_MIN
  | _ => INT_MIN
  end.

(** [int r = i * d;] with [int i] and [double d]. *)
Definition int_mul_double (i : Z) (d : float) : Z :=
  to_int (PrimFloat.mul (of_int i) d).

Definition d0_5 : float := 0.5%float.

End CDouble.

(** ** Layout: containers, BSP tree, master/stack *)

Module Layout.

(** Addresses of containers, toplevels and BSP nodes in their arenas. *)
Abbreviation container_id := nat (only parsing).
Abbreviation toplevel_id := nat (only parsing).
Abbreviation node_id := nat (only parsing).

(** *** include/cwc/types.h *)

Definition MIN_WIDTH : Z := 20.
Definition MAX_WORKSPACE : Z := 30.

Record wlr_box := mk_box {
  box_x : Z; box_y : Z; box_width : Z; box_height : Z }.

Inductive cwc_data_type := DATA_TYPE_XDG_SHELL | DATA_TYPE_XWAYLAND.

Inductive cwc_layout_mode :=
  CWC_LAYOUT_FLOATING | CWC_LAYOUT_MASTER | CWC_LAYOUT_BSP.

Record bsp_root_entry := mk_entry {
  root : option node_id;               (* NULL indicate empty bsp *)
  last_focused : option container_id }.

(** The built-in master/stack strategies ([layout_interface.arrange]). *)
Inductive layout_interface := LAYOUT_TILE | LAYOUT_MONOCLE.

Record master_state := mk_master {
  master_count : Z;
  column_count : Z;
  mwfact : float;
  current_layout : layout_interface }.

Record cwc_view_info := mk_view {
  layout_mode : cwc_layout_mode;
  useless_gaps : Z;
  vi_bsp_root_entry : bsp_root_entry;
  vi_master_state : master_state }.

(** *** include/cwc/layout/bsp.h *)

Inductive bsp_node_type := BSP_NODE_INTERNAL | BSP_NODE_LEAF.

Inductive bsp_split_type :=
  BSP_SPLIT_AUTO | BSP_SPLIT_VERTICAL | BSP_SPLIT_HORIZONTAL.

Record bsp_node := mk_node {
  n_type : bsp_node_type;
  n_container : option container_id;   (* leaf *)
  n_parent : option node_id;           (* NULL parent indicates root *)
  n_left : option node_id;
  n_right : option node_id;
  n_enabled : bool;
  n_split_type : bsp_split_type;
  n_left_wfact : float;
  n_x : Z; n_y : Z;
  n_width : Z; n_height : Z }.

(** *** include/cwc/layout/container.h *)

Definition CONTAINER_STATE_UNMANAGED : Z := Z.shiftl 1 0.
Definition CONTAINER_STATE_FLOATING : Z := Z.shiftl 1 1.
Definition CONTAINER_STATE_MINIMIZED : Z := Z.shiftl 1 2.
Definition CONTAINER_STATE_MAXIMIZED : Z := Z.shiftl 1 3.
Definition CONTAINER_STATE_FULLSCREEN : Z := Z.shiftl 1 4.
Definition CONTAINER_STATE_STICKY : Z := Z.shiftl 1 5.

Definition uint32 (z : Z) : Z := z mod 2 ^ 32.

(** [state |= mask], [state &= ~mask] and [state & mask] on a
    [container_state_bitfield_t]. *)
Definition state_set (st mask : Z) : Z := uint32 (Z.lor st mask).
Definition state_clear (st mask : Z) : Z := Z.land st (uint32 (Z.lnot mask)).
Definition state_test (st mask : Z) : bool := negb (Z.land st mask =? 0).

Record cwc_border := mk_border {
  b_thickness : Z;
  b_width : Z; b_height : Z;
  b_enabled : bool;
  b_valid : bool   (* is_border_valid: the four buffers are allocated *) }.

Record cwc_container := mk_container {
  c_x : Z; c_y : Z;                    (* tree->node.x, tree->node.y *)
  c_width : Z; c_height : Z;
  c_floating_box : wlr_box;
  c_state : Z;
  c_tag : Z;
  c_workspace : Z;
  c_bsp_node : option node_id;
  c_toplevels : list toplevel_id;      (* wl_list, head first *)
  c_tree_children : list toplevel_id;  (* scene order, bottom to top *)
  c_border : cwc_border }.

(** What the model keeps of a toplevel: its kind, the client data the
    layout code reads, and the size last sent to the client by
    [cwc_toplevel_set_size]. *)
Record cwc_toplevel := mk_toplevel {
  t_type : cwc_data_type;
  t_override_redirect : bool;
  t_container : option container_id;
  t_geometry : wlr_box;
  t_min_width : Z; t_min_height : Z;
  t_max_width : Z; t_max_height : Z;
  t_has_parent : bool;
  t_modal : bool;
  t_wants_fullscreen : bool;
  t_wants_maximized : bool;
  t_wants_minimized : bool;
  t_conf_width : Z; t_conf_height : Z }.

(** *** include/cwc/desktop/output.h *)

Record cwc_output := mk_output {
  usable_area : wlr_box;
  wlr_output_width : Z; wlr_output_height : Z;
  active_tag : Z;
  active_workspace : Z;
  view_info : Z -> cwc_view_info;
  o_containers : list container_id;    (* state->containers, head first *)
  o_minimized : list container_id }.

Record server := mk_server {
  containers : list cwc_container;
  toplevels : list cwc_toplevel;
  bsp_nodes : list bsp_node;
  output : cwc_output;
  config_border_width : Z }.

(** *** Field updates *)

Definition with_containers (s : server) (cs : list cwc_container) : server :=
  mk_server cs (toplevels s) (bsp_nodes s) (output s) (config_border_width s).
Definition with_toplevels (s : server) (ts : list cwc_toplevel) : server :=
  mk_server (containers s) ts (bsp_nodes s) (output s) (config_border_width s).
Definition with_bsp_nodes (s : server) (ns : list bsp_node) : server :=
  mk_server (containers s) (toplevels s) ns (output s) (config_border_width s).
Definition with_output (s : server) (o : cwc_output) : server :=
  mk_server (containers s) (toplevels s) (bsp_nodes s) o (config_border_width s).

Definition modify_container (c : container_id)
    (f : cwc_container -> cwc_container) (s : server) : option server :=
  cont ← containers s !! c;
  Some (with_containers s (<[c := f cont]> (containers s))).

Definition modify_toplevel (t : toplevel_id)
    (f : cwc_toplevel -> cwc_toplevel) (s : server) : option server :=
  top ← toplevels s !! t;
  Some (with_toplevels s (<[t := f top]> (toplevels s))).

Definition modify_node (n : node_id)
    (f : bsp_node -> bsp_node) (s : server) : option server :=
  nd ← bsp_nodes s !! n;
  Some (with_bsp_nodes s (<[n := f nd]> (bsp_nodes s))).

Definition c_set_position (x y : Z) (c : cwc_container) : cwc_container :=
  mk_container x y (c_width c) (c_height c) (c_floating_box c) (c_state c)
    (c_tag c) (c_workspace c) (c_bsp_node c) (c_toplevels c)
    (c_tree_children c) (c_border c).
Definition c_set_dims (w h : Z) (c : cwc_container) : cwc_container :=
  mk_container (c_x c) (c_y c) w h (c_floating_box c) (c_state c)
    (c_tag c) (c_workspace c) (c_bsp_node c) (c_toplevels c)
    (c_tree_children c) (c_border c).
Definition c_set_floating_box (b : wlr_box) (c : cwc_container) : cwc_container :=
  mk_container (c_x c) (c_y c) (c_width c) (c_height c) b (c_state c)
    (c_tag c) (c_workspace c) (c_bsp_node c) (c_toplevels c)
    (c_tree_children c) (c_border c).
Definition c_set_state (st : Z) (c : cwc_container) : cwc_container :=
  mk_container (c_x c) (c_y c) (c_width c) (c_height c) (c_floating_box c) st
    (c_tag c) (c_workspace c) (c_bsp_node c) (c_toplevels c)
    (c_tree_children c) (c_border c).
Definition c_set_tag_workspace (tg ws : Z) (c : cwc_container) : cwc_container :=
  mk_container (c_x c) (c_y c) (c_width c) (c_height c) (c_floating_box c)
    (c_state c) tg ws (c_bsp_node c) (c_toplevels c)
    (c_tree_children c) (c_border c).
Definition c_set_bsp_node (n : option node_id) (c : cwc_container) : cwc_container :=
  mk_container (c_x c) (c_y c) (c_width c) (c_height c) (c_floating_box c)
    (c_state c) (c_tag c) (c_workspace c) n (c_toplevels c)
    (c_tree_children c) (c_border c).
Definition c_set_border (b : cwc_border) (c : cwc_container) : cwc_container :=
  mk_container (c_x c) (c_y c) (c_width c) (c_height c) (c_floating_box c)
    (c_state c) (c_tag c) (c_workspace c) (c_bsp_node c) (c_toplevels c)
    (c_tree_children c) b.

Definition t_set_conf_size (w h : Z) (t : cwc_toplevel) : cwc_toplevel :=
  mk_toplevel (t_type t) (t_override_redirect t) (t_container t)
    (t_geometry t) (t_min_width t) (t_min_height t) (t_max_width t)
    (t_max_height t) (t_has_parent t) (t_modal t) (t_wants_fullscreen t)
    (t_wants_maximized t) (t_wants_minimized t) w h.
Definition t_set_container (c : option container_id) (t : cwc_toplevel)
    : cwc_toplevel :=
  mk_toplevel (t_type t) (t_override_redirect t) c
    (t_geometry t) (t_min_width t) (t_min_height t) (t_max_width t)
    (t_max_height t) (t_has_parent t) (t_modal t) (t_wants_fullscreen t)
    (t_wants_maximized t) (t_wants_minimized t)
    (t_conf_width t) (t_conf_height t).

Definition n_set_position (x y : Z) (n : bsp_node) : bsp_node :=
  mk_node (n_type n) (n_container n) (n_parent n) (n_left n) (n_right n)
    (n_enabled n) (n_split_type n) (n_left_wfact n) x y
    (n_width n) (n_height n).
Definition n_set_size (w h : Z) (n : bsp_node) : bsp_node :=
  mk_node (n_type n) (n_container n) (n_parent n) (n_left n) (n_right n)
    (n_enabled n) (n_split_type n) (n_left_wfact n) (n_x n) (n_y n) w h.
Definition n_set_enabled (e : bool) (n : bsp_node) : bsp_node :=
  mk_node (n_type n) (n_container n) (n_parent n) (n_left n) (n_right n)
    e (n_split_type n) (n_left_wfact n) (n_x n) (n_y n)
    (n_width n) (n_height n).
Definition n_set_parent (p : option node_id) (n : bsp_node) : bsp_node :=
  mk_node (n_type n) (n_container n) p (n_left n) (n_right n)
    (n_enabled n) (n_split_type n) (n_left_wfact n) (n_x n) (n_y n)
    (n_width n) (n_height n).
Definition n_set_children (l r : option node_id) (n : bsp_node) : bsp_node :=
  mk_node (n_type n) (n_container n) (n_parent n) l r
    (n_enabled n) (n_split_type n) (n_left_wfact n) (n_x n) (n_y n)
    (n_width n) (n_height n).
Definition n_set_left_wfact (f : float) (n : bsp_node) : bsp_node :=
  mk_node (n_type n) (n_container n) (n_parent n) (n_left n) (n_right n)
    (n_enabled n) (n_split_type n) f (n_x n) (n_y n)
    (n_width n) (n_height n).

Definition o_set_view_info (vi : Z -> cwc_view_info) (o : cwc_output)
    : cwc_output :=
  mk_output (usable_area o) (wlr_output_width o) (wlr_output_height o)
    (active_tag o) (active_workspace o) vi (o_containers o) (o_minimized o).
Definition o_set_containers (cs : list container_id) (o : cwc_output)
    : cwc_output :=
  mk_output (usable_area o) (wlr_output_width o) (wlr_output_height o)
    (active_tag o) (active_workspace o) (view_info o) cs (o_minimized o).
Definition o_set_minimized (cs : list container_id) (o : cwc_output)
    : cwc_output :=
  mk_output (usable_area o) (wlr_output_width o) (wlr_output_height o)
    (active_tag o) (active_workspace o) (view_info o) (o_containers o) cs.

Definition vi_set_bsp_root_entry (e : bsp_root_entry) (v : cwc_view_info)
    : cwc_view_info :=
  mk_view (layout_mode v) (useless_gaps v) e (vi_master_state v).

(** [view_info[ws].bsp_root_entry = e] *)
Definition set_bsp_root_entry (ws : Z) (e : bsp_root_entry) (s : server)
    : server :=
  with_output s
    (o_set_view_info
       (fun w => if Z.eq_dec w ws
                 then vi_set_bsp_root_entry e (view_info (output s) ws)
                 else view_info (output s) w)
       (output s)).

(** *** Container predicates (container.h, container.c) *)

Definition cwc_container_is_unmanaged (c : cwc_container) : bool :=
  state_test (c_state c) CONTAINER_STATE_UNMANAGED.
Definition cwc_container_is_minimized (c : cwc_container) : bool :=
  state_test (c_state c) CONTAINER_STATE_MINIMIZED.
Definition cwc_container_is_maximized (c : cwc_container) : bool :=
  state_test (c_state c) CONTAINER_STATE_MAXIMIZED.
Definition cwc_container_is_fullscreen (c : cwc_container) : bool :=
  state_test (c_state c) CONTAINER_STATE_FULLSCREEN.
Definition cwc_container_is_sticky (c : cwc_container) : bool :=
  state_test (c_state c) CONTAINER_STATE_STICKY.

Definition cwc_container_is_configure_allowed (c : cwc_container) : bool :=
  negb (cwc_container_is_fullscreen c) && negb (cwc_container_is_maximized c).

Definition cwc_output_get_current_view_info (o : cwc_output) : cwc_view_info :=
  view_info o (active_workspace o).

Definition layout_mode_eqb (a b : cwc_layout_mode) : bool :=
  match a, b with
  | CWC_LAYOUT_FLOATING, CWC_LAYOUT_FLOATING
  | CWC_LAYOUT_MASTER, CWC_LAYOUT_MASTER
  | CWC_LAYOUT_BSP, CWC_LAYOUT_BSP => true
  | _, _ => false
  end.

Definition cwc_output_is_current_layout_bsp (o : cwc_output) : bool :=
  layout_mode_eqb (layout_mode (cwc_output_get_current_view_info o))
    CWC_LAYOUT_BSP.

Definition cwc_container_is_floating (s : server) (c : cwc_container) : bool :=
  state_test (c_state c) CONTAINER_STATE_FLOATING
  || layout_mode_eqb
       (layout_mode (cwc_output_get_current_view_info (output s)))
       CWC_LAYOUT_FLOATING.

Definition cwc_container_should_save_floating_box (s : server)
    (c : cwc_container) : bool :=
  cwc_container_is_floating s c
  && negb (cwc_container_is_fullscreen c)
  && negb (cwc_container_is_maximized c).

Definition cwc_container_is_visible (s : server) (c : cwc_container) : bool :=
  if cwc_container_is_sticky c then true
  else if (active_workspace (output s) =? 0)
          || (active_tag (output s) =? 0)
          || cwc_container_is_minimized c then false
  else (active_workspace (output s) =? c_workspace c)
       || negb (Z.land (active_tag (output s)) (c_tag c) =? 0).

Definition cwc_container_get_box (c : cwc_container) : wlr_box :=
  mk_box (c_x c) (c_y c) (c_width c) (c_height c).

Definition cwc_container_get_front_toplevel (c : cwc_container)
    : option toplevel_id :=
  last (c_tree_children c).

(** *** Border *)

Definition cwc_border_get_thickness (b : cwc_border) : Z :=
  if b_enabled b then b_thickness b else 0.

Definition cwc_border_init (rect_w rect_h thickness : Z) : cwc_border :=
  if thickness =? 0 then mk_border 0 0 0 false false
  else mk_border thickness rect_w rect_h true true.

Definition cwc_border_set_enabled (b : cwc_border) (enabled : bool)
    : cwc_border :=
  if b_valid b
  then mk_border (b_thickness b) (b_width b) (b_height b) enabled true
  else b.

Definition cwc_border_resize (b : cwc_border) (rect_w rect_h : Z)
    : cwc_border :=
  if b_valid b
  then mk_border (b_thickness b) rect_w rect_h (b_enabled b) true
  else b.

(** *** Toplevel helpers (toplevel.h) *)

Definition cwc_toplevel_is_x11 (t : cwc_toplevel) : bool :=
  match t_type t with DATA_TYPE_XWAYLAND => true | _ => false end.

Definition cwc_toplevel_is_unmanaged (t : cwc_toplevel) : bool :=
  if cwc_toplevel_is_x11 t then t_override_redirect t else false.

(** [toplevel->container], dereferenced *)
Definition toplevel_container (s : server) (t : cwc_toplevel)
    : option (container_id * cwc_container) :=
  c ← t_container t; cont ← containers s !! c; Some (c, cont).

(** *** Size and position (container.c) *)

Definition all_toplevel_set_size (t : toplevel_id) (box : Z * Z) (s : server)
    : option ((Z * Z) * server) :=
  top ← toplevels s !! t;
  surf ← (if cwc_toplevel_is_x11 top then Some box
          else
            '(_, cont) ← toplevel_container s top;
            (* when floating we respect the min width *)
            Some (if cwc_container_is_floating s cont
                  then (Z.max (fst box) (t_min_width top),
                        Z.max (snd box) (t_min_height top))
                  else box));
  s ← modify_toplevel t (t_set_conf_size (fst surf) (snd surf)) s;
  Some (surf, s).

Fixpoint cwc_container_for_each_bottom_to_top (ts : list toplevel_id)
    (box : Z * Z) (s : server) : option ((Z * Z) * server) :=
  match ts with
  | [] => Some (box, s)
  | t :: ts' =>
      '(box, s) ← all_toplevel_set_size t box s;
      cwc_container_for_each_bottom_to_top ts' box s
  end.

Definition cwc_container_set_size (c : container_id) (w h : Z) (s : server)
    : option server :=
  cont ← containers s !! c;
  let gaps := useless_gaps (cwc_output_get_current_view_info (output s)) in
  let bw := cwc_border_get_thickness (c_border cont) in
  let outside_width := (bw + gaps) * 2 in
  let surface_w := Z.max (w - outside_width) MIN_WIDTH in
  let surface_h := Z.max (h - outside_width) MIN_WIDTH in
  '(rect, s) ← cwc_container_for_each_bottom_to_top (c_tree_children cont)
                 (surface_w, surface_h) s;
  s ← modify_container c (fun cont =>
        c_set_border
          (cwc_border_resize (c_border cont) (fst rect + bw * 2)
             (snd rect + bw * 2)) cont) s;
  s ← modify_container c (fun cont =>
        if cwc_container_should_save_floating_box s cont
        then c_set_floating_box
               (mk_box (box_x (c_floating_box cont))
                  (box_y (c_floating_box cont)) w h) cont
        else cont) s;
  modify_container c (c_set_dims w h) s.

Definition cwc_container_set_position (c : container_id) (x y : Z)
    (s : server) : option server :=
  s ← modify_container c (c_set_position x y) s;
  modify_container c (fun cont =>
    if cwc_container_should_save_floating_box s cont
    then c_set_floating_box
           (mk_box x y (box_width (c_floating_box cont))
              (box_height (c_floating_box cont))) cont
    else cont) s.

Definition cwc_container_set_position_gap (c : container_id) (x y : Z)
    (s : server) : option server :=
  let gaps := useless_gaps (cwc_output_get_current_view_info (output s)) in
  cwc_container_set_position c (x + gaps) (y + gaps) s.

Definition cwc_container_restore_floating_box (c : container_id) (s : server)
    : option server :=
  cont ← containers s !! c;
  let float_box := c_floating_box cont in
  s ← cwc_container_set_position c (box_x float_box) (box_y float_box) s;
  (* float_box is a pointer into the container: its width and height are
     read after the position was stored *)
  cont ← containers s !! c;
  cwc_container_set_size c (box_width (c_floating_box cont))
    (box_height (c_floating_box cont)) s.

Definition cwc_container_to_center (c : container_id) (s : server)
    : option server :=
  cont ← containers s !! c;
  if negb (cwc_container_is_configure_allowed cont) then Some s
  else
    let ua := usable_area (output s) in
    let x := Z.quot (box_width ua) 2 - Z.quot (c_width cont) 2 in
    let y := Z.quot (box_height ua) 2 - Z.quot (c_height cont) 2 in
    let x := if x <? box_x ua then box_x ua else x in
    let y := if y <? box_y ua then box_y ua else y in
    cwc_container_set_position c x y s.

(** toplevel.c *)
Definition cwc_toplevel_set_size_surface (t : toplevel_id) (w h : Z)
    (s : server) : option server :=
  top ← toplevels s !! t;
  '(c, cont) ← toplevel_container s top;
  let gaps := useless_gaps (cwc_output_get_current_view_info (output s)) in
  let outside_width := (cwc_border_get_thickness (c_border cont) + gaps) * 2 in
  cwc_container_set_size c (w + outside_width) (h + outside_width) s.

Definition cwc_toplevel_set_position (t : toplevel_id) (x y : Z) (s : server)
    : option server :=
  top ← toplevels s !! t;
  '(c, cont) ← toplevel_container s top;
  let bw := cwc_border_get_thickness (c_border cont) in
  cwc_container_set_position c (x - bw) (y - bw) s.

(** *** Binary space partition (bsp.c) *)

Definition bsp_entry_get (s : server) (ws : Z) : option bsp_root_entry :=
  let entry := vi_bsp_root_entry (view_info (output s) ws) in
  match root entry with
  | None => None
  | Some _ => Some entry
  end.

Definition bsp_node_leaf_configure (node : node_id) (x y width height : Z)
    (s : server) : option server :=
  nd ← bsp_nodes s !! node;
  c ← n_container nd;
  cont ← containers s !! c;
  if negb (cwc_container_is_configure_allowed cont) then Some s
  else
    (* set size first so that the floating box not save the new x y *)
    s ← (if negb (cwc_container_is_floating s cont)
         then s ← cwc_container_set_size c width height s;
              cwc_container_set_position_gap c x y s
         else Some s);
    s ← modify_node node (n_set_position x y) s;
    modify_node node (n_set_size width height) s.

Fixpoint bsp_update_node (fuel : nat) (parent : node_id) (s : server)
    : option server :=
  match fuel with
  | O => None
  | S fuel =>
      p ← bsp_nodes s !! parent;
      left_ ← n_left p;
      right_ ← n_right p;
      s ← modify_node left_ (n_set_position (n_x p) (n_y p)) s;
      (* calculate width and height for left and right according to left
         width factor *)
      s ← match n_split_type p with
          | BSP_SPLIT_VERTICAL =>
              s ← modify_node left_
                    (n_set_size
                       (CDouble.int_mul_double (n_width p) (n_left_wfact p))
                       (n_height p)) s;
              l ← bsp_nodes s !! left_;
              s ← modify_node right_
                    (n_set_size (n_width p - n_width l) (n_height p)) s;
              modify_node right_ (n_set_position (n_x l + n_width l) (n_y l)) s
          | BSP_SPLIT_HORIZONTAL =>
              s ← modify_node left_
                    (n_set_size (n_width p)
                       (CDouble.int_mul_double (n_height p) (n_left_wfact p)))
                    s;
              l ← bsp_nodes s !! left_;
              s ← modify_node right_
                    (n_set_size (n_width p) (n_height p - n_height l)) s;
              modify_node right_ (n_set_position (n_x l) (n_y l + n_height l)) s
          | BSP_SPLIT_AUTO => None   (* unreachable_() *)
          end;
      r ← bsp_nodes s !! right_;
      s ← (if negb (n_enabled r)
           then modify_node left_ (n_set_size (n_width p) (n_height p)) s
           else Some s);
      l ← bsp_nodes s !! left_;
      s ← (if n_enabled l then
             match n_type l with
             | BSP_NODE_LEAF =>
                 bsp_node_leaf_configure left_ (n_x p) (n_y p)
                   (n_width l) (n_height l) s
             | BSP_NODE_INTERNAL =>
                 s ← modify_node left_ (n_set_position (n_x p) (n_y p)) s;
                 bsp_update_node fuel left_ s
             end
           else
             s ← modify_node right_ (n_set_position (n_x p) (n_y p)) s;
             modify_node right_ (n_set_size (n_width p) (n_height p)) s);
      r ← bsp_nodes s !! right_;
      if n_enabled r then
        match n_type r with
        | BSP_NODE_LEAF =>
            bsp_node_leaf_configure right_ (n_x r) (n_y r)
              (n_width r) (n_height r) s
        | BSP_NODE_INTERNAL => bsp_update_node fuel right_ s
        end
      else Some s
  end.

Definition bsp_update_root (fuel : nat) (ws : Z) (s : server)
    : option server :=
  match bsp_entry_get s ws with
  | None => Some s
  | Some entry =>
      r ← root entry;
      nd ← bsp_nodes s !! r;
      let ua := usable_area (output s) in
      match n_type nd with
      | BSP_NODE_LEAF =>
          bsp_node_leaf_configure r (box_x ua) (box_y ua)
            (box_width ua) (box_height ua) s
      | BSP_NODE_INTERNAL =>
          s ← modify_node r (n_set_size (box_width ua) (box_height ua)) s;
          s ← modify_node r (n_set_position (box_x ua) (box_y ua)) s;
          bsp_update_node fuel r s
      end
  end.

(** enable all the node until root *)
Fixpoint _bsp_node_enable (fuel : nat) (node : node_id) (s : server)
    : option (node_id * server) :=
  match fuel with
  | O => None
  | S fuel =>
      s ← modify_node node (n_set_enabled true) s;
      nd ← bsp_nodes s !! node;
      match n_parent nd with
      | None => Some (node, s)
      | Some p => _bsp_node_enable fuel p s
      end
  end.

Definition bsp_node_enable (fuel : nat) (node : node_id) (s : server)
    : option server :=
  '(r, s) ← _bsp_node_enable fuel node s;
  nd ← bsp_nodes s !! r;
  match n_type nd with
  | BSP_NODE_INTERNAL => bsp_update_node fuel r s
  | BSP_NODE_LEAF =>
      c ← n_container nd;
      _ ← containers s !! c;
      bsp_update_root fuel (active_workspace (output s)) s
  end.

(** recursively disabled node if no one in the child node is enabled *)
Fixpoint _bsp_node_disable (fuel : nat) (node : node_id) (s : server)
    : option (node_id * server) :=
  match fuel with
  | O => None
  | S fuel =>
      s ← modify_node node (n_set_enabled false) s;
      nd ← bsp_nodes s !! node;
      match n_parent nd with
      | None => Some (node, s)
      | Some parent =>
          p ← bsp_nodes s !! parent;
          left_ ← n_left p; l ← bsp_nodes s !! left_;
          right_ ← n_right p; r ← bsp_nodes s !! right_;
          (* if both left and right_ is disabled then also disabled parent *)
          if negb (n_enabled l) && negb (n_enabled r)
          then _bsp_node_disable fuel parent s
          else Some (node, s)
      end
  end.

Definition bsp_node_disable (fuel : nat) (node : node_id) (s : server)
    : option server :=
  '(last_updated, s) ← _bsp_node_disable fuel node s;
  nd ← bsp_nodes s !! last_updated;
  match n_type nd, n_parent nd with
  | BSP_NODE_INTERNAL, Some parent => bsp_update_node fuel parent s
  | BSP_NODE_INTERNAL, None => Some s
  | BSP_NODE_LEAF, _ =>
      c ← n_container nd;
      _ ← containers s !! c;
      bsp_update_root fuel (active_workspace (output s)) s
  end.

Definition bsp_node_internal_create (parent : option node_id)
    (x y width height : Z) (split : bsp_split_type) : bsp_node :=
  mk_node BSP_NODE_INTERNAL None parent None None true split
    CDouble.d0_5 x y width height.

Definition bsp_node_leaf_create (parent : option node_id)
    (container : container_id) : bsp_node :=
  mk_node BSP_NODE_LEAF (Some container) parent None None true
    BSP_SPLIT_AUTO 0%float 0 0 0 0.

(** [calloc]: the new node gets the next free address of the arena. *)
Definition alloc_node (nd : bsp_node) (s : server) : node_id * server :=
  (length (bsp_nodes s), with_bsp_nodes s (bsp_nodes s ++ [nd])).

Definition node_id_eqb (a b : option node_id) : bool :=
  match a, b with
  | Some x, Some y => Nat.eqb x y
  | None, None => true
  | _, _ => false
  end.

Definition _bsp_insert_toplevel (fuel : nat) (ws : Z)
    (root_entry : bsp_root_entry) (sibling new : container_id) (s : server)
    : option server :=
  sib ← containers s !! sibling;
  left_ ← c_bsp_node sib;
  l ← bsp_nodes s !! left_;
  let old_geom := mk_box (n_x l) (n_y l) (n_width l) (n_height l) in
  let split := if box_height old_geom <=? box_width old_geom
               then BSP_SPLIT_VERTICAL else BSP_SPLIT_HORIZONTAL in
  (* parent internal node *)
  let '(parent_node, s) :=
    alloc_node (bsp_node_internal_create (n_parent l) (box_x old_geom)
                  (box_y old_geom) (box_width old_geom)
                  (box_height old_geom) split) s in
  (* set parent_tree to root if the sibling is the root *)
  s ← (if node_id_eqb (Some left_) (root root_entry) then
         let ua := usable_area (output s) in
         s ← modify_node parent_node (n_set_position (box_x ua) (box_y ua)) s;
         s ← modify_node parent_node
               (n_set_size (box_width ua) (box_height ua)) s;
         s ← modify_node parent_node (n_set_left_wfact CDouble.d0_5) s;
         Some (set_bsp_root_entry ws
                 (mk_entry (Some parent_node) (last_focused root_entry)) s)
       else Some s);
  let '(right_, s) := alloc_node (bsp_node_leaf_create (Some parent_node) new) s in
  s ← modify_container new (c_set_bsp_node (Some right_)) s;
  (* reparent *)
  s ← modify_node left_ (n_set_parent (Some parent_node)) s;
  s ← modify_node parent_node (n_set_children (Some left_) (Some right_)) s;
  p ← bsp_nodes s !! parent_node;
  (* update grandparent left/rigth node to point to new parent *)
  s ← match n_parent p with
      | Some grandparent_node =>
          g ← bsp_nodes s !! grandparent_node;
          if node_id_eqb (n_left g) (Some left_)
          then modify_node grandparent_node
                 (fun g => n_set_children (Some parent_node) (n_right g) g) s
          else if node_id_eqb (n_right g) (Some left_)
          then modify_node grandparent_node
                 (fun g => n_set_children (n_left g) (Some parent_node) g) s
          else None   (* unreachable_() *)
      | None => Some s
      end;
  bsp_node_enable fuel right_ s.

Definition bsp_insert_container (fuel : nat) (new : container_id) (ws : Z)
    (s : server) : option server :=
  cont ← containers s !! new;
  match c_bsp_node cont with
  | Some _ => None   (* cwc_assert: toplevel already has bsp node *)
  | None =>
      s ← modify_container new (fun c =>
            c_set_state (state_clear (c_state c) CONTAINER_STATE_FLOATING) c) s;
      s ← match bsp_entry_get s ws with
          | None =>
              (* init root entry if not yet *)
              let '(leaf, s) := alloc_node (bsp_node_leaf_create None new) s in
              s ← modify_container new (c_set_bsp_node (Some leaf)) s;
              let s := set_bsp_root_entry ws
                         (mk_entry (Some leaf)
                            (last_focused
                               (vi_bsp_root_entry (view_info (output s) ws))))
                         s in
              cont ← containers s !! new;
              bsp_update_root fuel (c_workspace cont) s
          | Some root_entry =>
              sibling ← last_focused root_entry;
              _bsp_insert_toplevel fuel ws root_entry sibling new s
          end;
      (* update_last_focused: root_entry->last_focused = new *)
      Some (set_bsp_root_entry ws
              (mk_entry (root (vi_bsp_root_entry (view_info (output s) ws)))
                 (Some new)) s)
  end.

(** *** Master / stack (master.c) *)

Definition toplevel_container_id (s : server) (t : toplevel_id)
    : option container_id :=
  top ← toplevels s !! t; t_container top.

Definition option_nat_eqb (a b : option nat) : bool :=
  match a, b with
  | Some x, Some y => Nat.eqb x y
  | None, None => true
  | _, _ => false
  end.

(** toplevel.c, toplevel.h *)
Definition cwc_toplevel_is_visible (s : server) (t : toplevel_id)
    : option bool :=
  top ← toplevels s !! t;
  '(_, cont) ← toplevel_container s top;
  Some (cwc_container_is_visible s cont
        && option_nat_eqb (cwc_container_get_front_toplevel cont) (Some t)).

Definition cwc_toplevel_is_tileable (s : server) (t : toplevel_id)
    : option bool :=
  top ← toplevels s !! t;
  '(_, cont) ← toplevel_container s top;
  visible ← cwc_toplevel_is_visible s t;
  Some (visible
        && negb (cwc_container_is_floating s cont)
        && negb (cwc_container_is_fullscreen cont)
        && negb (cwc_container_is_maximized cont)
        && negb (cwc_toplevel_is_unmanaged top)).

(** [struct cwc_toplevel *tiled_visible[50]]: reading an entry gives the
    toplevel it points to; a [NULL] entry cannot be dereferenced and an
    index past the array is out of bounds. *)
Definition TILED_VISIBLE_LEN : nat := 50.

Definition array_get (buf : list (option toplevel_id)) (i : nat)
    : option toplevel_id :=
  mjoin (buf !! i).

Definition array_set (buf : list (option toplevel_id)) (i : nat)
    (t : toplevel_id) : option (list (option toplevel_id)) :=
  if decide (i < length buf)%nat then Some (<[i := Some t]> buf) else None.

(** monocle layout *)
Fixpoint arrange_monocle (toplevels_ : list (option toplevel_id)) (s : server)
    : option server :=
  match toplevels_ with
  | [] => None            (* the scan ran past the end of the array *)
  | None :: _ => Some s
  | Some t :: rest =>
      c ← toplevel_container_id s t;
      let ua := usable_area (output s) in
      s ← cwc_container_set_position_gap c (box_x ua) (box_y ua) s;
      s ← cwc_container_set_size c (box_width ua) (box_height ua) s;
      arrange_monocle rest s
  end.

(** The [for (int i = 1; i < (len - 1); ++i)] loop of [arrange_tile], with
    [k] iterations left. *)
Fixpoint arrange_tile_rows (k : nat) (i : nat)
    (toplevels_ : list (option toplevel_id))
    (sec_width sec_height master_width usable_y height_used : Z) (s : server)
    : option (Z * server) :=
  match k with
  | O => Some (height_used, s)
  | S k =>
      t ← array_get toplevels_ i;
      c ← toplevel_container_id s t;
      s ← cwc_container_set_size c sec_width sec_height s;
      s ← cwc_container_set_position_gap c master_width
            (height_used + usable_y) s;
      arrange_tile_rows k (S i) toplevels_ sec_width sec_height master_width
        usable_y (height_used + sec_height) s
  end.

(** tile layout *)
Definition arrange_tile (toplevels_ : list (option toplevel_id)) (len : nat)
    (ms : master_state) (s : server) : option server :=
  let ua := usable_area (output s) in
  if Nat.eqb len 1 then
    t ← array_get toplevels_ 0;
    c ← toplevel_container_id s t;
    s ← cwc_container_set_size c (box_width ua) (box_height ua) s;
    cwc_container_set_position_gap c (box_x ua) (box_y ua) s
  else
    let master_width := CDouble.int_mul_double (box_width ua) (mwfact ms) in
    let sec_width := box_width ua - master_width in
    t ← array_get toplevels_ 0;
    c ← toplevel_container_id s t;
    s ← cwc_container_set_size c master_width (box_height ua) s;
    s ← cwc_container_set_position_gap c (box_x ua) (box_y ua) s;
    let sec_count := Z.of_nat len - master_count ms in
    if sec_count =? 0 then None   (* integer division by zero *)
    else
      let sec_height := Z.quot (box_height ua) sec_count in
      '(height_used, s) ← arrange_tile_rows (len - 2) 1 toplevels_ sec_width
                            sec_height master_width (box_y ua) 0 s;
      t ← array_get toplevels_ (len - 1);
      c ← toplevel_container_id s t;
      s ← cwc_container_set_size c sec_width (box_height ua - height_used) s;
      cwc_container_set_position_gap c master_width
        (height_used + box_y ua) s.

Definition arrange (l : layout_interface)
    (toplevels_ : list (option toplevel_id)) (len : nat) (ms : master_state)
    (s : server) : option server :=
  match l with
  | LAYOUT_TILE => arrange_tile toplevels_ len ms s
  | LAYOUT_MONOCLE => arrange_monocle toplevels_ s
  end.

(** The [wl_list_for_each] loop of [master_arrange_update] that fills
    [tiled_visible]; [i] is the running index. *)
Fixpoint master_collect (cs : list container_id)
    (tiled_visible : list (option toplevel_id)) (i : nat) (s : server)
    : option (list (option toplevel_id) * nat) :=
  match cs with
  | [] => Some (tiled_visible, i)
  | c :: cs =>
      cont ← containers s !! c;
      front ← cwc_container_get_front_toplevel cont;
      tileable ← cwc_toplevel_is_tileable s front;
      '(tiled_visible, i) ←
        (if (tileable : bool)
         then tv ← array_set tiled_visible i front; Some (tv, S i)
         else Some (tiled_visible, i));
      (* sanity check *)
      if decide (49 < i)%nat then Some (tiled_visible, i)
      else master_collect cs tiled_visible i s
  end.

Definition master_arrange_update (s : server) : option server :=
  let info := cwc_output_get_current_view_info (output s) in
  match layout_mode info with
  | CWC_LAYOUT_MASTER =>
      let state := vi_master_state info in
      '(tiled_visible, i) ← master_collect (o_containers (output s))
                              (replicate TILED_VISIBLE_LEN None) 0 s;
      if decide (1 <= i)%nat
      then arrange (current_layout state) tiled_visible i state s
      else Some s
  | _ => Some s
  end.

(** output.c *)
Definition cwc_output_tiling_layout_update (fuel : nat) (view : Z)
    (s : server) : option server :=
  let mode := layout_mode (cwc_output_get_current_view_info (output s)) in
  let view := if view =? 0 then active_workspace (output s) else view in
  match mode with
  | CWC_LAYOUT_BSP => bsp_update_root fuel view s
  | CWC_LAYOUT_MASTER => master_arrange_update s
  | CWC_LAYOUT_FLOATING => Some s
  end.

(** *** Container state changes (container.c) *)

Definition set_state_bit (c : container_id) (mask : Z) (s : server)
    : option server :=
  modify_container c (fun cont =>
    c_set_state (state_set (c_state cont) mask) cont) s.

Definition clear_state_bit (c : container_id) (mask : Z) (s : server)
    : option server :=
  modify_container c (fun cont =>
    c_set_state (state_clear (c_state cont) mask) cont) s.

Definition cwc_container_set_floating (fuel : nat) (c : container_id)
    (set : bool) (s : server) : option server :=
  cont ← containers s !! c;
  (* don't change the floating state when maximize and fullscreen *)
  if negb (cwc_container_is_configure_allowed cont) then Some s
  else if set then
    s ← cwc_container_restore_floating_box c s;
    s ← match c_bsp_node cont with
        | Some n => bsp_node_disable fuel n s
        | None => Some s
        end;
    s ← set_state_bit c CONTAINER_STATE_FLOATING s;
    cwc_output_tiling_layout_update fuel (c_workspace cont) s
  else if cwc_container_is_floating s cont then
    s ← clear_state_bit c CONTAINER_STATE_FLOATING s;
    s ← match c_bsp_node cont with
        | Some n => bsp_node_enable fuel n s
        | None =>
            if cwc_output_is_current_layout_bsp (output s)
            then bsp_insert_container fuel c (c_workspace cont) s
            else Some s
        end;
    cwc_output_tiling_layout_update fuel (c_workspace cont) s
  else Some s.

Definition cwc_container_set_sticky (c : container_id) (set : bool)
    (s : server) : option server :=
  if set then set_state_bit c CONTAINER_STATE_STICKY s
  else clear_state_bit c CONTAINER_STATE_STICKY s.

Definition all_toplevel_set_fullscreen (set : bool) (t : toplevel_id)
    (s : server) : option server :=
  if set then
    s ← cwc_toplevel_set_size_surface t (wlr_output_width (output s))
          (wlr_output_height (output s)) s;
    cwc_toplevel_set_position t 0 0 s
  else Some s.

Definition all_toplevel_set_maximized (set : bool) (t : toplevel_id)
    (s : server) : option server :=
  if set then
    let ua := usable_area (output s) in
    s ← cwc_toplevel_set_size_surface t (box_width ua) (box_height ua) s;
    cwc_toplevel_set_position t (box_x ua) (box_y ua) s
  else Some s.

Fixpoint cwc_container_for_each_toplevel (ts : list toplevel_id)
    (f : toplevel_id -> server -> option server) (s : server)
    : option server :=
  match ts with
  | [] => Some s
  | t :: ts => s ← f t s; cwc_container_for_each_toplevel ts f s
  end.

(** [cwc_border_set_enabled(&container->border, !set);
     cwc_border_resize(&container->border, container->width,
                       container->height);] *)
Definition update_border_after_state_change (c : container_id) (set : bool)
    (s : server) : option server :=
  s ← modify_container c (fun cont =>
        c_set_border (cwc_border_set_enabled (c_border cont) (negb set)) cont)
        s;
  modify_container c (fun cont =>
    c_set_border
      (cwc_border_resize (c_border cont) (c_width cont) (c_height cont))
      cont) s.

Definition cwc_container_set_fullscreen (fuel : nat) (c : container_id)
    (set : bool) (s : server) : option server :=
  cont ← containers s !! c;
  let bsp_node_ := c_bsp_node cont in
  s ← (if set then
         (* set first so the set_size don't save the fullscreen dimension
            as floating box *)
         s ← set_state_bit c CONTAINER_STATE_FULLSCREEN s;
         s ← clear_state_bit c CONTAINER_STATE_MAXIMIZED s;
         match bsp_node_ with
         | Some n => bsp_node_disable fuel n s
         | None => Some s
         end
       else
         (* set first so bsp is allowing it to configure *)
         s ← clear_state_bit c CONTAINER_STATE_FULLSCREEN s;
         cont ← containers s !! c;
         if cwc_container_is_floating s cont
         then cwc_container_restore_floating_box c s
         else match bsp_node_ with
              | Some n => bsp_node_enable fuel n s
              | None => Some s
              end);
  cont ← containers s !! c;
  s ← cwc_container_for_each_toplevel (c_toplevels cont)
        (all_toplevel_set_fullscreen set) s;
  s ← update_border_after_state_change c set s;
  master_arrange_update s.

Definition cwc_container_set_maximized (fuel : nat) (c : container_id)
    (set : bool) (s : server) : option server :=
  cont ← containers s !! c;
  let bsp_node_ := c_bsp_node cont in
  s ← (if set then
         s ← set_state_bit c CONTAINER_STATE_MAXIMIZED s;
         s ← clear_state_bit c CONTAINER_STATE_FULLSCREEN s;
         match bsp_node_ with
         | Some n => bsp_node_disable fuel n s
         | None => Some s
         end
       else
         s ← clear_state_bit c CONTAINER_STATE_MAXIMIZED s;
         cont ← containers s !! c;
         if cwc_container_is_floating s cont
         then cwc_container_restore_floating_box c s
         else match bsp_node_ with
              | Some n => bsp_node_enable fuel n s
              | None => Some s
              end);
  cont ← containers s !! c;
  s ← cwc_container_for_each_toplevel (c_toplevels cont)
        (all_toplevel_set_maximized set) s;
  s ← update_border_after_state_change c set s;
  master_arrange_update s.

Definition _update_to_current_active_tag_and_worskpace (c : container_id)
    (s : server) : option server :=
  modify_container c
    (c_set_tag_workspace (active_tag (output s))
       (active_workspace (output s))) s.

Definition cwc_container_set_minimized (fuel : nat) (c : container_id)
    (set : bool) (s : server) : option server :=
  cont ← containers s !! c;
  let bsp_node_ := c_bsp_node cont in
  s ← (if set then
         let s := with_output s
                    (o_set_minimized (c :: o_minimized (output s))
                       (output s)) in
         s ← match bsp_node_ with
             | Some n => bsp_node_disable fuel n s
             | None => Some s
             end;
         set_state_bit c CONTAINER_STATE_MINIMIZED s
       else
         s ← clear_state_bit c CONTAINER_STATE_MINIMIZED s;
         let s := with_output s
                    (o_set_minimized
                       (filter (fun x => x ≠ c) (o_minimized (output s)))
                       (output s)) in
         s ← match bsp_node_ with
             | Some n => bsp_node_enable fuel n s
             | None => Some s
             end;
         _update_to_current_active_tag_and_worskpace c s);
  master_arrange_update s.

(** *** Container creation (container.c, toplevel.c) *)

Definition cwc_toplevel_should_float (t : cwc_toplevel) : bool :=
  if cwc_toplevel_is_x11 t then
    if t_modal t then true
    else (0 <? t_min_width t) && (0 <? t_min_height t)
         && ((t_max_width t =? t_min_width t)
             || (t_max_height t =? t_min_height t))
  else
    t_has_parent t
    || (negb (t_min_width t =? 0) && negb (t_min_height t =? 0)
        && ((t_min_width t =? t_max_width t)
            || (t_min_height t =? t_max_height t))).

Definition decide_should_tiled (fuel : nat) (t : toplevel_id)
    (c : container_id) (s : server) : option server :=
  top ← toplevels s !! t;
  tc ← t_container top;
  if t_wants_fullscreen top then cwc_container_set_fullscreen fuel tc true s
  else if t_wants_maximized top then cwc_container_set_maximized fuel tc true s
  else if t_wants_minimized top then cwc_container_set_minimized fuel tc true s
  else if cwc_toplevel_should_float top then
    s ← cwc_container_set_floating fuel tc true s;
    cwc_container_to_center tc s
  else
    cont ← containers s !! c;
    (* setup tiled toplevel *)
    match layout_mode (view_info (output s) (c_workspace cont)) with
    | CWC_LAYOUT_FLOATING => Some s
    | CWC_LAYOUT_MASTER =>
        s ← master_arrange_update s;
        clear_state_bit c CONTAINER_STATE_FLOATING s
    | CWC_LAYOUT_BSP =>
        s ← bsp_insert_container fuel c (c_workspace cont) s;
        clear_state_bit c CONTAINER_STATE_FLOATING s
    end.

Definition cwc_container_init (fuel : nat) (t : toplevel_id) (border_w : Z)
    (s : server) : option server :=
  top ← toplevels s !! t;
  let geom := t_geometry top in
  let width := box_width geom + config_border_width s * 2 in
  let height := box_height geom + config_border_width s * 2 in
  let tag := active_tag (output s) in
  let workspace := active_workspace (output s) in
  (* putting toplevel to 0 will make toplevel hidden *)
  let tag := if tag =? 0 then 1 else tag in
  let workspace := if workspace =? 0 then 1 else workspace in
  let cont :=
    mk_container 0 0 width height (mk_box 0 0 width height) 0 tag workspace
      None [t] [t] (cwc_border_init width height border_w) in
  let c := length (containers s) in
  let s := with_containers s (containers s ++ [cont]) in
  s ← modify_toplevel t (t_set_container (Some c)) s;
  (* init_surf_tree *)
  s ← (if cwc_toplevel_is_x11 top
       then cwc_toplevel_set_position t (box_x geom) (box_y geom) s
       else Some s);
  if cwc_toplevel_is_unmanaged top
  then set_state_bit c CONTAINER_STATE_UNMANAGED s
  else
    let s := with_output s
               (o_set_containers (c :: o_containers (output s)) (output s)) in
    decide_should_tiled fuel t c s.

(** toplevel.c, [on_surface_map] without an insert mark *)
Definition on_surface_map (fuel : nat) (t : toplevel_id) (s : server)
    : option server :=
  top ← toplevels s !! t;
  let bw := config_border_width s in
  cwc_container_init fuel t (if cwc_toplevel_is_unmanaged top then 0 else bw) s.

End Layout.

(** ** Lua [cwc_container] object (objects/container.c) *)

Module LuaContainer.
Import Layout.

(** The table given to the [geometry] setter: a missing field is [nil]. *)
Record geometry_table := mk_geometry_table {
  lua_x : option Z; lua_y : option Z;
  lua_width : option Z; lua_height : option Z }.

Definition luaC_container_set_geometry (c : container_id)
    (tbl : geometry_table) (s : server) : option server :=
  cont ← containers s !! c;
  let box := cwc_container_get_box cont in
  let box := mk_box (default (box_x box) (lua_x tbl))
               (default (box_y box) (lua_y tbl))
               (default (box_width box) (lua_width tbl))
               (default (box_height box) (lua_height tbl)) in
  s ← cwc_container_set_position c (box_x box) (box_y box) s;
  cwc_container_set_size c (box_x box) (box_y box) s.

(** What the documentation of the [geometry] property describes. *)
Definition set_geometry_documented (c : container_id)
    (tbl : geometry_table) (s : server) : option server :=
  cont ← containers s !! c;
  let box := cwc_container_get_box cont in
  let box := mk_box (default (box_x box) (lua_x tbl))
               (default (box_y box) (lua_y tbl))
               (default (box_width box) (lua_width tbl))
               (default (box_height box) (lua_height tbl)) in
  s ← cwc_container_set_position c (box_x box) (box_y box) s;
  cwc_container_set_size c (box_width box) (box_height box) s.

End LuaContainer.

(** ** Key bindings (keybinding.c) and keyboard events (keyboard.c) *)

Module Keybinding.

Inductive cwc_keybind_type := CWC_KEYBIND_TYPE_LUA | CWC_KEYBIND_TYPE_C.

(** A C callback (a function taking [args]) is named by a number; a
    string is named by its address. *)
Record cwc_keybind_info := mk_info {
  kb_type : cwc_keybind_type;
  kb_key : Z;
  luaref_press : Z;
  luaref_release : Z;
  on_press : option nat;
  on_release : option nat;
  kb_args : Z;
  kb_group : option nat;
  kb_description : option nat }.

Definition info_set_key (k : Z) (i : cwc_keybind_info) : cwc_keybind_info :=
  mk_info (kb_type i) k (luaref_press i) (luaref_release i) (on_press i)
    (on_release i) (kb_args i) (kb_group i) (kb_description i).

(** What the code does to the world outside the maps. *)
Inductive effect :=
| LuaCall (ref : Z)                 (* lua_rawgeti; lua_pcall *)
| CCall (fn : nat) (args : Z)
| LuaUnref (ref : Z)                (* luaL_unref *)
| FreeInfo (key : Z)                (* free(info) *)
| FreeString (addr : option nat)    (* free(info->group), ... *)
| IdleNotifyActivity
| SeatSetKeyboard
| SeatNotifyKey (time_msec keycode : Z) (pressed : bool).

Definition uint64 (z : Z) : Z := z mod 2 ^ 64.

Definition keybind_generate_key (modifiers keysym : Z) : Z :=
  Z.lor (uint64 (Z.shiftl modifiers 32)) keysym.

Definition generated_key_get_modifier (genkey : Z) : Z := Z.shiftr genkey 32.
Definition generated_key_get_key (genkey : Z) : Z := Z.land genkey 0xffffffff.

(** The hash map of util-map.c is taken at its interface: a finite map from
    the 64-bit hash of the key bytes to the stored pointer.  The hash
    function belongs to the xxhash library. *)
Section WithHash.
Variable XXH3_64bits : Z -> Z.

Definition cwc_hhmap_nget (map : gmap Z cwc_keybind_info) (key : Z)
    : option cwc_keybind_info :=
  map !! XXH3_64bits key.
Definition cwc_hhmap_ninsert (map : gmap Z cwc_keybind_info) (key : Z)
    (data : cwc_keybind_info) : gmap Z cwc_keybind_info :=
  <[XXH3_64bits key := data]> map.
Definition cwc_hhmap_nremove (map : gmap Z cwc_keybind_info) (key : Z)
    : gmap Z cwc_keybind_info :=
  delete (XXH3_64bits key) map.

Definition clean_info (info : cwc_keybind_info) : list effect :=
  match kb_type info with
  | CWC_KEYBIND_TYPE_C => [FreeInfo (kb_key info)]
  | CWC_KEYBIND_TYPE_LUA =>
      (if luaref_press info =? 0 then [] else [LuaUnref (luaref_press info)])
      ++ (if luaref_release info =? 0 then []
          else [LuaUnref (luaref_release info)])
      ++ [FreeString (kb_group info); FreeString (kb_description info)]
  end.

Definition __keybind_remove_if_exist (map : gmap Z cwc_keybind_info)
    (generated_key : Z) : gmap Z cwc_keybind_info * list effect :=
  match cwc_hhmap_nget map generated_key with
  | None => (map, [])
  | Some existed => (cwc_hhmap_nremove map generated_key, clean_info existed)
  end.

Definition __keybind_register (map : gmap Z cwc_keybind_info)
    (modifiers key : Z) (info : cwc_keybind_info)
    : gmap Z cwc_keybind_info * list effect :=
  let generated_key := keybind_generate_key modifiers key in
  let info_dup := info_set_key generated_key info in
  let '(map, effs) := __keybind_remove_if_exist map generated_key in
  (cwc_hhmap_ninsert map generated_key info_dup, effs).

Definition __keybind_execute (map : gmap Z cwc_keybind_info)
    (modifiers key : Z) (press : bool) : bool * list effect :=
  let generated_key := keybind_generate_key modifiers key in
  match cwc_hhmap_nget map generated_key with
  | None => (false, [])
  | Some info =>
      (true,
       match kb_type info with
       | CWC_KEYBIND_TYPE_LUA =>
           let idx := if press then luaref_press info
                      else luaref_release info in
           if idx =? 0 then [] else [LuaCall idx]
       | CWC_KEYBIND_TYPE_C =>
           match press, on_press info, on_release info with
           | true, Some f, _ => [CCall f (kb_args info)]
           | _, _, Some f => [CCall f (kb_args info)]
           | _, _, None => []
           end
       end)
  end.

Definition __keybind_clear (map : gmap Z cwc_keybind_info) : list effect :=
  concat (List.map (fun e => clean_info (snd e)) (map_to_list map)).

(** The part of [struct cwc_server] the key handling uses. *)
Record kbd_server := mk_kbd_server {
  keybind_kbd_map : gmap Z cwc_keybind_info;
  keybind_mouse_map : gmap Z cwc_keybind_info;
  session_lock_locked : bool }.

Definition keybind_kbd_register (modifiers key : Z)
    (info : cwc_keybind_info) (s : kbd_server) : kbd_server * list effect :=
  let '(m, effs) := __keybind_register (keybind_kbd_map s) modifiers key info in
  (mk_kbd_server m (keybind_mouse_map s) (session_lock_locked s), effs).

Definition keybind_mouse_register (modifiers button : Z)
    (info : cwc_keybind_info) (s : kbd_server) : kbd_server * list effect :=
  let '(m, effs) :=
    __keybind_register (keybind_mouse_map s) modifiers button info in
  (mk_kbd_server (keybind_kbd_map s) m (session_lock_locked s), effs).

Definition keybind_kbd_remove (modifiers key : Z) (s : kbd_server)
    : kbd_server * list effect :=
  let '(m, effs) :=
    __keybind_remove_if_exist (keybind_kbd_map s)
      (keybind_generate_key modifiers key) in
  (mk_kbd_server m (keybind_mouse_map s) (session_lock_locked s), effs).

Definition keybind_mouse_remove (modifiers button : Z) (s : kbd_server)
    : kbd_server * list effect :=
  let '(m, effs) :=
    __keybind_remove_if_exist (keybind_mouse_map s)
      (keybind_generate_key modifiers button) in
  (mk_kbd_server (keybind_kbd_map s) m (session_lock_locked s), effs).

Definition keybind_kbd_execute (s : kbd_server) (modifiers key : Z)
    (press : bool) : bool * list effect :=
  __keybind_execute (keybind_kbd_map s) modifiers key press.

Definition keybind_mouse_execute (s : kbd_server) (modifiers button : Z)
    (press : bool) : bool * list effect :=
  __keybind_execute (keybind_mouse_map s) modifiers button press.

Definition WLR_MODIFIER_CTRL : Z := Z.shiftl 1 2.
Definition WLR_MODIFIER_ALT : Z := Z.shiftl 1 3.
Definition XKB_KEY_F1 : Z := 0xffbe.

(** The callback [_chvt] *)
Definition _chvt : nat := 0%nat.

(** The [for (size_t i = 1; i <= 12; ++i)] loop, with [k] iterations
    left. *)
Fixpoint register_common_keys (k : nat) (i : Z) (s : kbd_server)
    : kbd_server * list effect :=
  match k with
  | O => (s, [])
  | S k =>
      let key := XKB_KEY_F1 + (i - 1) in
      let '(s, e1) :=
        keybind_kbd_register (Z.lor WLR_MODIFIER_CTRL WLR_MODIFIER_ALT) key
          (mk_info CWC_KEYBIND_TYPE_C 0 0 0 (Some _chvt) None i None None)
          s in
      let '(s, e2) := register_common_keys k (i + 1) s in
      (s, e1 ++ e2)
  end.

Definition keybind_register_common_key (s : kbd_server)
    : kbd_server * list effect :=
  register_common_keys 12 1 s.

Definition keybind_kbd_clear (clear_common_key : bool) (s : kbd_server)
    : kbd_server * list effect :=
  let e1 := __keybind_clear (keybind_kbd_map s) in
  let s := mk_kbd_server ∅ (keybind_mouse_map s) (session_lock_locked s) in
  if clear_common_key then (s, e1)
  else let '(s, e2) := keybind_register_common_key s in (s, e1 ++ e2).

Definition keybind_mouse_clear (s : kbd_server) : kbd_server * list effect :=
  (mk_kbd_server (keybind_kbd_map s) ∅ (session_lock_locked s),
   __keybind_clear (keybind_mouse_map s)).

(** [struct wlr_keyboard_key_event] *)
Record wlr_keyboard_key_event := mk_key_event {
  ev_time_msec : Z;
  ev_keycode : Z;
  ev_pressed : bool   (* WL_KEYBOARD_KEY_STATE_PRESSED / _RELEASED *) }.

(** [on_kbd_key]; [xkb_sym] is the untransformed keysym xkbcommon gives
    for a keycode under the keyboard's keymap, [modifiers] the result of
    [wlr_keyboard_get_modifiers]. *)
Definition on_kbd_key (xkb_sym : Z -> Z) (modifiers : Z)
    (event : wlr_keyboard_key_event) (s : kbd_server) : list effect :=
  (* translate libinput keycode -> xkbcommon *)
  let keycode := ev_keycode event + 8 in
  let keysym := xkb_sym keycode in
  let '(handled, effs) :=
    if ev_pressed event then
      let '(handled, e1) :=
        if negb (session_lock_locked s)
        then keybind_kbd_execute s modifiers keysym true
        else (false, []) in
      (handled, e1 ++ [IdleNotifyActivity])
    else
      (* always notify released to client even when has keybind *)
      let '(_, e1) :=
        if negb (session_lock_locked s)
        then keybind_kbd_execute s modifiers keysym false
        else (false, []) in
      (false, e1) in
  if (handled : bool) then effs
  else effs ++ [SeatSetKeyboard;
                SeatNotifyKey (ev_time_msec event) (ev_keycode event)
                  (ev_pressed event)].

End WithHash.

End Keybinding.

(** ** Interactive resize (cursor.c) *)

Module Cursor.
Set Warnings "-inexact-float".
Import Layout.

Definition WLR_EDGE_NONE : Z := 0.
Definition WLR_EDGE_TOP : Z := 1.
Definition WLR_EDGE_BOTTOM : Z := 2.
Definition WLR_EDGE_LEFT : Z := 4.
Definition WLR_EDGE_RIGHT : Z := 8.

(** [a <= b] and [a >= b] on doubles *)
Definition dle (a b : float) : bool := PrimFloat.leb a b.
Definition dge (a b : float) : bool := PrimFloat.leb b a.

(** toplevel.c *)
Definition surface_coord_to_normdevice_coord (geo_box : wlr_box)
    (sx sy : float) : float * float :=
  ((sx / (CDouble.of_int (box_width geo_box) / 2) - 1)%float,
   (sy / (CDouble.of_int (box_height geo_box) / 2) - 1)%float).

(** The decision of [decide_which_edge_to_resize] on the normalized
    coordinates. *)
Definition edge_of_normdevice_coord (nx ny : float) : Z :=
  let single :=
    (* exclusive single edge check *)
    if dge nx (-0.3)%float && dle nx 0.3%float then
      if dle ny (-0.4)%float then Some WLR_EDGE_TOP
      else if dge ny 0.6%float then Some WLR_EDGE_BOTTOM
      else None
    else if dge ny (-0.3)%float && dle ny 0.3%float then
      if dle nx (-0.4)%float then Some WLR_EDGE_LEFT
      else if dge nx 0.6%float then Some WLR_EDGE_RIGHT
      else None
    else None in
  match single with
  | Some e => e
  | None =>
      (* corner check *)
      let edges := 0 in
      let edges := if dge nx (-0.05)%float then Z.lor edges WLR_EDGE_RIGHT
                   else Z.lor edges WLR_EDGE_LEFT in
      let edges := if dge ny (-0.05)%float then Z.lor edges WLR_EDGE_BOTTOM
                   else Z.lor edges WLR_EDGE_TOP in
      edges
  end.

Definition decide_which_edge_to_resize (sx sy : float) (geo_box : wlr_box)
    : Z :=
  let '(nx, ny) := surface_coord_to_normdevice_coord geo_box sx sy in
  edge_of_normdevice_coord nx ny.

Inductive cwc_cursor_state :=
  CWC_CURSOR_STATE_NORMAL | CWC_CURSOR_STATE_MOVE | CWC_CURSOR_STATE_RESIZE.

Record cwc_cursor := mk_cursor {
  cursor_x : float; cursor_y : float;        (* wlr_cursor->x, ->y *)
  cursor_state : cwc_cursor_state;
  resize_edges : Z;
  grabbed_toplevel : option toplevel_id;
  grab_x : float; grab_y : float;
  grab_geobox : wlr_box }.

(** toplevel.h *)
Definition cwc_toplevel_can_enter_interactive (s : server) (t : toplevel_id)
    : option bool :=
  top ← toplevels s !! t;
  '(_, cont) ← toplevel_container s top;
  Some (cwc_container_is_floating s cont
        && negb (cwc_container_is_fullscreen cont)
        && negb (cwc_container_is_maximized cont)
        && negb (cwc_toplevel_is_unmanaged top)).

(** [cwc_toplevel_at_with_deep_check(cx, cy, &sx, &sy)], given the toplevel
    [under] the scene graph finds at the cursor. *)
Definition cwc_toplevel_at_with_deep_check (s : server)
    (under : option toplevel_id) (lx ly : float)
    : option (toplevel_id * float * float) :=
  t ← under;
  top ← toplevels s !! t;
  '(_, cont) ← toplevel_container s top;
  Some (t, (lx - CDouble.of_int (c_x cont))%float,
           (ly - CDouble.of_int (c_y cont))%float).

(** [start_interactive_resize(toplevel, edges)].  [sx0], [sy0] are the
    indeterminate initial values of the locals [sx], [sy]: they are only
    assigned when the toplevel is looked up under the cursor.  The result
    is [None] when the function returns without starting a resize. *)
Definition start_interactive_resize (s : server) (cursor : cwc_cursor)
    (under : option toplevel_id) (sx0 sy0 : float)
    (toplevel : option toplevel_id) (edges : Z) : option cwc_cursor :=
  let cx := cursor_x cursor in
  let cy := cursor_y cursor in
  '(t, sx, sy) ← match toplevel with
                 | Some t => Some (t, sx0, sy0)
                 | None => cwc_toplevel_at_with_deep_check s under cx cy
                 end;
  ok ← cwc_toplevel_can_enter_interactive s t;
  if negb ok then None
  else
    top ← toplevels s !! t;
    '(_, cont) ← toplevel_container s top;
    let geo_box := t_geometry top in
    let edges := if edges =? 0
                 then decide_which_edge_to_resize sx sy geo_box
                 else edges in
    let border_x :=
      CDouble.of_int
        ((c_x cont + box_x geo_box)
         + (if Z.land edges WLR_EDGE_RIGHT =? 0 then 0
            else box_width geo_box)) in
    let border_y :=
      CDouble.of_int
        ((c_y cont + box_y geo_box)
         + (if Z.land edges WLR_EDGE_BOTTOM =? 0 then 0
            else box_height geo_box)) in
    Some (mk_cursor cx cy CWC_CURSOR_STATE_RESIZE edges (Some t)
            (cx - border_x)%float (cy - border_y)%float
            (mk_box (box_x geo_box + c_x cont) (box_y geo_box + c_y cont)
               (box_width geo_box) (box_height geo_box))).

End Cursor.

(** ** Interactive move and resize in progress (cursor.c) *)

Module CursorMotion.
Set Warnings "-inexact-float".
Import Layout Cursor.

(** The cursor together with [cursor->pending_box]. *)
Record interactive := mk_interactive {
  i_cursor : cwc_cursor;
  pending_box : wlr_box }.

Definition i_set_pending (b : wlr_box) (st : interactive) : interactive :=
  mk_interactive (i_cursor st) b.

(** [start_interactive_move(toplevel)]; [None] when it returns without
    grabbing. *)
Definition start_interactive_move (s : server) (cursor : cwc_cursor)
    (under : option toplevel_id) (toplevel : option toplevel_id)
    : option cwc_cursor :=
  let cx := cursor_x cursor in
  let cy := cursor_y cursor in
  t ← match toplevel with
      | Some t => Some t
      | None =>
          '(t, _, _) ← cwc_toplevel_at_with_deep_check s under cx cy; Some t
      end;
  ok ← cwc_toplevel_can_enter_interactive s t;
  if negb ok then None
  else
    top ← toplevels s !! t;
    '(_, cont) ← toplevel_container s top;
    Some (mk_cursor cx cy CWC_CURSOR_STATE_MOVE (resize_edges cursor) (Some t)
            (cx - CDouble.of_int (c_x cont))%float
            (cy - CDouble.of_int (c_y cont))%float
            (grab_geobox cursor)).

(** [process_cursor_move]: the doubles [new_x], [new_y] are converted to the
    [int] parameters of [cwc_container_set_position]. *)
Definition process_cursor_move (s : server) (cursor : cwc_cursor)
    : option server :=
  grabbed ← grabbed_toplevel cursor;
  top ← toplevels s !! grabbed;
  '(c, _) ← toplevel_container s top;
  let new_x := (cursor_x cursor - grab_x cursor)%float in
  let new_y := (cursor_y cursor - grab_y cursor)%float in
  cwc_container_set_position c (CDouble.to_int new_x) (CDouble.to_int new_y) s.

(** [edges & e] as a condition *)
Definition has_edge (edges e : Z) : bool := negb (Z.land edges e =? 0).

(** The box [process_cursor_resize] computes from the cursor and the
    geometry box of the grabbed toplevel. *)
Definition process_cursor_resize_box (cursor : cwc_cursor) (geo_box : wlr_box)
    : wlr_box :=
  let border_x := (cursor_x cursor - grab_x cursor)%float in
  let border_y := (cursor_y cursor - grab_y cursor)%float in
  let gb := grab_geobox cursor in
  let new_left := box_x gb in
  let new_right := box_x gb + box_width gb in
  let new_top := box_y gb in
  let new_bottom := box_y gb + box_height gb in
  let '(new_top, new_bottom) :=
    if has_edge (resize_edges cursor) WLR_EDGE_TOP then
      let new_top := CDouble.to_int border_y in
      ((if new_top >=? new_bottom then new_bottom - 1 else new_top),
       new_bottom)
    else if has_edge (resize_edges cursor) WLR_EDGE_BOTTOM then
      let new_bottom := CDouble.to_int border_y in
      (new_top,
       if new_bottom <=? new_top then new_top + 1 else new_bottom)
    else (new_top, new_bottom) in
  let '(new_left, new_right) :=
    if has_edge (resize_edges cursor) WLR_EDGE_LEFT then
      let new_left := CDouble.to_int border_x in
      ((if new_left >=? new_right then new_right - 1 else new_left),
       new_right)
    else if has_edge (resize_edges cursor) WLR_EDGE_RIGHT then
      let new_right := CDouble.to_int border_x in
      (new_left,
       if new_right <=? new_left then new_left + 1 else new_right)
    else (new_left, new_right) in
  mk_box (new_left - box_x geo_box) (new_top - box_y geo_box)
    (new_right - new_left) (new_bottom - new_top).

(** [schedule_resize]; [due] tells whether more than the refresh interval
    has passed since the last applied resize. *)
Definition schedule_resize (due : bool) (t : toplevel_id) (new_box : wlr_box)
    (s : server) (st : interactive) : option (server * interactive) :=
  top ← toplevels s !! t;
  '(c, _) ← toplevel_container s top;
  s ← (if due then
         (* wlr_scene_node_set_position on the container's tree *)
         s ← modify_container c
               (c_set_position (box_x new_box) (box_y new_box)) s;
         cwc_toplevel_set_size_surface t (box_width new_box)
           (box_height new_box) s
       else Some s);
  Some (s, i_set_pending new_box st).

Definition process_cursor_resize (due : bool) (s : server) (st : interactive)
    : option (server * interactive) :=
  t ← grabbed_toplevel (i_cursor st);
  top ← toplevels s !! t;
  let new_box := process_cursor_resize_box (i_cursor st) (t_geometry top) in
  schedule_resize due t new_box s st.

(** [stop_interactive] *)
Definition stop_interactive (s : server) (st : interactive)
    : option (server * interactive) :=
  let cursor := i_cursor st in
  match cursor_state cursor with
  | CWC_CURSOR_STATE_NORMAL => Some (s, st)
  | state =>
      (* apply pending change from schedule *)
      s ← match state with
          | CWC_CURSOR_STATE_RESIZE =>
              let pending := pending_box st in
              grabbed ← grabbed_toplevel cursor;
              top ← toplevels s !! grabbed;
              '(c, _) ← toplevel_container s top;
              s ← cwc_container_set_position c (box_x pending)
                    (box_y pending) s;
              cwc_toplevel_set_size_surface grabbed (box_width pending)
                (box_height pending) s
          | _ => Some s
          end;
      grabbed ← grabbed_toplevel cursor;
      _ ← toplevels s !! grabbed;
      Some (s,
            mk_interactive
              (mk_cursor (cursor_x cursor) (cursor_y cursor)
                 CWC_CURSOR_STATE_NORMAL (resize_edges cursor) None
                 (grab_x cursor) (grab_y cursor) (grab_geobox cursor))
              (pending_box st))
  end.

(** What [on_cursor_button] does besides the key binding effects. *)
Inductive button_effect :=
| Binding (e : Keybinding.effect)
| NotifyActivity
| SetFocusedOutput
| FocusToplevel (t : toplevel_id)
| StopInteractive
| PointerNotifyButton (time_msec button : Z) (pressed : bool).

(** [struct wlr_pointer_button_event] *)
Record wlr_pointer_button_event := mk_button_event {
  be_time_msec : Z;
  be_button : Z;
  be_pressed : bool }.

Section WithHash.
Variable XXH3_64bits : Z -> Z.

(** [on_cursor_button]; [toplevel] is the toplevel at the cursor,
    [modifiers] what the seat's keyboard reports (0 without keyboard). *)
Definition on_cursor_button (toplevel : option toplevel_id) (modifiers : Z)
    (event : wlr_pointer_button_event) (s : Keybinding.kbd_server)
    : list button_effect :=
  let '(handled, effs) :=
    if be_pressed event then
      let '(handled, e) :=
        Keybinding.keybind_mouse_execute XXH3_64bits s modifiers
          (be_button event) true in
      (handled,
       SetFocusedOutput
       :: match toplevel with Some t => [FocusToplevel t] | None => [] end
       ++ (Binding <$> e))
    else
      (* same as keyboard binding always pass release button to client *)
      let '(_, e) :=
        Keybinding.keybind_mouse_execute XXH3_64bits s modifiers
          (be_button event) false in
      (false, StopInteractive :: (Binding <$> e)) in
  NotifyActivity
  :: effs
  ++ (if (handled : bool) then []
      else [PointerNotifyButton (be_time_msec event) (be_button event)
              (be_pressed event)]).

End WithHash.

End CursorMotion.

(** ** Vocabulary of the layout properties *)

Module LayoutSpec.
Import Layout.

(** *** What a geometry pass leaves alone

    A geometry pass (a resize, a move, a BSP update, a master arrange) writes
    positions, sizes, saved floating boxes, border rectangles and configured
    surface sizes.  Two servers are related by [geom_only] when they agree on
    everything else. *)

Definition border_erase (b : cwc_border) : cwc_border :=
  mk_border (b_thickness b) 0 0 (b_enabled b) (b_valid b).

Definition container_erase (c : cwc_container) : cwc_container :=
  mk_container 0 0 0 0 (mk_box 0 0 0 0) (c_state c) (c_tag c) (c_workspace c)
    (c_bsp_node c) (c_toplevels c) (c_tree_children c)
    (border_erase (c_border c)).

Definition toplevel_erase (t : cwc_toplevel) : cwc_toplevel :=
  t_set_conf_size 0 0 t.

Definition node_erase (n : bsp_node) : bsp_node :=
  n_set_size 0 0 (n_set_position 0 0 n).

Record geom_only (s s' : server) : Prop := mk_geom_only {
  go_containers :
    container_erase <$> containers s' = container_erase <$> containers s;
  go_toplevels :
    toplevel_erase <$> toplevels s' = toplevel_erase <$> toplevels s;
  go_nodes : node_erase <$> bsp_nodes s' = node_erase <$> bsp_nodes s;
  go_output : output s' = output s;
  go_config : config_border_width s' = config_border_width s }.

(** *** The pointer structure *)

Record container_shape := mk_cshape {
  cs_bsp_node : option node_id;
  cs_toplevels : list toplevel_id;
  cs_tree_children : list toplevel_id }.

Record node_shape := mk_nshape {
  ns_type : bsp_node_type;
  ns_container : option container_id;
  ns_parent : option node_id;
  ns_left : option node_id;
  ns_right : option node_id;
  ns_split_type : bsp_split_type }.

Record shape := mk_shape {
  sh_containers : list container_shape;
  sh_toplevels : list (option container_id);
  sh_nodes : list node_shape;
  sh_o_containers : list container_id }.

Definition shape_of_container (c : cwc_container) : container_shape :=
  mk_cshape (c_bsp_node c) (c_toplevels c) (c_tree_children c).

Definition shape_of_node (n : bsp_node) : node_shape :=
  mk_nshape (n_type n) (n_container n) (n_parent n) (n_left n) (n_right n)
    (n_split_type n).

Definition shape_of (s : server) : shape :=
  mk_shape (shape_of_container <$> containers s)
    (t_container <$> toplevels s)
    (shape_of_node <$> bsp_nodes s)
    (o_containers (output s)).

(** A node of the BSP forest is well linked: its parent is an internal node
    that has it as a child, an internal node has its two children and a split
    direction, a leaf has its container; [rk] decreases from parent to child
    and is bounded by [N], so there is no cycle. *)
Definition node_ok (rk : node_id -> nat) (N : nat) (sh : shape)
    (n : node_id) (ns : node_shape) : Prop :=
  (rk n < N)%nat
  ∧ (∀ p, ns_parent ns = Some p →
       ∃ ps, sh_nodes sh !! p = Some ps ∧ (rk n < rk p)%nat
             ∧ ns_type ps = BSP_NODE_INTERNAL
             ∧ (ns_left ps = Some n ∨ ns_right ps = Some n))
  ∧ match ns_type ns with
    | BSP_NODE_INTERNAL =>
        ns_split_type ns ≠ BSP_SPLIT_AUTO
        ∧ ∃ l r, ns_left ns = Some l ∧ ns_right ns = Some r
                 ∧ is_Some (sh_nodes sh !! l) ∧ is_Some (sh_nodes sh !! r)
                 ∧ (rk l < rk n)%nat ∧ (rk r < rk n)%nat
    | BSP_NODE_LEAF =>
        ∃ c, ns_container ns = Some c ∧ is_Some (sh_containers sh !! c)
    end.

Definition nodes_ok (rk : node_id -> nat) (N : nat) (sh : shape) : Prop :=
  ∀ n ns, sh_nodes sh !! n = Some ns → node_ok rk N sh n ns.

Record wf_shape (sh : shape) : Prop := mk_wf_shape {
  (* a container holds at least one toplevel, and its toplevels point back *)
  wf_front : ∀ c cs, sh_containers sh !! c = Some cs → cs_tree_children cs ≠ [];
  wf_children : ∀ c cs t, sh_containers sh !! c = Some cs →
    t ∈ cs_toplevels cs ++ cs_tree_children cs →
    sh_toplevels sh !! t = Some (Some c);
  wf_o_containers : ∀ c, c ∈ sh_o_containers sh →
    is_Some (sh_containers sh !! c);
  wf_container_node : ∀ c cs n, sh_containers sh !! c = Some cs →
    cs_bsp_node cs = Some n → is_Some (sh_nodes sh !! n);
  wf_nodes : ∃ rk N, nodes_ok rk N sh }.

(** A checker for [wf_shape], for concrete servers: [rks] lists the rank of
    every node. *)
Fixpoint all_from {A} (P : nat -> A -> bool) (i : nat) (l : list A) : bool :=
  match l with
  | [] => true
  | x :: l => P i x && all_from P (S i) l
  end.

Definition rank_of (rks : list nat) (n : node_id) : nat :=
  default 0%nat (rks !! n).

Definition is_internal (ty : bsp_node_type) : bool :=
  match ty with BSP_NODE_INTERNAL => true | BSP_NODE_LEAF => false end.

Definition is_auto (sp : bsp_split_type) : bool :=
  match sp with BSP_SPLIT_AUTO => true | _ => false end.

Definition has {A} (l : list A) (i : nat) : bool :=
  match l !! i with Some _ => true | None => false end.

Definition node_ok_b (rks : list nat) (N : nat) (sh : shape)
    (n : node_id) (ns : node_shape) : bool :=
  (rank_of rks n <? N)%nat
  && match ns_parent ns with
     | None => true
     | Some p =>
         match sh_nodes sh !! p with
         | Some ps =>
             (rank_of rks n <? rank_of rks p)%nat
             && is_internal (ns_type ps)
             && (option_nat_eqb (ns_left ps) (Some n)
                 || option_nat_eqb (ns_right ps) (Some n))
         | None => false
         end
     end
  && match ns_type ns with
     | BSP_NODE_INTERNAL =>
         negb (is_auto (ns_split_type ns))
         && match ns_left ns, ns_right ns with
            | Some l, Some r =>
                has (sh_nodes sh) l && has (sh_nodes sh) r
                && (rank_of rks l <? rank_of rks n)%nat
                && (rank_of rks r <? rank_of rks n)%nat
            | _, _ => false
            end
     | BSP_NODE_LEAF =>
         match ns_container ns with
         | Some c => has (sh_containers sh) c
         | None => false
         end
     end.

Definition container_ok_b (sh : shape) (c : container_id)
    (cs : container_shape) : bool :=
  match cs_tree_children cs with [] => false | _ => true end
  && forallb (fun t => match sh_toplevels sh !! t with
                       | Some (Some c') => Nat.eqb c' c
                       | _ => false
                       end)
       (cs_toplevels cs ++ cs_tree_children cs)
  && match cs_bsp_node cs with
     | Some n => has (sh_nodes sh) n
     | None => true
     end.

Definition wf_shape_b (rks : list nat) (N : nat) (sh : shape) : bool :=
  all_from (container_ok_b sh) 0 (sh_containers sh)
  && forallb (has (sh_containers sh)) (sh_o_containers sh)
  && all_from (node_ok_b rks N sh) 0 (sh_nodes sh).

(** The roots of the per-workspace trees exist, and [master_count] has the
    only value the code ever gives it. *)
Definition wf_views (s : server) : Prop :=
  ∀ ws,
    master_count (vi_master_state (view_info (output s) ws)) = 1
    ∧ ∀ r, root (vi_bsp_root_entry (view_info (output s) ws)) = Some r →
           is_Some (bsp_nodes s !! r).

Definition roots_ok (sh : shape) (o : cwc_output) : Prop :=
  ∀ ws r, root (vi_bsp_root_entry (view_info o ws)) = Some r →
          is_Some (sh_nodes sh !! r).

Definition wf_server (s : server) : Prop :=
  wf_shape (shape_of s) ∧ wf_views s.

(** *** Which containers a layout pass may configure *)

Definition layout_may_configure (s : server) (cont : cwc_container) : bool :=
  cwc_container_is_configure_allowed cont
  && negb (cwc_container_is_floating s cont).

Definition protected (s : server) (c : container_id) : Prop :=
  ∀ cont, containers s !! c = Some cont → layout_may_configure s cont = false.

Definition touches_only (c : container_id) (s s' : server) : Prop :=
  ∀ c', c' ≠ c → containers s' !! c' = containers s !! c'.

Definition same_containers (s s' : server) : Prop :=
  containers s' = containers s.

(** The toplevel belongs to a container that the layout may configure. *)
Definition configurable_toplevel (s : server) (t : toplevel_id) : Prop :=
  ∃ c cont, toplevel_container_id s t = Some c
            ∧ containers s !! c = Some cont
            ∧ layout_may_configure s cont = true.

Definition configurable_entries (s : server)
    (buf : list (option toplevel_id)) : Prop :=
  ∀ t, Some t ∈ buf → configurable_toplevel s t.

(** A container of the output's list can be examined by
    [master_arrange_update]: it has a front toplevel whose container
    exists. *)
Definition collectable (s : server) (c : container_id) : Prop :=
  ∃ cont front b, containers s !! c = Some cont
                  ∧ cwc_container_get_front_toplevel cont = Some front
                  ∧ cwc_toplevel_is_tileable s front = Some b.

Definition layout_pass (s s' : server) : Prop :=
  geom_only s s'
  ∧ ∀ c, protected s c → containers s' !! c = containers s !! c.

(** *** Fullscreen and maximized *)

Definition exclusive (cont : cwc_container) : Prop :=
  ¬ (cwc_container_is_fullscreen cont = true
     ∧ cwc_container_is_maximized cont = true).

Definition fullscreen_maximized_exclusive (s : server) : Prop :=
  ∀ c cont, containers s !! c = Some cont → exclusive cont.

(** The Fullscreen and Maximized bits of a state. *)
Definition fm_bits (c : cwc_container) : bool * bool :=
  (cwc_container_is_fullscreen c, cwc_container_is_maximized c).

(** Two servers whose containers agree on these two bits. *)
Definition same_fm (s s' : server) : Prop :=
  fm_bits <$> containers s' = fm_bits <$> containers s.

Definition keeps_exclusive (s s' : server) : Prop :=
  fullscreen_maximized_exclusive s → fullscreen_maximized_exclusive s'.

(** The operations of the model, as the events of the compositor invoke
    them. *)
Inductive step : server -> server -> Prop :=
| step_map fuel t s s' :
    on_surface_map fuel t s = Some s' → step s s'
| step_set_fullscreen fuel c set s s' :
    cwc_container_set_fullscreen fuel c set s = Some s' → step s s'
| step_set_maximized fuel c set s s' :
    cwc_container_set_maximized fuel c set s = Some s' → step s s'
| step_set_minimized fuel c set s s' :
    cwc_container_set_minimized fuel c set s = Some s' → step s s'
| step_set_floating fuel c set s s' :
    cwc_container_set_floating fuel c set s = Some s' → step s s'
| step_set_sticky c set s s' :
    cwc_container_set_sticky c set s = Some s' → step s s'
| step_bsp_insert fuel c ws s s' :
    bsp_insert_container fuel c ws s = Some s' → step s s'
| step_set_size c w h s s' :
    cwc_container_set_size c w h s = Some s' → step s s'
| step_set_position c x y s s' :
    cwc_container_set_position c x y s = Some s' → step s s'
| step_restore_floating_box c s s' :
    cwc_container_restore_floating_box c s = Some s' → step s s'
| step_to_center c s s' :
    cwc_container_to_center c s = Some s' → step s s'
| step_set_geometry c tbl s s' :
    LuaContainer.luaC_container_set_geometry c tbl s = Some s' → step s s'
| step_tiling_layout_update fuel view s s' :
    cwc_output_tiling_layout_update fuel view s = Some s' → step s s'
| step_master_arrange_update s s' :
    master_arrange_update s = Some s' → step s s'.

(** The servers the compositor can be in: it starts without containers. *)
Inductive reachable : server -> Prop :=
| reachable_start s : containers s = [] → reachable s
| reachable_step s s' : reachable s → step s s' → reachable s'.

(** The same operations as commands, to run a sequence of them. *)
Inductive op :=
| OpMap (t : toplevel_id)
| OpSetFullscreen (c : container_id) (set : bool)
| OpSetMaximized (c : container_id) (set : bool)
| OpSetMinimized (c : container_id) (set : bool)
| OpSetFloating (c : container_id) (set : bool)
| OpSetSticky (c : container_id) (set : bool)
| OpSetSize (c : container_id) (w h : Z)
| OpSetPosition (c : container_id) (x y : Z)
| OpLayoutUpdate (view : Z).

Definition run_op (fuel : nat) (o : op) (s : server) : option server :=
  match o with
  | OpMap t => on_surface_map fuel t s
  | OpSetFullscreen c set => cwc_container_set_fullscreen fuel c set s
  | OpSetMaximized c set => cwc_container_set_maximized fuel c set s
  | OpSetMinimized c set => cwc_container_set_minimized fuel c set s
  | OpSetFloating c set => cwc_container_set_floating fuel c set s
  | OpSetSticky c set => cwc_container_set_sticky c set s
  | OpSetSize c w h => cwc_container_set_size c w h s
  | OpSetPosition c x y => cwc_container_set_position c x y s
  | OpLayoutUpdate view => cwc_output_tiling_layout_update fuel view s
  end.

Fixpoint run (fuel : nat) (ops : list op) (s : server) : option server :=
  match ops with
  | [] => Some s
  | o :: ops => s ← run_op fuel o s; run fuel ops s
  end.

(** *** Rectangles *)

(** The size last configured for the surface of toplevel [t] is at least
    [m] in both directions. *)
Definition configured_at_least (s : server) (t : toplevel_id) (m : Z)
    : Prop :=
  ∃ top, toplevels s !! t = Some top
         ∧ m <= t_conf_width top ∧ m <= t_conf_height top.

Definition rect_of (s : server) (c : container_id) : option wlr_box :=
  cwc_container_get_box <$> containers s !! c.

(** The container of the toplevel in entry [i] of the array handed to a
    master/stack strategy. *)
Definition entry_container (s : server)
    (toplevels_ : list (option toplevel_id)) (i : nat) : option container_id :=
  t ← array_get toplevels_ i; toplevel_container_id s t.

(** The rectangle the tile strategy computes for entry [k] of [n], on the
    usable area [ua] with gap [g]. *)
Definition tile_rect (ua : wlr_box) (mwfact : float) (g : Z) (n k : nat)
    : wlr_box :=
  let mw := CDouble.int_mul_double (box_width ua) mwfact in
  let sh := Z.quot (box_height ua) (Z.of_nat n - 1) in
  if Nat.eqb n 1
  then mk_box (box_x ua + g) (box_y ua + g) (box_width ua) (box_height ua)
  else if Nat.eqb k 0
  then mk_box (box_x ua + g) (box_y ua + g) mw (box_height ua)
  else if (k <? n - 1)%nat
  then mk_box (mw + g) (Z.of_nat (k - 1) * sh + box_y ua + g)
         (box_width ua - mw) sh
  else mk_box (mw + g) (Z.of_nat (n - 2) * sh + box_y ua + g)
         (box_width ua - mw) (box_height ua - Z.of_nat (n - 2) * sh).

(** Entries [i..j) of the array belong to existing containers. *)
Definition entries_placed (s : server) (buf : list (option toplevel_id))
    (i j : nat) : Prop :=
  ∀ k, (i <= k < j)%nat →
    ∃ c, entry_container s buf k = Some c ∧ is_Some (containers s !! c).

(** Container [c] is not configured through entries [i..j). *)
Definition not_among (s : server) (buf : list (option toplevel_id))
    (i j : nat) (c : container_id) : Prop :=
  ∀ k, (i <= k < j)%nat → entry_container s buf k ≠ Some c.

(** The front toplevels of the containers [cs] that are tileable, in the
    order of [cs]. *)
Fixpoint tileable_fronts (s : server) (cs : list container_id)
    : list toplevel_id :=
  match cs with
  | [] => []
  | c :: cs =>
      match containers s !! c ≫= cwc_container_get_front_toplevel with
      | Some front =>
          match cwc_toplevel_is_tileable s front with
          | Some true => front :: tileable_fronts s cs
          | _ => tileable_fronts s cs
          end
      | None => tileable_fronts s cs
      end
  end.

End LayoutSpec.

(** ** Example servers *)

Module Examples.
Import Layout.

(** A native toplevel with the given surface size and no size limits. *)
Definition xdg (w h : Z) : cwc_toplevel :=
  mk_toplevel DATA_TYPE_XDG_SHELL false None (mk_box 0 0 w h) 0 0 0 0
    false false false false false 0 0.

(** A server with one output of [W]x[H] whose usable area is the whole
    output, every workspace in layout [mode] with gap 0, the default master
    state, a configured border width [bw], and the unmapped toplevels
    [tops]. *)
Definition start_server (mode : cwc_layout_mode) (W H bw : Z)
    (tops : list cwc_toplevel) : server :=
  mk_server [] tops []
    (mk_output (mk_box 0 0 W H) W H 1 1
       (fun _ => mk_view mode 0 (mk_entry None None)
                   (mk_master 1 1 0.5%float LAYOUT_TILE)) [] [])
    bw.

Definition rects (s : server) : list wlr_box :=
  cwc_container_get_box <$> containers s.

(** Four toplevels mapped one after the other on a 1600x900 output whose
    workspace is in BSP layout. *)
Definition bsp_four : option server :=
  let s := start_server CWC_LAYOUT_BSP 1600 900 1
             [xdg 640 480; xdg 640 480; xdg 640 480; xdg 640 480] in
  s ← on_surface_map 8 0%nat s;
  s ← on_surface_map 8 1%nat s;
  s ← on_surface_map 8 2%nat s;
  on_surface_map 8 3%nat s.

(** Three toplevels mapped on a 1920x1080 output in master layout. *)
Definition master_three : option server :=
  let s := start_server CWC_LAYOUT_MASTER 1920 1080 1
             [xdg 640 480; xdg 640 480; xdg 640 480] in
  s ← on_surface_map 8 0%nat s;
  s ← on_surface_map 8 1%nat s;
  on_surface_map 8 2%nat s.

(** One floating container at (100,100,640,480) on a 1920x1080 output, with
    the default border of 1 pixel. *)
Definition floating_one : option server :=
  let s := start_server CWC_LAYOUT_FLOATING 1920 1080 1 [xdg 638 478] in
  s ← on_surface_map 8 0%nat s;
  cwc_container_set_position 0%nat 100 100 s.

(** The floating container, maximized and then made fullscreen. *)
Definition one_floating : server :=
  start_server CWC_LAYOUT_FLOATING 1920 1080 1 [xdg 638 478].

Definition maximize_then_fullscreen : list LayoutSpec.op :=
  [LayoutSpec.OpMap 0%nat; LayoutSpec.OpSetPosition 0%nat 100 100;
   LayoutSpec.OpSetMaximized 0%nat true;
   LayoutSpec.OpSetFullscreen 0%nat true].

Definition maximized_then_fullscreen_server : server :=
  Eval vm_compute in
    default one_floating (LayoutSpec.run 8 maximize_then_fullscreen one_floating).

(** One floating container of 800x600, borders off. *)
Definition floating_800 : option server :=
  let s := start_server CWC_LAYOUT_FLOATING 1920 1080 0 [xdg 800 600] in
  s ← on_surface_map 8 0%nat s;
  cwc_container_set_position 0%nat 0 0 s.

End Examples.

(** ** Vocabulary of the key binding properties *)

Module KeybindingSpec.
Import Keybinding.

(** An effect that runs a binding's callback. *)
Definition is_callback (e : effect) : bool :=
  match e with
  | LuaCall _ | CCall _ _ => true
  | _ => false
  end.

Definition callbacks (effs : list effect) : list effect :=
  List.filter is_callback effs.

(** The key event as the focused client receives it. *)
Definition forward_of (event : wlr_keyboard_key_event) : effect :=
  SeatNotifyKey (ev_time_msec event) (ev_keycode event) (ev_pressed event).

Definition forwarded (event : wlr_keyboard_key_event) (effs : list effect)
    : Prop :=
  forward_of event ∈ effs.

(** The bindings a map holds for the pair [(modifiers, key)]: the stored
    structures whose [key] field is the pair's generated key. *)
Definition bindings_of_pair (map : gmap Z cwc_keybind_info)
    (modifiers key : Z) : list cwc_keybind_info :=
  List.filter (fun info => kb_key info =? keybind_generate_key modifiers key)
    (snd <$> map_to_list map).

Definition at_most_one_per_pair (map : gmap Z cwc_keybind_info) : Prop :=
  ∀ modifiers key, (length (bindings_of_pair map modifiers key) <= 1)%nat.

(** What [clean_info] releases when a binding is replaced, for each kind of
    binding. *)
Definition released (old : option cwc_keybind_info) : list effect :=
  match old with
  | None => []
  | Some info =>
      match kb_type info with
      | CWC_KEYBIND_TYPE_C => [FreeInfo (kb_key info)]
      | CWC_KEYBIND_TYPE_LUA =>
          List.map LuaUnref
            (List.filter (fun r => negb (r =? 0))
               [luaref_press info; luaref_release info])
          ++ [FreeString (kb_group info); FreeString (kb_description info)]
      end
  end.

Section WithHash.
Variable XXH3_64bits : Z -> Z.

(** The binding the maps answer with for a pair. *)
Definition binding_of (map : gmap Z cwc_keybind_info) (modifiers key : Z)
    : option cwc_keybind_info :=
  cwc_hhmap_nget XXH3_64bits map (keybind_generate_key modifiers key).

(** Every stored binding sits under the hash of its own [key] field. *)
Definition map_keyed (map : gmap Z cwc_keybind_info) : Prop :=
  ∀ h info, map !! h = Some info → h = XXH3_64bits (kb_key info).

Definition both_keyed (s : kbd_server) : Prop :=
  map_keyed (keybind_kbd_map s) ∧ map_keyed (keybind_mouse_map s).

(** The calls that change the binding maps. *)
Inductive kbd_step : kbd_server -> kbd_server -> Prop :=
| kbd_step_kbd_register modifiers key info s :
    kbd_step s (keybind_kbd_register XXH3_64bits modifiers key info s).1
| kbd_step_mouse_register modifiers button info s :
    kbd_step s (keybind_mouse_register XXH3_64bits modifiers button info s).1
| kbd_step_kbd_remove modifiers key s :
    kbd_step s (keybind_kbd_remove XXH3_64bits modifiers key s).1
| kbd_step_mouse_remove modifiers button s :
    kbd_step s (keybind_mouse_remove XXH3_64bits modifiers button s).1
| kbd_step_common_key s :
    kbd_step s (keybind_register_common_key XXH3_64bits s).1
| kbd_step_kbd_clear clear_common_key s :
    kbd_step s (keybind_kbd_clear XXH3_64bits clear_common_key s).1
| kbd_step_mouse_clear s :
    kbd_step s (keybind_mouse_clear s).1.

(** The maps are created empty by the server's initialisation. *)
Inductive kbd_reachable : kbd_server -> Prop :=
| kbd_reachable_init locked : kbd_reachable (mk_kbd_server ∅ ∅ locked)
| kbd_reachable_step s s' :
    kbd_reachable s → kbd_step s s' → kbd_reachable s'.

End WithHash.

(** A server with one C binding on Ctrl+Alt+F1 and one Lua binding on
    key 97 with modifier mask 64. *)
Definition example_kbd_server (locked : bool) : kbd_server :=
  let s := mk_kbd_server ∅ ∅ locked in
  let s := (keybind_kbd_register id 12 XKB_KEY_F1
              (mk_info CWC_KEYBIND_TYPE_C 0 0 0 (Some _chvt) None 1 None None)
              s).1 in
  (keybind_kbd_register id 64 97
     (mk_info CWC_KEYBIND_TYPE_LUA 0 5 6 None None 0 None None) s).1.

End KeybindingSpec.

(** ** Vocabulary of the resize edge inference *)

Module CursorSpec.
Set Warnings "-inexact-float".
Import Layout Cursor.

(** The coordinate lies in the middle band of its axis. *)
Definition in_band (n : float) : bool := dge n (-0.3)%float && dle n 0.3%float.

(** The regions of the normalized square in which the code answers with a
    single edge. *)
Definition single_region (nx ny : float) : bool :=
  (in_band nx && (dle ny (-0.4)%float || dge ny 0.6%float))
  || (negb (in_band nx) && in_band ny
      && (dle nx (-0.4)%float || dge nx 0.6%float)).

(** The corner the code answers with elsewhere. *)
Definition corner (nx ny : float) : Z :=
  Z.lor (if dge nx (-0.05)%float then WLR_EDGE_RIGHT else WLR_EDGE_LEFT)
    (if dge ny (-0.05)%float then WLR_EDGE_BOTTOM else WLR_EDGE_TOP).

Definition is_single_edge (e : Z) : bool :=
  (e =? WLR_EDGE_TOP) || (e =? WLR_EDGE_BOTTOM) || (e =? WLR_EDGE_LEFT)
  || (e =? WLR_EDGE_RIGHT).

(** The region in which a symmetric rule would answer with a single edge:
    one coordinate of absolute value at most 0.3, the other of absolute
    value in (0.4, 1]. *)
Definition symmetric_single_region (nx ny : float) : bool :=
  let within a := PrimFloat.leb (PrimFloat.abs a) 0.3%float in
  let outer a := PrimFloat.ltb 0.4%float (PrimFloat.abs a)
                 && PrimFloat.leb (PrimFloat.abs a) 1%float in
  (within nx && outer ny) || (within ny && outer nx).

(** A floating toplevel of 200x200 at (100,100), borders off, and a cursor at
    (200,250): the middle of the box horizontally, three quarters down. *)
Definition resize_server : option server :=
  let s := Examples.start_server CWC_LAYOUT_FLOATING 1920 1080 0
             [Examples.xdg 200 200] in
  s ← on_surface_map 8 0%nat s;
  cwc_container_set_position 0%nat 100 100 s.

Definition resize_cursor : cwc_cursor :=
  mk_cursor 200 250 CWC_CURSOR_STATE_NORMAL 0 None 0 0 (mk_box 0 0 0 0).

End CursorSpec.

(** ** Concrete servers, evaluated *)

Module Instances.
Import Layout.

Definition no_server : server :=
  Examples.start_server CWC_LAYOUT_FLOATING 0 0 0 [].

(** Three tiled toplevels on a 1920x1080 master workspace. *)
Definition master_three : server :=
  Eval vm_compute in default no_server Examples.master_three.

(** The same with the monocle strategy selected. *)
Definition monocle_three : server :=
  Eval vm_compute in
    with_output master_three
      (o_set_view_info
         (fun _ => mk_view CWC_LAYOUT_MASTER 0 (mk_entry None None)
                     (mk_master 1 1 0.5%float LAYOUT_MONOCLE))
         (output master_three)).

(** Four tiled toplevels on a 1600x900 BSP workspace. *)
Definition bsp_four : server :=
  Eval vm_compute in default no_server Examples.bsp_four.

(** One floating container at (100,100,640,480), border 1. *)
Definition floating_one : server :=
  Eval vm_compute in default no_server Examples.floating_one.

(** Fifty tiled toplevels on a master workspace, the monocle strategy
    selected afterwards. *)
Definition monocle_fifty : server :=
  Eval vm_compute in
    let s := default no_server
               (LayoutSpec.run 8 (LayoutSpec.OpMap <$> seq 0 50)
                  (Examples.start_server CWC_LAYOUT_MASTER 1920 1080 1
                     (replicate 50 (Examples.xdg 640 480)))) in
    with_output s
      (o_set_view_info
         (fun _ => mk_view CWC_LAYOUT_MASTER 0 (mk_entry None None)
                     (mk_master 1 1 0.5%float LAYOUT_MONOCLE))
         (output s)).

Definition no_container : cwc_container :=
  mk_container 0 0 0 0 (mk_box 0 0 0 0) 0 0 0 None [] []
    (mk_border 0 0 0 false false).

Definition floating_one_toplevel : cwc_toplevel :=
  Eval vm_compute in default (Examples.xdg 0 0) (toplevels floating_one !! 0%nat).

Definition floating_one_container : cwc_container :=
  Eval vm_compute in default no_container (containers floating_one !! 0%nat).

(** The floating 200x200 toplevel at (100,100) and the resize started on it
    with the pointer at (200,250). *)
Definition resize_server : server :=
  Eval vm_compute in default no_server CursorSpec.resize_server.

Definition resize_started : Cursor.cwc_cursor :=
  Eval vm_compute in
    default CursorSpec.resize_cursor
      (Cursor.start_interactive_resize resize_server CursorSpec.resize_cursor
         (Some 0%nat) 0 0 None 0).

End Instances.

(** ** More vocabulary for the key bindings *)

Module KeybindingSpec2.
Import Keybinding.

(** The generated key of the VT-switch binding number [i]. *)
Definition common_key (i : Z) : Z :=
  keybind_generate_key (Z.lor WLR_MODIFIER_CTRL WLR_MODIFIER_ALT)
    (XKB_KEY_F1 + (i - 1)).

(** The binding stored for the VT-switch key number [i]. *)
Definition chvt_info (i : Z) : cwc_keybind_info :=
  mk_info CWC_KEYBIND_TYPE_C (common_key i) 0 0 (Some _chvt) None i None None.

(** A 32-bit unsigned value. *)
Definition is_uint32 (z : Z) : Prop := 0 <= z < 2 ^ 32.

End KeybindingSpec2.
(** ** A resize drag in progress *)

Module ResizeInstances.
Import Layout Cursor CursorMotion.

Definition resize_toplevel : cwc_toplevel :=
  Eval vm_compute in
    default (Examples.xdg 0 0) (toplevels Instances.resize_server !! 0%nat).

Definition resize_container : cwc_container :=
  Eval vm_compute in
    default Instances.no_container
      (containers Instances.resize_server !! 0%nat).

(** The resize of [Instances.resize_started] after the pointer has moved
    from (200,250) to (260,300). *)
Definition resize_dragged : interactive :=
  Eval vm_compute in
    let cursor := Instances.resize_started in
    mk_interactive
      (mk_cursor 260%float 300%float (cursor_state cursor) (resize_edges cursor)
         (grabbed_toplevel cursor) (grab_x cursor) (grab_y cursor)
         (grab_geobox cursor))
      (mk_box 0 0 0 0).

End ResizeInstances.
(** ** Vocabulary of the BSP insertion *)

Module BspSpec.
Import Layout LayoutSpec.

Definition ns_set_parent (p : option node_id) (ns : node_shape)
    : node_shape :=
  mk_nshape (ns_type ns) (ns_container ns) p (ns_left ns) (ns_right ns)
    (ns_split_type ns).

(** The child pointer that was [old], if any, now points to [new]; the left
    one is looked at first. *)
Definition ns_replace_child (old new : node_id) (ns : node_shape)
    : node_shape :=
  if node_id_eqb (ns_left ns) (Some old)
  then mk_nshape (ns_type ns) (ns_container ns) (ns_parent ns) (Some new)
         (ns_right ns) (ns_split_type ns)
  else if node_id_eqb (ns_right ns) (Some old)
  then mk_nshape (ns_type ns) (ns_container ns) (ns_parent ns) (ns_left ns)
         (Some new) (ns_split_type ns)
  else ns.

Definition cs_set_bsp_node (n : option node_id) (cs : container_shape)
    : container_shape :=
  mk_cshape n (cs_toplevels cs) (cs_tree_children cs).

(** The pointer structure after the container [new] was inserted beside the
    node [left_]: two nodes are allocated, an internal node that takes the
    place of [left_] under its parent and has [left_] as left child, and a
    leaf for [new] as its right child. *)
Definition insert_shape (sh : shape) (left_ : node_id) (new : container_id)
    (split : bsp_split_type) : shape :=
  let parent_node := length (sh_nodes sh) in
  let right_ := S parent_node in
  let grand := ls ← sh_nodes sh !! left_; ns_parent ls in
  let nodes := alter (ns_set_parent (Some parent_node)) left_ (sh_nodes sh) in
  let nodes := match grand with
               | Some g => alter (ns_replace_child left_ parent_node) g nodes
               | None => nodes
               end in
  mk_shape
    (alter (cs_set_bsp_node (Some right_)) new (sh_containers sh))
    (sh_toplevels sh)
    (nodes
     ++ [mk_nshape BSP_NODE_INTERNAL None grand (Some left_) (Some right_)
           split;
         mk_nshape BSP_NODE_LEAF (Some new) (Some parent_node) None None
           BSP_SPLIT_AUTO])
    (sh_o_containers sh).

(** The pointer structure after [new] became the only node of a tree. *)
Definition first_leaf_shape (sh : shape) (new : container_id) : shape :=
  mk_shape
    (alter (cs_set_bsp_node (Some (length (sh_nodes sh)))) new
       (sh_containers sh))
    (sh_toplevels sh)
    (sh_nodes sh
     ++ [mk_nshape BSP_NODE_LEAF (Some new) None None None BSP_SPLIT_AUTO])
    (sh_o_containers sh).

(** Ranks for the forest after an insertion beside [left_], from ranks
    [rk] for the forest before it. *)
Definition insert_rank (rk : node_id -> nat) (len : nat) (left_ : node_id)
    (n : node_id) : nat :=
  if Nat.eqb n len then 2 * rk left_ + 2
  else if Nat.eqb n (S len) then 0
  else 2 * rk n + 1.

Definition first_leaf_rank (rk : node_id -> nat) (len : nat) (n : node_id)
    : nat :=
  if Nat.eqb n len then 0 else rk n.

End BspSpec.
(** ** Servers with a BSP workspace and a container outside the tree *)

Module BspInstances.
Import Layout.

(** A native toplevel with a parent: a dialog, mapped floating. *)
Definition dialog (w h : Z) : cwc_toplevel :=
  mk_toplevel DATA_TYPE_XDG_SHELL false None (mk_box 0 0 w h) 0 0 0 0
    true false false false false 0 0.

(** Two tiled toplevels and a dialog on a 1600x900 BSP workspace. *)
Definition two_and_dialog : server :=
  Eval vm_compute in
    default Instances.no_server
      (LayoutSpec.run 8
         [LayoutSpec.OpMap 0%nat; LayoutSpec.OpMap 1%nat;
          LayoutSpec.OpMap 2%nat]
         (Examples.start_server CWC_LAYOUT_BSP 1600 900 1
            [Examples.xdg 640 480; Examples.xdg 640 480; dialog 300 200])).

(** A dialog alone on a 1600x900 BSP workspace. *)
Definition dialog_only : server :=
  Eval vm_compute in
    default Instances.no_server
      (LayoutSpec.run 8 [LayoutSpec.OpMap 0%nat]
         (Examples.start_server CWC_LAYOUT_BSP 1600 900 1 [dialog 300 200])).

Definition two_and_dialog_container (c : container_id) : cwc_container :=
  Eval vm_compute in
    default Instances.no_container (containers two_and_dialog !! c).

Definition dialog_only_container : cwc_container :=
  Eval vm_compute in
    default Instances.no_container (containers dialog_only !! 0%nat).

Definition no_node : bsp_node :=
  mk_node BSP_NODE_LEAF None None None None false BSP_SPLIT_AUTO 0%float
    0 0 0 0.

Definition two_and_dialog_node (n : node_id) : bsp_node :=
  Eval vm_compute in default no_node (bsp_nodes two_and_dialog !! n).

End BspInstances.
(** ** Vocabulary of the BSP update *)

Module BspUpdateSpec.
Import Layout LayoutSpec.

(** The operation leaves the BSP nodes alone. *)
Definition same_nodes (s s' : server) : Prop := bsp_nodes s' = bsp_nodes s.

(** The node [m] is not written. *)
Definition keeps_node (m : node_id) (s s' : server) : Prop :=
  bsp_nodes s' !! m = bsp_nodes s !! m.

(** The child pointers and the parent pointers agree, and the two children
    of a node differ: the forest is made of trees. *)
Definition tree_like (sh : shape) : Prop :=
  ∀ n ns l r, sh_nodes sh !! n = Some ns →
    ns_left ns = Some l → ns_right ns = Some r →
    l ≠ r
    ∧ ∀ k ks, k = l ∨ k = r → sh_nodes sh !! k = Some ks →
        ns_parent ks = Some n.

Definition node_rect (n : bsp_node) : wlr_box :=
  mk_box (n_x n) (n_y n) (n_width n) (n_height n).

(** The two rectangles an internal node with the rectangle [b] gives its
    children when both are enabled. *)
Definition split_rects (split : bsp_split_type) (left_wfact : float)
    (b : wlr_box) : wlr_box * wlr_box :=
  match split with
  | BSP_SPLIT_HORIZONTAL =>
      let h := CDouble.int_mul_double (box_height b) left_wfact in
      (mk_box (box_x b) (box_y b) (box_width b) h,
       mk_box (box_x b) (box_y b + h) (box_width b) (box_height b - h))
  | _ =>
      let w := CDouble.int_mul_double (box_width b) left_wfact in
      (mk_box (box_x b) (box_y b) w (box_height b),
       mk_box (box_x b + w) (box_y b) (box_width b - w) (box_height b))
  end.

End BspUpdateSpec.

Module BspUpdateInstances.
Import Layout.

(** The nodes of the four-toplevel BSP workspace. *)
Definition bsp_four_node (n : node_id) : bsp_node :=
  Eval vm_compute in
    default BspInstances.no_node (bsp_nodes Instances.bsp_four !! n).

End BspUpdateInstances.
(** ** The BSP forest as an invariant *)

Module BspTreeSpec.
Import Layout LayoutSpec BspUpdateSpec.

(** A leaf has no child pointers. *)
Definition leaves_bare (sh : shape) : Prop :=
  ∀ n ns, sh_nodes sh !! n = Some ns → ns_type ns = BSP_NODE_LEAF →
    ns_left ns = None ∧ ns_right ns = None.

(** The server is well formed and its BSP nodes form trees. *)
Definition bsp_trees (s : server) : Prop :=
  wf_server s ∧ tree_like (shape_of s) ∧ leaves_bare (shape_of s).

(** What [bsp_insert_container] needs of the workspace [ws]: when its tree
    has a root, the last focused container is there and is in the tree. *)
Definition insert_ready (s : server) (ws : Z) : Prop :=
  let entry := vi_bsp_root_entry (view_info (output s) ws) in
  match root entry with
  | None => True
  | Some _ =>
      ∃ sibling sib left_,
        last_focused entry = Some sibling
        ∧ containers s !! sibling = Some sib
        ∧ c_bsp_node sib = Some left_
  end.

(** An old node after the insertion beside [left_], whose parent was
    [grand], with [L] nodes before the insertion. *)
Definition inserted_old (left_ : node_id) (grand : option node_id) (L : nat)
    (n : node_id) (ns : node_shape) : node_shape :=
  let ns1 := if decide (n = left_) then BspSpec.ns_set_parent (Some L) ns
             else ns in
  if decide (grand = Some n) then BspSpec.ns_replace_child left_ L ns1
  else ns1.

End BspTreeSpec.

(** ** Facts about the layout code *)

Module LayoutFacts.
Import Layout LayoutSpec.

(** Takes a hypothesis [prog = Some s'] apart along the binds, matches and
    conditionals of [prog]. *)
Ltac bind_inv :=
  repeat match goal with
  | H : Some _ = Some _ |- _ => injection H as H; try subst
  | H : None = Some _ |- _ => discriminate H
  | H : mbind _ _ = Some _ |- _ =>
      let x := fresh "x" in
      let E := fresh "E" in
      apply bind_Some in H as (x & E & H)
  | H : (_, _) = (_, _) |- _ => injection H as ? ?; try subst
  | H : alloc_node _ _ = (_, _) |- _ =>
      unfold alloc_node in H; injection H as ? ?; try subst
  | H : (let '(_, _) := ?p in _) = Some _ |- _ => destruct p eqn:?
  | H : (if ?b then _ else _) = Some _ |- _ => destruct b eqn:?
  | H : match ?x with _ => _ end = Some _ |- _ => destruct x eqn:?
  end.

Create HintDb frame.

(** [peel] relates a server to one obtained from it by direct field
    updates; [chain] chains the steps of a decomposed program through a
    preorder. *)
Ltac peel :=
  match goal with
  | |- _ ?s ?s => reflexivity
  | |- ?R ?s (with_output ?x ?o) =>
      transitivity x; [ peel | solve [eauto with frame] ]
  | |- ?R ?s (with_bsp_nodes ?x ?o) =>
      transitivity x; [ peel | solve [eauto with frame] ]
  | |- ?R ?s (with_containers ?x ?o) =>
      transitivity x; [ peel | solve [eauto with frame] ]
  | |- ?R ?s (set_bsp_root_entry ?ws ?e ?x) =>
      transitivity x; [ peel | solve [eauto with frame] ]
  end.

Ltac chain :=
  match goal with
  | |- _ ?s ?s => reflexivity
  | H : _ ?s = Some ?s1 |- ?R ?s ?s' =>
      transitivity s1; [ solve [eauto with frame] | clear H; chain ]
  | H : _ ?s = Some (_, ?s1) |- ?R ?s ?s' =>
      transitivity s1; [ solve [eauto with frame] | clear H; chain ]
  | H : _ ?T = Some ?s1 |- ?R ?s ?s' =>
      transitivity T;
      [ solve [peel]
      | transitivity s1; [ solve [eauto with frame] | clear H; chain ] ]
  | H : _ ?T = Some (_, ?s1) |- ?R ?s ?s' =>
      transitivity T;
      [ solve [peel]
      | transitivity s1; [ solve [eauto with frame] | clear H; chain ] ]
  | |- _ => solve [peel]
  | |- _ => solve [eauto with frame]
  end.

#[global] Instance geom_only_refl : Reflexive geom_only.
Proof. intros s. by constructor. Qed.

#[global] Instance geom_only_trans : Transitive geom_only.
Proof.
  intros s1 s2 s3 [A1 A2 A3 A4 A5] [B1 B2 B3 B4 B5].
  constructor; congruence.
Qed.

Lemma fmap_insert_same {A B} (f : A → B) (l : list A) i x y :
  l !! i = Some x → f y = f x → f <$> <[i := y]> l = f <$> l.
Proof.
  intros Hl Hf. rewrite list_fmap_insert, Hf.
  apply list_insert_id. by rewrite list_lookup_fmap, Hl.
Qed.

Lemma modify_container_geom c f s s' :
  (∀ x, container_erase (f x) = container_erase x) →
  modify_container c f s = Some s' → geom_only s s'.
Proof.
  intros Hf H. unfold modify_container in H. bind_inv.
  constructor; simpl; try done. by eapply fmap_insert_same.
Qed.

Lemma modify_toplevel_geom t f s s' :
  (∀ x, toplevel_erase (f x) = toplevel_erase x) →
  modify_toplevel t f s = Some s' → geom_only s s'.
Proof.
  intros Hf H. unfold modify_toplevel in H. bind_inv.
  constructor; simpl; try done. by eapply fmap_insert_same.
Qed.

Lemma modify_node_geom n f s s' :
  (∀ x, node_erase (f x) = node_erase x) →
  modify_node n f s = Some s' → geom_only s s'.
Proof.
  intros Hf H. unfold modify_node in H. bind_inv.
  constructor; simpl; try done. by eapply fmap_insert_same.
Qed.

Ltac geom_modify :=
  match goal with
  | H : modify_container _ _ ?s = Some ?s' |- geom_only ?s ?s' =>
      eapply modify_container_geom; [|exact H]
  | H : modify_toplevel _ _ ?s = Some ?s' |- geom_only ?s ?s' =>
      eapply modify_toplevel_geom; [|exact H]
  | H : modify_node _ _ ?s = Some ?s' |- geom_only ?s ?s' =>
      eapply modify_node_geom; [|exact H]
  end;
  let x := fresh in
  intros x; destruct x; unfold cwc_border_resize, cwc_border_set_enabled;
  simpl; repeat case_match; simpl in *; subst;
  unfold container_erase, border_erase, node_erase, toplevel_erase; simpl;
  try reflexivity;
  repeat match goal with b : cwc_border |- _ => destruct b end;
  simpl in *; subst; reflexivity.
#[global] Hint Extern 1 (geom_only _ _) => geom_modify : frame.

Lemma all_toplevel_set_size_geom t box s box' s' :
  all_toplevel_set_size t box s = Some (box', s') → geom_only s s'.
Proof. unfold all_toplevel_set_size. intros H. bind_inv; chain. Qed.
#[global] Hint Resolve all_toplevel_set_size_geom : frame.

Lemma for_each_bottom_to_top_geom ts : ∀ box s box' s',
  cwc_container_for_each_bottom_to_top ts box s = Some (box', s') →
  geom_only s s'.
Proof.
  induction ts as [|t ts IH]; simpl; intros box s box' s' H; bind_inv.
  - reflexivity.
  - destruct x. chain.
Qed.
#[global] Hint Resolve for_each_bottom_to_top_geom : frame.

Lemma set_size_geom c w h s s' :
  cwc_container_set_size c w h s = Some s' → geom_only s s'.
Proof.
  unfold cwc_container_set_size. intros H. bind_inv. destruct x0.
  simplify_eq. bind_inv. chain.
Qed.
#[global] Hint Resolve set_size_geom : frame.

Lemma set_position_geom c x y s s' :
  cwc_container_set_position c x y s = Some s' → geom_only s s'.
Proof. unfold cwc_container_set_position. intros H. bind_inv. chain. Qed.
#[global] Hint Resolve set_position_geom : frame.

Lemma set_position_gap_geom c x y s s' :
  cwc_container_set_position_gap c x y s = Some s' → geom_only s s'.
Proof. unfold cwc_container_set_position_gap. eauto with frame. Qed.
#[global] Hint Resolve set_position_gap_geom : frame.

Lemma restore_floating_box_geom c s s' :
  cwc_container_restore_floating_box c s = Some s' → geom_only s s'.
Proof. unfold cwc_container_restore_floating_box. intros H. bind_inv. chain. Qed.
#[global] Hint Resolve restore_floating_box_geom : frame.

Lemma to_center_geom c s s' :
  cwc_container_to_center c s = Some s' → geom_only s s'.
Proof. unfold cwc_container_to_center. intros H. bind_inv; chain. Qed.
#[global] Hint Resolve to_center_geom : frame.

Lemma set_size_surface_geom t w h s s' :
  cwc_toplevel_set_size_surface t w h s = Some s' → geom_only s s'.
Proof. unfold cwc_toplevel_set_size_surface. intros H. bind_inv; chain. Qed.
#[global] Hint Resolve set_size_surface_geom : frame.

Lemma toplevel_set_position_geom t x y s s' :
  cwc_toplevel_set_position t x y s = Some s' → geom_only s s'.
Proof. unfold cwc_toplevel_set_position. intros H. bind_inv; chain. Qed.
#[global] Hint Resolve toplevel_set_position_geom : frame.

Lemma leaf_configure_geom n x y w h s s' :
  bsp_node_leaf_configure n x y w h s = Some s' → geom_only s s'.
Proof. unfold bsp_node_leaf_configure. intros H. bind_inv; chain. Qed.
#[global] Hint Resolve leaf_configure_geom : frame.

Lemma bsp_update_node_geom fuel : ∀ n s s',
  bsp_update_node fuel n s = Some s' → geom_only s s'.
Proof.
  induction fuel as [|fuel IH]; simpl; intros n s s' H; [done|].
  bind_inv; chain.
Qed.
#[global] Hint Resolve bsp_update_node_geom : frame.

Lemma bsp_update_root_geom fuel ws s s' :
  bsp_update_root fuel ws s = Some s' → geom_only s s'.
Proof. unfold bsp_update_root. intros H. bind_inv; chain. Qed.
#[global] Hint Resolve bsp_update_root_geom : frame.

Lemma arrange_monocle_geom buf : ∀ s s',
  arrange_monocle buf s = Some s' → geom_only s s'.
Proof.
  induction buf as [|[t|] buf IH]; simpl; intros s s' H; bind_inv; chain.
Qed.
#[global] Hint Resolve arrange_monocle_geom : frame.

Lemma arrange_tile_rows_geom k : ∀ i buf sw sh mw uy hu s hu' s',
  arrange_tile_rows k i buf sw sh mw uy hu s = Some (hu', s') → geom_only s s'.
Proof.
  induction k as [|k IH]; simpl; intros i buf sw sh mw uy hu s hu' s' H;
    bind_inv; chain.
Qed.
#[global] Hint Resolve arrange_tile_rows_geom : frame.

Lemma arrange_tile_geom buf len ms s s' :
  arrange_tile buf len ms s = Some s' → geom_only s s'.
Proof. unfold arrange_tile. intros H. bind_inv; try destruct x3; bind_inv; chain. Qed.
#[global] Hint Resolve arrange_tile_geom : frame.

Lemma arrange_geom l buf len ms s s' :
  arrange l buf len ms s = Some s' → geom_only s s'.
Proof. destruct l; simpl; eauto with frame. Qed.
#[global] Hint Resolve arrange_geom : frame.

Lemma master_arrange_update_geom s s' :
  master_arrange_update s = Some s' → geom_only s s'.
Proof.
  unfold master_arrange_update. intros H. bind_inv; try destruct x; bind_inv; chain.
Qed.
#[global] Hint Resolve master_arrange_update_geom : frame.

Lemma tiling_layout_update_geom fuel view s s' :
  cwc_output_tiling_layout_update fuel view s = Some s' → geom_only s s'.
Proof. unfold cwc_output_tiling_layout_update. intros H. bind_inv; chain. Qed.
#[global] Hint Resolve tiling_layout_update_geom : frame.

#[global] Instance geom_only_sym : Symmetric geom_only.
Proof. intros s1 s2 [A1 A2 A3 A4 A5]. by constructor. Qed.

Lemma fmap_eq_lookup {A B} (f : A → B) (l l' : list A) i x :
  f <$> l' = f <$> l → l !! i = Some x →
  ∃ x', l' !! i = Some x' ∧ f x' = f x.
Proof.
  intros Heq Hl.
  assert (H : (f <$> l') !! i = Some (f x)) by (by rewrite Heq, list_lookup_fmap, Hl).
  rewrite list_lookup_fmap in H.
  destruct (l' !! i) as [x'|]; simplify_eq/=; eauto.
Qed.

Lemma geom_only_container s s' c cont :
  geom_only s s' → containers s !! c = Some cont →
  ∃ cont', containers s' !! c = Some cont'
           ∧ container_erase cont' = container_erase cont.
Proof. intros [H _ _ _ _]. by apply fmap_eq_lookup. Qed.

Lemma geom_only_toplevel s s' t top :
  geom_only s s' → toplevels s !! t = Some top →
  ∃ top', toplevels s' !! t = Some top'
          ∧ toplevel_erase top' = toplevel_erase top.
Proof. intros [_ H _ _ _]. by apply fmap_eq_lookup. Qed.

Lemma geom_only_node s s' n nd :
  geom_only s s' → bsp_nodes s !! n = Some nd →
  ∃ nd', bsp_nodes s' !! n = Some nd' ∧ node_erase nd' = node_erase nd.
Proof. intros [_ _ H _ _]. by apply fmap_eq_lookup. Qed.

Lemma fmap_eq_compose {A B C} (f : A → B) (g : B → C) (h : A → C)
    (l l' : list A) :
  (∀ x, h x = g (f x)) → f <$> l' = f <$> l → h <$> l' = h <$> l.
Proof.
  intros Hh Heq.
  rewrite (list_fmap_ext h (g ∘ f) l') by (intros; simpl; auto).
  rewrite (list_fmap_ext h (g ∘ f) l) by (intros; simpl; auto).
  by rewrite !list_fmap_compose, Heq.
Qed.

Lemma geom_only_shape s s' : geom_only s s' → shape_of s' = shape_of s.
Proof.
  intros [A1 A2 A3 A4 A5]. unfold shape_of. f_equal.
  - by apply (fmap_eq_compose container_erase shape_of_container).
  - by apply (fmap_eq_compose toplevel_erase t_container).
  - by apply (fmap_eq_compose node_erase shape_of_node).
  - by rewrite A4.
Qed.

Lemma geom_only_wf s s' : geom_only s s' → wf_server s → wf_server s'.
Proof.
  intros Hg [Hs Hv]. split.
  - by rewrite (geom_only_shape _ _ Hg).
  - intros ws. destruct (Hv ws) as [Hm Hr]. rewrite (go_output _ _ Hg).
    split; [done|]. intros r Hroot. destruct (Hr r Hroot) as [nd Hnd].
    destruct (geom_only_node _ _ _ _ Hg Hnd) as (nd' & Hnd' & _). by exists nd'.
Qed.

Lemma erase_is_floating s s' cont cont' :
  output s' = output s → container_erase cont' = container_erase cont →
  cwc_container_is_floating s' cont' = cwc_container_is_floating s cont.
Proof.
  intros Ho He. unfold cwc_container_is_floating. rewrite Ho.
  by rewrite (f_equal c_state He : c_state cont' = c_state cont).
Qed.

Lemma erase_may_configure s s' cont cont' :
  output s' = output s → container_erase cont' = container_erase cont →
  layout_may_configure s' cont' = layout_may_configure s cont.
Proof.
  intros Ho He. unfold layout_may_configure.
  rewrite (erase_is_floating _ _ _ _ Ho He).
  unfold cwc_container_is_configure_allowed, cwc_container_is_fullscreen,
    cwc_container_is_maximized.
  by rewrite (f_equal c_state He : c_state cont' = c_state cont).
Qed.

(** *** Which containers an operation writes *)

#[global] Instance same_containers_refl : Reflexive same_containers.
Proof. by intros s. Qed.
#[global] Instance same_containers_trans : Transitive same_containers.
Proof. unfold same_containers. intros s1 s2 s3 H1 H2. congruence. Qed.

#[global] Instance touches_only_refl c : Reflexive (touches_only c).
Proof. by intros s c' _. Qed.
#[global] Instance touches_only_trans c : Transitive (touches_only c).
Proof. intros s1 s2 s3 H1 H2 c' Hc. by rewrite H2, H1. Qed.

Lemma same_containers_touches c s s' :
  same_containers s s' → touches_only c s s'.
Proof. intros H c' _. by rewrite H. Qed.
#[global] Hint Resolve same_containers_touches : frame.

Lemma modify_container_touches c f s s' :
  modify_container c f s = Some s' → touches_only c s s'.
Proof.
  unfold modify_container. intros H. bind_inv. intros c' Hc. simpl.
  by apply list_lookup_insert_ne.
Qed.
#[global] Hint Resolve modify_container_touches : frame.

Lemma modify_toplevel_containers t f s s' :
  modify_toplevel t f s = Some s' → same_containers s s'.
Proof. unfold modify_toplevel. intros H. by bind_inv. Qed.
#[global] Hint Resolve modify_toplevel_containers : frame.

Lemma modify_node_containers n f s s' :
  modify_node n f s = Some s' → same_containers s s'.
Proof. unfold modify_node. intros H. by bind_inv. Qed.
#[global] Hint Resolve modify_node_containers : frame.

Lemma all_toplevel_set_size_containers t box s box' s' :
  all_toplevel_set_size t box s = Some (box', s') → same_containers s s'.
Proof. unfold all_toplevel_set_size. intros H. bind_inv; chain. Qed.
#[global] Hint Resolve all_toplevel_set_size_containers : frame.

Lemma for_each_bottom_to_top_containers ts : ∀ box s box' s',
  cwc_container_for_each_bottom_to_top ts box s = Some (box', s') →
  same_containers s s'.
Proof.
  induction ts as [|t ts IH]; simpl; intros box s box' s' H; bind_inv.
  - reflexivity.
  - destruct x. chain.
Qed.
#[global] Hint Resolve for_each_bottom_to_top_containers : frame.

Lemma set_size_touches c w h s s' :
  cwc_container_set_size c w h s = Some s' → touches_only c s s'.
Proof.
  unfold cwc_container_set_size. intros H. bind_inv. destruct x0.
  simplify_eq. bind_inv. chain.
Qed.
#[global] Hint Resolve set_size_touches : frame.

Lemma set_position_touches c x y s s' :
  cwc_container_set_position c x y s = Some s' → touches_only c s s'.
Proof. unfold cwc_container_set_position. intros H. bind_inv. chain. Qed.
#[global] Hint Resolve set_position_touches : frame.

Lemma set_position_gap_touches c x y s s' :
  cwc_container_set_position_gap c x y s = Some s' → touches_only c s s'.
Proof. unfold cwc_container_set_position_gap. eauto with frame. Qed.
#[global] Hint Resolve set_position_gap_touches : frame.

(** *** Layout passes leave protected containers alone *)

Lemma protected_stable s s' c :
  geom_only s s' → containers s' !! c = containers s !! c →
  protected s c → protected s' c.
Proof.
  intros Hg Hc Hp cont Hcont. rewrite Hc in Hcont.
  rewrite <- (Hp cont Hcont).
  by apply erase_may_configure; [apply Hg|].
Qed.

#[global] Instance layout_pass_refl : Reflexive layout_pass.
Proof. intros s. split; [reflexivity|done]. Qed.

#[global] Instance layout_pass_trans : Transitive layout_pass.
Proof.
  intros s1 s2 s3 [G1 U1] [G2 U2]. split; [by etransitivity|].
  intros c Hp. rewrite U2, U1; [done..|].
  eapply protected_stable; eauto.
Qed.

Lemma layout_pass_geom s s' : layout_pass s s' → geom_only s s'.
Proof. by intros []. Qed.
#[global] Hint Resolve layout_pass_geom : frame.

Lemma same_containers_pass s s' :
  geom_only s s' → same_containers s s' → layout_pass s s'.
Proof. intros Hg Hc. split; [done|]. intros c _. by rewrite Hc. Qed.

Lemma modify_node_pass n f s s' :
  (∀ x, node_erase (f x) = node_erase x) →
  modify_node n f s = Some s' → layout_pass s s'.
Proof.
  intros Hf H. apply same_containers_pass; eauto using modify_node_geom with frame.
Qed.

Ltac pass_modify :=
  match goal with
  | H : modify_node _ _ ?s = Some ?s' |- layout_pass ?s ?s' =>
      eapply modify_node_pass; [|exact H]
  end;
  let x := fresh in intros x; destruct x; reflexivity.
#[global] Hint Extern 1 (layout_pass _ _) => pass_modify : frame.

Lemma touches_pass c cont s s' :
  containers s !! c = Some cont → layout_may_configure s cont = true →
  geom_only s s' → touches_only c s s' → layout_pass s s'.
Proof.
  intros Hc Hm Hg Ht. split; [done|]. intros c0 Hp.
  apply Ht. intros ->. specialize (Hp _ Hc). congruence.
Qed.

Lemma leaf_configure_pass n x y w h s s' :
  bsp_node_leaf_configure n x y w h s = Some s' → layout_pass s s'.
Proof.
  unfold bsp_node_leaf_configure. intros H. bind_inv; [reflexivity| |chain].
  match goal with
  | E1 : containers s !! ?c = Some ?cont,
    E4 : cwc_container_set_size _ _ _ s = Some ?a,
    E2 : cwc_container_set_position_gap _ _ _ ?a = Some ?b |- _ =>
      transitivity b;
      [ eapply (touches_pass c cont); [done| |chain|chain]
      | clear E4 E2; chain ]
  end.
  unfold layout_may_configure.
  by destruct (cwc_container_is_configure_allowed _),
    (cwc_container_is_floating s _).
Qed.
#[global] Hint Resolve leaf_configure_pass : frame.

Lemma bsp_update_node_pass fuel : ∀ n s s',
  bsp_update_node fuel n s = Some s' → layout_pass s s'.
Proof.
  induction fuel as [|fuel IH]; simpl; intros n s s' H; [done|].
  bind_inv; chain.
Qed.
#[global] Hint Resolve bsp_update_node_pass : frame.

Lemma bsp_update_root_pass fuel ws s s' :
  bsp_update_root fuel ws s = Some s' → layout_pass s s'.
Proof. unfold bsp_update_root. intros H. bind_inv; chain. Qed.
#[global] Hint Resolve bsp_update_root_pass : frame.

(** *** The master/stack pass *)

Lemma tileable_configurable s t :
  cwc_toplevel_is_tileable s t = Some true → configurable_toplevel s t.
Proof.
  unfold cwc_toplevel_is_tileable, toplevel_container. intros H. bind_inv.
  unfold configurable_toplevel, toplevel_container_id.
  match goal with
  | E : toplevels s !! t = Some ?x, E1 : t_container ?x = Some ?c,
    E2 : containers s !! ?c = Some ?cont |- _ =>
      exists c, cont; rewrite E; simpl; split_and!; [done|done|]
  end.
  unfold layout_may_configure, cwc_container_is_configure_allowed.
  repeat match goal with
  | H : _ && _ = true |- _ => apply andb_true_iff in H as [? ?]
  end.
  by repeat (apply andb_true_iff; split).
Qed.

Lemma toplevel_container_id_stable s s' t :
  geom_only s s' → toplevel_container_id s' t = toplevel_container_id s t.
Proof.
  intros Hg. unfold toplevel_container_id.
  destruct (toplevels s !! t) as [top|] eqn:E; simpl.
  - destruct (geom_only_toplevel _ _ _ _ Hg E) as (top' & -> & He). simpl.
    exact (f_equal t_container He).
  - destruct (toplevels s' !! t) as [top'|] eqn:E'; [|done].
    symmetry in Hg.
    destruct (geom_only_toplevel _ _ _ _ Hg E') as (top & ? & _). congruence.
Qed.

Lemma configurable_stable s s' t :
  geom_only s s' → configurable_toplevel s t → configurable_toplevel s' t.
Proof.
  intros Hg (c & cont & Ht & Hc & Hm).
  destruct (geom_only_container _ _ _ _ Hg Hc) as (cont' & Hc' & He).
  exists c, cont'. split_and!; [|done|].
  - by rewrite (toplevel_container_id_stable _ _ _ Hg).
  - rewrite <- Hm. apply erase_may_configure; [apply Hg|done].
Qed.

Lemma configured_step_pass t c s s' :
  configurable_toplevel s t → toplevel_container_id s t = Some c →
  geom_only s s' → touches_only c s s' → layout_pass s s'.
Proof.
  intros (c' & cont & Ht & Hc & Hm) Ht' Hg Htouch.
  assert (c' = c) as -> by congruence.
  by eapply touches_pass.
Qed.

Lemma set_size_set_position_gap_pass t c w h x y s s1 s' :
  configurable_toplevel s t → toplevel_container_id s t = Some c →
  cwc_container_set_size c w h s = Some s1 →
  cwc_container_set_position_gap c x y s1 = Some s' →
  layout_pass s s'.
Proof.
  intros Hconf Ht H1 H2. eapply configured_step_pass; eauto; chain.
Qed.

Lemma set_position_gap_set_size_pass t c w h x y s s1 s' :
  configurable_toplevel s t → toplevel_container_id s t = Some c →
  cwc_container_set_position_gap c x y s = Some s1 →
  cwc_container_set_size c w h s1 = Some s' →
  layout_pass s s'.
Proof.
  intros Hconf Ht H1 H2. eapply configured_step_pass; eauto; chain.
Qed.

Lemma configurable_entries_stable s s' buf :
  geom_only s s' → configurable_entries s buf → configurable_entries s' buf.
Proof. intros Hg H t Ht. eapply configurable_stable; eauto. Qed.

Lemma array_get_elem buf i t : array_get buf i = Some t → Some t ∈ buf.
Proof.
  unfold array_get. intros H.
  destruct (buf !! i) as [[t'|]|] eqn:E; simplify_eq/=.
  by eapply list_elem_of_lookup_2.
Qed.

Lemma arrange_monocle_pass buf : ∀ s s',
  configurable_entries s buf →
  arrange_monocle buf s = Some s' → layout_pass s s'.
Proof.
  induction buf as [|[t|] buf IH]; simpl; intros s s' Hc H; bind_inv;
    [|reflexivity].
  assert (layout_pass s x1).
  { eapply set_position_gap_set_size_pass; eauto. apply Hc. left. }
  etransitivity; [done|]. eapply IH; [|done].
  eapply configurable_entries_stable; [eauto with frame|].
  intros t' Ht'. apply Hc. by right.
Qed.

Lemma arrange_tile_rows_pass k : ∀ i buf sw sh mw uy hu s hu' s',
  configurable_entries s buf →
  arrange_tile_rows k i buf sw sh mw uy hu s = Some (hu', s') →
  layout_pass s s'.
Proof.
  induction k as [|k IH]; simpl; intros i buf sw sh mw uy hu s hu' s' Hc H;
    bind_inv; [reflexivity|].
  assert (layout_pass s x2).
  { eapply set_size_set_position_gap_pass; eauto.
    apply Hc. by eapply array_get_elem. }
  etransitivity; [done|]. eapply IH; [|done].
  eapply configurable_entries_stable; eauto with frame.
Qed.

Lemma arrange_tile_pass buf len ms s s' :
  configurable_entries s buf →
  arrange_tile buf len ms s = Some s' → layout_pass s s'.
Proof.
  unfold arrange_tile. intros Hc H. bind_inv.
  - eapply set_size_set_position_gap_pass; eauto.
    apply Hc. by eapply array_get_elem.
  - match goal with
    | E1 : cwc_container_set_size _ _ _ s = Some ?a,
      E2 : cwc_container_set_position_gap _ _ _ ?a = Some ?b,
      E3 : arrange_tile_rows _ _ _ _ _ _ _ _ ?b = Some (_, ?d),
      E5 : toplevel_container_id ?d ?t = Some _ |- _ =>
        assert (P1 : layout_pass s b)
          by (eapply set_size_set_position_gap_pass; eauto;
              apply Hc; by eapply array_get_elem);
        assert (P2 : layout_pass b d)
          by (eapply arrange_tile_rows_pass; [|done];
              eapply configurable_entries_stable; eauto with frame);
        assert (G : geom_only s d) by (etransitivity; eauto with frame);
        etransitivity; [exact P1|]; etransitivity; [exact P2|];
        eapply (set_size_set_position_gap_pass t); eauto;
        eapply configurable_stable; [exact G|apply Hc; by eapply array_get_elem]
    end.
Qed.

Lemma arrange_pass l buf len ms s s' :
  configurable_entries s buf →
  arrange l buf len ms s = Some s' → layout_pass s s'.
Proof.
  destruct l; simpl; eauto using arrange_tile_pass, arrange_monocle_pass.
Qed.

Lemma array_set_elem buf i t buf' x :
  array_set buf i t = Some buf' → x ∈ buf' → x = Some t ∨ x ∈ buf.
Proof.
  unfold array_set. intros H Hx. case_decide; simplify_eq.
  apply list_elem_of_lookup in Hx as [j Hj].
  destruct (decide (i = j)) as [->|Hne].
  - rewrite list_lookup_insert_eq in Hj by done. left. congruence.
  - rewrite list_lookup_insert_ne in Hj by done. right.
    by eapply list_elem_of_lookup_2.
Qed.

Lemma configurable_entries_set s buf i t buf' :
  configurable_entries s buf → cwc_toplevel_is_tileable s t = Some true →
  array_set buf i t = Some buf' → configurable_entries s buf'.
Proof.
  intros Hc Ht Hs t' Ht'.
  destruct (array_set_elem _ _ _ _ _ Hs Ht') as [?|?]; [|by auto].
  simplify_eq. by apply tileable_configurable.
Qed.

Lemma master_collect_configurable cs : ∀ buf i s buf' i',
  configurable_entries s buf →
  master_collect cs buf i s = Some (buf', i') →
  configurable_entries s buf'.
Proof.
  induction cs as [|c cs IH]; simpl; intros buf i s buf' i' Hc H; bind_inv;
    eauto using configurable_entries_set.
Qed.

Lemma master_arrange_update_pass s s' :
  master_arrange_update s = Some s' → layout_pass s s'.
Proof.
  unfold master_arrange_update. intros H. bind_inv; try reflexivity.
  eapply arrange_pass; [|done].
  eapply master_collect_configurable; [|done].
  intros t Ht. by apply elem_of_replicate in Ht as [? _].
Qed.
#[global] Hint Resolve master_arrange_update_pass : frame.

Lemma tiling_layout_update_pass fuel view s s' :
  cwc_output_tiling_layout_update fuel view s = Some s' → layout_pass s s'.
Proof. unfold cwc_output_tiling_layout_update. intros H. bind_inv; chain. Qed.
#[global] Hint Resolve tiling_layout_update_pass : frame.


(** *** The state bit field *)

Lemma state_test_testbit st k :
  0 <= k → state_test st (Z.shiftl 1 k) = Z.testbit st k.
Proof.
  intros Hk. unfold state_test. rewrite Z.shiftl_1_l.
  destruct (Z.testbit st k) eqn:E.
  - apply negb_true_iff, Z.eqb_neq. intros H.
    apply (f_equal (fun z => Z.testbit z k)) in H.
    rewrite Z.land_spec, E, Z.pow2_bits_true, Z.bits_0 in H by lia. done.
  - apply negb_false_iff, Z.eqb_eq. apply Z.bits_inj'. intros n Hn.
    rewrite Z.land_spec, Z.bits_0.
    destruct (decide (n = k)) as [->|Hne].
    + by rewrite E.
    + rewrite Z.pow2_bits_false by lia. apply andb_false_r.
Qed.

Lemma testbit_state_set st j k :
  0 <= j → 0 <= k < 32 →
  Z.testbit (state_set st (Z.shiftl 1 j)) k = Z.testbit st k || (k =? j).
Proof.
  intros Hj Hk. unfold state_set, uint32.
  rewrite Z.mod_pow2_bits_low, Z.lor_spec, Z.shiftl_1_l by lia.
  f_equal. destruct (Z.eqb_spec k j) as [->|Hne].
  - by apply Z.pow2_bits_true.
  - apply Z.pow2_bits_false. lia.
Qed.

Lemma testbit_state_clear st j k :
  0 <= j → 0 <= k < 32 →
  Z.testbit (state_clear st (Z.shiftl 1 j)) k
  = Z.testbit st k && negb (k =? j).
Proof.
  intros Hj Hk. unfold state_clear, uint32.
  rewrite Z.land_spec, Z.mod_pow2_bits_low, Z.lnot_spec, Z.shiftl_1_l by lia.
  f_equal. f_equal. destruct (Z.eqb_spec k j) as [->|Hne].
  - by apply Z.pow2_bits_true.
  - apply Z.pow2_bits_false. lia.
Qed.

Lemma state_test_set st j k :
  0 <= j → 0 <= k < 32 →
  state_test (state_set st (Z.shiftl 1 j)) (Z.shiftl 1 k)
  = state_test st (Z.shiftl 1 k) || (k =? j).
Proof.
  intros. rewrite !state_test_testbit by lia. by apply testbit_state_set.
Qed.

Lemma state_test_clear st j k :
  0 <= j → 0 <= k < 32 →
  state_test (state_clear st (Z.shiftl 1 j)) (Z.shiftl 1 k)
  = state_test st (Z.shiftl 1 k) && negb (k =? j).
Proof.
  intros. rewrite !state_test_testbit by lia. by apply testbit_state_clear.
Qed.

(** Rewrites the tests of the bits of a state after [state_set] and
    [state_clear] of one of the six masks. *)
Ltac state_bits :=
  unfold cwc_container_is_fullscreen, cwc_container_is_maximized,
    cwc_container_is_minimized, cwc_container_is_unmanaged,
    cwc_container_is_sticky, cwc_container_is_floating,
    CONTAINER_STATE_UNMANAGED, CONTAINER_STATE_FLOATING,
    CONTAINER_STATE_MINIMIZED, CONTAINER_STATE_MAXIMIZED,
    CONTAINER_STATE_FULLSCREEN, CONTAINER_STATE_STICKY in *;
  simpl c_state in *;
  repeat first [ rewrite state_test_set by lia
               | rewrite state_test_clear by lia ];
  simpl (_ =? _); rewrite ?orb_false_r, ?andb_true_r, ?orb_true_r,
    ?andb_false_r.

Lemma fullscreen_after_set_clear st :
  state_test (state_clear (state_set st CONTAINER_STATE_FULLSCREEN)
                CONTAINER_STATE_MAXIMIZED) CONTAINER_STATE_FULLSCREEN = true
  ∧ state_test (state_clear (state_set st CONTAINER_STATE_FULLSCREEN)
                  CONTAINER_STATE_MAXIMIZED) CONTAINER_STATE_MAXIMIZED = false.
Proof. by state_bits. Qed.

Lemma maximized_after_set_clear st :
  state_test (state_clear (state_set st CONTAINER_STATE_MAXIMIZED)
                CONTAINER_STATE_FULLSCREEN) CONTAINER_STATE_MAXIMIZED = true
  ∧ state_test (state_clear (state_set st CONTAINER_STATE_MAXIMIZED)
                  CONTAINER_STATE_FULLSCREEN) CONTAINER_STATE_FULLSCREEN = false.
Proof. by state_bits. Qed.

(** *** Operations that keep the Fullscreen and Maximized bits *)

#[global] Instance same_fm_refl : Reflexive same_fm.
Proof. by intros s. Qed.
#[global] Instance same_fm_trans : Transitive same_fm.
Proof. unfold same_fm. intros s1 s2 s3 H1 H2. congruence. Qed.

Lemma geom_only_same_fm s s' : geom_only s s' → same_fm s s'.
Proof.
  intros [H _ _ _ _]. by apply (fmap_eq_compose container_erase fm_bits).
Qed.
#[global] Hint Resolve geom_only_same_fm : frame.

Lemma same_containers_same_fm s s' : same_containers s s' → same_fm s s'.
Proof. unfold same_fm. by intros ->. Qed.
#[global] Hint Resolve same_containers_same_fm : frame.

Lemma with_output_containers s o : same_containers s (with_output s o).
Proof. done. Qed.
Lemma with_bsp_nodes_containers s ns : same_containers s (with_bsp_nodes s ns).
Proof. done. Qed.
Lemma set_bsp_root_entry_containers ws e s :
  same_containers s (set_bsp_root_entry ws e s).
Proof. done. Qed.
#[global] Hint Resolve with_output_containers with_bsp_nodes_containers
  set_bsp_root_entry_containers : frame.

Lemma modify_container_same_fm c f s s' :
  (∀ x, fm_bits (f x) = fm_bits x) →
  modify_container c f s = Some s' → same_fm s s'.
Proof.
  intros Hf H. unfold modify_container in H. bind_inv.
  unfold same_fm. simpl. by eapply fmap_insert_same.
Qed.

Ltac fm_modify :=
  match goal with
  | H : modify_container _ _ ?s = Some ?s' |- same_fm ?s ?s' =>
      eapply modify_container_same_fm; [|exact H]
  end;
  let x := fresh in
  intros x; destruct x; unfold fm_bits; simpl; state_bits; reflexivity.

Lemma set_state_bit_same_fm c j s s' :
  0 <= j < 32 → j ≠ 3 → j ≠ 4 →
  set_state_bit c (Z.shiftl 1 j) s = Some s' → same_fm s s'.
Proof.
  intros Hj H3 H4 H. eapply modify_container_same_fm; [|exact H].
  intros x. unfold fm_bits, cwc_container_is_fullscreen,
    cwc_container_is_maximized, CONTAINER_STATE_FULLSCREEN,
    CONTAINER_STATE_MAXIMIZED. simpl.
  rewrite !state_test_set by lia.
  destruct (Z.eqb_spec 4 j), (Z.eqb_spec 3 j); try lia.
  by rewrite !orb_false_r.
Qed.

Lemma clear_state_bit_same_fm c j s s' :
  0 <= j < 32 → j ≠ 3 → j ≠ 4 →
  clear_state_bit c (Z.shiftl 1 j) s = Some s' → same_fm s s'.
Proof.
  intros Hj H3 H4 H. eapply modify_container_same_fm; [|exact H].
  intros x. unfold fm_bits, cwc_container_is_fullscreen,
    cwc_container_is_maximized, CONTAINER_STATE_FULLSCREEN,
    CONTAINER_STATE_MAXIMIZED. simpl.
  rewrite !state_test_clear by lia.
  destruct (Z.eqb_spec 4 j), (Z.eqb_spec 3 j); try lia.
  by rewrite !andb_true_r.
Qed.

Ltac fm_bit :=
  match goal with
  | H : set_state_bit _ _ ?s = Some ?s' |- same_fm ?s ?s' =>
      eapply set_state_bit_same_fm; [ | | |exact H]; lia
  | H : clear_state_bit _ _ ?s = Some ?s' |- same_fm ?s ?s' =>
      eapply clear_state_bit_same_fm; [ | | |exact H]; lia
  end.
#[global] Hint Extern 1 (same_fm _ _) => fm_bit : frame.
#[global] Hint Extern 2 (same_fm _ _) => fm_modify : frame.

Lemma _bsp_node_enable_containers fuel : ∀ n s r s',
  _bsp_node_enable fuel n s = Some (r, s') → same_containers s s'.
Proof.
  induction fuel as [|fuel IH]; simpl; intros n s r s' H; [done|].
  bind_inv; chain.
Qed.
#[global] Hint Resolve _bsp_node_enable_containers : frame.

Lemma _bsp_node_disable_containers fuel : ∀ n s r s',
  _bsp_node_disable fuel n s = Some (r, s') → same_containers s s'.
Proof.
  induction fuel as [|fuel IH]; simpl; intros n s r s' H; [done|].
  bind_inv; chain.
Qed.
#[global] Hint Resolve _bsp_node_disable_containers : frame.

Lemma bsp_node_enable_same_fm fuel n s s' :
  bsp_node_enable fuel n s = Some s' → same_fm s s'.
Proof. unfold bsp_node_enable. intros H. bind_inv; chain. Qed.
#[global] Hint Resolve bsp_node_enable_same_fm : frame.

Lemma bsp_node_disable_same_fm fuel n s s' :
  bsp_node_disable fuel n s = Some s' → same_fm s s'.
Proof. unfold bsp_node_disable. intros H. bind_inv; chain. Qed.
#[global] Hint Resolve bsp_node_disable_same_fm : frame.

Lemma _bsp_insert_toplevel_same_fm fuel ws e sib new s s' :
  _bsp_insert_toplevel fuel ws e sib new s = Some s' → same_fm s s'.
Proof.
  unfold _bsp_insert_toplevel. intros H. bind_inv; chain.
Qed.
#[global] Hint Resolve _bsp_insert_toplevel_same_fm : frame.

Lemma bsp_insert_container_same_fm fuel new ws s s' :
  bsp_insert_container fuel new ws s = Some s' → same_fm s s'.
Proof.
  unfold bsp_insert_container. intros H. bind_inv; chain.
Qed.
#[global] Hint Resolve bsp_insert_container_same_fm : frame.

Lemma set_floating_same_fm fuel c set s s' :
  cwc_container_set_floating fuel c set s = Some s' → same_fm s s'.
Proof. unfold cwc_container_set_floating. intros H. bind_inv; chain. Qed.
#[global] Hint Resolve set_floating_same_fm : frame.

Lemma set_sticky_same_fm c set s s' :
  cwc_container_set_sticky c set s = Some s' → same_fm s s'.
Proof. unfold cwc_container_set_sticky. intros H. bind_inv; chain. Qed.
#[global] Hint Resolve set_sticky_same_fm : frame.

Lemma set_minimized_same_fm fuel c set s s' :
  cwc_container_set_minimized fuel c set s = Some s' → same_fm s s'.
Proof.
  unfold cwc_container_set_minimized, _update_to_current_active_tag_and_worskpace.
  intros H. bind_inv; chain.
Qed.
#[global] Hint Resolve set_minimized_same_fm : frame.

(** *** Fullscreen and maximized exclude each other *)

Lemma exclusive_fm s :
  fullscreen_maximized_exclusive s
  ↔ Forall (λ p, p ≠ (true, true)) (fm_bits <$> containers s).
Proof.
  rewrite Forall_fmap, Forall_lookup. unfold fullscreen_maximized_exclusive.
  split; intros H c cont Hc; specialize (H c cont Hc);
    unfold exclusive, fm_bits in *; simpl in *.
  - intros [= ? ?]. by apply H.
  - intros [? ?]. apply H. by f_equal.
Qed.

Lemma same_fm_exclusive s s' :
  same_fm s s' → fullscreen_maximized_exclusive s →
  fullscreen_maximized_exclusive s'.
Proof. rewrite !exclusive_fm. unfold same_fm. by intros ->. Qed.

Lemma modify_container_fm c f s s' cont :
  containers s !! c = Some cont → modify_container c f s = Some s' →
  fm_bits <$> containers s' = <[c := fm_bits (f cont)]> (fm_bits <$> containers s).
Proof.
  unfold modify_container. intros Hc H. rewrite Hc in H. simpl in H.
  simplify_eq. simpl. by rewrite list_fmap_insert.
Qed.

Lemma set_clear_fm c m1 m2 s s1 s2 cont :
  containers s !! c = Some cont →
  set_state_bit c m1 s = Some s1 → clear_state_bit c m2 s1 = Some s2 →
  fm_bits <$> containers s2
  = <[c := fm_bits (c_set_state (state_clear (state_set (c_state cont) m1) m2)
                      cont)]> (fm_bits <$> containers s).
Proof.
  unfold set_state_bit, clear_state_bit. intros Hc H1 H2.
  pose proof (modify_container_fm _ _ _ _ _ Hc H1) as F1.
  unfold modify_container in H1. rewrite Hc in H1. simpl in H1. simplify_eq.
  assert (Hc1 : containers (with_containers s
                  (<[c := c_set_state (state_set (c_state cont) m1) cont]>
                     (containers s))) !! c
                = Some (c_set_state (state_set (c_state cont) m1) cont)).
  { simpl. apply list_lookup_insert_eq. by eapply lookup_lt_Some. }
  rewrite (modify_container_fm _ _ _ _ _ Hc1 H2), F1.
  by rewrite list_insert_insert_eq.
Qed.

Lemma all_toplevel_set_fullscreen_geom set t s s' :
  all_toplevel_set_fullscreen set t s = Some s' → geom_only s s'.
Proof. unfold all_toplevel_set_fullscreen. intros H. bind_inv; chain. Qed.
#[global] Hint Resolve all_toplevel_set_fullscreen_geom : frame.

Lemma all_toplevel_set_maximized_geom set t s s' :
  all_toplevel_set_maximized set t s = Some s' → geom_only s s'.
Proof. unfold all_toplevel_set_maximized. intros H. bind_inv; chain. Qed.
#[global] Hint Resolve all_toplevel_set_maximized_geom : frame.

Lemma for_each_toplevel_geom ts f :
  (∀ t s s', f t s = Some s' → geom_only s s') →
  ∀ s s', cwc_container_for_each_toplevel ts f s = Some s' → geom_only s s'.
Proof.
  intros Hf. induction ts as [|t ts IH]; simpl; intros s s' H; bind_inv.
  - reflexivity.
  - etransitivity; eauto.
Qed.

Lemma for_each_fullscreen_geom ts set s s' :
  cwc_container_for_each_toplevel ts (all_toplevel_set_fullscreen set) s
  = Some s' → geom_only s s'.
Proof. apply for_each_toplevel_geom. eauto with frame. Qed.
#[global] Hint Resolve for_each_fullscreen_geom : frame.

Lemma for_each_maximized_geom ts set s s' :
  cwc_container_for_each_toplevel ts (all_toplevel_set_maximized set) s
  = Some s' → geom_only s s'.
Proof. apply for_each_toplevel_geom. eauto with frame. Qed.
#[global] Hint Resolve for_each_maximized_geom : frame.

Lemma set_fullscreen_fm fuel c set s s' cont :
  containers s !! c = Some cont →
  cwc_container_set_fullscreen fuel c set s = Some s' →
  fm_bits <$> containers s'
  = <[c := if set then (true, false)
           else (false, cwc_container_is_maximized cont)]>
      (fm_bits <$> containers s).
Proof.
  unfold cwc_container_set_fullscreen, update_border_after_state_change.
  intros Hc H. rewrite Hc in H. simpl in H. destruct set.
  - bind_inv;
      match goal with
      | E1 : set_state_bit c _ s = Some ?a,
        E2 : clear_state_bit c _ ?a = Some ?b |- _ =>
          assert (F : same_fm b s') by (clear E1 E2; chain);
          rewrite F, (set_clear_fm _ _ _ _ _ _ _ Hc E1 E2)
      end;
      f_equal; unfold fm_bits; f_equal; apply fullscreen_after_set_clear.
  - bind_inv;
      match goal with
      | E1 : clear_state_bit c _ s = Some ?a |- _ =>
          assert (F : same_fm a s') by (clear E1; chain);
          rewrite F, (modify_container_fm _ _ _ _ _ Hc E1)
      end;
      f_equal; unfold fm_bits; by state_bits.
Qed.

Lemma set_maximized_fm fuel c set s s' cont :
  containers s !! c = Some cont →
  cwc_container_set_maximized fuel c set s = Some s' →
  fm_bits <$> containers s'
  = <[c := if set then (false, true)
           else (cwc_container_is_fullscreen cont, false)]>
      (fm_bits <$> containers s).
Proof.
  unfold cwc_container_set_maximized, update_border_after_state_change.
  intros Hc H. rewrite Hc in H. simpl in H. destruct set.
  - bind_inv;
      match goal with
      | E1 : set_state_bit c _ s = Some ?a,
        E2 : clear_state_bit c _ ?a = Some ?b |- _ =>
          assert (F : same_fm b s') by (clear E1 E2; chain);
          rewrite F, (set_clear_fm _ _ _ _ _ _ _ Hc E1 E2)
      end;
      f_equal; unfold fm_bits; f_equal; apply maximized_after_set_clear.
  - bind_inv;
      match goal with
      | E1 : clear_state_bit c _ s = Some ?a |- _ =>
          assert (F : same_fm a s') by (clear E1; chain);
          rewrite F, (modify_container_fm _ _ _ _ _ Hc E1)
      end;
      f_equal; unfold fm_bits; by state_bits.
Qed.

#[global] Instance keeps_exclusive_refl : Reflexive keeps_exclusive.
Proof. intros s H. exact H. Qed.
#[global] Instance keeps_exclusive_trans : Transitive keeps_exclusive.
Proof. unfold keeps_exclusive. intros s1 s2 s3 H1 H2. auto. Qed.

Lemma same_fm_keeps s s' : same_fm s s' → keeps_exclusive s s'.
Proof. intros H Hinv. by eapply same_fm_exclusive. Qed.
#[global] Hint Resolve same_fm_keeps : frame.

Lemma set_fullscreen_keeps fuel c set s s' :
  cwc_container_set_fullscreen fuel c set s = Some s' → keeps_exclusive s s'.
Proof.
  intros H Hinv.
  assert (∃ cont, containers s !! c = Some cont) as [cont Hc].
  { unfold cwc_container_set_fullscreen in H. bind_inv; eauto. }
  apply exclusive_fm. rewrite (set_fullscreen_fm _ _ _ _ _ _ Hc H).
  apply Forall_insert; [by apply exclusive_fm|]. by destruct set.
Qed.
#[global] Hint Resolve set_fullscreen_keeps : frame.

Lemma set_maximized_keeps fuel c set s s' :
  cwc_container_set_maximized fuel c set s = Some s' → keeps_exclusive s s'.
Proof.
  intros H Hinv.
  assert (∃ cont, containers s !! c = Some cont) as [cont Hc].
  { unfold cwc_container_set_maximized in H. bind_inv; eauto. }
  apply exclusive_fm. rewrite (set_maximized_fm _ _ _ _ _ _ Hc H).
  apply Forall_insert; [by apply exclusive_fm|].
  destruct set; [done|]. by destruct (cwc_container_is_fullscreen cont).
Qed.
#[global] Hint Resolve set_maximized_keeps : frame.

Lemma decide_should_tiled_keeps fuel t c s s' :
  decide_should_tiled fuel t c s = Some s' → keeps_exclusive s s'.
Proof. unfold decide_should_tiled. intros H. bind_inv; chain. Qed.
#[global] Hint Resolve decide_should_tiled_keeps : frame.

Lemma new_container_keeps s cont :
  c_state cont = 0 →
  keeps_exclusive s (with_containers s (containers s ++ [cont])).
Proof.
  intros Hst Hinv c cont' Hc. simpl in Hc.
  apply lookup_app_Some in Hc as [Hc|[_ Hc]]; [by eapply Hinv|].
  apply list_lookup_singleton_Some in Hc as [_ <-].
  unfold exclusive, cwc_container_is_fullscreen. rewrite Hst.
  by intros [? _].
Qed.

Lemma container_init_keeps fuel t bw s s' :
  cwc_container_init fuel t bw s = Some s' → keeps_exclusive s s'.
Proof.
  unfold cwc_container_init. intros H. bind_inv;
    match goal with
    | H : modify_toplevel _ _ (with_containers s (containers s ++ [?cont]))
          = Some _ |- _ =>
        transitivity (with_containers s (containers s ++ [cont]));
        [by apply new_container_keeps|]
    end; chain.
Qed.
#[global] Hint Resolve container_init_keeps : frame.

Lemma on_surface_map_keeps fuel t s s' :
  on_surface_map fuel t s = Some s' → keeps_exclusive s s'.
Proof. unfold on_surface_map. intros H. bind_inv; chain. Qed.
#[global] Hint Resolve on_surface_map_keeps : frame.

Lemma set_geometry_geom c tbl s s' :
  LuaContainer.luaC_container_set_geometry c tbl s = Some s' → geom_only s s'.
Proof.
  unfold LuaContainer.luaC_container_set_geometry. intros H. bind_inv; chain.
Qed.
#[global] Hint Resolve set_geometry_geom : frame.

Lemma step_keeps s s' : step s s' → keeps_exclusive s s'.
Proof. destruct 1; chain. Qed.

Lemma reachable_exclusive s : reachable s → fullscreen_maximized_exclusive s.
Proof.
  induction 1 as [s Hs|s s' _ IH Hstep].
  - intros c cont Hc. by rewrite Hs in Hc.
  - by apply (step_keeps _ _ Hstep).
Qed.

(** *** What a resize and a move write *)

Lemma modify_container_lookup c f s s' cont :
  containers s !! c = Some cont → modify_container c f s = Some s' →
  containers s' !! c = Some (f cont).
Proof.
  unfold modify_container. intros Hc H. rewrite Hc in H. simplify_eq/=.
  apply list_lookup_insert_eq. by eapply lookup_lt_Some.
Qed.

Lemma should_save_stable s s' cont cont' :
  output s' = output s → container_erase cont' = container_erase cont →
  cwc_container_should_save_floating_box s' cont'
  = cwc_container_should_save_floating_box s cont.
Proof.
  intros Ho He. unfold cwc_container_should_save_floating_box.
  rewrite (erase_is_floating _ _ _ _ Ho He).
  unfold cwc_container_is_fullscreen, cwc_container_is_maximized.
  by rewrite (f_equal c_state He : c_state cont' = c_state cont).
Qed.

Lemma set_size_spec c w h s s' cont :
  containers s !! c = Some cont →
  cwc_container_set_size c w h s = Some s' →
  ∃ cont', containers s' !! c = Some cont'
    ∧ container_erase cont' = container_erase cont
    ∧ c_x cont' = c_x cont ∧ c_y cont' = c_y cont
    ∧ c_width cont' = w ∧ c_height cont' = h
    ∧ c_floating_box cont'
      = if cwc_container_should_save_floating_box s cont
        then mk_box (box_x (c_floating_box cont))
               (box_y (c_floating_box cont)) w h
        else c_floating_box cont.
Proof.
  intros Hc H. pose proof (set_size_geom _ _ _ _ _ H) as Hg.
  unfold cwc_container_set_size in H. rewrite Hc in H. simpl in H.
  bind_inv. destruct x as [rect s1]. simplify_eq. bind_inv.
  match goal with
  | E0 : cwc_container_for_each_bottom_to_top _ _ s = Some (_, ?s1),
    E1 : modify_container c _ ?s1 = Some ?s2,
    E2 : modify_container c _ ?s2 = Some ?s3,
    E3 : modify_container c _ ?s3 = Some s' |- _ =>
      pose proof (for_each_bottom_to_top_containers _ _ _ _ _ E0) as C0;
      assert (Hc1 : containers s1 !! c = Some cont) by (by rewrite C0);
      pose proof (modify_container_lookup _ _ _ _ _ Hc1 E1) as Hc2;
      pose proof (modify_container_lookup _ _ _ _ _ Hc2 E2) as Hc3;
      pose proof (modify_container_lookup _ _ _ _ _ Hc3 E3) as Hc4;
      assert (G2 : geom_only s s2) by (clear E2 E3; chain)
  end.
  eexists. split; [exact Hc4|].
  destruct (geom_only_container _ _ _ _ Hg Hc) as (cont' & Hc' & He).
  rewrite Hc4 in Hc'. split; [congruence|].
  match type of Hc4 with
  | context [cwc_container_should_save_floating_box ?s2 ?c2] =>
      assert (Hs : cwc_container_should_save_floating_box s2 c2
                   = cwc_container_should_save_floating_box s cont)
        by (apply should_save_stable; [apply G2|];
            destruct cont as [? ? ? ? ? ? ? ? ? ? ? [? ? ? ? []]];
            reflexivity)
  end.
  rewrite Hs. by destruct (cwc_container_should_save_floating_box s cont).
Qed.

Lemma set_position_spec c x y s s' cont :
  containers s !! c = Some cont →
  cwc_container_set_position c x y s = Some s' →
  ∃ cont', containers s' !! c = Some cont'
    ∧ container_erase cont' = container_erase cont
    ∧ c_x cont' = x ∧ c_y cont' = y
    ∧ c_width cont' = c_width cont ∧ c_height cont' = c_height cont
    ∧ c_border cont' = c_border cont
    ∧ c_floating_box cont'
      = if cwc_container_should_save_floating_box s cont
        then mk_box x y (box_width (c_floating_box cont))
               (box_height (c_floating_box cont))
        else c_floating_box cont.
Proof.
  intros Hc H. unfold cwc_container_set_position in H. bind_inv.
  match goal with
  | E1 : modify_container c _ s = Some ?s1,
    E2 : modify_container c _ ?s1 = Some s' |- _ =>
      pose proof (modify_container_lookup _ _ _ _ _ Hc E1) as Hc1;
      pose proof (modify_container_lookup _ _ _ _ _ Hc1 E2) as Hc2;
      assert (G1 : geom_only s s1) by (clear E2; chain)
  end.
  cbv beta in Hc2.
  eexists. split; [exact Hc2|].
  match type of Hc2 with
  | context [cwc_container_should_save_floating_box ?s1 ?c1] =>
      assert (Hs : cwc_container_should_save_floating_box s1 c1
                   = cwc_container_should_save_floating_box s cont)
        by (apply should_save_stable; [apply G1|by destruct cont])
  end.
  rewrite Hs. by destruct (cwc_container_should_save_floating_box s cont).
Qed.

(** *** The operations return: sizes and positions *)

Lemma shape_container_lookup s c :
  sh_containers (shape_of s) !! c = shape_of_container <$> containers s !! c.
Proof. unfold shape_of. simpl. apply list_lookup_fmap. Qed.

Lemma shape_toplevel_lookup s t :
  sh_toplevels (shape_of s) !! t = t_container <$> toplevels s !! t.
Proof. unfold shape_of. simpl. apply list_lookup_fmap. Qed.

Lemma shape_node_lookup s n :
  sh_nodes (shape_of s) !! n = shape_of_node <$> bsp_nodes s !! n.
Proof. unfold shape_of. simpl. apply list_lookup_fmap. Qed.

Lemma geom_only_is_Some_container s s' c :
  geom_only s s' → is_Some (containers s !! c) → is_Some (containers s' !! c).
Proof.
  intros Hg [cont Hc].
  destruct (geom_only_container _ _ _ _ Hg Hc) as (cont' & Hc' & _). eauto.
Qed.

Lemma geom_only_wf_shape s s' :
  geom_only s s' → wf_shape (shape_of s) → wf_shape (shape_of s').
Proof. intros Hg. by rewrite (geom_only_shape _ _ Hg). Qed.

Lemma toplevel_of_shape s t c :
  sh_toplevels (shape_of s) !! t = Some (Some c) →
  ∃ top, toplevels s !! t = Some top ∧ t_container top = Some c.
Proof.
  rewrite shape_toplevel_lookup. intros H.
  destruct (toplevels s !! t) as [top|]; simplify_eq/=. eauto.
Qed.

Lemma all_toplevel_set_size_total t c0 box s :
  is_Some (containers s !! c0) →
  sh_toplevels (shape_of s) !! t = Some (Some c0) →
  ∃ box' s', all_toplevel_set_size t box s = Some (box', s').
Proof.
  intros [cont Hc] Ht. destruct (toplevel_of_shape _ _ _ Ht) as (top & Htop & Htc).
  unfold all_toplevel_set_size, toplevel_container, modify_toplevel.
  rewrite Htop. simpl. rewrite Htc. simpl. rewrite Hc. simpl.
  destruct (cwc_toplevel_is_x11 top); simpl; rewrite ?Htop; simpl; eauto.
Qed.

Lemma for_each_bottom_to_top_total c0 ts : ∀ box s,
  is_Some (containers s !! c0) →
  (∀ t, t ∈ ts → sh_toplevels (shape_of s) !! t = Some (Some c0)) →
  ∃ box' s', cwc_container_for_each_bottom_to_top ts box s = Some (box', s').
Proof.
  induction ts as [|t ts IH]; simpl; intros box s Hc Hts; [eauto|].
  destruct (all_toplevel_set_size_total t c0 box s) as (box1 & s1 & E);
    [done|apply Hts; left|].
  rewrite E. simpl.
  pose proof (all_toplevel_set_size_geom _ _ _ _ _ E) as Hg.
  apply IH.
  - by eapply geom_only_is_Some_container.
  - intros t' Ht'. rewrite (geom_only_shape _ _ Hg). apply Hts. by right.
Qed.

Lemma modify_container_total c f s :
  is_Some (containers s !! c) → ∃ s', modify_container c f s = Some s'.
Proof. intros [cont Hc]. unfold modify_container. rewrite Hc. simpl. eauto. Qed.

Lemma modify_container_is_Some c c' f s s' :
  modify_container c f s = Some s' →
  is_Some (containers s !! c') → is_Some (containers s' !! c').
Proof.
  unfold modify_container. intros H. bind_inv. simpl.
  rewrite !lookup_lt_is_Some. by rewrite length_insert.
Qed.

Lemma children_of_wf s c cont t :
  wf_shape (shape_of s) → containers s !! c = Some cont →
  t ∈ c_toplevels cont ++ c_tree_children cont →
  sh_toplevels (shape_of s) !! t = Some (Some c).
Proof.
  intros Hwf Hc Ht. eapply (wf_children _ Hwf c (shape_of_container cont)).
  - by rewrite shape_container_lookup, Hc.
  - done.
Qed.

Lemma set_size_total c w h s :
  wf_shape (shape_of s) → is_Some (containers s !! c) →
  ∃ s', cwc_container_set_size c w h s = Some s'.
Proof.
  intros Hwf [cont Hc]. unfold cwc_container_set_size. rewrite Hc. simpl.
  edestruct (for_each_bottom_to_top_total c (c_tree_children cont))
    as (rect & s1 & E); [by eauto| |rewrite E; simpl].
  { intros t Ht. eapply children_of_wf; eauto. apply elem_of_app. by right. }
  assert (H1 : is_Some (containers s1 !! c)).
  { rewrite (for_each_bottom_to_top_containers _ _ _ _ _ E). eauto. }
  edestruct (modify_container_total c) as [s2 E2]; [exact H1|].
  rewrite E2. simpl.
  pose proof (modify_container_is_Some _ c _ _ _ E2 H1) as H2.
  edestruct (modify_container_total c) as [s3 E3]; [exact H2|].
  rewrite E3. simpl.
  pose proof (modify_container_is_Some _ c _ _ _ E3 H2) as H3.
  by apply modify_container_total.
Qed.

Lemma set_position_total c x y s :
  is_Some (containers s !! c) →
  ∃ s', cwc_container_set_position c x y s = Some s'.
Proof.
  intros H. unfold cwc_container_set_position.
  edestruct (modify_container_total c) as [s1 E1]; [exact H|].
  rewrite E1. simpl.
  pose proof (modify_container_is_Some _ c _ _ _ E1 H) as H1.
  by apply modify_container_total.
Qed.

Lemma set_position_gap_total c x y s :
  is_Some (containers s !! c) →
  ∃ s', cwc_container_set_position_gap c x y s = Some s'.
Proof. apply set_position_total. Qed.

Lemma restore_floating_box_total c s :
  wf_shape (shape_of s) → is_Some (containers s !! c) →
  ∃ s', cwc_container_restore_floating_box c s = Some s'.
Proof.
  intros Hwf [cont Hc]. unfold cwc_container_restore_floating_box.
  rewrite Hc. simpl.
  edestruct (set_position_total c) as [s1 E1]; [by eauto|].
  rewrite E1. simpl.
  pose proof (set_position_geom _ _ _ _ _ E1) as Hg.
  destruct (geom_only_container _ _ _ _ Hg Hc) as (cont1 & Hc1 & _).
  rewrite Hc1. simpl. apply set_size_total; [by eapply geom_only_wf_shape|eauto].
Qed.

Lemma set_size_surface_total t c w h s :
  wf_shape (shape_of s) → is_Some (containers s !! c) →
  sh_toplevels (shape_of s) !! t = Some (Some c) →
  ∃ s', cwc_toplevel_set_size_surface t w h s = Some s'.
Proof.
  intros Hwf [cont Hc] Ht.
  destruct (toplevel_of_shape _ _ _ Ht) as (top & Htop & Htc).
  unfold cwc_toplevel_set_size_surface, toplevel_container.
  rewrite Htop. simpl. rewrite Htc. simpl. rewrite Hc. simpl.
  apply set_size_total; eauto.
Qed.

Lemma toplevel_set_position_total t c x y s :
  is_Some (containers s !! c) →
  sh_toplevels (shape_of s) !! t = Some (Some c) →
  ∃ s', cwc_toplevel_set_position t x y s = Some s'.
Proof.
  intros [cont Hc] Ht.
  destruct (toplevel_of_shape _ _ _ Ht) as (top & Htop & Htc).
  unfold cwc_toplevel_set_position, toplevel_container.
  rewrite Htop. simpl. rewrite Htc. simpl. rewrite Hc. simpl.
  apply set_position_total; eauto.
Qed.
(** *** The operations return: the BSP tree *)

Lemma node_of_shape s sh n ns :
  shape_of s = sh → sh_nodes sh !! n = Some ns →
  ∃ nd, bsp_nodes s !! n = Some nd ∧ shape_of_node nd = ns.
Proof.
  intros <-. rewrite shape_node_lookup. intros H.
  destruct (bsp_nodes s !! n) as [nd|]; simplify_eq/=. eauto.
Qed.

Lemma container_of_shape s sh c :
  shape_of s = sh → is_Some (sh_containers sh !! c) →
  is_Some (containers s !! c).
Proof.
  intros <-. rewrite shape_container_lookup. intros [cs H].
  destruct (containers s !! c) as [cont|]; simplify_eq/=. eauto.
Qed.

Lemma modify_node_total_sh sh n f s :
  shape_of s = sh → is_Some (sh_nodes sh !! n) →
  (∀ x, node_erase (f x) = node_erase x) →
  ∃ s', modify_node n f s = Some s' ∧ shape_of s' = sh.
Proof.
  intros Hsh [ns Hn] Hf.
  destruct (node_of_shape _ _ _ _ Hsh Hn) as (nd & Hnd & _).
  unfold modify_node. rewrite Hnd. simpl. eexists. split; [done|].
  rewrite <- Hsh. apply geom_only_shape.
  eapply (modify_node_geom n f); [done|]. unfold modify_node. by rewrite Hnd.
Qed.

Lemma leaf_configure_total_sh sh n ns x y w h s :
  wf_shape sh → shape_of s = sh → sh_nodes sh !! n = Some ns →
  ns_type ns = BSP_NODE_LEAF →
  (∃ c, ns_container ns = Some c ∧ is_Some (sh_containers sh !! c)) →
  ∃ s', bsp_node_leaf_configure n x y w h s = Some s' ∧ shape_of s' = sh.
Proof.
  intros Hwf Hsh Hn Hleaf (c & Hc & Hcv).
  destruct (node_of_shape _ _ _ _ Hsh Hn) as (nd & Hnd & Hns).
  destruct (container_of_shape _ _ _ Hsh Hcv) as [cont Hcont].
  assert (n_container nd = Some c) as Hnc by (by subst ns).
  assert (∀ s', (∃ s1, bsp_node_leaf_configure n x y w h s = Some s1)
                → bsp_node_leaf_configure n x y w h s = Some s' →
                shape_of s' = sh) as Hshape.
  { intros s' _ E. rewrite <- Hsh. apply geom_only_shape. eauto with frame. }
  cut (∃ s', bsp_node_leaf_configure n x y w h s = Some s').
  { intros [s' E]. exists s'. split; [done|]. eapply Hshape; eauto. }
  unfold bsp_node_leaf_configure. rewrite Hnd. simpl. rewrite Hnc. simpl.
  rewrite Hcont. simpl.
  destruct (cwc_container_is_configure_allowed cont); simpl; [|eauto].
  assert (∃ s1, (if negb (cwc_container_is_floating s cont)
                 then s0 ← cwc_container_set_size c w h s;
                      cwc_container_set_position_gap c x y s0
                 else Some s) = Some s1 ∧ shape_of s1 = sh) as (s1 & E1 & Sh1).
  { destruct (cwc_container_is_floating s cont); simpl; [eauto|].
    destruct (set_size_total c w h s) as [s0 E0]; [by subst sh|eauto|].
    rewrite E0. simpl.
    pose proof (set_size_geom _ _ _ _ _ E0) as G0.
    destruct (set_position_gap_total c x y s0) as [s1 E1].
    { eapply geom_only_is_Some_container; eauto. }
    exists s1. split; [done|]. rewrite <- Hsh. apply geom_only_shape.
    etransitivity; eauto with frame. }
  rewrite E1. simpl.
  destruct (modify_node_total_sh sh n (n_set_position x y) s1)
    as (s2 & E2 & Sh2); [done|eauto|by intros []|].
  rewrite E2. simpl.
  destruct (modify_node_total_sh sh n (n_set_size w h) s2)
    as (s3 & E3 & Sh3); [done|eauto|by intros []|].
  eauto.
Qed.

(** Runs the next [modify_node] of the goal. *)
Ltac run_modify_node sh :=
  match goal with
  | |- context [modify_node ?n ?f ?s] =>
      let s1 := fresh "s" in
      let E := fresh "E" in
      let Sh := fresh "Sh" in
      destruct (modify_node_total_sh sh n f s) as (s1 & E & Sh);
      [ done | eauto | by intros [] | rewrite E; simpl ]
  end.

Lemma bsp_update_node_total sh rk N :
  wf_shape sh → nodes_ok rk N sh →
  ∀ fuel n s ns, shape_of s = sh → sh_nodes sh !! n = Some ns →
    ns_type ns = BSP_NODE_INTERNAL → (rk n < fuel)%nat →
    ∃ s', bsp_update_node fuel n s = Some s' ∧ shape_of s' = sh.
Proof.
  intros Hwf Hok. induction fuel as [|fuel IH]; intros n s ns Hsh Hn Hint Hrk;
    [lia|].
  destruct (Hok n ns Hn) as (HN & Hpar & Hkind). rewrite Hint in Hkind.
  destruct Hkind as (Hsplit & l & r & Hl & Hr & [nsl Hnl] & [nsr Hnr] & Hrl & Hrr).
  destruct (node_of_shape _ _ _ _ Hsh Hn) as (p & Hp & Hps).
  simpl. rewrite Hp. simpl.
  assert (n_left p = Some l) as Hpl by (by subst ns).
  assert (n_right p = Some r) as Hpr by (by subst ns).
  assert (n_split_type p ≠ BSP_SPLIT_AUTO) as Hpsplit by (by subst ns).
  rewrite Hpl, Hpr. simpl.
  run_modify_node sh.
  assert (∃ s1, match n_split_type p with
                | BSP_SPLIT_AUTO => None
                | BSP_SPLIT_VERTICAL =>
                    s1 ← modify_node l
                           (n_set_size
                              (CDouble.int_mul_double (n_width p) (n_left_wfact p))
                              (n_height p)) s0;
                    l0 ← bsp_nodes s1 !! l;
                    s2 ← modify_node r
                           (n_set_size (n_width p - n_width l0) (n_height p)) s1;
                    modify_node r (n_set_position (n_x l0 + n_width l0) (n_y l0)) s2
                | BSP_SPLIT_HORIZONTAL =>
                    s1 ← modify_node l
                           (n_set_size (n_width p)
                              (CDouble.int_mul_double (n_height p) (n_left_wfact p)))
                           s0;
                    l0 ← bsp_nodes s1 !! l;
                    s2 ← modify_node r
                           (n_set_size (n_width p) (n_height p - n_height l0)) s1;
                    modify_node r (n_set_position (n_x l0) (n_y l0 + n_height l0)) s2
                end = Some s1 ∧ shape_of s1 = sh) as (s1 & E1 & Sh1).
  { destruct (n_split_type p); [done| |].
    - run_modify_node sh.
      destruct (node_of_shape _ _ _ _ Sh0 Hnl) as (l0 & Hl0 & _).
      rewrite Hl0. simpl. run_modify_node sh.
      eapply modify_node_total_sh; [done|eauto|by intros []].
    - run_modify_node sh.
      destruct (node_of_shape _ _ _ _ Sh0 Hnl) as (l0 & Hl0 & _).
      rewrite Hl0. simpl. run_modify_node sh.
      eapply modify_node_total_sh; [done|eauto|by intros []]. }
  rewrite E1. simpl.
  destruct (node_of_shape _ _ _ _ Sh1 Hnr) as (r1 & Hr1 & _).
  rewrite Hr1. simpl.
  assert (∃ s2, (if negb (n_enabled r1)
                 then modify_node l (n_set_size (n_width p) (n_height p)) s1
                 else Some s1) = Some s2 ∧ shape_of s2 = sh) as (s2 & E2 & Sh2).
  { destruct (n_enabled r1); simpl; [eauto|].
    eapply modify_node_total_sh; [done|eauto|by intros []]. }
  rewrite E2. simpl.
  destruct (node_of_shape _ _ _ _ Sh2 Hnl) as (l2 & Hl2 & Hl2s).
  rewrite Hl2. simpl.
  assert (∃ s3, (if n_enabled l2
                 then match n_type l2 with
                      | BSP_NODE_INTERNAL =>
                          s3 ← modify_node l (n_set_position (n_x p) (n_y p)) s2;
                          bsp_update_node fuel l s3
                      | BSP_NODE_LEAF =>
                          bsp_node_leaf_configure l (n_x p) (n_y p)
                            (n_width l2) (n_height l2) s2
                      end
                 else s3 ← modify_node r (n_set_position (n_x p) (n_y p)) s2;
                      modify_node r (n_set_size (n_width p) (n_height p)) s3)
                = Some s3 ∧ shape_of s3 = sh) as (s3 & E3 & Sh3).
  { destruct (n_enabled l2).
    - assert (n_type l2 = ns_type nsl) as -> by (by subst nsl).
      destruct (Hok l nsl Hnl) as (_ & _ & Hlk).
      destruct (ns_type nsl) eqn:Et.
      + run_modify_node sh. eapply IH; eauto. lia.
      + eapply leaf_configure_total_sh; eauto.
    - run_modify_node sh.
      eapply modify_node_total_sh; [done|eauto|by intros []]. }
  rewrite E3. simpl.
  destruct (node_of_shape _ _ _ _ Sh3 Hnr) as (r3 & Hr3 & Hr3s).
  rewrite Hr3. simpl.
  destruct (n_enabled r3); [|eauto].
  assert (n_type r3 = ns_type nsr) as -> by (by subst nsr).
  destruct (Hok r nsr Hnr) as (_ & _ & Hrk').
  destruct (ns_type nsr) eqn:Et.
  - eapply IH; eauto. lia.
  - eapply leaf_configure_total_sh; eauto.
Qed.

Lemma wf_views_roots_ok s : wf_views s → roots_ok (shape_of s) (output s).
Proof.
  intros Hv ws r Hr. destruct (Hv ws) as [_ H]. specialize (H r Hr).
  rewrite shape_node_lookup. destruct H as [nd ->]. eauto.
Qed.

Lemma bsp_update_root_total sh rk N fuel ws s :
  wf_shape sh → nodes_ok rk N sh → roots_ok sh (output s) →
  shape_of s = sh → (N < fuel)%nat →
  ∃ s', bsp_update_root fuel ws s = Some s' ∧ shape_of s' = sh.
Proof.
  intros Hwf Hok Hroots Hsh Hfuel. unfold bsp_update_root, bsp_entry_get.
  destruct (root (vi_bsp_root_entry (view_info (output s) ws))) as [r|] eqn:Er;
    [|eauto].
  simpl. rewrite Er. simpl.
  destruct (Hroots ws r Er) as [ns Hn].
  destruct (node_of_shape _ _ _ _ Hsh Hn) as (nd & Hnd & Hns).
  rewrite Hnd. simpl.
  assert (n_type nd = ns_type ns) as -> by (by subst ns).
  destruct (Hok r ns Hn) as (HN & _ & Hkind).
  destruct (ns_type ns) eqn:Et.
  - run_modify_node sh. run_modify_node sh.
    eapply bsp_update_node_total; eauto. lia.
  - eapply leaf_configure_total_sh; eauto.
Qed.

Lemma modify_node_shape n f s s' :
  (∀ x, shape_of_node (f x) = shape_of_node x) →
  modify_node n f s = Some s' →
  shape_of s' = shape_of s ∧ output s' = output s.
Proof.
  intros Hf H. unfold modify_node in H. bind_inv. split; [|done].
  unfold shape_of. simpl. f_equal. by eapply fmap_insert_same.
Qed.

Lemma modify_node_total_shape sh n f s :
  shape_of s = sh → is_Some (sh_nodes sh !! n) →
  (∀ x, shape_of_node (f x) = shape_of_node x) →
  ∃ s', modify_node n f s = Some s' ∧ shape_of s' = sh
        ∧ output s' = output s.
Proof.
  intros Hsh [ns Hn] Hf.
  destruct (node_of_shape _ _ _ _ Hsh Hn) as (nd & Hnd & _).
  destruct (modify_node n f s) as [s'|] eqn:E.
  - destruct (modify_node_shape _ _ _ _ Hf E) as [? ?].
    exists s'. split_and!; congruence.
  - unfold modify_node in E. by rewrite Hnd in E.
Qed.

Lemma _bsp_node_enable_total sh rk N :
  nodes_ok rk N sh →
  ∀ fuel n s, shape_of s = sh → is_Some (sh_nodes sh !! n) →
    (N - rk n < fuel)%nat →
    ∃ r s', _bsp_node_enable fuel n s = Some (r, s') ∧ shape_of s' = sh
            ∧ output s' = output s ∧ is_Some (sh_nodes sh !! r).
Proof.
  intros Hok. induction fuel as [|fuel IH]; intros n s Hsh [ns Hn] Hfuel;
    [lia|].
  simpl.
  destruct (modify_node_total_shape sh n (n_set_enabled true) s)
    as (s1 & E1 & Sh1 & O1); [done|eauto|by intros []|].
  rewrite E1. simpl.
  destruct (node_of_shape _ _ _ _ Sh1 Hn) as (nd & Hnd & Hns).
  rewrite Hnd. simpl.
  assert (n_parent nd = ns_parent ns) as -> by (by subst ns).
  destruct (Hok n ns Hn) as (HN & Hpar & _).
  destruct (ns_parent ns) as [p|] eqn:Ep.
  - destruct (Hpar p eq_refl) as (ps & Hp & Hrk & _).
    destruct (IH p s1) as (r & s' & E & Sh & O & Hr); [done|eauto|lia|].
    exists r, s'. split_and!; [done|done|congruence|done].
  - exists n, s1. split_and!; eauto.
Qed.

Lemma bsp_node_enable_total sh rk N fuel n s :
  wf_shape sh → nodes_ok rk N sh → roots_ok sh (output s) →
  shape_of s = sh → is_Some (sh_nodes sh !! n) → (N < fuel)%nat →
  ∃ s', bsp_node_enable fuel n s = Some s' ∧ shape_of s' = sh.
Proof.
  intros Hwf Hok Hroots Hsh Hn Hfuel. unfold bsp_node_enable.
  destruct (_bsp_node_enable_total sh rk N Hok fuel n s)
    as (r & s1 & E1 & Sh1 & O1 & [ns Hr]); [done|done|lia|].
  rewrite E1. simpl.
  destruct (node_of_shape _ _ _ _ Sh1 Hr) as (nd & Hnd & Hns).
  rewrite Hnd. simpl.
  assert (n_type nd = ns_type ns) as -> by (by subst ns).
  destruct (Hok r ns Hr) as (HN & _ & Hkind).
  destruct (ns_type ns) eqn:Et.
  - eapply bsp_update_node_total; eauto. lia.
  - destruct Hkind as (c & Hc & Hcv).
    assert (n_container nd = Some c) as -> by (by subst ns). simpl.
    destruct (container_of_shape _ _ _ Sh1 Hcv) as [cont ->]. simpl.
    eapply bsp_update_root_total; eauto. by rewrite O1.
Qed.

Lemma _bsp_node_disable_total sh rk N :
  nodes_ok rk N sh →
  ∀ fuel n s, shape_of s = sh → is_Some (sh_nodes sh !! n) →
    (N - rk n < fuel)%nat →
    ∃ r s', _bsp_node_disable fuel n s = Some (r, s') ∧ shape_of s' = sh
            ∧ output s' = output s ∧ is_Some (sh_nodes sh !! r).
Proof.
  intros Hok. induction fuel as [|fuel IH]; intros n s Hsh [ns Hn] Hfuel;
    [lia|].
  simpl.
  destruct (modify_node_total_shape sh n (n_set_enabled false) s)
    as (s1 & E1 & Sh1 & O1); [done|eauto|by intros []|].
  rewrite E1. simpl.
  destruct (node_of_shape _ _ _ _ Sh1 Hn) as (nd & Hnd & Hns).
  rewrite Hnd. simpl.
  assert (n_parent nd = ns_parent ns) as -> by (by subst ns).
  destruct (Hok n ns Hn) as (HN & Hpar & _).
  destruct (ns_parent ns) as [p|] eqn:Ep.
  - destruct (Hpar p eq_refl) as (ps & Hp & Hrk & Hpint & _).
    destruct (node_of_shape _ _ _ _ Sh1 Hp) as (pn & Hpn & Hpns).
    rewrite Hpn. simpl.
    destruct (Hok p ps Hp) as (_ & _ & Hkind). rewrite Hpint in Hkind.
    destruct Hkind as (_ & l & r & Hl & Hr & [nsl Hnl] & [nsr Hnr] & _).
    assert (n_left pn = Some l) as -> by (by subst ps).
    assert (n_right pn = Some r) as -> by (by subst ps). simpl.
    destruct (node_of_shape _ _ _ _ Sh1 Hnl) as (ln & -> & _).
    destruct (node_of_shape _ _ _ _ Sh1 Hnr) as (rn & -> & _). simpl.
    destruct (negb (n_enabled ln) && negb (n_enabled rn)).
    + destruct (IH p s1) as (r' & s' & E & Sh & O & Hr'); [done|eauto|lia|].
      exists r', s'. split_and!; [done|done|congruence|done].
    + exists n, s1. split_and!; eauto.
  - exists n, s1. split_and!; eauto.
Qed.

Lemma bsp_node_disable_total sh rk N fuel n s :
  wf_shape sh → nodes_ok rk N sh → roots_ok sh (output s) →
  shape_of s = sh → is_Some (sh_nodes sh !! n) → (N < fuel)%nat →
  ∃ s', bsp_node_disable fuel n s = Some s' ∧ shape_of s' = sh.
Proof.
  intros Hwf Hok Hroots Hsh Hn Hfuel. unfold bsp_node_disable.
  destruct (_bsp_node_disable_total sh rk N Hok fuel n s)
    as (r & s1 & E1 & Sh1 & O1 & [ns Hr]); [done|done|lia|].
  rewrite E1. simpl.
  destruct (node_of_shape _ _ _ _ Sh1 Hr) as (nd & Hnd & Hns).
  rewrite Hnd. simpl.
  assert (n_type nd = ns_type ns) as -> by (by subst ns).
  assert (n_parent nd = ns_parent ns) as -> by (by subst ns).
  destruct (Hok r ns Hr) as (HN & Hpar & Hkind).
  destruct (ns_type ns) eqn:Et.
  - destruct (ns_parent ns) as [p|] eqn:Ep; [|eauto].
    destruct (Hpar p eq_refl) as (ps & Hp & Hrk & Hpint & _).
    destruct (Hok p ps Hp) as (? & _ & _).
    eapply bsp_update_node_total; eauto. lia.
  - destruct Hkind as (c & Hc & Hcv).
    assert (n_container nd = Some c) as -> by (by subst ns). simpl.
    destruct (container_of_shape _ _ _ Sh1 Hcv) as [cont ->]. simpl.
    eapply bsp_update_root_total; eauto. by rewrite O1.
Qed.

(** *** Checking well-formedness of a concrete server *)

Lemma all_from_lookup {A} (P : nat → A → bool) (l : list A) : ∀ i k x,
  all_from P i l = true → l !! k = Some x → P (i + k)%nat x = true.
Proof.
  induction l as [|y l IH]; intros i k x H Hk; [done|].
  simpl in H. apply andb_true_iff in H as [H1 H2].
  destruct k as [|k]; simpl in Hk.
  - injection Hk as <-. by rewrite Nat.add_0_r.
  - rewrite <- Nat.add_succ_comm. by eapply IH.
Qed.

Lemma has_is_Some {A} (l : list A) i : has l i = true → is_Some (l !! i).
Proof. unfold has. destruct (l !! i); [eauto|done]. Qed.

Lemma option_nat_eqb_eq a b : option_nat_eqb a b = true → a = b.
Proof.
  destruct a, b; simpl; try done. intros H. by apply Nat.eqb_eq in H as ->.
Qed.

Lemma node_ok_b_sound rks N sh n ns :
  node_ok_b rks N sh n ns = true → node_ok (rank_of rks) N sh n ns.
Proof.
  unfold node_ok_b, node_ok. intros H.
  apply andb_true_iff in H as [H H3]. apply andb_true_iff in H as [H1 H2].
  split_and!.
  - by apply Nat.ltb_lt.
  - intros p Hp. rewrite Hp in H2.
    destruct (sh_nodes sh !! p) as [ps|]; [|done].
    apply andb_true_iff in H2 as [H2 Hc]. apply andb_true_iff in H2 as [Hr Hi].
    exists ps. split_and!; [done|by apply Nat.ltb_lt| |].
    + by destruct (ns_type ps).
    + apply orb_true_iff in Hc as [Hc|Hc]; apply option_nat_eqb_eq in Hc;
        eauto.
  - destruct (ns_type ns).
    + apply andb_true_iff in H3 as [Ha H3]. split.
      * intros E. by rewrite E in Ha.
      * destruct (ns_left ns) as [l|], (ns_right ns) as [r|]; try done.
        apply andb_true_iff in H3 as [H3 Hrr].
        apply andb_true_iff in H3 as [H3 Hrl].
        apply andb_true_iff in H3 as [Hl Hr].
        exists l, r.
        split_and!; [done|done|by apply has_is_Some|by apply has_is_Some
                    |by apply Nat.ltb_lt|by apply Nat.ltb_lt].
    + destruct (ns_container ns) as [c|]; [|done].
      exists c. split; [done|by apply has_is_Some].
Qed.

Lemma wf_shape_b_sound rks N sh : wf_shape_b rks N sh = true → wf_shape sh.
Proof.
  unfold wf_shape_b. intros H.
  apply andb_true_iff in H as [H Hn]. apply andb_true_iff in H as [Hc Ho].
  assert (∀ c cs, sh_containers sh !! c = Some cs →
            container_ok_b sh c cs = true) as Hcs.
  { intros c cs Hl. by apply (all_from_lookup _ _ 0%nat c cs Hc). }
  split.
  - intros c cs Hl E. specialize (Hcs c cs Hl). unfold container_ok_b in Hcs.
    by rewrite E in Hcs.
  - intros c cs t Hl Ht. specialize (Hcs c cs Hl).
    unfold container_ok_b in Hcs.
    apply andb_true_iff in Hcs as [Hcs _].
    apply andb_true_iff in Hcs as [_ Hcs].
    rewrite forallb_forall in Hcs. apply list_elem_of_In, Hcs in Ht.
    destruct (sh_toplevels sh !! t) as [[c'|]|]; try done.
    by apply Nat.eqb_eq in Ht as ->.
  - intros c Hin. rewrite forallb_forall in Ho.
    apply has_is_Some, Ho. by apply list_elem_of_In.
  - intros c cs n Hl Hnode. specialize (Hcs c cs Hl).
    unfold container_ok_b in Hcs. apply andb_true_iff in Hcs as [_ Hcs].
    rewrite Hnode in Hcs. by apply has_is_Some.
  - exists (rank_of rks), N. intros n ns Hl. apply node_ok_b_sound.
    by apply (all_from_lookup _ _ 0%nat n ns Hn).
Qed.

(** *** The minimum size (claim C7) *)

Lemma modify_container_toplevels c f s s' :
  modify_container c f s = Some s' → toplevels s' = toplevels s.
Proof. unfold modify_container. intros H. by bind_inv. Qed.

Lemma all_toplevel_set_size_conf t box s box' s' :
  all_toplevel_set_size t box s = Some (box', s') →
  box.1 <= box'.1 ∧ box.2 <= box'.2
  ∧ (∃ top, toplevels s' !! t = Some top
            ∧ t_conf_width top = box'.1 ∧ t_conf_height top = box'.2)
  ∧ ∀ t', t' ≠ t → toplevels s' !! t' = toplevels s !! t'.
Proof.
  unfold all_toplevel_set_size, modify_toplevel. intros H. bind_inv.
  all: simpl; split_and!; try lia.
  all: try (eexists; split;
            [apply list_lookup_insert_eq; by eapply lookup_lt_Some|done]).
  all: try (destruct (cwc_container_is_floating _ _); simpl; lia).
  all: intros t' Hne; by apply list_lookup_insert_ne.
Qed.

Lemma for_each_bottom_to_top_conf m ts : ∀ done_ box s box' s',
  m <= box.1 → m <= box.2 →
  (∀ t, t ∈ done_ → configured_at_least s t m) →
  cwc_container_for_each_bottom_to_top ts box s = Some (box', s') →
  ∀ t, t ∈ done_ ++ ts → configured_at_least s' t m.
Proof.
  induction ts as [|t0 ts IH]; simpl; intros done_ box s box' s' H1 H2 Hd H.
  - injection H as <- <-. intros t. rewrite app_nil_r. apply Hd.
  - bind_inv.
    match goal with
    | E : all_toplevel_set_size _ _ _ = Some (?b, ?s1) |- _ =>
        destruct (all_toplevel_set_size_conf _ _ _ _ _ E)
          as (L1 & L2 & (top & Htop & Hw & Hh) & Hother)
    end.
    intros t Ht.
    eapply (IH (done_ ++ [t0])); [| | |eassumption|].
    + lia.
    + lia.
    + intros t' Ht'. destruct (decide (t' = t0)) as [->|Hne].
      * exists top. split_and!; [done|lia..].
      * assert (t' ∈ done_) as Hin.
        { apply elem_of_app in Ht' as [?|Hs]; [done|].
          by apply list_elem_of_singleton in Hs. }
        destruct (Hd t' Hin) as (top' & ? & ? & ?).
        exists top'. by rewrite Hother.
    + rewrite <- app_assoc. done.
Qed.

(** Claim C7 fails as stated: a request of 5x5 leaves the container with a
    width and a height of 5. *)
Lemma set_size_counterexample :
  (s ← Examples.floating_one;
   s' ← cwc_container_set_size 0%nat 5 5 s;
   cont ← containers s' !! 0%nat;
   Some (c_width cont, c_height cont, bool_decide (c_width cont < MIN_WIDTH)))
  = Some (5, 5, true).
Proof. vm_compute. done. Qed.

(** Claim C7, amended.  [cwc_container_set_size c w h] stores the requested
    [w] and [h] as the container's width and height as they are, and
    configures the surface of every toplevel of the container with a size of
    at least [MIN_WIDTH] = 20 in both directions: the minimum bounds the
    surfaces, not the container. *)
Theorem set_size_minimum c w h s cont :
  wf_shape (shape_of s) → containers s !! c = Some cont →
  ∃ s' cont',
    cwc_container_set_size c w h s = Some s'
    ∧ containers s' !! c = Some cont'
    ∧ c_width cont' = w ∧ c_height cont' = h
    ∧ ∀ t, t ∈ c_tree_children cont → configured_at_least s' t MIN_WIDTH.
Proof.
  intros Hwf Hc.
  destruct (set_size_total c w h s Hwf) as [s' E]; [eauto|].
  destruct (set_size_spec _ _ _ _ _ _ Hc E)
    as (cont' & Hc' & _ & _ & _ & Hw & Hh & _).
  exists s', cont'. split_and!; [done..|].
  unfold cwc_container_set_size in E. rewrite Hc in E. simpl in E.
  bind_inv.
  match goal with
  | E0 : cwc_container_for_each_bottom_to_top _ _ s = Some _ |- _ =>
      pose proof (fun H1 H2 H3 =>
                    for_each_bottom_to_top_conf MIN_WIDTH _ [] _ _ _ _
                      H1 H2 H3 E0) as Hconf;
      simpl in Hconf;
      specialize (Hconf (Z.le_max_r _ _) (Z.le_max_r _ _))
  end.
  assert (∀ t : toplevel_id, t ∈ [] → configured_at_least s t MIN_WIDTH)
    as Hnil by (intros ? ?%elem_of_nil; done).
  specialize (Hconf Hnil).
  intros t Ht. specialize (Hconf t Ht).
  destruct Hconf as (top & Htop & ? & ?). exists top. split_and!; [|done..].
  repeat match goal with
  | E1 : modify_container _ _ _ = Some _ |- _ =>
      apply modify_container_toplevels in E1
  end.
  congruence.
Qed.

(** On the floating example a request of 5x5 is stored as such, and the
    surface is configured with 20x20. *)
Lemma set_size_minimum_witness :
  ∃ s s' cont',
    Examples.floating_one = Some s
    ∧ cwc_container_set_size 0%nat 5 5 s = Some s'
    ∧ containers s' !! 0%nat = Some cont'
    ∧ c_width cont' = 5 ∧ c_height cont' = 5
    ∧ configured_at_least s' 0%nat MIN_WIDTH.
Proof.
  destruct Examples.floating_one as [s|] eqn:Es; [|by vm_compute in Es].
  assert (∃ cont, containers s !! 0%nat = Some cont
                  ∧ c_tree_children cont = [0%nat]
                  ∧ wf_shape_b [] 0 (shape_of s) = true)
    as (cont & Hc & Hch & Hwf).
  { vm_compute in Es. injection Es as <-. vm_compute. eauto. }
  destruct (set_size_minimum 0%nat 5 5 s cont (wf_shape_b_sound _ _ _ Hwf) Hc)
    as (s' & cont' & E & Hc' & Hw & Hh & Hconf).
  exists s, s', cont'. split_and!; [done..|].
  apply Hconf. rewrite Hch. by left.
Defined.

(** *** The collection pass of the master layout (claim C9) *)

Lemma front_of_wf s c cont :
  wf_shape (shape_of s) → containers s !! c = Some cont →
  ∃ front top, cwc_container_get_front_toplevel cont = Some front
               ∧ toplevels s !! front = Some top
               ∧ t_container top = Some c.
Proof.
  intros Hwf Hc. unfold cwc_container_get_front_toplevel.
  destruct (last (c_tree_children cont)) as [front|] eqn:El.
  - exists front.
    destruct (toplevel_of_shape s front c) as (top & ? & ?); [|by eauto].
    eapply children_of_wf; [done..|].
    apply elem_of_app. right. apply last_Some in El as [l' ->].
    apply elem_of_app. right. by left.
  - apply last_None in El.
    destruct (wf_front _ Hwf c (shape_of_container cont)).
    + by rewrite shape_container_lookup, Hc.
    + done.
Qed.

Lemma wf_collectable s c :
  wf_shape (shape_of s) → is_Some (containers s !! c) → collectable s c.
Proof.
  intros Hwf [cont Hc].
  destruct (front_of_wf s c cont Hwf Hc) as (front & top & Hf & Ht & Htc).
  exists cont, front. eexists. split_and!; [done..|].
  unfold cwc_toplevel_is_tileable, cwc_toplevel_is_visible,
    toplevel_container.
  rewrite Ht. simpl. rewrite Htc. simpl. rewrite Hc. simpl. done.
Qed.

Lemma tileable_fronts_cons_true s c cs cont front :
  containers s !! c = Some cont →
  cwc_container_get_front_toplevel cont = Some front →
  cwc_toplevel_is_tileable s front = Some true →
  tileable_fronts s (c :: cs) = front :: tileable_fronts s cs.
Proof. intros Hc Hf Ht. simpl. rewrite Hc. simpl. by rewrite Hf, Ht. Qed.

Lemma tileable_fronts_cons_false s c cs cont front :
  containers s !! c = Some cont →
  cwc_container_get_front_toplevel cont = Some front →
  cwc_toplevel_is_tileable s front = Some false →
  tileable_fronts s (c :: cs) = tileable_fronts s cs.
Proof. intros Hc Hf Ht. simpl. rewrite Hc. simpl. by rewrite Hf, Ht. Qed.

(** The loop from index [i]: it writes the next tileable fronts at
    [i], [i+1], ..., never past index 49, and leaves the rest of the buffer
    as it was. *)
Lemma master_collect_spec s cs : ∀ buf i,
  (∀ c, c ∈ cs → collectable s c) →
  length buf = TILED_VISIBLE_LEN → (i <= 49)%nat →
  let fronts := tileable_fronts s cs in
  let i' := Nat.min (i + length fronts) 50 in
  master_collect cs buf i s
  = Some (take i buf ++ (Some <$> take (50 - i)%nat fronts) ++ drop i' buf,
          i').
Proof.
  induction cs as [|c cs IH]; intros buf i Hcs Hlen Hi; simpl.
  - rewrite Nat.add_0_r, Nat.min_l by lia. rewrite take_nil. simpl.
    by rewrite take_drop.
  - destruct (Hcs c) as (cont & front & b & Hc & Hf & Ht); [by left|].
    rewrite Hc. simpl. rewrite Hf. simpl. rewrite Ht. simpl.
    assert (∀ c', c' ∈ cs → collectable s c') as Hcs'
      by (intros c' Hc'; apply Hcs; by right).
    destruct b.
    + unfold array_set. rewrite decide_True by (rewrite Hlen; unfold TILED_VISIBLE_LEN; lia).
      simpl.
      assert (take (S i) (<[i:=Some front]> buf) = take i buf ++ [Some front])
        as Htake.
      { rewrite (take_S_r _ _ (Some front)).
        - by rewrite take_insert_ge by lia.
        - apply list_lookup_insert_eq. rewrite Hlen. unfold TILED_VISIBLE_LEN. lia. }
      destruct (decide (49 < S i)%nat) as [Hfull|Hmore].
      * assert (i = 49%nat) as -> by lia. f_equal.
        rewrite Nat.min_r by lia. f_equal.
        change (50 - 49)%nat with 1%nat. simpl.
        rewrite <- (take_drop 50 (<[49%nat:=Some front]> buf)) at 1.
        rewrite Htake, <- app_assoc. simpl.
        by rewrite drop_insert_lt by lia.
      * rewrite IH; [|done|by rewrite length_insert|lia].
        rewrite Htake.
        replace (S i + length (tileable_fronts s cs))%nat
          with (i + S (length (tileable_fronts s cs)))%nat by lia.
        f_equal. f_equal.
        rewrite <- app_assoc. f_equal.
        replace (50 - i)%nat with (S (50 - S i)) by lia. simpl. f_equal.
        f_equal. rewrite drop_insert_lt; [done|lia].
    + simpl. rewrite decide_False by lia. by apply IH.
Qed.



(** *** The [geometry] setter of the Lua container object (claim C8) *)

(** Claim C8.  The setter does not apply the box dimensions as the size: it
    passes the box position to [cwc_container_set_size].  Setting the
    geometry of the 800x600 container at (0,0) to x=10, y=20, width=300,
    height=200 leaves it at (10,20) with size 10x20, where the documented
    behaviour is the size 300x200. *)
Theorem set_geometry_size_from_position :
  let tbl := LuaContainer.mk_geometry_table (Some 10) (Some 20) (Some 300)
               (Some 200) in
  (s ← Examples.floating_800; rect_of s 0%nat)
  = Some (mk_box 0 0 800 600)
  ∧ (s ← Examples.floating_800;
     s' ← LuaContainer.luaC_container_set_geometry 0%nat tbl s;
     rect_of s' 0%nat)
    = Some (mk_box 10 20 10 20)
  ∧ (s ← Examples.floating_800;
     s' ← LuaContainer.set_geometry_documented 0%nat tbl s;
     rect_of s' 0%nat)
    = Some (mk_box 10 20 300 200).
Proof. vm_compute. done. Qed.

(** *** Fullscreen and maximized exclude each other *)

Lemma run_op_step fuel o s s' : run_op fuel o s = Some s' → step s s'.
Proof.
  destruct o; intros H;
    [ eapply step_map | eapply step_set_fullscreen
    | eapply step_set_maximized | eapply step_set_minimized
    | eapply step_set_floating | eapply step_set_sticky
    | eapply step_set_size | eapply step_set_position
    | eapply step_tiling_layout_update ];
    exact H.
Qed.

Lemma run_reachable fuel ops : ∀ s s',
  reachable s → run fuel ops s = Some s' → reachable s'.
Proof.
  induction ops as [|o ops IH]; simpl; intros s s' Hr H.
  - by injection H as <-.
  - bind_inv. eapply IH; [|eassumption].
    eapply reachable_step; [exact Hr|]. by eapply run_op_step.
Qed.

Lemma fm_bits_lookup s s' c cont' b :
  fm_bits <$> containers s' = <[c := b]> (fm_bits <$> containers s) →
  containers s' !! c = Some cont' → fm_bits cont' = b.
Proof.
  intros H Hc.
  assert ((fm_bits <$> containers s') !! c = Some (fm_bits cont')) as Hl
    by (by rewrite list_lookup_fmap, Hc).
  rewrite H in Hl.
  rewrite list_lookup_insert_eq in Hl; [by injection Hl|].
  apply lookup_lt_Some in Hl. by rewrite length_insert in Hl.
Qed.

(** Property X6.  In every server reached from one without containers by
    the operations of the model, no container has both the Fullscreen and
    the Maximized bit; from such a server,
    [cwc_container_set_fullscreen c true] leaves [c] fullscreen with the
    Maximized bit clear, and [cwc_container_set_maximized c true] leaves it
    maximized with the Fullscreen bit clear. *)
Theorem fullscreen_maximized_never_both s :
  reachable s →
  (∀ c cont, containers s !! c = Some cont →
     ¬ (cwc_container_is_fullscreen cont = true
        ∧ cwc_container_is_maximized cont = true))
  ∧ (∀ fuel c s' cont',
       cwc_container_set_fullscreen fuel c true s = Some s' →
       containers s' !! c = Some cont' →
       cwc_container_is_fullscreen cont' = true
       ∧ cwc_container_is_maximized cont' = false)
  ∧ (∀ fuel c s' cont',
       cwc_container_set_maximized fuel c true s = Some s' →
       containers s' !! c = Some cont' →
       cwc_container_is_maximized cont' = true
       ∧ cwc_container_is_fullscreen cont' = false).
Proof.
  intros Hr. split_and!.
  - apply (reachable_exclusive s Hr).
  - intros fuel c s' cont' E Hc'.
    destruct (containers s !! c) as [cont|] eqn:Hc;
      [|unfold cwc_container_set_fullscreen in E; by rewrite Hc in E].
    pose proof (fm_bits_lookup _ _ _ _ _
                  (set_fullscreen_fm _ _ _ _ _ _ Hc E) Hc') as Hb.
    by injection Hb.
  - intros fuel c s' cont' E Hc'.
    destruct (containers s !! c) as [cont|] eqn:Hc;
      [|unfold cwc_container_set_maximized in E; by rewrite Hc in E].
    pose proof (fm_bits_lookup _ _ _ _ _
                  (set_maximized_fm _ _ _ _ _ _ Hc E) Hc') as Hb.
    by injection Hb.
Qed.

Lemma maximized_then_fullscreen_eval :
  run 8 Examples.maximize_then_fullscreen Examples.one_floating
  = Some Examples.maximized_then_fullscreen_server.
Proof. vm_compute. reflexivity. Qed.

Lemma maximized_then_fullscreen_reachable :
  reachable Examples.maximized_then_fullscreen_server.
Proof.
  exact (run_reachable 8 Examples.maximize_then_fullscreen
           Examples.one_floating Examples.maximized_then_fullscreen_server
           (reachable_start Examples.one_floating eq_refl)
           maximized_then_fullscreen_eval).
Qed.

(** A maximized container that is then made fullscreen is reachable; it is
    fullscreen and no longer maximized. *)
Lemma fullscreen_maximized_never_both_witness :
  ∃ cont,
    containers Examples.maximized_then_fullscreen_server !! 0%nat = Some cont
    ∧ cwc_container_is_fullscreen cont = true
    ∧ ¬ (cwc_container_is_fullscreen cont = true
         ∧ cwc_container_is_maximized cont = true).
Proof.
  destruct (fullscreen_maximized_never_both _
              maximized_then_fullscreen_reachable) as (H & _ & _).
  eexists. split; [vm_compute; reflexivity|].
  split; [vm_compute; reflexivity|].
  apply (H 0%nat). vm_compute. reflexivity.
Defined.

(** *** Configuring one container *)

Lemma rect_of_lookup s c cont :
  containers s !! c = Some cont →
  rect_of s c = Some (mk_box (c_x cont) (c_y cont) (c_width cont)
                        (c_height cont)).
Proof. unfold rect_of. by intros ->. Qed.

Lemma set_position_gap_spec c x y s s' cont :
  containers s !! c = Some cont →
  cwc_container_set_position_gap c x y s = Some s' →
  let gaps := useless_gaps (cwc_output_get_current_view_info (output s)) in
  ∃ cont', containers s' !! c = Some cont'
    ∧ container_erase cont' = container_erase cont
    ∧ c_x cont' = x + gaps ∧ c_y cont' = y + gaps
    ∧ c_width cont' = c_width cont ∧ c_height cont' = c_height cont.
Proof.
  intros Hc H gaps. unfold cwc_container_set_position_gap in H.
  destruct (set_position_spec _ _ _ _ _ _ Hc H)
    as (cont' & ? & ? & ? & ? & ? & ? & _).
  exists cont'. by split_and!.
Qed.

(** [set_size] followed by [set_position_gap], as the tile strategy does
    for each entry. *)
Lemma configure_size_position c w h x y s :
  wf_shape (shape_of s) → is_Some (containers s !! c) →
  ∃ s1 s',
    cwc_container_set_size c w h s = Some s1
    ∧ cwc_container_set_position_gap c x y s1 = Some s'
    ∧ geom_only s s' ∧ touches_only c s s'
    ∧ rect_of s' c
      = Some (mk_box
                (x + useless_gaps (cwc_output_get_current_view_info (output s)))
                (y + useless_gaps (cwc_output_get_current_view_info (output s)))
                w h).
Proof.
  intros Hwf [cont Hc].
  destruct (set_size_total c w h s Hwf) as [s1 E1]; [by eauto|].
  destruct (set_size_spec _ _ _ _ _ _ Hc E1)
    as (cont1 & Hc1 & _ & _ & _ & Hw & Hh & _).
  destruct (set_position_gap_total c x y s1) as [s' E2]; [by eauto|].
  destruct (set_position_gap_spec _ _ _ _ _ _ Hc1 E2)
    as (cont' & Hc' & _ & Hx & Hy & Hw' & Hh').
  pose proof (set_size_geom _ _ _ _ _ E1) as G1.
  pose proof (set_position_gap_geom _ _ _ _ _ E2) as G2.
  exists s1, s'. split_and!; [done|done|by etransitivity| |].
  - transitivity s1; eauto with frame.
  - rewrite (rect_of_lookup _ _ _ Hc'), Hx, Hy, Hw', Hh', Hw, Hh.
    by rewrite (go_output _ _ G1).
Qed.

(** [set_position_gap] followed by [set_size], as the monocle strategy
    does. *)
Lemma configure_position_size c w h x y s :
  wf_shape (shape_of s) → is_Some (containers s !! c) →
  ∃ s1 s',
    cwc_container_set_position_gap c x y s = Some s1
    ∧ cwc_container_set_size c w h s1 = Some s'
    ∧ geom_only s s' ∧ touches_only c s s'.
Proof.
  intros Hwf Hc.
  destruct (set_position_gap_total c x y s) as [s1 E1]; [done|].
  pose proof (set_position_gap_geom _ _ _ _ _ E1) as G1.
  destruct (set_size_total c w h s1) as [s' E2];
    [by eapply geom_only_wf_shape|by eapply geom_only_is_Some_container|].
  pose proof (set_size_geom _ _ _ _ _ E2) as G2.
  exists s1, s'. split_and!; [done|done|by etransitivity|].
  transitivity s1; eauto with frame.
Qed.

(** *** The tile strategy *)

Lemma entry_container_stable s s' buf j :
  geom_only s s' → entry_container s' buf j = entry_container s buf j.
Proof.
  intros Hg. unfold entry_container.
  destruct (array_get buf j) as [t|]; [|done]. simpl.
  by apply toplevel_container_id_stable.
Qed.

Lemma entries_placed_stable s s' buf i j :
  geom_only s s' → entries_placed s buf i j → entries_placed s' buf i j.
Proof.
  intros Hg H k Hk. destruct (H k Hk) as (c & Hc & Hs). exists c.
  rewrite (entry_container_stable _ _ _ _ Hg). split; [done|].
  by eapply geom_only_is_Some_container.
Qed.

Lemma entry_container_Some s buf j c :
  entry_container s buf j = Some c →
  ∃ t, array_get buf j = Some t ∧ toplevel_container_id s t = Some c.
Proof.
  unfold entry_container. destruct (array_get buf j) as [t|]; [|done].
  simpl. eauto.
Qed.

(** One entry: the size, then the position. *)
Lemma configure_entry buf j c w h x y s :
  wf_shape (shape_of s) →
  entry_container s buf j = Some c → is_Some (containers s !! c) →
  ∃ t s1 s',
    array_get buf j = Some t
    ∧ toplevel_container_id s t = Some c
    ∧ cwc_container_set_size c w h s = Some s1
    ∧ cwc_container_set_position_gap c x y s1 = Some s'
    ∧ geom_only s s' ∧ touches_only c s s'
    ∧ rect_of s' c
      = Some (mk_box
                (x + useless_gaps (cwc_output_get_current_view_info (output s)))
                (y + useless_gaps (cwc_output_get_current_view_info (output s)))
                w h).
Proof.
  intros Hwf He Hc.
  destruct (entry_container_Some _ _ _ _ He) as (t & Ht & Htc).
  destruct (configure_size_position c w h x y s Hwf Hc)
    as (s1 & s' & E1 & E2 & ? & ? & ?).
  exists t, s1, s'. by split_and!.
Qed.

Lemma arrange_tile_rows_spec buf sw sh mw uy k : ∀ i hu s,
  wf_shape (shape_of s) → entries_placed s buf i (i + k) →
  let g := useless_gaps (cwc_output_get_current_view_info (output s)) in
  ∃ s',
    arrange_tile_rows k i buf sw sh mw uy hu s
    = Some (hu + Z.of_nat k * sh, s')
    ∧ geom_only s s'
    ∧ (∀ c, not_among s buf i (i + k) c →
         containers s' !! c = containers s !! c)
    ∧ (∀ j c, (i <= j < i + k)%nat → entry_container s buf j = Some c →
         not_among s buf (S j) (i + k) c →
         rect_of s' c
         = Some (mk_box (mw + g) (hu + Z.of_nat (j - i) * sh + uy + g)
                   sw sh)).
Proof.
  induction k as [|k IH]; intros i hu s Hwf Hp g.
  - simpl. exists s. rewrite Z.add_0_r. split_and!; [done|reflexivity|done|].
    intros j c Hj. lia.
  - destruct (Hp i) as (c0 & He0 & Hc0); [lia|].
    destruct (configure_entry buf i c0 sw sh mw (hu + uy) s Hwf He0 Hc0)
      as (t0 & sa & s1 & Ht0 & Htc0 & Ea & E1 & G1 & T1 & R1).
    destruct (IH (S i) (hu + sh) s1) as (s' & E & G & U & R).
    { by eapply geom_only_wf_shape. }
    { eapply entries_placed_stable; [done|].
      intros j Hj. apply Hp. lia. }
    exists s'. split_and!.
    + simpl. rewrite Ht0. simpl. rewrite Htc0. simpl. rewrite Ea. simpl.
      rewrite E1. simpl. rewrite E. f_equal. f_equal. lia.
    + by etransitivity.
    + intros c Hn. rewrite U.
      * apply T1. intros ->. by apply (Hn i); [lia|].
      * intros j Hj. rewrite (entry_container_stable _ _ _ _ G1).
        apply Hn. lia.
    + intros j c Hj He Hn.
      destruct (decide (j = i)) as [->|Hne].
      * assert (c = c0) as -> by congruence.
        unfold rect_of. rewrite U.
        -- fold (rect_of s1 c0). rewrite R1. f_equal. fold g.
           rewrite Nat.sub_diag. f_equal; lia.
        -- intros j Hj'. rewrite (entry_container_stable _ _ _ _ G1).
           apply Hn. lia.
      * rewrite (R j c); [| lia | by rewrite (entry_container_stable _ _ _ _ G1) |].
        -- rewrite (go_output _ _ G1). fold g. f_equal. f_equal.
           replace (j - i)%nat with (S (j - S i)) by lia. lia.
        -- intros j' Hj'. rewrite (entry_container_stable _ _ _ _ G1).
           apply Hn. lia.
Qed.

Lemma arrange_tile_spec buf n ms s :
  wf_shape (shape_of s) → master_count ms = 1 → (1 <= n)%nat →
  entries_placed s buf 0 n →
  let g := useless_gaps (cwc_output_get_current_view_info (output s)) in
  ∃ s',
    arrange_tile buf n ms s = Some s'
    ∧ geom_only s s'
    ∧ (∀ c, not_among s buf 0 n c → containers s' !! c = containers s !! c)
    ∧ (∀ j c, (j < n)%nat → entry_container s buf j = Some c →
         not_among s buf (S j) n c →
         rect_of s' c
         = Some (tile_rect (usable_area (output s)) (mwfact ms) g n j)).
Proof.
  intros Hwf Hmc Hn Hp g. unfold arrange_tile, tile_rect.
  set (ua := usable_area (output s)).
  destruct (Hp 0%nat) as (c0 & He0 & Hc0); [lia|].
  destruct (Nat.eqb_spec n 1) as [->|Hn1].
  - destruct (configure_entry buf 0 c0 (box_width ua) (box_height ua)
                (box_x ua) (box_y ua) s Hwf He0 Hc0)
      as (t0 & sa & s' & Ht0 & Htc0 & Ea & E1 & G1 & T1 & R1).
    exists s'. rewrite Ht0. simpl. rewrite Htc0. simpl. rewrite Ea. simpl.
    split_and!; [done|done| |].
    + intros c Hc. apply T1. intros ->. by apply (Hc 0%nat); [lia|].
    + intros j c Hj He _. assert (j = 0%nat) as -> by lia.
      assert (c = c0) as -> by congruence. done.
  - set (mw := CDouble.int_mul_double (box_width ua) (mwfact ms)).
    set (sh := Z.quot (box_height ua) (Z.of_nat n - 1)).
    destruct (configure_entry buf 0 c0 mw (box_height ua)
                (box_x ua) (box_y ua) s Hwf He0 Hc0)
      as (t0 & sa & s1 & Ht0 & Htc0 & Ea & E1 & G1 & T1 & R1).
    rewrite Ht0. simpl. rewrite Htc0. simpl. rewrite Ea. simpl.
    rewrite E1. simpl. rewrite Hmc.
    destruct (Z.eqb_spec (Z.of_nat n - 1) 0) as [?|_]; [lia|].
    fold sh.
    destruct (arrange_tile_rows_spec buf (box_width ua - mw) sh mw
                (box_y ua) (n - 2) 1 0 s1) as (s2 & E2 & G2 & U2 & R2).
    { by eapply geom_only_wf_shape. }
    { eapply entries_placed_stable; [done|]. intros k Hk. apply Hp. lia. }
    rewrite E2. simpl.
    assert (G12 : geom_only s s2) by (by etransitivity).
    destruct (Hp (n - 1)%nat) as (cl & Hel & Hcl); [lia|].
    destruct (configure_entry buf (n - 1) cl (box_width ua - mw)
                (box_height ua - (0 + Z.of_nat (n - 2) * sh)) mw
                (0 + Z.of_nat (n - 2) * sh + box_y ua) s2)
      as (tl & sb & s' & Htl & Htcl & Eb & E3 & G3 & T3 & R3).
    { by eapply geom_only_wf_shape. }
    { by rewrite (entry_container_stable _ _ _ _ G12). }
    { by eapply geom_only_is_Some_container. }
    rewrite Htl. simpl. rewrite Htcl. simpl. rewrite Eb. simpl.
    exists s'. split_and!; [done|by etransitivity| |].
    + intros c Hc. rewrite T3, U2, T1; [done| | |].
      * intros ->. by apply (Hc 0%nat); [lia|].
      * intros k Hk. rewrite (entry_container_stable _ _ _ _ G1).
        apply Hc. lia.
      * intros ->. by apply (Hc (n - 1)%nat); [lia|].
    + intros j c Hj He Hlater.
      rewrite (go_output _ _ G1) in R2. rewrite (go_output _ _ G12) in R3.
      fold g in R1, R2, R3.
      destruct (decide (j = (n - 1)%nat)) as [->|Hjl].
      * assert (c = cl) as -> by congruence.
        rewrite R3.
        destruct (Nat.eqb_spec (n - 1) 0) as [?|_]; [lia|].
        destruct (Nat.ltb_spec (n - 1) (n - 1)) as [?|_]; [lia|].
        f_equal; f_equal; lia.
      * assert (c ≠ cl) as Hcl'.
        { intros ->. by apply (Hlater (n - 1)%nat); [lia|]. }
        unfold rect_of. rewrite (T3 c Hcl'). fold (rect_of s2 c).
        destruct (decide (j = 0%nat)) as [->|Hj0].
        -- assert (c = c0) as -> by congruence.
           unfold rect_of. rewrite U2.
           ++ fold (rect_of s1 c0). by rewrite R1.
           ++ intros k Hk. rewrite (entry_container_stable _ _ _ _ G1).
              apply Hlater. lia.
        -- rewrite (R2 j c);
             [|lia|by rewrite (entry_container_stable _ _ _ _ G1)|].
           ++ destruct (Nat.eqb_spec j 0) as [?|_]; [lia|].
              destruct (Nat.ltb_spec j (n - 1)) as [_|?]; [|lia].
              f_equal; f_equal; lia.
           ++ intros k Hk. rewrite (entry_container_stable _ _ _ _ G1).
              apply Hlater. lia.
Qed.

(** *** The master pass as a whole *)

(** The tileable fronts are toplevels of distinct containers of the list. *)
Lemma tileable_fronts_containers s cs :
  wf_shape (shape_of s) →
  ∃ cs', cs' `sublist_of` cs
    ∧ Forall2 (fun t c => toplevel_container_id s t = Some c
                          ∧ is_Some (containers s !! c))
        (tileable_fronts s cs) cs'.
Proof.
  intros Hwf. induction cs as [|c cs (cs' & Hsub & Hall)]; simpl.
  - exists []. split; [done|constructor].
  - destruct (containers s !! c) as [cont|] eqn:Hc; simpl;
      [|exists cs'; split; [by apply sublist_cons|done]].
    destruct (cwc_container_get_front_toplevel cont) as [front|] eqn:Hf;
      [|exists cs'; split; [by apply sublist_cons|done]].
    destruct (cwc_toplevel_is_tileable s front) as [[]|] eqn:Ht;
      try (exists cs'; split; [by apply sublist_cons|done]).
    exists (c :: cs'). split; [by apply sublist_skip|].
    constructor; [|done].
    destruct (front_of_wf s c cont Hwf Hc) as (f' & top & Hf' & Htop & Htc).
    assert (f' = front) as -> by congruence.
    unfold toplevel_container_id. rewrite Htop. simpl. eauto.
Qed.

Lemma array_get_collected (fronts : list toplevel_id) k m :
  (k < length fronts)%nat →
  array_get ((Some <$> fronts) ++ replicate m None) k = fronts !! k.
Proof.
  intros Hk. unfold array_get.
  rewrite lookup_app_l by (by rewrite length_fmap).
  rewrite list_lookup_fmap. by destruct (fronts !! k).
Qed.

Lemma Forall2_NoDup_distinct {A B} (P : A → B → Prop) l1 l2 j k x y :
  Forall2 P l1 l2 → NoDup l2 →
  l2 !! j = Some x → l2 !! k = Some y → j ≠ k → x ≠ y.
Proof.
  intros _ Hnd Hj Hk Hne ->. by apply Hne, (NoDup_lookup l2 j k y).
Qed.

(** What the collection loop hands to the strategy. *)
Lemma master_collect_buffer s :
  wf_shape (shape_of s) →
  let fronts := tileable_fronts s (o_containers (output s)) in
  let i := Nat.min (length fronts) 50 in
  master_collect (o_containers (output s))
    (replicate TILED_VISIBLE_LEN None) 0 s
  = Some ((Some <$> take 50 fronts) ++ replicate (50 - i) None, i).
Proof.
  intros Hwf fronts i.
  assert (∀ c, c ∈ o_containers (output s) → collectable s c) as Hcs.
  { intros c Hc. apply wf_collectable; [done|].
    eapply container_of_shape; [done|]. by apply (wf_o_containers _ Hwf). }
  pose proof (master_collect_spec s (o_containers (output s))
                (replicate TILED_VISIBLE_LEN None) 0
                Hcs (length_replicate _ _) ltac:(lia)) as E.
  cbv zeta in E. fold fronts in E.
  change (0 + length fronts)%nat with (length fronts) in E.
  rewrite take_0, drop_replicate, Nat.sub_0_r, app_nil_l in E.
  exact E.
Qed.

(** The tile strategy on a master workspace: the pass returns, changes
    only geometry, gives the container of the [k]-th collected toplevel the
    rectangle [tile_rect ... k], and leaves every other container as it
    was. *)
Lemma master_tile_pass s :
  wf_shape (shape_of s) → NoDup (o_containers (output s)) →
  let info := cwc_output_get_current_view_info (output s) in
  let ms := vi_master_state info in
  let T := take 50 (tileable_fronts s (o_containers (output s))) in
  layout_mode info = CWC_LAYOUT_MASTER →
  current_layout ms = LAYOUT_TILE → master_count ms = 1 →
  ∃ s',
    master_arrange_update s = Some s'
    ∧ geom_only s s'
    ∧ (∀ k t c, T !! k = Some t → toplevel_container_id s t = Some c →
         rect_of s' c
         = Some (tile_rect (usable_area (output s)) (mwfact ms)
                   (useless_gaps info) (length T) k))
    ∧ (∀ c, (∀ t, t ∈ T → toplevel_container_id s t ≠ Some c) →
         containers s' !! c = containers s !! c).
Proof.
  intros Hwf Hnd info ms T Hmode Hlay Hmc.
  pose proof (master_collect_buffer s Hwf) as E. cbv zeta in E.
  set (i := Nat.min (length (tileable_fronts s (o_containers (output s)))) 50)
    in *.
  assert (Hi : i = Nat.min
                     (length (tileable_fronts s (o_containers (output s)))) 50)
    by done.
  set (buf := (Some <$> take 50 (tileable_fronts s (o_containers (output s))))
              ++ replicate (50 - i) None) in *.
  assert (Hbuf : buf = (Some <$> T) ++ replicate (50 - i) None) by done.
  unfold master_arrange_update. fold info. rewrite Hmode. fold ms.
  rewrite E. simpl. rewrite Hlay.
  destruct (tileable_fronts_containers s (o_containers (output s)) Hwf)
    as (cs' & Hsub & Hall).
  assert (Hnd' : NoDup cs') by (by eapply sublist_NoDup).
  assert (HlenT : length T = i).
  { subst T. rewrite length_take. lia. }
  assert (HallT : Forall2 (fun t c => toplevel_container_id s t = Some c
                                      ∧ is_Some (containers s !! c))
                    T (take 50 cs')).
  { subst T. by apply Forall2_take. }
  assert (HndT : NoDup (take 50 cs')).
  { eapply sublist_NoDup; [exact Hnd'|apply sublist_take]. }
  assert (Hget : ∀ k, (k < i)%nat → array_get buf k = T !! k).
  { intros k Hk. rewrite Hbuf. apply array_get_collected. lia. }
  assert (Hentry : ∀ k, (k < i)%nat →
            entry_container s buf k = take 50 cs' !! k
            ∧ ∃ c, take 50 cs' !! k = Some c ∧ is_Some (containers s !! c)).
  { intros k Hk. unfold entry_container. rewrite (Hget k Hk).
    destruct (T !! k) as [t|] eqn:Et;
      [|apply lookup_ge_None in Et; lia].
    destruct (Forall2_lookup_l _ _ _ _ _ HallT Et) as (c & Hc & Htc & Hex).
    simpl. rewrite Htc. eauto. }
  destruct (decide (1 <= i)%nat) as [Hi1|Hi0].
  - destruct (arrange_tile_spec buf i ms s Hwf Hmc Hi1)
      as (s' & Es & G & U & R).
    { intros k Hk. destruct (Hentry k) as (-> & c & ? & ?); [lia|]. eauto. }
    exists s'. simpl. split_and!; [done|done| |].
    + intros k t c Hk Htc.
      assert (k < i)%nat as Hki by (rewrite <- HlenT; by eapply lookup_lt_Some).
      destruct (Hentry k Hki) as (Hek & c' & Hc' & _).
      assert (entry_container s buf k = Some c) as Hec.
      { unfold entry_container. rewrite (Hget k Hki), Hk. done. }
      rewrite HlenT. apply (R k c Hki Hec).
      intros k' Hk' Hec'.
      destruct (Hentry k') as (Hek' & _); [lia|].
      rewrite Hek in Hec. rewrite Hek' in Hec'.
      eapply (Forall2_NoDup_distinct _ _ _ k k' c c HallT HndT); eauto. lia.
    + intros c Hc. apply U. intros k Hk Hec.
      assert (k < i)%nat as Hki by lia.
      unfold entry_container in Hec. rewrite (Hget k Hki) in Hec.
      destruct (T !! k) as [t|] eqn:Et; [|done]. simpl in Hec.
      apply (Hc t); [by eapply list_elem_of_lookup_2|done].
  - exists s. split_and!; [done|reflexivity| |done].
    intros k t c Hk. apply lookup_lt_Some in Hk. lia.
Qed.

Lemma configure_position_size_rect c w h x y s :
  wf_shape (shape_of s) → is_Some (containers s !! c) →
  ∃ s1 s',
    cwc_container_set_position_gap c x y s = Some s1
    ∧ cwc_container_set_size c w h s1 = Some s'
    ∧ geom_only s s' ∧ touches_only c s s'
    ∧ rect_of s' c
      = Some (mk_box
                (x + useless_gaps (cwc_output_get_current_view_info (output s)))
                (y + useless_gaps (cwc_output_get_current_view_info (output s)))
                w h).
Proof.
  intros Hwf [cont Hc].
  destruct (configure_position_size c w h x y s Hwf)
    as (s1 & s' & E1 & E2 & G & T); [by eauto|].
  destruct (set_position_gap_spec _ _ _ _ _ _ Hc E1)
    as (cont1 & Hc1 & _ & Hx & Hy & _).
  destruct (set_size_spec _ _ _ _ _ _ Hc1 E2)
    as (cont' & Hc' & _ & Hx' & Hy' & Hw & Hh & _).
  exists s1, s'. split_and!; [done..|].
  rewrite (rect_of_lookup _ _ _ Hc'). by rewrite Hx', Hy', Hw, Hh, Hx, Hy.
Qed.

(** The monocle strategy on a buffer whose entries [fronts] are followed by
    a [NULL]: every entry's container gets the usable area. *)
Lemma arrange_monocle_spec fronts rest : ∀ s,
  wf_shape (shape_of s) →
  Forall (fun t => ∃ c, toplevel_container_id s t = Some c
                        ∧ is_Some (containers s !! c)) fronts →
  let g := useless_gaps (cwc_output_get_current_view_info (output s)) in
  let ua := usable_area (output s) in
  ∃ s',
    arrange_monocle ((Some <$> fronts) ++ None :: rest) s = Some s'
    ∧ geom_only s s'
    ∧ (∀ c, (∀ t, t ∈ fronts → toplevel_container_id s t ≠ Some c) →
         containers s' !! c = containers s !! c)
    ∧ (∀ t c, t ∈ fronts → toplevel_container_id s t = Some c →
         rect_of s' c
         = Some (mk_box (box_x ua + g) (box_y ua + g) (box_width ua)
                   (box_height ua))).
Proof.
  induction fronts as [|t0 fronts IH]; intros s Hwf Hall g ua; simpl.
  - exists s. split_and!; [done|reflexivity|done|].
    intros t c Ht. by apply elem_of_nil in Ht.
  - apply Forall_cons in Hall as [(c0 & Htc0 & Hc0) Hall].
    rewrite Htc0. simpl.
    destruct (configure_position_size_rect c0 (box_width ua) (box_height ua)
                (box_x ua) (box_y ua) s Hwf Hc0)
      as (s1 & s2 & E1 & E2 & G & T & R).
    fold ua. rewrite E1. simpl. rewrite E2. simpl.
    destruct (IH s2) as (s' & E & G' & U & R').
    { by eapply geom_only_wf_shape. }
    { eapply Forall_impl; [exact Hall|]. intros t (c & Htc & Hc). exists c.
      rewrite (toplevel_container_id_stable _ _ _ G). split; [done|].
      by eapply geom_only_is_Some_container. }
    rewrite (go_output _ _ G) in R'. fold g ua in R'.
    exists s'. split_and!; [done|by etransitivity| |].
    + intros c Hc. rewrite U.
      * apply T. intros ->. by apply (Hc t0); [left|].
      * intros t Ht. rewrite (toplevel_container_id_stable _ _ _ G).
        apply Hc. by right.
    + intros t c Ht Htc.
      destruct (decide (Exists (fun t' => toplevel_container_id s t' = Some c)
                          fronts)) as [Hex|Hnex].
      * apply Exists_exists in Hex as (t' & Ht' & Htc').
        apply (R' t' c Ht'). by rewrite (toplevel_container_id_stable _ _ _ G).
      * assert (t = t0) as ->.
        { apply elem_of_cons in Ht as [->|Ht]; [done|].
          destruct Hnex. apply Exists_exists. eauto. }
        assert (c = c0) as -> by congruence.
        unfold rect_of. rewrite U; [exact R|].
        intros t' Ht' Htc'. apply Hnex, Exists_exists. exists t'.
        by rewrite <- (toplevel_container_id_stable _ _ _ G).
Qed.

(** Without a [NULL] entry the scan runs off the buffer. *)
Lemma arrange_monocle_unterminated fronts : ∀ s,
  arrange_monocle (Some <$> fronts) s = None.
Proof.
  induction fronts as [|t fronts IH]; intros s; simpl; [done|].
  destruct (toplevel_container_id s t) as [c|]; simpl; [|done].
  destruct (cwc_container_set_position_gap c _ _ s) as [s1|]; simpl; [|done].
  destruct (cwc_container_set_size c _ _ s1) as [s2|]; simpl; [|done].
  apply IH.
Qed.

(** *** Properties of the master pass *)

Lemma master_three_wf : wf_shape (shape_of Instances.master_three).
Proof. apply (wf_shape_b_sound [] 0). vm_compute. reflexivity. Qed.

Lemma monocle_three_wf : wf_shape (shape_of Instances.monocle_three).
Proof. apply (wf_shape_b_sound [] 0). vm_compute. reflexivity. Qed.

Lemma NoDup_by_decide {A} `{EqDecision A} (l : list A) :
  bool_decide (NoDup l) = true → NoDup l.
Proof. apply bool_decide_eq_true_1. Qed.

(** Property X1.  On a master workspace with the tile strategy the arrange
    pass returns and changes only geometry.  With [n] collected toplevels
    (the first 50 tileable fronts), usable area [ua] and gap [g]: a single
    container gets the whole usable area; otherwise the first gets the
    master column of width [(int)(ua.width * mwfact)] at the usable origin,
    and the [k]-th of the others is a row at x = master width, of the
    remaining width, rows of height [ua.height / (n - 1)] stacked from the
    top of the usable area, the last row taking what is left of the height.
    Containers that were not collected keep their records. *)
Theorem master_tile_layout s :
  wf_shape (shape_of s) → NoDup (o_containers (output s)) →
  let info := cwc_output_get_current_view_info (output s) in
  let ms := vi_master_state info in
  let T := take 50 (tileable_fronts s (o_containers (output s))) in
  let n := length T in
  let ua := usable_area (output s) in
  let g := useless_gaps info in
  let mw := CDouble.int_mul_double (box_width ua) (mwfact ms) in
  let sh := Z.quot (box_height ua) (Z.of_nat n - 1) in
  layout_mode info = CWC_LAYOUT_MASTER →
  current_layout ms = LAYOUT_TILE → master_count ms = 1 →
  ∃ s',
    master_arrange_update s = Some s'
    ∧ geom_only s s'
    ∧ (∀ k t c, T !! k = Some t → toplevel_container_id s t = Some c →
         rect_of s' c
         = Some (if Nat.eqb n 1
                 then mk_box (box_x ua + g) (box_y ua + g) (box_width ua)
                        (box_height ua)
                 else if Nat.eqb k 0
                 then mk_box (box_x ua + g) (box_y ua + g) mw (box_height ua)
                 else mk_box (mw + g)
                        (Z.of_nat (Nat.min k (n - 1) - 1) * sh + box_y ua + g)
                        (box_width ua - mw)
                        (if (k <? n - 1)%nat then sh
                         else box_height ua - Z.of_nat (n - 2) * sh)))
    ∧ (∀ c, (∀ t, t ∈ T → toplevel_container_id s t ≠ Some c) →
         containers s' !! c = containers s !! c).
Proof.
  intros Hwf Hnd info ms T n ua g mw sh Hmode Hlay Hmc.
  destruct (master_tile_pass s Hwf Hnd Hmode Hlay Hmc)
    as (s' & E & G & R & U).
  exists s'. split_and!; [done|done| |done].
  intros k t c Hk Htc. rewrite (R k t c Hk Htc).
  apply lookup_lt_Some in Hk. fold T n in Hk |- *. fold ua g.
  unfold tile_rect. fold mw sh.
  destruct (Nat.eqb n 1); [done|]. destruct (Nat.eqb k 0); [done|].
  destruct (Nat.ltb_spec k (n - 1)).
  - by rewrite Nat.min_l by lia.
  - rewrite Nat.min_r by lia. do 3 f_equal. lia.
Qed.

(** On the example with three tiled toplevels on 1920x1080 the newest
    container gets the left half and the other two the halves of the right
    half. *)
Lemma master_tile_layout_witness :
  ∃ s',
    master_arrange_update Instances.master_three = Some s'
    ∧ rect_of s' 2%nat = Some (mk_box 0 0 960 1080)
    ∧ rect_of s' 1%nat = Some (mk_box 960 0 960 540)
    ∧ rect_of s' 0%nat = Some (mk_box 960 540 960 540).
Proof.
  destruct (master_tile_layout Instances.master_three master_three_wf)
    as (s' & E & _ & R & _).
  - apply NoDup_by_decide. vm_compute. reflexivity.
  - vm_compute. reflexivity.
  - vm_compute. reflexivity.
  - vm_compute. reflexivity.
  - exists s'. split; [exact E|].
    split; [|split].
    + rewrite (R 0%nat 2%nat 2%nat); [|vm_compute; reflexivity..].
      vm_compute. reflexivity.
    + rewrite (R 1%nat 1%nat 1%nat); [|vm_compute; reflexivity..].
      vm_compute. reflexivity.
    + rewrite (R 2%nat 0%nat 0%nat); [|vm_compute; reflexivity..].
      vm_compute. reflexivity.
Defined.

(** Every collected toplevel has a container. *)
Lemma collected_placed s :
  wf_shape (shape_of s) →
  Forall (fun t => ∃ c, toplevel_container_id s t = Some c
                        ∧ is_Some (containers s !! c))
    (tileable_fronts s (o_containers (output s))).
Proof.
  intros Hwf.
  destruct (tileable_fronts_containers s (o_containers (output s)) Hwf)
    as (cs' & _ & Hall).
  apply Forall_forall. intros t Ht.
  apply list_elem_of_lookup in Ht as [k Hk].
  destruct (Forall2_lookup_l _ _ _ _ _ Hall Hk) as (c & _ & ? & ?). eauto.
Qed.

Lemma master_monocle_pass s :
  wf_shape (shape_of s) →
  let info := cwc_output_get_current_view_info (output s) in
  let fronts := tileable_fronts s (o_containers (output s)) in
  let ua := usable_area (output s) in
  layout_mode info = CWC_LAYOUT_MASTER →
  current_layout (vi_master_state info) = LAYOUT_MONOCLE →
  (length fronts < 50)%nat →
  ∃ s',
    master_arrange_update s = Some s'
    ∧ geom_only s s'
    ∧ (∀ t c, t ∈ fronts → toplevel_container_id s t = Some c →
         rect_of s' c
         = Some (mk_box (box_x ua + useless_gaps info)
                   (box_y ua + useless_gaps info) (box_width ua)
                   (box_height ua)))
    ∧ (∀ c, (∀ t, t ∈ fronts → toplevel_container_id s t ≠ Some c) →
         containers s' !! c = containers s !! c).
Proof.
  intros Hwf info fronts ua Hmode Hlay Hlen.
  pose proof (master_collect_buffer s Hwf) as E. cbv zeta in E.
  fold fronts in E. rewrite Nat.min_l in E by lia.
  rewrite take_ge in E by lia.
  unfold master_arrange_update. fold info. rewrite Hmode, E. simpl.
  destruct (decide (1 <= length fronts)%nat) as [H1|H0].
  - rewrite Hlay. simpl.
    replace (50 - length fronts)%nat with (S (49 - length fronts)) by lia.
    simpl.
    destruct (arrange_monocle_spec fronts
                (replicate (49 - length fronts) None) s Hwf
                (collected_placed s Hwf)) as (s' & Es & G & U & R).
    exists s'. by split_and!.
  - assert (fronts = []) as Hnil by (destruct fronts; [done|simpl in H0; lia]).
    exists s. rewrite Hnil. split_and!; [done|reflexivity| |done].
    intros t c Ht. by apply elem_of_nil in Ht.
Qed.

(** Property X2.  On a master workspace with the monocle strategy and fewer
    than 50 tileable containers, the arrange pass returns, changes only
    geometry, and gives the container of every tileable front the whole
    usable area (moved by the gap); the other containers keep their
    records. *)
Theorem master_monocle_layout s :
  wf_shape (shape_of s) →
  let info := cwc_output_get_current_view_info (output s) in
  let fronts := tileable_fronts s (o_containers (output s)) in
  let ua := usable_area (output s) in
  layout_mode info = CWC_LAYOUT_MASTER →
  current_layout (vi_master_state info) = LAYOUT_MONOCLE →
  (length fronts < 50)%nat →
  ∃ s',
    master_arrange_update s = Some s'
    ∧ geom_only s s'
    ∧ (∀ t c, t ∈ fronts → toplevel_container_id s t = Some c →
         rect_of s' c
         = Some (mk_box (box_x ua + useless_gaps info)
                   (box_y ua + useless_gaps info) (box_width ua)
                   (box_height ua)))
    ∧ (∀ c, (∀ t, t ∈ fronts → toplevel_container_id s t ≠ Some c) →
         containers s' !! c = containers s !! c).
Proof. apply master_monocle_pass. Qed.

Lemma master_monocle_layout_witness :
  ∃ s',
    master_arrange_update Instances.monocle_three = Some s'
    ∧ rect_of s' 0%nat = Some (mk_box 0 0 1920 1080)
    ∧ rect_of s' 1%nat = Some (mk_box 0 0 1920 1080)
    ∧ rect_of s' 2%nat = Some (mk_box 0 0 1920 1080).
Proof.
  destruct (master_monocle_layout Instances.monocle_three monocle_three_wf)
    as (s' & E & _ & R & _).
  - vm_compute. reflexivity.
  - vm_compute. reflexivity.
  - vm_compute. lia.
  - exists s'. split; [exact E|].
    split; [|split].
    + rewrite (R 0%nat 0%nat);
        [|vm_compute; repeat constructor|vm_compute; reflexivity].
      vm_compute. reflexivity.
    + rewrite (R 1%nat 1%nat);
        [|vm_compute; repeat constructor|vm_compute; reflexivity].
      vm_compute. reflexivity.
    + rewrite (R 2%nat 2%nat);
        [|vm_compute; repeat constructor|vm_compute; reflexivity].
      vm_compute. reflexivity.
Defined.

(** Property X3.  The monocle strategy relies on a [NULL] entry to stop.
    When 50 or more containers are tileable the 50-entry buffer is full and
    the scan reads entry 50, past the end of the buffer: the bounds-checked
    model returns no server. *)
Theorem monocle_scan_overruns s :
  wf_shape (shape_of s) →
  let info := cwc_output_get_current_view_info (output s) in
  layout_mode info = CWC_LAYOUT_MASTER →
  current_layout (vi_master_state info) = LAYOUT_MONOCLE →
  (50 <= length (tileable_fronts s (o_containers (output s))))%nat →
  master_arrange_update s = None.
Proof.
  intros Hwf info Hmode Hlay Hlen.
  pose proof (master_collect_buffer s Hwf) as E. cbv zeta in E.
  rewrite Nat.min_r in E by lia.
  unfold master_arrange_update. fold info. rewrite Hmode, E. simpl.
  rewrite Hlay. simpl. rewrite app_nil_r. apply arrange_monocle_unterminated.
Qed.

Lemma monocle_fifty_wf : wf_shape (shape_of Instances.monocle_fifty).
Proof. apply (wf_shape_b_sound [] 0). vm_compute. reflexivity. Qed.

(** With fifty tiled toplevels the buffer has no [NULL] entry left. *)
Lemma monocle_scan_overruns_witness :
  master_arrange_update Instances.monocle_fifty = None.
Proof.
  apply (monocle_scan_overruns Instances.monocle_fifty monocle_fifty_wf).
  - vm_compute. reflexivity.
  - vm_compute. reflexivity.
  - vm_compute. lia.
Defined.

(** *** Restoring the floating box *)

Lemma floating_one_wf : wf_shape (shape_of Instances.floating_one).
Proof. apply (wf_shape_b_sound [] 0). vm_compute. reflexivity. Qed.

Lemma restore_floating_box_effect c s cont :
  wf_shape (shape_of s) → containers s !! c = Some cont →
  ∃ s' cont',
    cwc_container_restore_floating_box c s = Some s'
    ∧ containers s' !! c = Some cont'
    ∧ cwc_container_get_box cont' = c_floating_box cont
    ∧ c_floating_box cont' = c_floating_box cont
    ∧ container_erase cont' = container_erase cont
    ∧ geom_only s s' ∧ touches_only c s s'.
Proof.
  intros Hwf Hc.
  destruct (restore_floating_box_total c s Hwf) as [s' E]; [by eauto|].
  pose proof E as E'.
  unfold cwc_container_restore_floating_box in E. rewrite Hc in E.
  simpl in E. bind_inv.
  match goal with
  | E1 : cwc_container_set_position c _ _ s = Some ?s1,
    E2 : containers ?s1 !! c = Some ?c1,
    E3 : cwc_container_set_size c _ _ ?s1 = Some s' |- _ =>
      destruct (set_position_spec _ _ _ _ _ _ Hc E1)
        as (cont1 & Hc1 & He1 & Hx1 & Hy1 & Hw1 & Hh1 & _ & Hf1);
      assert (c1 = cont1) as -> by congruence;
      destruct (set_size_spec _ _ _ _ _ _ Hc1 E3)
        as (cont' & Hc' & He' & Hx' & Hy' & Hw' & Hh' & Hf');
      pose proof (set_position_geom _ _ _ _ _ E1) as G1;
      pose proof (set_size_geom _ _ _ _ _ E3) as G2;
      pose proof (set_position_touches _ _ _ _ _ E1) as T1;
      pose proof (set_size_touches _ _ _ _ _ E3) as T2
  end.
  assert (Hfb1 : c_floating_box cont1 = c_floating_box cont).
  { rewrite Hf1. destruct (cwc_container_should_save_floating_box s cont);
      [|done]. by destruct (c_floating_box cont). }
  exists s', cont'. split_and!; [done|done| | |congruence|by etransitivity|by etransitivity].
  - unfold cwc_container_get_box. rewrite Hx', Hy', Hw', Hh', Hx1, Hy1, Hfb1.
    by destruct (c_floating_box cont).
  - rewrite Hf', Hfb1.
    destruct (cwc_container_should_save_floating_box _ cont1); [|done].
    by destruct (c_floating_box cont).
Qed.

(** Property X4.  [cwc_container_restore_floating_box] returns on every
    container of a well-formed server; it puts the container at its saved
    floating rectangle, keeps that saved rectangle, the container's state,
    tag, workspace and toplevels as they are, and changes no other
    container. *)
Theorem restore_floating_box_restores c s cont :
  wf_shape (shape_of s) → containers s !! c = Some cont →
  ∃ s' cont',
    cwc_container_restore_floating_box c s = Some s'
    ∧ containers s' !! c = Some cont'
    ∧ cwc_container_get_box cont' = c_floating_box cont
    ∧ c_floating_box cont' = c_floating_box cont
    ∧ c_state cont' = c_state cont
    ∧ c_tag cont' = c_tag cont ∧ c_workspace cont' = c_workspace cont
    ∧ c_toplevels cont' = c_toplevels cont
    ∧ (∀ c', c' ≠ c → containers s' !! c' = containers s !! c')
    ∧ output s' = output s.
Proof.
  intros Hwf Hc.
  destruct (restore_floating_box_effect c s cont Hwf Hc)
    as (s' & cont' & E & Hc' & Hb & Hf & He & G & T).
  exists s', cont'. split_and!; try done.
  - exact (f_equal c_state He).
  - exact (f_equal c_tag He).
  - exact (f_equal c_workspace He).
  - exact (f_equal c_toplevels He).
  - apply G.
Qed.

(** Restoring the floating example leaves it at its saved box
    (100,100,640,480). *)
Lemma restore_floating_box_restores_witness :
  ∃ s' cont',
    cwc_container_restore_floating_box 0%nat Instances.floating_one = Some s'
    ∧ containers s' !! 0%nat = Some cont'
    ∧ cwc_container_get_box cont' = mk_box 100 100 640 480.
Proof.
  destruct (containers Instances.floating_one !! 0%nat) as [cont|] eqn:Hc;
    [|exfalso; revert Hc; vm_compute; discriminate].
  destruct (restore_floating_box_restores 0%nat Instances.floating_one cont
              floating_one_wf Hc) as (s' & cont' & E & Hc' & Hb & _).
  exists s', cont'. split_and!; [done..|].
  rewrite Hb. revert Hc. vm_compute. intros [= <-]. reflexivity.
Defined.

(** *** A layout update returns and spares the protected containers *)

Lemma master_arrange_update_total s :
  wf_shape (shape_of s) →
  let info := cwc_output_get_current_view_info (output s) in
  master_count (vi_master_state info) = 1 →
  (current_layout (vi_master_state info) = LAYOUT_MONOCLE →
   (length (tileable_fronts s (o_containers (output s))) < 50)%nat) →
  ∃ s', master_arrange_update s = Some s'.
Proof.
  intros Hwf info Hmc Hmono.
  destruct (layout_mode info) eqn:Hmode;
    try (exists s; unfold master_arrange_update; fold info; by rewrite Hmode).
  destruct (current_layout (vi_master_state info)) eqn:Hlay.
  - pose proof (master_collect_buffer s Hwf) as E. cbv zeta in E.
    set (fronts := tileable_fronts s (o_containers (output s))) in *.
    set (i := Nat.min (length fronts) 50) in *.
    unfold master_arrange_update. fold info. rewrite Hmode, E. simpl.
    destruct (decide (1 <= i)%nat) as [Hi|Hi]; [|eauto].
    rewrite Hlay. simpl.
    destruct (arrange_tile_spec
                ((Some <$> take 50 fronts) ++ replicate (50 - i) None) i
                (vi_master_state info) s Hwf Hmc Hi) as (s' & Es & _);
      [|eauto].
    intros k Hk. unfold entry_container.
    rewrite array_get_collected by (rewrite length_take; lia).
    destruct (take 50 fronts !! k) as [t|] eqn:Et;
      [|apply lookup_ge_None in Et; rewrite length_take in Et; lia].
    simpl.
    pose proof (collected_placed s Hwf) as Hall.
    rewrite Forall_forall in Hall.
    destruct (Hall t) as (c & Htc & Hc); [|eauto].
    eapply elem_of_sublist; [|apply (sublist_take _ 50)].
    by eapply list_elem_of_lookup_2.
  - destruct (master_monocle_pass s Hwf Hmode Hlay (Hmono eq_refl))
      as (s' & E & _). eauto.
Qed.

Lemma protected_same s s' c :
  containers s' = containers s → output s' = output s →
  protected s c → protected s' c.
Proof.
  intros Hc Ho Hp cont Hl. rewrite Hc in Hl.
  rewrite <- (Hp cont Hl). by apply erase_may_configure.
Qed.

Lemma layout_update_total s :
  wf_server s →
  let info := cwc_output_get_current_view_info (output s) in
  (layout_mode info = CWC_LAYOUT_MASTER →
   current_layout (vi_master_state info) = LAYOUT_MONOCLE →
   (length (tileable_fronts s (o_containers (output s))) < 50)%nat) →
  ∃ N, ∀ fuel view, (N < fuel)%nat →
    ∃ s', cwc_output_tiling_layout_update fuel view s = Some s'.
Proof.
  intros [Hwf Hviews] info Hmono.
  destruct (wf_nodes _ Hwf) as (rk & N & Hok).
  exists N. intros fuel view Hfuel. unfold cwc_output_tiling_layout_update.
  fold info. destruct (layout_mode info) eqn:Hmode.
  - eauto.
  - apply master_arrange_update_total; [done|apply Hviews|by apply Hmono].
  - destruct (bsp_update_root_total (shape_of s) rk N fuel
                (if view =? 0 then active_workspace (output s) else view) s)
      as (s' & E & _); eauto using wf_views_roots_ok.
Qed.


Lemma master_three_wf_server : wf_server Instances.master_three.
Proof.
  split; [exact master_three_wf|].
  intros ws. split; [reflexivity|]. intros r Hr. discriminate Hr.
Qed.


(** *** Sizing a container from its surface *)

Lemma all_toplevel_set_size_exact t top c cont w h s :
  toplevels s !! t = Some top → t_container top = Some c →
  containers s !! c = Some cont →
  (cwc_container_is_floating s cont = true →
   cwc_toplevel_is_x11 top = false →
   t_min_width top <= w ∧ t_min_height top <= h) →
  all_toplevel_set_size t (w, h) s
  = Some ((w, h),
          with_toplevels s (<[t := t_set_conf_size w h top]> (toplevels s))).
Proof.
  intros Ht Htc Hc Hmin.
  unfold all_toplevel_set_size, toplevel_container, modify_toplevel.
  rewrite Ht. simpl.
  destruct (cwc_toplevel_is_x11 top) eqn:Ex; simpl.
  - by rewrite ?Ht.
  - rewrite Htc. simpl. rewrite Hc. simpl.
    destruct (cwc_container_is_floating s cont) eqn:Ef; simpl;
      rewrite ?Ht; simpl; [|done].
    destruct (Hmin eq_refl eq_refl). by rewrite !Z.max_l by lia.
Qed.

(** Property X7.  [cwc_toplevel_set_size_surface t w h] on the only toplevel
    of a container, with [w] and [h] at least [MIN_WIDTH] (and, for a
    floating native toplevel, at least its minimum size): the toplevel is
    configured with exactly [w] x [h], and the container's width and height
    are [w] and [h] plus twice the border thickness and the gap. *)
Theorem set_size_surface_exact t top c cont w h s :
  wf_shape (shape_of s) →
  toplevels s !! t = Some top → t_container top = Some c →
  containers s !! c = Some cont → c_tree_children cont = [t] →
  MIN_WIDTH <= w → MIN_WIDTH <= h →
  (cwc_container_is_floating s cont = true →
   cwc_toplevel_is_x11 top = false →
   t_min_width top <= w ∧ t_min_height top <= h) →
  let outside :=
    (cwc_border_get_thickness (c_border cont)
     + useless_gaps (cwc_output_get_current_view_info (output s))) * 2 in
  ∃ s' top' cont',
    cwc_toplevel_set_size_surface t w h s = Some s'
    ∧ toplevels s' !! t = Some top'
    ∧ t_conf_width top' = w ∧ t_conf_height top' = h
    ∧ containers s' !! c = Some cont'
    ∧ c_width cont' = w + outside ∧ c_height cont' = h + outside.
Proof.
  intros Hwf Ht Htc Hc Hch Hw Hh Hmin outside.
  destruct (set_size_surface_total t c w h s Hwf) as [s' E]; [by eauto| |].
  { rewrite shape_toplevel_lookup, Ht. simpl. by rewrite Htc. }
  pose proof E as E0.
  unfold cwc_toplevel_set_size_surface, toplevel_container in E.
  rewrite Ht in E. simpl in E. rewrite Htc in E. simpl in E.
  rewrite Hc in E. simpl in E. fold outside in E.
  destruct (set_size_spec _ _ _ _ _ _ Hc E)
    as (cont' & Hc' & _ & _ & _ & Hw' & Hh' & _).
  unfold cwc_container_set_size in E. rewrite Hc in E. simpl in E.
  rewrite Hch in E. simpl in E. fold outside in E.
  replace (w + outside - outside) with w in E by lia.
  replace (h + outside - outside) with h in E by lia.
  rewrite !Z.max_l in E by done.
  rewrite (all_toplevel_set_size_exact t top c cont w h s Ht Htc Hc Hmin) in E.
  simpl in E. bind_inv.
  repeat match goal with
  | H : modify_container _ _ _ = Some _ |- _ =>
      apply modify_container_toplevels in H
  end.
  exists s', (t_set_conf_size w h top), cont'.
  split_and!; [done| |done|done|done|done|done].
  repeat match goal with H : toplevels _ = _ |- _ => rewrite H end.
  simpl. apply list_lookup_insert_eq. by eapply lookup_lt_Some.
Qed.

(** A surface of 300x200 on the floating example (border 1, gap 0) makes
    the container 302x202. *)
Lemma set_size_surface_exact_witness :
  ∃ s' top' cont',
    cwc_toplevel_set_size_surface 0%nat 300 200 Instances.floating_one
    = Some s'
    ∧ toplevels s' !! 0%nat = Some top'
    ∧ t_conf_width top' = 300 ∧ t_conf_height top' = 200
    ∧ containers s' !! 0%nat = Some cont'
    ∧ c_width cont' = 302 ∧ c_height cont' = 202.
Proof.
  destruct (set_size_surface_exact 0%nat Instances.floating_one_toplevel
              0%nat Instances.floating_one_container 300 200
              Instances.floating_one floating_one_wf)
    as (s' & top' & cont' & E & Ht & Hw & Hh & Hc & Hcw & Hch).
  - vm_compute. reflexivity.
  - vm_compute. reflexivity.
  - vm_compute. reflexivity.
  - vm_compute. reflexivity.
  - vm_compute. discriminate.
  - vm_compute. discriminate.
  - intros _ _. vm_compute. split; discriminate.
  - exists s', top', cont'. split_and!; [done..| |].
    + rewrite Hcw. vm_compute. reflexivity.
    + rewrite Hch. vm_compute. reflexivity.
Defined.

(** *** Centering *)

(** Property X8.  [cwc_container_to_center] does nothing to a fullscreen or
    maximized container.  Otherwise it moves the container, keeping its size
    and state, to a position that is never left of or above the origin of
    the usable area; when the container fits into the usable width (height)
    less twice the origin offset, the margins on its two sides, measured in
    the usable width (height), differ by at most one pixel. *)
Theorem to_center_centers c s cont :
  containers s !! c = Some cont →
  let ua := usable_area (output s) in
  ∃ s',
    cwc_container_to_center c s = Some s'
    ∧ (cwc_container_is_configure_allowed cont = false → s' = s)
    ∧ (cwc_container_is_configure_allowed cont = true →
       ∃ cont', containers s' !! c = Some cont'
         ∧ c_width cont' = c_width cont ∧ c_height cont' = c_height cont
         ∧ c_state cont' = c_state cont
         ∧ box_x ua <= c_x cont' ∧ box_y ua <= c_y cont'
         ∧ (0 <= box_x ua → 0 <= c_width cont <= box_width ua - 2 * box_x ua →
            -1 <= box_width ua - c_width cont - 2 * c_x cont' <= 1)
         ∧ (0 <= box_y ua →
            0 <= c_height cont <= box_height ua - 2 * box_y ua →
            -1 <= box_height ua - c_height cont - 2 * c_y cont' <= 1)).
Proof.
  intros Hc ua. unfold cwc_container_to_center. rewrite Hc. simpl.
  destruct (cwc_container_is_configure_allowed cont) eqn:Ha; simpl.
  - fold ua.
    set (x0 := Z.quot (box_width ua) 2 - Z.quot (c_width cont) 2).
    set (y0 := Z.quot (box_height ua) 2 - Z.quot (c_height cont) 2).
    set (x := if x0 <? box_x ua then box_x ua else x0).
    set (y := if y0 <? box_y ua then box_y ua else y0).
    destruct (set_position_total c x y s) as [s' E]; [by eauto|].
    destruct (set_position_spec _ _ _ _ _ _ Hc E)
      as (cont' & Hc' & He & Hx & Hy & Hw & Hh & _).
    exists s'. split_and!; [done|done|]. intros _.
    exists cont'. rewrite Hx, Hy.
    split_and!; [done|done|done|exact (f_equal c_state He)| | | |].
    + subst x. destruct (Z.ltb_spec x0 (box_x ua)); lia.
    + subst y. destruct (Z.ltb_spec y0 (box_y ua)); lia.
    + intros Hpos Hfit. subst x x0.
      assert (0 <= box_width ua) by lia.
      rewrite !Z.quot_div_nonneg by lia.
      pose proof (Z.div_mod (box_width ua) 2 ltac:(lia)).
      pose proof (Z.div_mod (c_width cont) 2 ltac:(lia)).
      pose proof (Z.mod_pos_bound (box_width ua) 2 ltac:(lia)).
      pose proof (Z.mod_pos_bound (c_width cont) 2 ltac:(lia)).
      destruct (Z.ltb_spec (box_width ua / 2 - c_width cont / 2) (box_x ua));
        lia.
    + intros Hpos Hfit. subst y y0.
      assert (0 <= box_height ua) by lia.
      rewrite !Z.quot_div_nonneg by lia.
      pose proof (Z.div_mod (box_height ua) 2 ltac:(lia)).
      pose proof (Z.div_mod (c_height cont) 2 ltac:(lia)).
      pose proof (Z.mod_pos_bound (box_height ua) 2 ltac:(lia)).
      pose proof (Z.mod_pos_bound (c_height cont) 2 ltac:(lia)).
      destruct (Z.ltb_spec (box_height ua / 2 - c_height cont / 2)
                  (box_y ua)); lia.
  - exists s. split_and!; [done|done|]. intros H. discriminate H.
Qed.

(** The floating example (640x480 on 1920x1080) is centered at
    (640,300). *)
Lemma to_center_centers_witness :
  ∃ s' cont',
    cwc_container_to_center 0%nat Instances.floating_one = Some s'
    ∧ containers s' !! 0%nat = Some cont'
    ∧ -1 <= 1920 - 640 - 2 * c_x cont' <= 1.
Proof.
  destruct (to_center_centers 0%nat Instances.floating_one
              Instances.floating_one_container)
    as (s' & E & _ & H).
  - vm_compute. reflexivity.
  - destruct H as (cont' & Hc' & _ & _ & _ & _ & _ & Hx & _).
    + vm_compute. reflexivity.
    + exists s', cont'. split; [done|]. split; [done|].
      apply Hx; vm_compute; [discriminate|split; discriminate].
Defined.
(** *** Entering and leaving fullscreen and maximized *)

Lemma thickness_erase cont cont' :
  container_erase cont' = container_erase cont →
  cwc_border_get_thickness (c_border cont')
  = cwc_border_get_thickness (c_border cont).
Proof.
  intros He. unfold cwc_border_get_thickness.
  pose proof (f_equal (fun c => b_enabled (c_border c)) He) as H1.
  pose proof (f_equal (fun c => b_thickness (c_border c)) He) as H2.
  simpl in H1, H2. by rewrite H1, H2.
Qed.

Lemma toplevel_container_geom s s' top top' c cont :
  geom_only s s' → toplevel_erase top' = toplevel_erase top →
  toplevel_container s top = Some (c, cont) →
  ∃ cont', toplevel_container s' top' = Some (c, cont')
           ∧ containers s' !! c = Some cont'
           ∧ containers s !! c = Some cont
           ∧ container_erase cont' = container_erase cont.
Proof.
  intros G He H. unfold toplevel_container in *.
  rewrite (f_equal t_container He : t_container top' = t_container top).
  destruct (t_container top) as [c0|]; [|done]. simpl in *.
  destruct (containers s !! c0) as [cont0|] eqn:Hc; [|done]. simpl in H.
  injection H as -> ->.
  destruct (geom_only_container _ _ _ _ G Hc) as (cont' & Hc' & He').
  exists cont'. by rewrite Hc'.
Qed.

(** Writing a field of a container that is no pointer. *)
Lemma modify_container_calm c f s cont :
  containers s !! c = Some cont →
  shape_of_container (f cont) = shape_of_container cont →
  ∃ s', modify_container c f s = Some s'
        ∧ containers s' !! c = Some (f cont)
        ∧ touches_only c s s'
        ∧ shape_of s' = shape_of s ∧ output s' = output s.
Proof.
  intros Hc Hf. unfold modify_container. rewrite Hc. simpl.
  eexists. split; [done|]. split_and!.
  - simpl. apply list_lookup_insert_eq. by eapply lookup_lt_Some.
  - intros c' Hne. simpl. by apply list_lookup_insert_ne.
  - unfold shape_of. simpl. f_equal. rewrite list_fmap_insert, Hf.
    apply list_insert_id. by rewrite list_lookup_fmap, Hc.
  - done.
Qed.

Lemma shape_output_wf s s' :
  shape_of s' = shape_of s → output s' = output s →
  wf_server s → wf_server s'.
Proof.
  intros Sh O [Hs Hv]. split; [by rewrite Sh|].
  intros ws. destruct (Hv ws) as [Hm Hr]. rewrite O. split; [done|].
  intros r Hroot. specialize (Hr r Hroot).
  assert (H : is_Some (sh_nodes (shape_of s) !! r)).
  { rewrite shape_node_lookup. by apply fmap_is_Some. }
  rewrite <- Sh, shape_node_lookup in H. by apply fmap_is_Some in H.
Qed.

Lemma fullscreen_protected s c cont :
  containers s !! c = Some cont →
  cwc_container_is_fullscreen cont || cwc_container_is_maximized cont
  || cwc_container_is_floating s cont = true →
  protected s c.
Proof.
  intros Hc H cont0 Hc0. assert (cont0 = cont) as -> by congruence.
  unfold layout_may_configure, cwc_container_is_configure_allowed.
  destruct (cwc_container_is_fullscreen cont),
    (cwc_container_is_maximized cont), (cwc_container_is_floating s cont);
    simpl in *; done.
Qed.

Lemma _bsp_node_disable_output fuel : ∀ n s r s',
  _bsp_node_disable fuel n s = Some (r, s') → output s' = output s.
Proof.
  induction fuel as [|fuel IH]; simpl; intros n s r s' H; [done|].
  bind_inv;
    repeat match goal with
    | E : modify_node _ _ _ = Some _ |- _ =>
        unfold modify_node in E; bind_inv
    end; try done.
  match goal with
  | E : _bsp_node_disable _ _ _ = Some _ |- _ => by rewrite (IH _ _ _ _ E)
  end.
Qed.

(** Disabling a node re-arranges its tree and nothing else. *)
Lemma bsp_node_disable_spares fuel n s s' :
  bsp_node_disable fuel n s = Some s' →
  output s' = output s
  ∧ ∀ c, protected s c → containers s' !! c = containers s !! c.
Proof.
  unfold bsp_node_disable. intros H.
  apply bind_Some in H as ([r s1] & E1 & H).
  pose proof (_bsp_node_disable_output _ _ _ _ _ E1) as O1.
  pose proof (_bsp_node_disable_containers _ _ _ _ _ E1) as C1.
  assert (P : layout_pass s1 s') by (bind_inv; chain).
  destruct P as [G P]. split; [by rewrite (go_output _ _ G)|].
  intros c Hp. rewrite P; [by rewrite C1|].
  by apply (protected_same s).
Qed.

Lemma tileable_fronts_length s cs :
  (length (tileable_fronts s cs) <= length cs)%nat.
Proof.
  induction cs as [|c cs IH]; simpl; [done|].
  repeat case_match; simpl; lia.
Qed.

(** [master_arrange_update] at the end of a state change. *)
Lemma master_arrange_spares s c :
  wf_server s →
  let info := cwc_output_get_current_view_info (output s) in
  (layout_mode info = CWC_LAYOUT_MASTER →
   current_layout (vi_master_state info) = LAYOUT_MONOCLE →
   (length (o_containers (output s)) < 50)%nat) →
  protected s c →
  ∃ s', master_arrange_update s = Some s'
        ∧ shape_of s' = shape_of s ∧ output s' = output s
        ∧ containers s' !! c = containers s !! c.
Proof.
  intros [Hwf Hviews] info Hmono Hp.
  assert (∃ s', master_arrange_update s = Some s') as [s' E].
  { destruct (layout_mode info) eqn:Hmode;
      try (exists s; unfold master_arrange_update; fold info;
           by rewrite Hmode).
    apply master_arrange_update_total; [done|apply Hviews|].
    intros Hl. specialize (Hmono eq_refl Hl).
    pose proof (tileable_fronts_length s (o_containers (output s))). lia. }
  destruct (master_arrange_update_pass _ _ E) as [G P].
  exists s'. split_and!; [done|by apply geom_only_shape|apply G|by apply P].
Qed.

(** One toplevel of the container resized and moved, while the container
    does not save its floating box. *)
Lemma toplevel_place t c x y w h s cont :
  wf_shape (shape_of s) →
  sh_toplevels (shape_of s) !! t = Some (Some c) →
  containers s !! c = Some cont →
  cwc_container_should_save_floating_box s cont = false →
  let bw := cwc_border_get_thickness (c_border cont) in
  let outside :=
    (bw + useless_gaps (cwc_output_get_current_view_info (output s))) * 2 in
  ∃ s1 s' cont',
    cwc_toplevel_set_size_surface t w h s = Some s1
    ∧ cwc_toplevel_set_position t x y s1 = Some s'
    ∧ geom_only s s' ∧ touches_only c s s'
    ∧ containers s' !! c = Some cont'
    ∧ container_erase cont' = container_erase cont
    ∧ cwc_container_get_box cont'
      = mk_box (x - bw) (y - bw) (w + outside) (h + outside)
    ∧ c_floating_box cont' = c_floating_box cont.
Proof.
  intros Hwf Ht Hc Hsave bw outside.
  destruct (toplevel_of_shape _ _ _ Ht) as (top & Htop & Htc).
  assert (Es : cwc_toplevel_set_size_surface t w h s
               = cwc_container_set_size c (w + outside) (h + outside) s).
  { unfold cwc_toplevel_set_size_surface, toplevel_container.
    rewrite Htop. simpl. rewrite Htc. simpl. by rewrite Hc. }
  destruct (set_size_total c (w + outside) (h + outside) s) as [s1 E1];
    [done|by eauto|].
  pose proof (set_size_geom _ _ _ _ _ E1) as G1.
  destruct (set_size_spec _ _ _ _ _ _ Hc E1)
    as (cont1 & Hc1 & He1 & Hx1 & Hy1 & Hw1 & Hh1 & Hf1).
  rewrite Hsave in Hf1.
  destruct (geom_only_toplevel _ _ _ _ G1 Htop) as (top1 & Htop1 & Het1).
  assert (Ep : cwc_toplevel_set_position t x y s1
               = cwc_container_set_position c (x - bw) (y - bw) s1).
  { unfold cwc_toplevel_set_position, toplevel_container.
    rewrite Htop1. simpl.
    rewrite (f_equal t_container Het1 : t_container top1 = t_container top).
    rewrite Htc. simpl. rewrite Hc1. simpl.
    by rewrite (thickness_erase _ _ He1). }
  destruct (set_position_total c (x - bw) (y - bw) s1) as [s' E2];
    [by eauto|].
  pose proof (set_position_geom _ _ _ _ _ E2) as G2.
  destruct (set_position_spec _ _ _ _ _ _ Hc1 E2)
    as (cont' & Hc' & He' & Hx' & Hy' & Hw' & Hh' & _ & Hf').
  rewrite (should_save_stable s s1 cont cont1 (go_output _ _ G1) He1),
    Hsave in Hf'.
  exists s1, s', cont'.
  split_and!; [by rewrite Es|by rewrite Ep|by etransitivity| |done
               |congruence| |congruence].
  - transitivity s1; [by eapply set_size_touches|by eapply set_position_touches].
  - unfold cwc_container_get_box. by rewrite Hx', Hy', Hw', Hh', Hw1, Hh1.
Qed.

(** Every toplevel of the container resized and moved in turn. *)
Lemma for_each_place c x y w h f o :
  (∀ t s, output s = o →
     f t s = (s ← cwc_toplevel_set_size_surface t w h s;
              cwc_toplevel_set_position t x y s)) →
  ∀ ts s cont,
    wf_shape (shape_of s) → output s = o →
    (∀ t, t ∈ ts → sh_toplevels (shape_of s) !! t = Some (Some c)) →
    containers s !! c = Some cont →
    cwc_container_should_save_floating_box s cont = false →
    let bw := cwc_border_get_thickness (c_border cont) in
    let outside :=
      (bw + useless_gaps (cwc_output_get_current_view_info o)) * 2 in
    let target := mk_box (x - bw) (y - bw) (w + outside) (h + outside) in
    ∃ s' cont',
      cwc_container_for_each_toplevel ts f s = Some s'
      ∧ geom_only s s' ∧ touches_only c s s'
      ∧ containers s' !! c = Some cont'
      ∧ container_erase cont' = container_erase cont
      ∧ c_floating_box cont' = c_floating_box cont
      ∧ (ts ≠ [] ∨ cwc_container_get_box cont = target →
         cwc_container_get_box cont' = target).
Proof.
  intros Hf. induction ts as [|t ts IH]; intros s cont Hwf Ho Hts Hc Hsave;
    cbv zeta.
  - exists s, cont. simpl. split_and!; try done. by intros [?|?].
  - destruct (toplevel_place t c x y w h s cont Hwf)
      as (s1 & s2 & cont2 & E1 & E2 & G & T & Hc2 & He2 & Hb2 & Hf2);
      [apply Hts; by left|done|done|].
    rewrite Ho in Hb2.
    destruct (IH s2 cont2) as (s' & cont' & E & G' & T' & Hc' & He' & Hf' & Hb');
      [by eapply geom_only_wf_shape|by rewrite (go_output _ _ G)
      |intros t' Ht'; rewrite (geom_only_shape _ _ G); apply Hts; by right
      |done
      |by rewrite (should_save_stable s s2 cont cont2 (go_output _ _ G) He2)|].
    rewrite (thickness_erase _ _ He2) in Hb'.
    exists s', cont'. simpl. rewrite (Hf t s Ho), E1. simpl. rewrite E2.
    simpl. split_and!; [done|by etransitivity|by etransitivity|done
                        |congruence|congruence|].
    intros _. apply Hb'. by right.
Qed.

Lemma update_border_effect c set s cont :
  containers s !! c = Some cont →
  ∃ s' cont',
    update_border_after_state_change c set s = Some s'
    ∧ containers s' !! c = Some cont' ∧ touches_only c s s'
    ∧ shape_of s' = shape_of s ∧ output s' = output s
    ∧ c_state cont' = c_state cont
    ∧ cwc_container_get_box cont' = cwc_container_get_box cont
    ∧ c_floating_box cont' = c_floating_box cont
    ∧ c_border cont'
      = cwc_border_resize (cwc_border_set_enabled (c_border cont) (negb set))
          (c_width cont) (c_height cont).
Proof.
  intros Hc. unfold update_border_after_state_change.
  destruct (modify_container_calm c
              (fun cont =>
                 c_set_border
                   (cwc_border_set_enabled (c_border cont) (negb set)) cont)
              s cont Hc eq_refl) as (s1 & E1 & Hc1 & T1 & Sh1 & O1).
  rewrite E1. simpl.
  destruct (modify_container_calm c
              (fun cont =>
                 c_set_border
                   (cwc_border_resize (c_border cont) (c_width cont)
                      (c_height cont)) cont)
              s1 _ Hc1 eq_refl) as (s2 & E2 & Hc2 & T2 & Sh2 & O2).
  rewrite E2. eexists _, _.
  split_and!; [done|exact Hc2|by etransitivity|congruence|congruence
               |done..].
Qed.

Lemma set_bits_floating s s' cont st :
  output s' = output s →
  state_test st CONTAINER_STATE_FLOATING
  = state_test (c_state cont) CONTAINER_STATE_FLOATING →
  cwc_container_is_floating s' (c_set_state st cont)
  = cwc_container_is_floating s cont.
Proof.
  intros Ho Hst. unfold cwc_container_is_floating. simpl c_state.
  by rewrite Ho, Hst.
Qed.

(** The node of the container, if it has one, disabled while the container
    is protected. *)
Lemma disable_own_node rk N fuel s c cont :
  wf_shape (shape_of s) → nodes_ok rk N (shape_of s) →
  roots_ok (shape_of s) (output s) →
  containers s !! c = Some cont → protected s c → (N < fuel)%nat →
  ∃ s', match c_bsp_node cont with
        | Some n => bsp_node_disable fuel n s
        | None => Some s
        end = Some s'
        ∧ shape_of s' = shape_of s ∧ output s' = output s
        ∧ containers s' !! c = Some cont.
Proof.
  intros Hwf Hok Hroots Hc Hp Hfuel.
  destruct (c_bsp_node cont) as [n|] eqn:En; [|by exists s].
  destruct (bsp_node_disable_total (shape_of s) rk N fuel n s)
    as (s' & E & Sh); try done.
  { eapply (wf_container_node _ Hwf c);
      [by rewrite shape_container_lookup, Hc|done]. }
  destruct (bsp_node_disable_spares _ _ _ _ E) as [O P].
  exists s'. split_and!; [done..|]. by rewrite (P c Hp).
Qed.

Lemma enter_fullscreen_effect s c cont :
  wf_server s → containers s !! c = Some cont → c_toplevels cont ≠ [] →
  let info := cwc_output_get_current_view_info (output s) in
  (layout_mode info = CWC_LAYOUT_MASTER →
   current_layout (vi_master_state info) = LAYOUT_MONOCLE →
   (length (o_containers (output s)) < 50)%nat) →
  let bw := cwc_border_get_thickness (c_border cont) in
  let outside := (bw + useless_gaps info) * 2 in
  ∃ N, ∀ fuel, (N < fuel)%nat →
    ∃ s' cont',
      cwc_container_set_fullscreen fuel c true s = Some s'
      ∧ wf_server s' ∧ output s' = output s
      ∧ containers s' !! c = Some cont'
      ∧ cwc_container_is_fullscreen cont' = true
      ∧ cwc_container_is_maximized cont' = false
      ∧ cwc_container_is_floating s' cont' = cwc_container_is_floating s cont
      ∧ cwc_container_get_box cont'
        = mk_box (- bw) (- bw) (wlr_output_width (output s) + outside)
            (wlr_output_height (output s) + outside)
      ∧ c_floating_box cont' = c_floating_box cont
      ∧ (b_valid (c_border cont) = true → b_enabled (c_border cont') = false).
Proof.
  intros Hwfs Hc Hts info Hmono bw outside.
  pose proof Hwfs as [Hwf Hviews].
  destruct (wf_nodes _ Hwf) as (rk & N & Hok).
  exists N. intros fuel Hfuel.
  unfold cwc_container_set_fullscreen. rewrite Hc. simpl.
  (* the state bits *)
  destruct (modify_container_calm c
              (fun cont =>
                 c_set_state
                   (state_set (c_state cont) CONTAINER_STATE_FULLSCREEN) cont)
              s cont Hc eq_refl) as (s1 & E1 & Hc1 & _ & Sh1 & O1).
  unfold set_state_bit at 1. rewrite E1. simpl.
  destruct (modify_container_calm c
              (fun cont =>
                 c_set_state
                   (state_clear (c_state cont) CONTAINER_STATE_MAXIMIZED) cont)
              s1 _ Hc1 eq_refl) as (s2 & E2 & Hc2 & _ & Sh2 & O2).
  unfold clear_state_bit at 1. rewrite E2. simpl.
  simpl c_state in Hc2.
  set (st := state_clear (state_set (c_state cont) CONTAINER_STATE_FULLSCREEN)
               CONTAINER_STATE_MAXIMIZED) in *.
  destruct (fullscreen_after_set_clear (c_state cont)) as [Hfs Hmx].
  fold st in Hfs, Hmx.
  assert (Hfl : state_test st CONTAINER_STATE_FLOATING
                = state_test (c_state cont) CONTAINER_STATE_FLOATING).
  { subst st. by state_bits. }
  set (cont2 := c_set_state st (c_set_state
                  (state_set (c_state cont) CONTAINER_STATE_FULLSCREEN) cont))
    in *.
  assert (Sh02 : shape_of s2 = shape_of s) by congruence.
  assert (O02 : output s2 = output s) by congruence.
  (* the node *)
  destruct (disable_own_node rk N fuel s2 c cont2)
    as (s3 & E3 & Sh3 & O3 & Hc3); try done.
  { by rewrite Sh02. }
  { by rewrite Sh02. }
  { rewrite Sh02, O02. by apply wf_views_roots_ok. }
  { eapply fullscreen_protected; [done|].
    unfold cwc_container_is_fullscreen. simpl. by rewrite Hfs. }
  change (c_bsp_node cont2) with (c_bsp_node cont) in E3.
  rewrite E3. simpl. rewrite Hc3. simpl.
  (* the toplevels *)
  destruct (for_each_place c 0 0 (wlr_output_width (output s))
              (wlr_output_height (output s))
              (all_toplevel_set_fullscreen true) (output s))
    with (ts := c_toplevels cont) (s := s3) (cont := cont2)
    as (s4 & cont4 & E4 & G4 & _ & Hc4 & He4 & Hf4 & Hb4).
  { intros t s0 Ho. unfold all_toplevel_set_fullscreen. by rewrite Ho. }
  { by rewrite Sh3, Sh02. }
  { congruence. }
  { intros t Ht. rewrite Sh3, Sh02.
    eapply (wf_children _ Hwf c); [by rewrite shape_container_lookup, Hc|].
    simpl. apply elem_of_app. by left. }
  { done. }
  { unfold cwc_container_should_save_floating_box,
      cwc_container_is_fullscreen. simpl. rewrite Hfs. simpl.
    by rewrite andb_false_r. }
  rewrite E4. simpl.
  (* the border *)
  destruct (update_border_effect c true s4 cont4 Hc4)
    as (s5 & cont5 & E5 & Hc5 & _ & Sh5 & O5 & Hst5 & Hb5 & Hf5 & Hbd5).
  rewrite E5. simpl.
  assert (Sh05 : shape_of s5 = shape_of s).
  { rewrite Sh5, (geom_only_shape _ _ G4). congruence. }
  assert (O05 : output s5 = output s).
  { rewrite O5, (go_output _ _ G4). congruence. }
  assert (Hst : c_state cont5 = st).
  { rewrite Hst5. exact (f_equal c_state He4). }
  assert (Hwf5 : wf_server s5) by (by apply (shape_output_wf s)).
  (* the master arrangement *)
  destruct (master_arrange_spares s5 c Hwf5) as (s6 & E6 & Sh6 & O6 & Hc6).
  { rewrite O05. exact Hmono. }
  { eapply fullscreen_protected; [done|].
    unfold cwc_container_is_fullscreen. by rewrite Hst, Hfs. }
  rewrite Hc5 in Hc6.
  exists s6, cont5. split_and!.
  - done.
  - apply (shape_output_wf s5); done.
  - congruence.
  - done.
  - unfold cwc_container_is_fullscreen. by rewrite Hst.
  - unfold cwc_container_is_maximized. by rewrite Hst.
  - unfold cwc_container_is_floating. rewrite Hst, Hfl.
    by rewrite O6, O05.
  - rewrite Hb5, Hb4 by (by left). subst bw outside info.
    change (c_border cont2) with (c_border cont). f_equal; lia.
  - rewrite Hf5, Hf4. done.
  - intros Hv. rewrite Hbd5.
    pose proof (f_equal (fun c => b_valid (c_border c)) He4) as Hv4.
    simpl in Hv4. change (c_border cont2) with (c_border cont) in Hv4.
    unfold cwc_border_resize, cwc_border_set_enabled.
    rewrite Hv4, Hv. simpl. done.
Qed.

Lemma enter_maximized_effect s c cont :
  wf_server s → containers s !! c = Some cont → c_toplevels cont ≠ [] →
  let info := cwc_output_get_current_view_info (output s) in
  (layout_mode info = CWC_LAYOUT_MASTER →
   current_layout (vi_master_state info) = LAYOUT_MONOCLE →
   (length (o_containers (output s)) < 50)%nat) →
  let bw := cwc_border_get_thickness (c_border cont) in
  let outside := (bw + useless_gaps info) * 2 in
  ∃ N, ∀ fuel, (N < fuel)%nat →
    ∃ s' cont',
      cwc_container_set_maximized fuel c true s = Some s'
      ∧ wf_server s' ∧ output s' = output s
      ∧ containers s' !! c = Some cont'
      ∧ cwc_container_is_maximized cont' = true
      ∧ cwc_container_is_fullscreen cont' = false
      ∧ cwc_container_is_floating s' cont' = cwc_container_is_floating s cont
      ∧ cwc_container_get_box cont'
        = mk_box (box_x (usable_area (output s)) - bw)
            (box_y (usable_area (output s)) - bw)
            (box_width (usable_area (output s)) + outside)
            (box_height (usable_area (output s)) + outside)
      ∧ c_floating_box cont' = c_floating_box cont
      ∧ (b_valid (c_border cont) = true → b_enabled (c_border cont') = false).
Proof.
  intros Hwfs Hc Hts info Hmono bw outside.
  pose proof Hwfs as [Hwf Hviews].
  destruct (wf_nodes _ Hwf) as (rk & N & Hok).
  exists N. intros fuel Hfuel.
  unfold cwc_container_set_maximized. rewrite Hc. simpl.
  (* the state bits *)
  destruct (modify_container_calm c
              (fun cont =>
                 c_set_state
                   (state_set (c_state cont) CONTAINER_STATE_MAXIMIZED) cont)
              s cont Hc eq_refl) as (s1 & E1 & Hc1 & _ & Sh1 & O1).
  unfold set_state_bit at 1. rewrite E1. simpl.
  destruct (modify_container_calm c
              (fun cont =>
                 c_set_state
                   (state_clear (c_state cont) CONTAINER_STATE_FULLSCREEN) cont)
              s1 _ Hc1 eq_refl) as (s2 & E2 & Hc2 & _ & Sh2 & O2).
  unfold clear_state_bit at 1. rewrite E2. simpl.
  simpl c_state in Hc2.
  set (st := state_clear (state_set (c_state cont) CONTAINER_STATE_MAXIMIZED)
               CONTAINER_STATE_FULLSCREEN) in *.
  destruct (maximized_after_set_clear (c_state cont)) as [Hfs Hmx].
  fold st in Hfs, Hmx.
  assert (Hfl : state_test st CONTAINER_STATE_FLOATING
                = state_test (c_state cont) CONTAINER_STATE_FLOATING).
  { subst st. by state_bits. }
  set (cont2 := c_set_state st (c_set_state
                  (state_set (c_state cont) CONTAINER_STATE_MAXIMIZED) cont))
    in *.
  assert (Sh02 : shape_of s2 = shape_of s) by congruence.
  assert (O02 : output s2 = output s) by congruence.
  (* the node *)
  destruct (disable_own_node rk N fuel s2 c cont2)
    as (s3 & E3 & Sh3 & O3 & Hc3); try done.
  { by rewrite Sh02. }
  { by rewrite Sh02. }
  { rewrite Sh02, O02. by apply wf_views_roots_ok. }
  { eapply fullscreen_protected; [done|].
    unfold cwc_container_is_maximized. simpl. rewrite Hfs.
    by rewrite orb_true_r. }
  change (c_bsp_node cont2) with (c_bsp_node cont) in E3.
  rewrite E3. simpl. rewrite Hc3. simpl.
  (* the toplevels *)
  destruct (for_each_place c (box_x (usable_area (output s)))
              (box_y (usable_area (output s)))
              (box_width (usable_area (output s)))
              (box_height (usable_area (output s)))
              (all_toplevel_set_maximized true) (output s))
    with (ts := c_toplevels cont) (s := s3) (cont := cont2)
    as (s4 & cont4 & E4 & G4 & _ & Hc4 & He4 & Hf4 & Hb4).
  { intros t s0 Ho. unfold all_toplevel_set_maximized. by rewrite Ho. }
  { by rewrite Sh3, Sh02. }
  { congruence. }
  { intros t Ht. rewrite Sh3, Sh02.
    eapply (wf_children _ Hwf c); [by rewrite shape_container_lookup, Hc|].
    simpl. apply elem_of_app. by left. }
  { done. }
  { unfold cwc_container_should_save_floating_box,
      cwc_container_is_maximized. simpl. rewrite Hfs. simpl.
    by rewrite andb_false_r. }
  rewrite E4. simpl.
  (* the border *)
  destruct (update_border_effect c true s4 cont4 Hc4)
    as (s5 & cont5 & E5 & Hc5 & _ & Sh5 & O5 & Hst5 & Hb5 & Hf5 & Hbd5).
  rewrite E5. simpl.
  assert (Sh05 : shape_of s5 = shape_of s).
  { rewrite Sh5, (geom_only_shape _ _ G4). congruence. }
  assert (O05 : output s5 = output s).
  { rewrite O5, (go_output _ _ G4). congruence. }
  assert (Hst : c_state cont5 = st).
  { rewrite Hst5. exact (f_equal c_state He4). }
  assert (Hwf5 : wf_server s5) by (by apply (shape_output_wf s)).
  (* the master arrangement *)
  destruct (master_arrange_spares s5 c Hwf5) as (s6 & E6 & Sh6 & O6 & Hc6).
  { rewrite O05. exact Hmono. }
  { eapply fullscreen_protected; [done|].
    unfold cwc_container_is_maximized. rewrite Hst, Hfs.
    by rewrite orb_true_r. }
  rewrite Hc5 in Hc6.
  exists s6, cont5. split_and!.
  - done.
  - apply (shape_output_wf s5); done.
  - congruence.
  - done.
  - unfold cwc_container_is_maximized. by rewrite Hst.
  - unfold cwc_container_is_fullscreen. by rewrite Hst.
  - unfold cwc_container_is_floating. rewrite Hst, Hfl.
    by rewrite O6, O05.
  - rewrite Hb5, Hb4 by (by left). subst bw outside info.
    change (c_border cont2) with (c_border cont). f_equal; lia.
  - rewrite Hf5, Hf4. done.
  - intros Hv. rewrite Hbd5.
    pose proof (f_equal (fun c => b_valid (c_border c)) He4) as Hv4.
    simpl in Hv4. change (c_border cont2) with (c_border cont) in Hv4.
    unfold cwc_border_resize, cwc_border_set_enabled.
    rewrite Hv4, Hv. simpl. done.
Qed.

Lemma for_each_toplevel_skip ts f s :
  (∀ t s, f t s = Some s) → cwc_container_for_each_toplevel ts f s = Some s.
Proof.
  intros Hf. induction ts as [|t ts IH]; simpl; [done|].
  by rewrite Hf.
Qed.

(** A floating container leaves the state [mask] (fullscreen or
    maximized): the part the two setters share. *)
Lemma leave_state_floating (other : server → option server) mask k f s c
    cont :
  mask = Z.shiftl 1 k → 0 <= k < 32 → k ≠ 1 →
  (∀ t s, f t s = Some s) →
  wf_server s → containers s !! c = Some cont →
  cwc_container_is_floating s cont = true →
  let info := cwc_output_get_current_view_info (output s) in
  (layout_mode info = CWC_LAYOUT_MASTER →
   current_layout (vi_master_state info) = LAYOUT_MONOCLE →
   (length (o_containers (output s)) < 50)%nat) →
  ∃ s' cont',
    (s ← (s ← clear_state_bit c mask s;
          cont ← containers s !! c;
          if cwc_container_is_floating s cont
          then cwc_container_restore_floating_box c s
          else other s);
     cont ← containers s !! c;
     s ← cwc_container_for_each_toplevel (c_toplevels cont) f s;
     s ← update_border_after_state_change c false s;
     master_arrange_update s) = Some s'
    ∧ wf_server s' ∧ output s' = output s
    ∧ containers s' !! c = Some cont'
    ∧ c_state cont' = state_clear (c_state cont) mask
    ∧ cwc_container_get_box cont' = c_floating_box cont
    ∧ c_floating_box cont' = c_floating_box cont
    ∧ (b_valid (c_border cont) = true → b_enabled (c_border cont') = true).
Proof.
  intros -> Hk Hk1 Hf Hwfs Hc Hfl info Hmono.
  pose proof Hwfs as [Hwf Hviews].
  destruct (modify_container_calm c
              (fun cont =>
                 c_set_state (state_clear (c_state cont) (Z.shiftl 1 k)) cont)
              s cont Hc eq_refl) as (s1 & E1 & Hc1 & _ & Sh1 & O1).
  unfold clear_state_bit. rewrite E1. simpl. rewrite Hc1. simpl.
  set (cont1 := c_set_state (state_clear (c_state cont) (Z.shiftl 1 k)) cont)
    in *.
  assert (Hfl1 : cwc_container_is_floating s1 cont1 = true).
  { rewrite <- Hfl. apply set_bits_floating; [done|].
    unfold CONTAINER_STATE_FLOATING. rewrite state_test_clear by lia.
    destruct (Z.eqb_spec 1 k); [lia|]. by rewrite andb_true_r. }
  rewrite Hfl1.
  destruct (restore_floating_box_effect c s1 cont1)
    as (s2 & cont2 & E2 & Hc2 & Hb2 & Hf2 & He2 & G2 & _);
    [by rewrite Sh1|done|].
  rewrite E2. simpl. rewrite Hc2. simpl.
  rewrite for_each_toplevel_skip by done. simpl.
  destruct (update_border_effect c false s2 cont2 Hc2)
    as (s3 & cont3 & E3 & Hc3 & _ & Sh3 & O3 & Hst3 & Hb3 & Hf3 & Hbd3).
  rewrite E3. simpl.
  assert (Sh03 : shape_of s3 = shape_of s).
  { rewrite Sh3, (geom_only_shape _ _ G2). congruence. }
  assert (O03 : output s3 = output s).
  { rewrite O3, (go_output _ _ G2). congruence. }
  assert (Hst : c_state cont3 = c_state cont1).
  { rewrite Hst3. exact (f_equal c_state He2). }
  assert (Hwf3 : wf_server s3) by (by apply (shape_output_wf s)).
  destruct (master_arrange_spares s3 c Hwf3) as (s4 & E4 & Sh4 & O4 & Hc4).
  { rewrite O03. exact Hmono. }
  { eapply fullscreen_protected; [done|].
    assert (cwc_container_is_floating s3 cont3 = true) as ->;
      [|by rewrite orb_true_r].
    rewrite <- Hfl1. unfold cwc_container_is_floating.
    by rewrite Hst, O3, (go_output _ _ G2). }
  rewrite Hc3 in Hc4.
  exists s4, cont3. split_and!.
  - done.
  - by apply (shape_output_wf s3).
  - congruence.
  - done.
  - by rewrite Hst.
  - by rewrite Hb3, Hb2.
  - by rewrite Hf3, Hf2.
  - intros Hv. rewrite Hbd3.
    pose proof (f_equal (fun c => b_valid (c_border c)) He2) as Hv2.
    simpl in Hv2. change (c_border cont1) with (c_border cont) in Hv2.
    unfold cwc_border_resize, cwc_border_set_enabled.
    rewrite Hv2, Hv. simpl. done.
Qed.

(** Property X17.  [cwc_container_set_fullscreen(c, true)] returns on a
    well-formed server.  Afterwards [c] is fullscreen and not maximized,
    its border is switched off, its saved floating box is the one it had,
    and every toplevel of it was given the output's size at (0,0): the
    container lies at (-bw, -bw) and is the output's size plus twice
    (bw + gap), where bw is the thickness the border had. *)
Theorem set_fullscreen_covers_output s c cont :
  wf_server s → containers s !! c = Some cont → c_toplevels cont ≠ [] →
  let info := cwc_output_get_current_view_info (output s) in
  (layout_mode info = CWC_LAYOUT_MASTER →
   current_layout (vi_master_state info) = LAYOUT_MONOCLE →
   (length (o_containers (output s)) < 50)%nat) →
  let bw := cwc_border_get_thickness (c_border cont) in
  let outside := (bw + useless_gaps info) * 2 in
  ∃ N, ∀ fuel, (N < fuel)%nat →
    ∃ s' cont',
      cwc_container_set_fullscreen fuel c true s = Some s'
      ∧ wf_server s' ∧ output s' = output s
      ∧ containers s' !! c = Some cont'
      ∧ cwc_container_is_fullscreen cont' = true
      ∧ cwc_container_is_maximized cont' = false
      ∧ cwc_container_is_floating s' cont' = cwc_container_is_floating s cont
      ∧ cwc_container_get_box cont'
        = mk_box (- bw) (- bw) (wlr_output_width (output s) + outside)
            (wlr_output_height (output s) + outside)
      ∧ c_floating_box cont' = c_floating_box cont
      ∧ (b_valid (c_border cont) = true → b_enabled (c_border cont') = false).
Proof.
  intros Hwf Hc Hts info Hmono bw outside.
  destruct (enter_fullscreen_effect s c cont Hwf Hc Hts Hmono) as [N HN].
  exists N. intros fuel Hfuel.
  destruct (HN fuel Hfuel) as (s' & cont' & H).
  exists s', cont'. exact H.
Qed.

(** Property X18.  [cwc_container_set_maximized(c, true)] returns on a
    well-formed server.  Afterwards [c] is maximized and not fullscreen,
    its border is switched off, its saved floating box is the one it had,
    and every toplevel of it was given the size and the origin of the usable
    area: the container lies bw left of and above the usable area's origin
    and is the usable area's size plus twice (bw + gap), where bw is the
    thickness the border had. *)
Theorem set_maximized_covers_usable_area s c cont :
  wf_server s → containers s !! c = Some cont → c_toplevels cont ≠ [] →
  let info := cwc_output_get_current_view_info (output s) in
  (layout_mode info = CWC_LAYOUT_MASTER →
   current_layout (vi_master_state info) = LAYOUT_MONOCLE →
   (length (o_containers (output s)) < 50)%nat) →
  let bw := cwc_border_get_thickness (c_border cont) in
  let outside := (bw + useless_gaps info) * 2 in
  ∃ N, ∀ fuel, (N < fuel)%nat →
    ∃ s' cont',
      cwc_container_set_maximized fuel c true s = Some s'
      ∧ wf_server s' ∧ output s' = output s
      ∧ containers s' !! c = Some cont'
      ∧ cwc_container_is_maximized cont' = true
      ∧ cwc_container_is_fullscreen cont' = false
      ∧ cwc_container_is_floating s' cont' = cwc_container_is_floating s cont
      ∧ cwc_container_get_box cont'
        = mk_box (box_x (usable_area (output s)) - bw)
            (box_y (usable_area (output s)) - bw)
            (box_width (usable_area (output s)) + outside)
            (box_height (usable_area (output s)) + outside)
      ∧ c_floating_box cont' = c_floating_box cont
      ∧ (b_valid (c_border cont) = true → b_enabled (c_border cont') = false).
Proof.
  intros Hwf Hc Hts info Hmono bw outside.
  destruct (enter_maximized_effect s c cont Hwf Hc Hts Hmono) as [N HN].
  exists N. intros fuel Hfuel.
  destruct (HN fuel Hfuel) as (s' & cont' & H).
  exists s', cont'. exact H.
Qed.

Lemma leave_fullscreen_effect fuel s c cont :
  wf_server s → containers s !! c = Some cont →
  cwc_container_is_floating s cont = true →
  let info := cwc_output_get_current_view_info (output s) in
  (layout_mode info = CWC_LAYOUT_MASTER →
   current_layout (vi_master_state info) = LAYOUT_MONOCLE →
   (length (o_containers (output s)) < 50)%nat) →
  ∃ s' cont',
    cwc_container_set_fullscreen fuel c false s = Some s'
    ∧ wf_server s' ∧ output s' = output s
    ∧ containers s' !! c = Some cont'
    ∧ cwc_container_is_fullscreen cont' = false
    ∧ cwc_container_is_maximized cont' = cwc_container_is_maximized cont
    ∧ cwc_container_is_floating s' cont' = true
    ∧ cwc_container_get_box cont' = c_floating_box cont
    ∧ c_floating_box cont' = c_floating_box cont
    ∧ (b_valid (c_border cont) = true → b_enabled (c_border cont') = true).
Proof.
  intros Hwf Hc Hfl info Hmono.
  destruct (leave_state_floating
              (fun s => match c_bsp_node cont with
                        | Some n => bsp_node_enable fuel n s
                        | None => Some s
                        end) CONTAINER_STATE_FULLSCREEN 4
              (all_toplevel_set_fullscreen false) s c cont)
    as (s' & cont' & E & Hwf' & O & Hc' & Hst & Hb & Hf & Hbd);
    [done|lia|lia|done..|].
  exists s', cont'. split_and!; try done.
  - rewrite <- E. unfold cwc_container_set_fullscreen. rewrite Hc. reflexivity.
  - unfold cwc_container_is_fullscreen. rewrite Hst. by state_bits.
  - unfold cwc_container_is_maximized. rewrite Hst. by state_bits.
  - rewrite <- Hfl. unfold cwc_container_is_floating. rewrite Hst, O.
    by state_bits.
Qed.

Lemma leave_maximized_effect fuel s c cont :
  wf_server s → containers s !! c = Some cont →
  cwc_container_is_floating s cont = true →
  let info := cwc_output_get_current_view_info (output s) in
  (layout_mode info = CWC_LAYOUT_MASTER →
   current_layout (vi_master_state info) = LAYOUT_MONOCLE →
   (length (o_containers (output s)) < 50)%nat) →
  ∃ s' cont',
    cwc_container_set_maximized fuel c false s = Some s'
    ∧ wf_server s' ∧ output s' = output s
    ∧ containers s' !! c = Some cont'
    ∧ cwc_container_is_maximized cont' = false
    ∧ cwc_container_is_fullscreen cont' = cwc_container_is_fullscreen cont
    ∧ cwc_container_is_floating s' cont' = true
    ∧ cwc_container_get_box cont' = c_floating_box cont
    ∧ c_floating_box cont' = c_floating_box cont
    ∧ (b_valid (c_border cont) = true → b_enabled (c_border cont') = true).
Proof.
  intros Hwf Hc Hfl info Hmono.
  destruct (leave_state_floating
              (fun s => match c_bsp_node cont with
                        | Some n => bsp_node_enable fuel n s
                        | None => Some s
                        end) CONTAINER_STATE_MAXIMIZED 3
              (all_toplevel_set_maximized false) s c cont)
    as (s' & cont' & E & Hwf' & O & Hc' & Hst & Hb & Hf & Hbd);
    [done|lia|lia|done..|].
  exists s', cont'. split_and!; try done.
  - rewrite <- E. unfold cwc_container_set_maximized. rewrite Hc. reflexivity.
  - unfold cwc_container_is_maximized. rewrite Hst. by state_bits.
  - unfold cwc_container_is_fullscreen. rewrite Hst. by state_bits.
  - rewrite <- Hfl. unfold cwc_container_is_floating. rewrite Hst, O.
    by state_bits.
Qed.

(** Property X19.  For a floating container of a well-formed server,
    [cwc_container_set_fullscreen(c, false)] and
    [cwc_container_set_maximized(c, false)] return whatever the fuel, clear
    their bit and keep the other, switch the border on, and put the
    container exactly at its saved floating box, which stays as it is; the
    server stays well formed. *)
Theorem unset_restores_floating_box fuel s c cont :
  wf_server s → containers s !! c = Some cont →
  cwc_container_is_floating s cont = true →
  let info := cwc_output_get_current_view_info (output s) in
  (layout_mode info = CWC_LAYOUT_MASTER →
   current_layout (vi_master_state info) = LAYOUT_MONOCLE →
   (length (o_containers (output s)) < 50)%nat) →
  (∃ s' cont',
     cwc_container_set_fullscreen fuel c false s = Some s'
     ∧ wf_server s' ∧ output s' = output s
     ∧ containers s' !! c = Some cont'
     ∧ cwc_container_is_fullscreen cont' = false
     ∧ cwc_container_is_maximized cont' = cwc_container_is_maximized cont
     ∧ cwc_container_is_floating s' cont' = true
     ∧ cwc_container_get_box cont' = c_floating_box cont
     ∧ c_floating_box cont' = c_floating_box cont
     ∧ (b_valid (c_border cont) = true → b_enabled (c_border cont') = true))
  ∧ (∃ s' cont',
       cwc_container_set_maximized fuel c false s = Some s'
       ∧ wf_server s' ∧ output s' = output s
       ∧ containers s' !! c = Some cont'
       ∧ cwc_container_is_maximized cont' = false
       ∧ cwc_container_is_fullscreen cont' = cwc_container_is_fullscreen cont
       ∧ cwc_container_is_floating s' cont' = true
       ∧ cwc_container_get_box cont' = c_floating_box cont
       ∧ c_floating_box cont' = c_floating_box cont
       ∧ (b_valid (c_border cont) = true →
          b_enabled (c_border cont') = true)).
Proof.
  intros Hwf Hc Hfl info Hmono. split.
  - by apply leave_fullscreen_effect.
  - by apply leave_maximized_effect.
Qed.

(** Property X20.  Fullscreen round trip of a floating container:
    [cwc_container_set_fullscreen(c, true)] followed by
    [cwc_container_set_fullscreen(c, false)] returns, and leaves the
    container floating, neither fullscreen nor maximized, with the saved
    floating box it had before and placed exactly at that box.  The same
    holds for [cwc_container_set_maximized]. *)
Theorem fullscreen_round_trip s c cont :
  wf_server s → containers s !! c = Some cont → c_toplevels cont ≠ [] →
  cwc_container_is_floating s cont = true →
  let info := cwc_output_get_current_view_info (output s) in
  (layout_mode info = CWC_LAYOUT_MASTER →
   current_layout (vi_master_state info) = LAYOUT_MONOCLE →
   (length (o_containers (output s)) < 50)%nat) →
  ∃ N, ∀ fuel, (N < fuel)%nat →
    (∃ s1 s2 cont2,
       cwc_container_set_fullscreen fuel c true s = Some s1
       ∧ cwc_container_set_fullscreen fuel c false s1 = Some s2
       ∧ containers s2 !! c = Some cont2
       ∧ cwc_container_is_fullscreen cont2 = false
       ∧ cwc_container_is_maximized cont2 = false
       ∧ cwc_container_is_floating s2 cont2 = true
       ∧ cwc_container_get_box cont2 = c_floating_box cont
       ∧ c_floating_box cont2 = c_floating_box cont)
    ∧ (∃ s1 s2 cont2,
         cwc_container_set_maximized fuel c true s = Some s1
         ∧ cwc_container_set_maximized fuel c false s1 = Some s2
         ∧ containers s2 !! c = Some cont2
         ∧ cwc_container_is_fullscreen cont2 = false
         ∧ cwc_container_is_maximized cont2 = false
         ∧ cwc_container_is_floating s2 cont2 = true
         ∧ cwc_container_get_box cont2 = c_floating_box cont
         ∧ c_floating_box cont2 = c_floating_box cont).
Proof.
  intros Hwf Hc Hts Hfl info Hmono.
  destruct (enter_fullscreen_effect s c cont Hwf Hc Hts Hmono) as [N1 H1].
  destruct (enter_maximized_effect s c cont Hwf Hc Hts Hmono) as [N2 H2].
  exists (N1 `max` N2)%nat. intros fuel Hfuel. split.
  - destruct (H1 fuel) as (s1 & cont1 & E1 & Hwf1 & O1 & Hc1 & _ & Hmx1 & Hfl1
                           & _ & Hf1 & _); [lia|].
    destruct (leave_fullscreen_effect fuel s1 c cont1 Hwf1 Hc1)
      as (s2 & cont2 & E2 & _ & _ & Hc2 & Hfs2 & Hmx2 & Hfl2 & Hb2 & Hf2 & _).
    { by rewrite Hfl1. }
    { rewrite O1. exact Hmono. }
    exists s1, s2, cont2. split_and!; try done; congruence.
  - destruct (H2 fuel) as (s1 & cont1 & E1 & Hwf1 & O1 & Hc1 & _ & Hfs1 & Hfl1
                           & _ & Hf1 & _); [lia|].
    destruct (leave_maximized_effect fuel s1 c cont1 Hwf1 Hc1)
      as (s2 & cont2 & E2 & _ & _ & Hc2 & Hmx2 & Hfs2 & Hfl2 & Hb2 & Hf2 & _).
    { by rewrite Hfl1. }
    { rewrite O1. exact Hmono. }
    exists s1, s2, cont2. split_and!; try done; congruence.
Qed.

Lemma floating_one_wf_server : wf_server Instances.floating_one.
Proof.
  split; [exact floating_one_wf|].
  intros ws. split; [reflexivity|]. intros r Hr. discriminate Hr.
Qed.

Lemma floating_one_lookup :
  containers Instances.floating_one !! 0%nat
  = Some Instances.floating_one_container.
Proof. vm_compute. reflexivity. Qed.

(** The floating container of the example, border 1, on the 1920x1080
    output. *)
Lemma set_fullscreen_covers_output_witness :
  ∃ N, ∀ fuel, (N < fuel)%nat →
    ∃ s' cont',
      cwc_container_set_fullscreen fuel 0%nat true Instances.floating_one
      = Some s'
      ∧ containers s' !! 0%nat = Some cont'
      ∧ cwc_container_get_box cont' = mk_box (-1) (-1) 1922 1082
      ∧ c_floating_box cont' = mk_box 100 100 640 480.
Proof.
  destruct (set_fullscreen_covers_output Instances.floating_one 0%nat
              Instances.floating_one_container floating_one_wf_server
              floating_one_lookup) as (N & H).
  - vm_compute. discriminate.
  - intros _ _. vm_compute. lia.
  - exists N. intros fuel Hfuel.
    destruct (H fuel Hfuel)
      as (s' & cont' & E & _ & _ & Hc & _ & _ & _ & Hb & Hf & _).
    exists s', cont'. split_and!; [done|done| |].
    + rewrite Hb. vm_compute. reflexivity.
    + rewrite Hf. vm_compute. reflexivity.
Defined.

Lemma set_maximized_covers_usable_area_witness :
  ∃ N, ∀ fuel, (N < fuel)%nat →
    ∃ s' cont',
      cwc_container_set_maximized fuel 0%nat true Instances.floating_one
      = Some s'
      ∧ containers s' !! 0%nat = Some cont'
      ∧ cwc_container_get_box cont' = mk_box (-1) (-1) 1922 1082
      ∧ c_floating_box cont' = mk_box 100 100 640 480.
Proof.
  destruct (set_maximized_covers_usable_area Instances.floating_one 0%nat
              Instances.floating_one_container floating_one_wf_server
              floating_one_lookup) as (N & H).
  - vm_compute. discriminate.
  - intros _ _. vm_compute. lia.
  - exists N. intros fuel Hfuel.
    destruct (H fuel Hfuel)
      as (s' & cont' & E & _ & _ & Hc & _ & _ & _ & Hb & Hf & _).
    exists s', cont'. split_and!; [done|done| |].
    + rewrite Hb. vm_compute. reflexivity.
    + rewrite Hf. vm_compute. reflexivity.
Defined.

Lemma unset_restores_floating_box_witness :
  ∃ s' cont',
    cwc_container_set_fullscreen 0 0%nat false Instances.floating_one
    = Some s'
    ∧ containers s' !! 0%nat = Some cont'
    ∧ cwc_container_get_box cont' = mk_box 100 100 640 480.
Proof.
  destruct (unset_restores_floating_box 0 Instances.floating_one 0%nat
              Instances.floating_one_container floating_one_wf_server
              floating_one_lookup) as [(s' & cont' & E & _ & _ & Hc & _ & _
                                        & _ & Hb & _) _].
  - vm_compute. reflexivity.
  - intros _ _. vm_compute. lia.
  - exists s', cont'. split_and!; [done|done|].
    rewrite Hb. vm_compute. reflexivity.
Defined.

Lemma fullscreen_round_trip_witness :
  ∃ N, ∀ fuel, (N < fuel)%nat →
    ∃ s1 s2 cont2,
      cwc_container_set_fullscreen fuel 0%nat true Instances.floating_one
      = Some s1
      ∧ cwc_container_set_fullscreen fuel 0%nat false s1 = Some s2
      ∧ containers s2 !! 0%nat = Some cont2
      ∧ cwc_container_get_box cont2 = mk_box 100 100 640 480.
Proof.
  destruct (fullscreen_round_trip Instances.floating_one 0%nat
              Instances.floating_one_container floating_one_wf_server
              floating_one_lookup) as (N & H).
  - vm_compute. discriminate.
  - vm_compute. reflexivity.
  - intros _ _. vm_compute. lia.
  - exists N. intros fuel Hfuel.
    destruct (H fuel Hfuel)
      as [(s1 & s2 & cont2 & E1 & E2 & Hc & _ & _ & _ & Hb & _) _].
    exists s1, s2, cont2. split_and!; [done..|].
    rewrite Hb. vm_compute. reflexivity.
Defined.
(** *** Minimizing *)

Lemma shape_views_wf s s' :
  shape_of s' = shape_of s → view_info (output s') = view_info (output s) →
  wf_server s → wf_server s'.
Proof.
  intros Sh O [Hs Hv]. split; [by rewrite Sh|].
  intros ws. destruct (Hv ws) as [Hm Hr]. rewrite O. split; [done|].
  intros r Hroot. specialize (Hr r Hroot).
  assert (H : is_Some (sh_nodes (shape_of s) !! r)).
  { rewrite shape_node_lookup. by apply fmap_is_Some. }
  rewrite <- Sh, shape_node_lookup in H. by apply fmap_is_Some in H.
Qed.

Lemma _bsp_node_enable_output fuel : ∀ n s r s',
  _bsp_node_enable fuel n s = Some (r, s') → output s' = output s.
Proof.
  induction fuel as [|fuel IH]; simpl; intros n s r s' H; [done|].
  bind_inv;
    repeat match goal with
    | E : modify_node _ _ _ = Some _ |- _ =>
        unfold modify_node in E; bind_inv
    end; try done.
  match goal with
  | E : _bsp_node_enable _ _ _ = Some _ |- _ => by rewrite (IH _ _ _ _ E)
  end.
Qed.

Lemma bsp_node_disable_erased fuel n s s' :
  bsp_node_disable fuel n s = Some s' →
  output s' = output s
  ∧ container_erase <$> containers s' = container_erase <$> containers s.
Proof.
  unfold bsp_node_disable. intros H.
  apply bind_Some in H as ([r s1] & E1 & H).
  pose proof (_bsp_node_disable_output _ _ _ _ _ E1) as O1.
  pose proof (_bsp_node_disable_containers _ _ _ _ _ E1) as C1.
  assert (G : geom_only s1 s') by (bind_inv; chain).
  split; [by rewrite (go_output _ _ G)|].
  by rewrite (go_containers _ _ G), C1.
Qed.

Lemma bsp_node_enable_erased fuel n s s' :
  bsp_node_enable fuel n s = Some s' →
  output s' = output s
  ∧ container_erase <$> containers s' = container_erase <$> containers s.
Proof.
  unfold bsp_node_enable. intros H.
  apply bind_Some in H as ([r s1] & E1 & H).
  pose proof (_bsp_node_enable_output _ _ _ _ _ E1) as O1.
  pose proof (_bsp_node_enable_containers _ _ _ _ _ E1) as C1.
  assert (G : geom_only s1 s') by (bind_inv; chain).
  split; [by rewrite (go_output _ _ G)|].
  by rewrite (go_containers _ _ G), C1.
Qed.

(** The node of a container, if it has one, switched off or on. *)
Lemma own_node_switch (on : bool) rk N fuel s c cont :
  wf_shape (shape_of s) → nodes_ok rk N (shape_of s) →
  roots_ok (shape_of s) (output s) →
  shape_of_container <$> containers s !! c = Some (shape_of_container cont) →
  (N < fuel)%nat →
  ∃ s', match c_bsp_node cont with
        | Some n => if on then bsp_node_enable fuel n s
                    else bsp_node_disable fuel n s
        | None => Some s
        end = Some s'
        ∧ shape_of s' = shape_of s ∧ output s' = output s
        ∧ container_erase <$> containers s'
          = container_erase <$> containers s.
Proof.
  intros Hwf Hok Hroots Hc Hfuel.
  destruct (c_bsp_node cont) as [n|] eqn:En; [|by exists s].
  assert (Hn : is_Some (sh_nodes (shape_of s) !! n)).
  { eapply (wf_container_node _ Hwf c);
      [by rewrite shape_container_lookup|done]. }
  destruct on.
  - destruct (bsp_node_enable_total (shape_of s) rk N fuel n s)
      as (s' & E & Sh); try done.
    destruct (bsp_node_enable_erased _ _ _ _ E) as [O C]. by exists s'.
  - destruct (bsp_node_disable_total (shape_of s) rk N fuel n s)
      as (s' & E & Sh); try done.
    destruct (bsp_node_disable_erased _ _ _ _ E) as [O C]. by exists s'.
Qed.

Lemma master_arrange_returns s :
  wf_server s →
  let info := cwc_output_get_current_view_info (output s) in
  (layout_mode info = CWC_LAYOUT_MASTER →
   current_layout (vi_master_state info) = LAYOUT_MONOCLE →
   (length (o_containers (output s)) < 50)%nat) →
  ∃ s', master_arrange_update s = Some s' ∧ geom_only s s'.
Proof.
  intros [Hwf Hviews] info Hmono.
  assert (∃ s', master_arrange_update s = Some s') as [s' E].
  { destruct (layout_mode info) eqn:Hmode;
      try (exists s; unfold master_arrange_update; fold info;
           by rewrite Hmode).
    apply master_arrange_update_total; [done|apply Hviews|].
    intros Hl. specialize (Hmono eq_refl Hl).
    pose proof (tileable_fronts_length s (o_containers (output s))). lia. }
  exists s'. split; [done|]. by apply master_arrange_update_geom.
Qed.

Lemma erased_lookup s s' c cont :
  container_erase <$> containers s' = container_erase <$> containers s →
  containers s !! c = Some cont →
  ∃ cont', containers s' !! c = Some cont'
           ∧ container_erase cont' = container_erase cont.
Proof. intros H. by apply fmap_eq_lookup. Qed.

Lemma minimize_effect s c cont :
  wf_server s → containers s !! c = Some cont →
  let info := cwc_output_get_current_view_info (output s) in
  (layout_mode info = CWC_LAYOUT_MASTER →
   current_layout (vi_master_state info) = LAYOUT_MONOCLE →
   (length (o_containers (output s)) < 50)%nat) →
  ∃ N, ∀ fuel, (N < fuel)%nat →
    ∃ s' cont',
      cwc_container_set_minimized fuel c true s = Some s'
      ∧ wf_server s'
      ∧ output s'
        = o_set_minimized (c :: o_minimized (output s)) (output s)
      ∧ containers s' !! c = Some cont'
      ∧ c_state cont' = state_set (c_state cont) CONTAINER_STATE_MINIMIZED
      ∧ c_tag cont' = c_tag cont ∧ c_workspace cont' = c_workspace cont.
Proof.
  intros Hwfs Hc info Hmono.
  pose proof Hwfs as [Hwf Hviews].
  destruct (wf_nodes _ Hwf) as (rk & N & Hok).
  exists N. intros fuel Hfuel.
  unfold cwc_container_set_minimized. rewrite Hc. simpl.
  set (s0 := with_output s
               (o_set_minimized (c :: o_minimized (output s)) (output s))).
  assert (Sh0 : shape_of s0 = shape_of s) by done.
  destruct (own_node_switch false rk N fuel s0 c cont)
    as (s1 & E1 & Sh1 & O1 & C1); try done.
  { rewrite Sh0. intros ws r Hr.
    by apply (wf_views_roots_ok s Hviews ws r). }
  { change (containers s0) with (containers s). by rewrite Hc. }
  rewrite E1. simpl.
  destruct (erased_lookup s0 s1 c cont C1 Hc) as (cont1 & Hc1 & He1).
  destruct (modify_container_calm c
              (fun cont =>
                 c_set_state
                   (state_set (c_state cont) CONTAINER_STATE_MINIMIZED) cont)
              s1 cont1 Hc1 eq_refl) as (s2 & E2 & Hc2 & _ & Sh2 & O2).
  unfold set_state_bit. rewrite E2. simpl.
  assert (Hwf2 : wf_server s2).
  { apply (shape_views_wf s); [congruence| |done]. by rewrite O2, O1. }
  destruct (master_arrange_returns s2 Hwf2) as (s3 & E3 & G3).
  { rewrite O2, O1. exact Hmono. }
  destruct (geom_only_container _ _ _ _ G3 Hc2) as (cont3 & Hc3 & He3).
  exists s3, cont3. split_and!.
  - done.
  - by apply (geom_only_wf s2).
  - by rewrite (go_output _ _ G3), O2, O1.
  - done.
  - rewrite (f_equal c_state He3 : c_state cont3 = _). simpl.
    by rewrite (f_equal c_state He1 : c_state cont1 = _).
  - rewrite (f_equal c_tag He3 : c_tag cont3 = _). simpl.
    exact (f_equal c_tag He1).
  - rewrite (f_equal c_workspace He3 : c_workspace cont3 = _). simpl.
    exact (f_equal c_workspace He1).
Qed.

Lemma unminimize_effect s c cont :
  wf_server s → containers s !! c = Some cont →
  let info := cwc_output_get_current_view_info (output s) in
  (layout_mode info = CWC_LAYOUT_MASTER →
   current_layout (vi_master_state info) = LAYOUT_MONOCLE →
   (length (o_containers (output s)) < 50)%nat) →
  ∃ N, ∀ fuel, (N < fuel)%nat →
    ∃ s' cont',
      cwc_container_set_minimized fuel c false s = Some s'
      ∧ wf_server s'
      ∧ output s'
        = o_set_minimized (filter (fun x => x ≠ c) (o_minimized (output s)))
            (output s)
      ∧ containers s' !! c = Some cont'
      ∧ c_state cont' = state_clear (c_state cont) CONTAINER_STATE_MINIMIZED
      ∧ c_tag cont' = active_tag (output s)
      ∧ c_workspace cont' = active_workspace (output s).
Proof.
  intros Hwfs Hc info Hmono.
  pose proof Hwfs as [Hwf Hviews].
  destruct (wf_nodes _ Hwf) as (rk & N & Hok).
  exists N. intros fuel Hfuel.
  unfold cwc_container_set_minimized. rewrite Hc. simpl.
  destruct (modify_container_calm c
              (fun cont =>
                 c_set_state
                   (state_clear (c_state cont) CONTAINER_STATE_MINIMIZED) cont)
              s cont Hc eq_refl) as (s1 & E1 & Hc1 & _ & Sh1 & O1).
  unfold clear_state_bit. rewrite E1. simpl.
  set (s0 := with_output s1 _).
  assert (Sh0 : shape_of s0 = shape_of s) by (by rewrite <- Sh1).
  destruct (own_node_switch true rk N fuel s0 c cont)
    as (s2 & E2 & Sh2 & O2 & C2); try done.
  { by rewrite Sh0. }
  { by rewrite Sh0. }
  { rewrite Sh0. intros ws r Hr. subst s0. simpl in Hr. rewrite O1 in Hr.
    by apply (wf_views_roots_ok s Hviews ws r). }
  { change (containers s0) with (containers s1). by rewrite Hc1. }
  rewrite E2. simpl.
  destruct (erased_lookup s0 s2 c _ C2 Hc1) as (cont2 & Hc2 & He2).
  destruct (modify_container_calm c
              (c_set_tag_workspace (active_tag (output s2))
                 (active_workspace (output s2)))
              s2 cont2 Hc2 eq_refl) as (s3 & E3 & Hc3 & _ & Sh3 & O3).
  unfold _update_to_current_active_tag_and_worskpace. rewrite E3. simpl.
  assert (O03 : output s3 = output s0) by congruence.
  assert (Hwf3 : wf_server s3).
  { apply (shape_views_wf s); [congruence| |done].
    rewrite O03. subst s0. simpl. by rewrite O1. }
  destruct (master_arrange_returns s3 Hwf3) as (s4 & E4 & G4).
  { rewrite O03. subst s0. simpl. rewrite O1. exact Hmono. }
  destruct (geom_only_container _ _ _ _ G4 Hc3) as (cont4 & Hc4 & He4).
  exists s4, cont4. split_and!.
  - done.
  - by apply (geom_only_wf s3).
  - rewrite (go_output _ _ G4), O03. subst s0. simpl. by rewrite O1.
  - done.
  - rewrite (f_equal c_state He4 : c_state cont4 = _). simpl.
    by rewrite (f_equal c_state He2 : c_state cont2 = _).
  - rewrite (f_equal c_tag He4 : c_tag cont4 = _). simpl.
    rewrite O2. subst s0. simpl. by rewrite O1.
  - rewrite (f_equal c_workspace He4 : c_workspace cont4 = _). simpl.
    rewrite O2. subst s0. simpl. by rewrite O1.
Qed.


Import BspSpec.

(** *** Inserting into a BSP tree *)

Lemma node_id_eqb_eq a b : node_id_eqb a b = true ↔ a = b.
Proof.
  destruct a as [x|], b as [y|]; simpl; try (split; congruence).
  rewrite Nat.eqb_eq. split; congruence.
Qed.

Lemma first_leaf_shape_wf sh new rk N :
  wf_shape sh → nodes_ok rk N sh → is_Some (sh_containers sh !! new) →
  wf_shape (first_leaf_shape sh new)
  ∧ nodes_ok (first_leaf_rank rk (length (sh_nodes sh))) (S N)
      (first_leaf_shape sh new).
Proof.
  intros Hwf Hok [cs Hnew].
  set (L := length (sh_nodes sh)).
  assert (Hcont : ∀ c, is_Some (sh_containers sh !! c) →
            is_Some (sh_containers (first_leaf_shape sh new) !! c)).
  { intros c. simpl. rewrite !lookup_lt_is_Some. by rewrite length_alter. }
  assert (Hnode : ∀ n, is_Some (sh_nodes sh !! n) →
            is_Some (sh_nodes (first_leaf_shape sh new) !! n)).
  { intros n. simpl. rewrite !lookup_lt_is_Some, length_app. lia. }
  assert (Hrk : ∀ n, is_Some (sh_nodes sh !! n) →
            first_leaf_rank rk L n = rk n).
  { intros n Hn. apply lookup_lt_is_Some in Hn. unfold first_leaf_rank.
    destruct (Nat.eqb_spec n L); [lia|done]. }
  assert (Hoks : nodes_ok (first_leaf_rank rk L) (S N)
                   (first_leaf_shape sh new)).
  { intros n ns Hn. unfold node_ok. simpl in Hn.
    apply lookup_app_Some in Hn as [Hn|[Hge Hn]].
    - destruct (Hok n ns Hn) as (HN & Hpar & Hkind).
      rewrite (Hrk n) by eauto. split_and!.
      + lia.
      + intros p Hp. destruct (Hpar p Hp) as (ps & Hps & ? & ? & ?).
        exists ps. rewrite (Hrk p) by eauto. split_and!; try done.
        simpl. by apply lookup_app_l_Some.
      + destruct (ns_type ns).
        * destruct Hkind as (? & l & r & ? & ? & Hl & Hr & ? & ?).
          split; [done|]. exists l, r.
          rewrite (Hrk l), (Hrk r) by done. split_and!; auto.
        * destruct Hkind as (c & ? & ?). exists c. auto.
    - fold L in Hge, Hn. destruct (n - L)%nat as [|k] eqn:Ek; [|by destruct k].
      simpl in Hn. injection Hn as <-. assert (n = L) as -> by lia.
      unfold first_leaf_rank. rewrite Nat.eqb_refl. split_and!.
      + lia.
      + intros p Hp. done.
      + simpl. exists new. split; [done|]. apply Hcont. eauto. }
  split; [|done]. constructor.
  - intros c cs' Hc. simpl in Hc.
    destruct (decide (c = new)) as [->|Hne].
    + rewrite list_lookup_alter_eq, Hnew in Hc. simpl in Hc.
      injection Hc as <-. simpl. by eapply (wf_front _ Hwf).
    + rewrite list_lookup_alter_ne in Hc by done. by eapply (wf_front _ Hwf).
  - intros c cs' t Hc Ht. simpl in Hc. simpl.
    destruct (decide (c = new)) as [->|Hne].
    + rewrite list_lookup_alter_eq, Hnew in Hc. simpl in Hc.
      injection Hc as <-. simpl in Ht. by eapply (wf_children _ Hwf).
    + rewrite list_lookup_alter_ne in Hc by done.
      by eapply (wf_children _ Hwf).
  - intros c Hc. apply Hcont. by apply (wf_o_containers _ Hwf).
  - intros c cs' n Hc Hn. simpl in Hc.
    destruct (decide (c = new)) as [->|Hne].
    + rewrite list_lookup_alter_eq, Hnew in Hc. simpl in Hc.
      injection Hc as <-. simpl in Hn. injection Hn as <-. simpl.
      apply lookup_lt_is_Some. rewrite length_app. simpl. lia.
    + rewrite list_lookup_alter_ne in Hc by done. apply Hnode.
      by eapply (wf_container_node _ Hwf).
  - eauto.
Qed.

Lemma ns_replace_child_fields old new ns :
  ns_type (ns_replace_child old new ns) = ns_type ns
  ∧ ns_container (ns_replace_child old new ns) = ns_container ns
  ∧ ns_parent (ns_replace_child old new ns) = ns_parent ns
  ∧ ns_split_type (ns_replace_child old new ns) = ns_split_type ns.
Proof. unfold ns_replace_child. by repeat case_match. Qed.

(** A child other than [old] stays a child, [old] is replaced by [new]. *)
Lemma ns_replace_child_children old new ns l r :
  ns_left ns = Some l → ns_right ns = Some r →
  ∃ l' r', ns_left (ns_replace_child old new ns) = Some l'
           ∧ ns_right (ns_replace_child old new ns) = Some r'
           ∧ (l' = l ∨ l' = new ∧ l = old)
           ∧ (r' = r ∨ r' = new ∧ r = old)
           ∧ (l = old ∨ r = old → l' = new ∨ r' = new)
           ∧ (∀ n, n ≠ old → l = n ∨ r = n → l' = n ∨ r' = n).
Proof.
  intros Hl Hr. unfold ns_replace_child. rewrite Hl, Hr. simpl.
  destruct (Nat.eqb_spec l old) as [->|Hlo]; simpl.
  - exists new, r. split_and!; auto. intros n Hn [?|?]; [congruence|auto].
  - destruct (Nat.eqb_spec r old) as [->|Hro]; simpl.
    + exists l, new. rewrite ?Hl. split_and!; auto.
      intros n Hn [?|?]; [auto|congruence].
    + exists l, r. rewrite ?Hl, ?Hr. split_and!; auto. intros [?|?]; done.
Qed.

Lemma insert_shape_wf sh left_ new split ls rk N :
  wf_shape sh → nodes_ok rk N sh →
  sh_nodes sh !! left_ = Some ls → is_Some (sh_containers sh !! new) →
  split ≠ BSP_SPLIT_AUTO →
  wf_shape (insert_shape sh left_ new split)
  ∧ nodes_ok (insert_rank rk (length (sh_nodes sh)) left_) (2 * N + 2)
      (insert_shape sh left_ new split).
Proof.
  intros Hwf Hok Hls [cs Hnew] Hsplit.
  set (L := length (sh_nodes sh)).
  set (sh' := insert_shape sh left_ new split).
  set (r' := insert_rank rk L left_).
  assert (HlL : (left_ < L)%nat) by (by eapply lookup_lt_Some).
  destruct (Hok left_ ls Hls) as (HNl & Hparl & Hkindl).
  (* the old nodes in the new forest *)
  set (old' := fun (n : node_id) (ns : node_shape) =>
         let ns1 := if decide (n = left_) then ns_set_parent (Some L) ns
                    else ns in
         if decide (ns_parent ls = Some n) then ns_replace_child left_ L ns1
         else ns1).
  set (nodes' := match ns_parent ls with
                 | Some g =>
                     alter (ns_replace_child left_ L) g
                       (alter (ns_set_parent (Some L)) left_ (sh_nodes sh))
                 | None => alter (ns_set_parent (Some L)) left_ (sh_nodes sh)
                 end).
  assert (Hnodes : sh_nodes sh'
                   = nodes'
                     ++ [mk_nshape BSP_NODE_INTERNAL None (ns_parent ls)
                           (Some left_) (Some (S L)) split;
                         mk_nshape BSP_NODE_LEAF (Some new) (Some L) None None
                           BSP_SPLIT_AUTO]).
  { subst sh' nodes'. unfold insert_shape. simpl. rewrite Hls. simpl.
    done. }
  assert (Hlen : length nodes' = L).
  { subst nodes'. destruct (ns_parent ls); by rewrite ?length_alter. }
  assert (Hold : ∀ n, nodes' !! n = old' n <$> sh_nodes sh !! n).
  { intros n. subst nodes' old'. cbv beta zeta.
    destruct (ns_parent ls) as [g|] eqn:Eg.
    - destruct (decide (g = n)) as [->|Hgn];
        destruct (decide (n = left_)) as [->|Hnl];
        rewrite ?list_lookup_alter_eq, ?list_lookup_alter_ne by done;
        rewrite ?list_lookup_alter_eq, ?list_lookup_alter_ne by done;
        match goal with
        | |- context [sh_nodes sh !! ?k] => destruct (sh_nodes sh !! k)
        end; simpl; try done; repeat case_decide; try done; congruence.
    - destruct (decide (n = left_)) as [->|Hnl];
        rewrite ?list_lookup_alter_eq, ?list_lookup_alter_ne by done;
        match goal with
        | |- context [sh_nodes sh !! ?k] => destruct (sh_nodes sh !! k)
        end; simpl; try done; repeat case_decide; try done; congruence. }
  assert (HP : sh_nodes sh' !! L
               = Some (mk_nshape BSP_NODE_INTERNAL None (ns_parent ls)
                         (Some left_) (Some (S L)) split)).
  { rewrite Hnodes, lookup_app_r by lia. by rewrite Hlen, Nat.sub_diag. }
  assert (HR : sh_nodes sh' !! S L
               = Some (mk_nshape BSP_NODE_LEAF (Some new) (Some L) None None
                         BSP_SPLIT_AUTO)).
  { rewrite Hnodes, lookup_app_r by lia. rewrite Hlen.
    by replace (S L - L)%nat with 1%nat by lia. }
  assert (Hin : ∀ n ns, sh_nodes sh !! n = Some ns →
            sh_nodes sh' !! n = Some (old' n ns)).
  { intros n ns Hn. rewrite Hnodes. apply lookup_app_l_Some.
    by rewrite Hold, Hn. }
  assert (Hnode : ∀ n, is_Some (sh_nodes sh !! n) →
            is_Some (sh_nodes sh' !! n)).
  { intros n [ns Hn]. rewrite (Hin n ns Hn). eauto. }
  assert (Hcs : sh_containers sh'
                = alter (cs_set_bsp_node (Some (S L))) new (sh_containers sh))
    by done.
  assert (Htl : sh_toplevels sh' = sh_toplevels sh) by done.
  assert (Hoc : sh_o_containers sh' = sh_o_containers sh) by done.
  assert (Hcont : ∀ c, is_Some (sh_containers sh !! c) →
            is_Some (sh_containers sh' !! c)).
  { intros c. rewrite Hcs, !lookup_lt_is_Some. by rewrite length_alter. }
  clearbody sh' nodes'.
  assert (Hr_old : ∀ n, (n < L)%nat → r' n = (2 * rk n + 1)%nat).
  { intros n Hn. subst r'. unfold insert_rank.
    destruct (Nat.eqb_spec n L); [lia|].
    destruct (Nat.eqb_spec n (S L)); [lia|done]. }
  assert (Hr_P : r' L = (2 * rk left_ + 2)%nat).
  { subst r'. unfold insert_rank. by rewrite Nat.eqb_refl. }
  assert (Hr_R : r' (S L) = 0%nat).
  { subst r'. unfold insert_rank.
    destruct (Nat.eqb_spec (S L) L); [lia|]. by rewrite Nat.eqb_refl. }
  assert (Hfields : ∀ n ns,
            ns_type (old' n ns) = ns_type ns
            ∧ ns_container (old' n ns) = ns_container ns
            ∧ ns_split_type (old' n ns) = ns_split_type ns
            ∧ ns_parent (old' n ns)
              = if decide (n = left_) then Some L else ns_parent ns).
  { intros n ns. subst old'. cbv beta zeta.
    destruct (decide (ns_parent ls = Some n));
      [destruct (ns_replace_child_fields left_ L
                   (if decide (n = left_) then ns_set_parent (Some L) ns
                    else ns)) as (-> & -> & -> & ->)|];
      by destruct (decide (n = left_)). }
  (* the grandparent, if there is one *)
  assert (Hgrand : ∀ g, ns_parent ls = Some g →
            ∃ gs, sh_nodes sh !! g = Some gs ∧ (rk left_ < rk g)%nat
                  ∧ g ≠ left_ ∧ ns_type gs = BSP_NODE_INTERNAL
                  ∧ (ns_left gs = Some left_ ∨ ns_right gs = Some left_)).
  { intros g Hg. destruct (Hparl g Hg) as (gs & Hgs & Hrk & Hint & Hch).
    exists gs. split_and!; try done. intros ->. lia. }
  assert (Hoks : nodes_ok r' (2 * N + 2) sh').
  { intros n ns' Hn. unfold node_ok. rewrite Hnodes in Hn.
    apply lookup_app_Some in Hn as [Hn|[Hge Hn]].
    - (* an old node *)
      rewrite Hold in Hn.
      destruct (sh_nodes sh !! n) as [ns|] eqn:En; [|done].
      simpl in Hn. injection Hn as <-.
      assert (HnL : (n < L)%nat) by (by eapply lookup_lt_Some).
      destruct (Hok n ns En) as (HN & Hpar & Hkind).
      destruct (Hfields n ns) as (Hty & Hco & Hsp & Hpa).
      rewrite Hr_old by done. split_and!.
      + lia.
      + intros p Hp. rewrite Hpa in Hp.
        destruct (decide (n = left_)) as [->|Hnl].
        * injection Hp as <-. eexists. split; [exact HP|].
          rewrite Hr_P. split_and!; [lia|done|by left].
        * destruct (Hpar p Hp) as (ps & Hps & Hrk & Hint & Hch).
          exists (old' p ps). split; [by apply Hin|].
          rewrite Hr_old by (by eapply lookup_lt_Some).
          destruct (Hfields p ps) as (Hpty & _).
          split_and!; [lia|congruence|].
          destruct (Hok p ps Hps) as (_ & _ & Hpk). rewrite Hint in Hpk.
          destruct Hpk as (_ & l & r & Hl & Hr & _).
          subst old'. cbv beta zeta.
          assert (Hch1 : ns_left (if decide (p = left_)
                                  then ns_set_parent (Some L) ps else ps)
                         = Some l
                         ∧ ns_right (if decide (p = left_)
                                     then ns_set_parent (Some L) ps else ps)
                           = Some r) by (by destruct (decide (p = left_))).
          destruct Hch1 as [Hl1 Hr1].
          destruct (decide (ns_parent ls = Some p)).
          -- destruct (ns_replace_child_children left_ L _ l r Hl1 Hr1)
               as (l' & r'' & -> & -> & _ & _ & _ & Hkeep).
             destruct (Hkeep n Hnl) as [->| ->]; auto.
             destruct Hch; [left|right]; congruence.
          -- rewrite Hl1, Hr1. destruct Hch; [left|right]; congruence.
      + rewrite Hty. destruct (ns_type ns).
        * destruct Hkind as (Hspl & l & r & Hl & Hr & Hel & Her & Hrl & Hrr).
          rewrite Hsp. split; [done|].
          subst old'. cbv beta zeta.
          assert (Hch1 : ns_left (if decide (n = left_)
                                  then ns_set_parent (Some L) ns else ns)
                         = Some l
                         ∧ ns_right (if decide (n = left_)
                                     then ns_set_parent (Some L) ns else ns)
                           = Some r) by (by destruct (decide (n = left_))).
          destruct Hch1 as [Hl1 Hr1].
          assert (HlL' : (l < L)%nat) by (by apply lookup_lt_is_Some).
          assert (HrL' : (r < L)%nat) by (by apply lookup_lt_is_Some).
          destruct (decide (ns_parent ls = Some n)) as [Hg|Hg].
          -- destruct (ns_replace_child_children left_ L _ l r Hl1 Hr1)
               as (l' & r'' & -> & -> & Hl' & Hr' & _).
             exists l', r''. split_and!; try done.
             ++ destruct Hl' as [->|[-> _]]; [by apply Hnode|by rewrite HP].
             ++ destruct Hr' as [->|[-> _]]; [by apply Hnode|by rewrite HP].
             ++ destruct Hl' as [->|[-> ->]];
                  [rewrite Hr_old by done|rewrite Hr_P]; lia.
             ++ destruct Hr' as [->|[-> ->]];
                  [rewrite Hr_old by done|rewrite Hr_P]; lia.
          -- exists l, r. rewrite !Hr_old by done.
             split_and!; auto; lia.
        * destruct Hkind as (c & Hc & Hcv). exists c. rewrite Hco. auto.
    - (* the two new nodes *)
      rewrite Hlen in Hge, Hn.
      destruct (n - L)%nat as [|[|k]] eqn:Ek; [| |done].
      + simpl in Hn. injection Hn as <-. assert (n = L) as -> by lia.
        rewrite Hr_P. simpl. split_and!.
        * lia.
        * intros g Hg. destruct (Hgrand g Hg) as (gs & Hgs & Hrk & Hne & Hint & Hch).
          exists (old' g gs). split; [by apply Hin|].
          rewrite Hr_old by (by eapply lookup_lt_Some).
          destruct (Hfields g gs) as (Hgty & _).
          split_and!; [lia|congruence|].
          destruct (Hok g gs Hgs) as (_ & _ & Hgk). rewrite Hint in Hgk.
          destruct Hgk as (_ & l & r & Hl & Hr & _).
          subst old'. cbv beta zeta.
          destruct (decide (g = left_)); [done|].
          destruct (decide (ns_parent ls = Some g)); [|done].
          destruct (ns_replace_child_children left_ L gs l r Hl Hr)
            as (l' & r'' & -> & -> & _ & _ & Hrep & _).
          destruct Hrep as [->| ->]; auto.
          destruct Hch; [left|right]; congruence.
        * done.
        * exists left_, (S L).
          rewrite Hr_old, Hr_R by done.
          split_and!; [done|done|by apply Hnode; eauto|by rewrite HR|lia|lia].
      + simpl in Hn. injection Hn as <-. assert (n = S L) as -> by lia.
        rewrite Hr_R. simpl. split_and!.
        * lia.
        * intros p Hp. injection Hp as <-. eexists. split; [exact HP|].
          rewrite Hr_P. split_and!; [lia|done|by right].
        * exists new. split; [done|]. apply Hcont. eauto. }
  split; [|done]. constructor.
  - intros c cs' Hc. rewrite Hcs in Hc.
    destruct (decide (c = new)) as [->|Hne].
    + rewrite list_lookup_alter_eq, Hnew in Hc. simpl in Hc.
      injection Hc as <-. simpl. by eapply (wf_front _ Hwf).
    + rewrite list_lookup_alter_ne in Hc by done. by eapply (wf_front _ Hwf).
  - intros c cs' t Hc Ht. rewrite Hcs in Hc. rewrite Htl.
    destruct (decide (c = new)) as [->|Hne].
    + rewrite list_lookup_alter_eq, Hnew in Hc. simpl in Hc.
      injection Hc as <-. simpl in Ht. by eapply (wf_children _ Hwf).
    + rewrite list_lookup_alter_ne in Hc by done.
      by eapply (wf_children _ Hwf).
  - intros c Hc. rewrite Hoc in Hc. apply Hcont.
    by apply (wf_o_containers _ Hwf).
  - intros c cs' n Hc Hn. rewrite Hcs in Hc.
    destruct (decide (c = new)) as [->|Hne].
    + rewrite list_lookup_alter_eq, Hnew in Hc. simpl in Hc.
      injection Hc as <-. simpl in Hn. injection Hn as <-.
      by rewrite HR.
    + rewrite list_lookup_alter_ne in Hc by done. apply Hnode.
      by eapply (wf_container_node _ Hwf).
  - eauto.
Qed.

(** Writes as [alter]. *)
Lemma insert_alter {A} (f : A → A) (l : list A) i x :
  l !! i = Some x → <[i := f x]> l = alter f i l.
Proof.
  intros Hi. apply list_eq. intros j. destruct (decide (j = i)) as [->|Hne].
  - rewrite list_lookup_insert_eq by (by eapply lookup_lt_Some).
    by rewrite list_lookup_alter_eq, Hi.
  - rewrite list_lookup_insert_ne by done.
    by rewrite list_lookup_alter_ne by done.
Qed.

Lemma modify_node_run n f s nd :
  bsp_nodes s !! n = Some nd →
  modify_node n f s = Some (with_bsp_nodes s (alter f n (bsp_nodes s))).
Proof.
  intros Hn. unfold modify_node. rewrite Hn. simpl.
  by rewrite (insert_alter f _ _ _ Hn).
Qed.

Lemma modify_container_run c f s cont :
  containers s !! c = Some cont →
  modify_container c f s
  = Some (with_containers s (alter f c (containers s))).
Proof.
  intros Hc. unfold modify_container. rewrite Hc. simpl.
  by rewrite (insert_alter f _ _ _ Hc).
Qed.

Lemma shape_of_node_set_parent p x :
  shape_of_node (n_set_parent p x) = ns_set_parent p (shape_of_node x).
Proof. done. Qed.

Lemma fmap_alter_shape (f : bsp_node → bsp_node) (h : node_shape → node_shape)
    (l : list bsp_node) (i : nat) :
  (∀ x, shape_of_node (f x) = h (shape_of_node x)) →
  shape_of_node <$> alter f i l = alter h i (shape_of_node <$> l).
Proof. intros H. apply list_fmap_alter. by apply Forall_true. Qed.

Lemma fmap_alter_same {A B} (f : A → A) (g : A → B) (l : list A) (i : nat) :
  (∀ x, g (f x) = g x) → g <$> alter f i l = g <$> l.
Proof.
  intros H. rewrite (list_fmap_alter g f id) by (by apply Forall_true).
  by apply list_alter_id.
Qed.

(** The first block of [_bsp_insert_toplevel]: the new internal node is
    allocated and, when the sibling is the root, takes the usable area and
    becomes the root. *)
Lemma insert_root_block (b : bool) ws root_entry s P0 :
  let L := length (bsp_nodes s) in
  ∃ s2 P0',
    (if b
     then
       modify_node L
         (n_set_position (box_x (usable_area (output s)))
            (box_y (usable_area (output s))))
         (with_bsp_nodes s (bsp_nodes s ++ [P0]))
       ≫= λ s0 : server,
            modify_node L
              (n_set_size (box_width (usable_area (output s)))
                 (box_height (usable_area (output s)))) s0
            ≫= λ s1 : server,
                 modify_node L (n_set_left_wfact CDouble.d0_5) s1
                 ≫= λ s2 : server,
                      Some
                        (set_bsp_root_entry ws
                           {| root := Some L;
                              last_focused := last_focused root_entry |} s2)
     else Some (with_bsp_nodes s (bsp_nodes s ++ [P0]))) = Some s2
    ∧ bsp_nodes s2 = bsp_nodes s ++ [P0']
    ∧ shape_of_node P0' = shape_of_node P0
    ∧ (n_left_wfact P0 = CDouble.d0_5 → n_left_wfact P0' = CDouble.d0_5)
    ∧ containers s2 = containers s ∧ toplevels s2 = toplevels s
    ∧ config_border_width s2 = config_border_width s
    ∧ output s2
      = (if b
         then output (set_bsp_root_entry ws
                        (mk_entry (Some L) (last_focused root_entry)) s)
         else output s).
Proof.
  intros L. destruct b; [|by exists (with_bsp_nodes s (bsp_nodes s ++ [P0])), P0].
  assert (HL : ∀ x, (bsp_nodes s ++ [x]) !! L = Some x).
  { intros x. by apply list_lookup_middle. }
  assert (HA : ∀ f x, alter f L (bsp_nodes s ++ [x]) = bsp_nodes s ++ [f x]).
  { intros f x. subst L. rewrite alter_app_r_alt by lia.
    by rewrite Nat.sub_diag. }
  erewrite modify_node_run by (simpl; apply HL). simpl. rewrite HA.
  erewrite modify_node_run by (simpl; apply HL). simpl. rewrite HA.
  erewrite modify_node_run by (simpl; apply HL). simpl. rewrite HA.
  eexists _, _. split; [reflexivity|]. simpl. split_and!; done.
Qed.

Lemma insert_shape_assemble s T left_ new split l :
  bsp_nodes s !! left_ = Some l →
  let L := length (bsp_nodes s) in
  containers T = alter (c_set_bsp_node (Some (S L))) new (containers s) →
  toplevels T = toplevels s →
  o_containers (output T) = o_containers (output s) →
  shape_of_node <$> bsp_nodes T
  = match n_parent l with
    | Some g =>
        alter (ns_replace_child left_ L) g
          (alter (ns_set_parent (Some L)) left_
             (shape_of_node <$> bsp_nodes s))
    | None =>
        alter (ns_set_parent (Some L)) left_ (shape_of_node <$> bsp_nodes s)
    end
    ++ [mk_nshape BSP_NODE_INTERNAL None (n_parent l) (Some left_)
          (Some (S L)) split;
        mk_nshape BSP_NODE_LEAF (Some new) (Some L) None None
          BSP_SPLIT_AUTO] →
  shape_of T = insert_shape (shape_of s) left_ new split.
Proof.
  intros Hl L Hc Ht Ho Hn. unfold shape_of at 1, insert_shape.
  rewrite Hc, Ht, Ho, Hn.
  assert (Hlen : length (sh_nodes (shape_of s)) = L).
  { simpl. by rewrite length_fmap. }
  rewrite Hlen. rewrite shape_node_lookup, Hl. simpl.
  f_equal.
  rewrite (list_fmap_alter shape_of_container _
             (cs_set_bsp_node (Some (S L)))); [done|].
  by apply Forall_true.
Qed.

Lemma _bsp_insert_toplevel_run rk N fuel ws root_entry sibling new s sib
    left_ l cont :
  nodes_ok rk N (shape_of s) →
  containers s !! sibling = Some sib → c_bsp_node sib = Some left_ →
  bsp_nodes s !! left_ = Some l →
  containers s !! new = Some cont →
  let L := length (bsp_nodes s) in
  let split := if n_height l <=? n_width l then BSP_SPLIT_VERTICAL
               else BSP_SPLIT_HORIZONTAL in
  ∃ s7 p,
    _bsp_insert_toplevel fuel ws root_entry sibling new s
    = bsp_node_enable fuel (S L) s7
    ∧ shape_of s7 = insert_shape (shape_of s) left_ new split
    ∧ containers s7 = alter (c_set_bsp_node (Some (S L))) new (containers s)
    ∧ toplevels s7 = toplevels s
    ∧ config_border_width s7 = config_border_width s
    ∧ output s7
      = (if node_id_eqb (Some left_) (root root_entry)
         then output (set_bsp_root_entry ws
                        (mk_entry (Some L) (last_focused root_entry)) s)
         else output s)
    ∧ bsp_nodes s7 !! L = Some p ∧ n_left_wfact p = CDouble.d0_5.
Proof.
  intros Hok Hsib Hleft Hl Hnew L split.
  assert (HlL : (left_ < L)%nat) by (by eapply lookup_lt_Some).
  unfold _bsp_insert_toplevel. rewrite Hsib. simpl. rewrite Hleft. simpl.
  rewrite Hl. simpl. fold L. fold split.
  set (P0 := bsp_node_internal_create (n_parent l) (n_x l) (n_y l)
               (n_width l) (n_height l) split).
  destruct (insert_root_block
              (match root root_entry with
               | Some y => (left_ =? y)%nat
               | None => false
               end) ws root_entry s P0)
    as (s2 & P0' & E2 & Hn2 & HshP & HwfP & Hc2 & Ht2 & Hcf2 & Ho2).
  fold L in E2. rewrite E2. simpl.
  rewrite Hn2, length_app. simpl length.
  replace (length (bsp_nodes s) + 1)%nat with (S L) by (subst L; lia).
  set (R0 := bsp_node_leaf_create (Some L) new).
  rewrite <- app_assoc. simpl app.
  erewrite modify_container_run by (simpl; rewrite Hc2; exact Hnew).
  simpl.
  erewrite (modify_node_run left_) by (simpl; apply lookup_app_l_Some, Hl).
  simpl. rewrite alter_app_l by done.
  set (A := alter (n_set_parent (Some L)) left_ (bsp_nodes s)).
  assert (HA : length A = L) by (subst A; by rewrite length_alter).
  erewrite (modify_node_run L) by (simpl; by apply list_lookup_middle).
  simpl. rewrite alter_app_r_alt by lia. rewrite HA, Nat.sub_diag.
  simpl alter.
  set (P1 := n_set_children (Some left_) (Some (S L)) P0').
  rewrite (list_lookup_middle A [R0] P1 L) by done. simpl.
  assert (HparP : n_parent P0' = n_parent l).
  { exact (f_equal ns_parent HshP). }
  rewrite HparP.
  assert (HshA : shape_of_node <$> A
                 = alter (ns_set_parent (Some L)) left_
                     (shape_of_node <$> bsp_nodes s)).
  { subst A. by apply fmap_alter_shape. }
  assert (HshP1 : shape_of_node P1
                  = mk_nshape BSP_NODE_INTERNAL None (n_parent l)
                      (Some left_) (Some (S L)) split).
  { subst P1. unfold shape_of_node. simpl.
    pose proof (f_equal ns_type HshP) as H1.
    pose proof (f_equal ns_container HshP) as H2.
    pose proof (f_equal ns_split_type HshP) as H3.
    simpl in H1, H2, H3. by rewrite H1, H2, H3, HparP. }
  assert (HwP1 : n_left_wfact P1 = CDouble.d0_5) by (by apply HwfP).
  assert (Hoc2 : o_containers (output s2) = o_containers (output s)).
  { rewrite Ho2.
    by destruct (match root root_entry with
                 | Some y => (left_ =? y)%nat
                 | None => false
                 end). }
  assert (Hls : sh_nodes (shape_of s) !! left_ = Some (shape_of_node l)).
  { by rewrite shape_node_lookup, Hl. }
  destruct (Hok left_ _ Hls) as (_ & Hparl & _).
  destruct (n_parent l) as [g|] eqn:Eg.
  - destruct (Hparl g Eg) as (gs & Hgs & Hrk & Hint & Hch).
    assert (Hgl : g ≠ left_) by (intros ->; lia).
    assert (HgL : (g < L)%nat).
    { apply lookup_lt_Some in Hgs. simpl in Hgs.
      by rewrite length_fmap in Hgs. }
    rewrite shape_node_lookup in Hgs.
    destruct (bsp_nodes s !! g) as [gn|] eqn:Egn; [|done].
    simpl in Hgs. injection Hgs as <-.
    assert (HAg : A !! g = Some gn).
    { subst A. by rewrite list_lookup_alter_ne. }
    rewrite (lookup_app_l_Some _ _ _ _ HAg). simpl.
    assert (Hfin : ∀ f,
              shape_of_node (f gn) = ns_replace_child left_ L (shape_of_node gn) →
              (∀ x, shape_of_node (f x)
                    = (fun ns => shape_of_node (f gn)) (shape_of_node x)
                    ∨ True) →
              shape_of_node <$> (alter f g A ++ [P1; R0])
              = alter (ns_replace_child left_ L) g
                  (alter (ns_set_parent (Some L)) left_
                     (shape_of_node <$> bsp_nodes s))
                ++ [mk_nshape BSP_NODE_INTERNAL None (Some g) (Some left_)
                      (Some (S L)) split;
                    mk_nshape BSP_NODE_LEAF (Some new) (Some L) None None
                      BSP_SPLIT_AUTO]).
    { intros f Hf _. rewrite fmap_app. simpl. rewrite HshP1. f_equal.
      rewrite <- HshA. apply list_eq. intros i.
      rewrite list_lookup_fmap.
      destruct (decide (i = g)) as [->|Hne].
      - rewrite !list_lookup_alter_eq, list_lookup_fmap, HAg. simpl.
        by rewrite Hf.
      - rewrite !list_lookup_alter_ne by done. by rewrite list_lookup_fmap. }
    destruct (node_id_eqb (n_left gn) (Some left_)) eqn:El.
    + erewrite (modify_node_run g) by (simpl; by apply lookup_app_l_Some).
      simpl. rewrite alter_app_l by lia.
      eexists _, P1. split; [reflexivity|]. split_and!.
      * apply (insert_shape_assemble s _ left_ new split l Hl);
          [simpl; by rewrite Hc2|done|exact Hoc2|].
        rewrite Eg. simpl bsp_nodes. apply Hfin; [|auto].
        unfold ns_replace_child, shape_of_node. simpl. by rewrite El.
      * simpl. by rewrite Hc2.
      * done.
      * done.
      * simpl. exact Ho2.
      * simpl. by apply list_lookup_middle; rewrite length_alter.
      * done.
    + assert (Er : node_id_eqb (n_right gn) (Some left_) = true).
      { apply node_id_eqb_eq. destruct Hch as [Hch|Hch]; [|exact Hch].
        simpl in Hch. apply node_id_eqb_eq in Hch. congruence. }
      rewrite Er.
      erewrite (modify_node_run g) by (simpl; by apply lookup_app_l_Some).
      simpl. rewrite alter_app_l by lia.
      eexists _, P1. split; [reflexivity|]. split_and!.
      * apply (insert_shape_assemble s _ left_ new split l Hl);
          [simpl; by rewrite Hc2|done|exact Hoc2|].
        rewrite Eg. simpl bsp_nodes. apply Hfin; [|auto].
        unfold ns_replace_child, shape_of_node. simpl. by rewrite El, Er.
      * simpl. by rewrite Hc2.
      * done.
      * done.
      * simpl. exact Ho2.
      * simpl. by apply list_lookup_middle; rewrite length_alter.
      * done.
  - simpl. eexists _, P1. split; [reflexivity|]. split_and!.
    + apply (insert_shape_assemble s _ left_ new split l Hl);
        [simpl; by rewrite Hc2|done|exact Hoc2|].
      rewrite Eg. simpl bsp_nodes. rewrite fmap_app. simpl.
      by rewrite HshP1, HshA.
    + simpl. by rewrite Hc2.
    + done.
    + done.
    + simpl. exact Ho2.
    + simpl. by apply list_lookup_middle.
    + done.
Qed.

Lemma _bsp_node_enable_wfact fuel : ∀ n s r s',
  _bsp_node_enable fuel n s = Some (r, s') →
  n_left_wfact <$> bsp_nodes s' = n_left_wfact <$> bsp_nodes s.
Proof.
  induction fuel as [|fuel IH]; simpl; intros n s r s' H; [done|].
  apply bind_Some in H as (s1 & E1 & H).
  assert (H1 : n_left_wfact <$> bsp_nodes s1 = n_left_wfact <$> bsp_nodes s).
  { unfold modify_node in E1. apply bind_Some in E1 as (nd & Hnd & E1).
    injection E1 as <-. simpl. by eapply fmap_insert_same. }
  bind_inv; [|done].
  match goal with
  | E : _bsp_node_enable _ _ _ = Some _ |- _ => by rewrite (IH _ _ _ _ E)
  end.
Qed.

Lemma bsp_node_enable_wfact fuel n s s' :
  bsp_node_enable fuel n s = Some s' →
  n_left_wfact <$> bsp_nodes s' = n_left_wfact <$> bsp_nodes s.
Proof.
  unfold bsp_node_enable. intros H.
  apply bind_Some in H as ([r s1] & E1 & H).
  rewrite <- (_bsp_node_enable_wfact _ _ _ _ _ E1).
  assert (G : geom_only s1 s') by (bind_inv; chain).
  apply (fmap_eq_compose node_erase n_left_wfact); [done|apply G].
Qed.

Lemma insert_roots_ok sh sh' o o' (ws : Z) (r' : option node_id) :
  (∀ n, is_Some (sh_nodes sh !! n) → is_Some (sh_nodes sh' !! n)) →
  roots_ok sh o →
  (∀ w, w ≠ ws → view_info o' w = view_info o w) →
  (∀ r, root (vi_bsp_root_entry (view_info o' ws)) = Some r →
        is_Some (sh_nodes sh' !! r)) →
  roots_ok sh' o'.
Proof.
  intros Hmono Hroots Hother Hws w r Hr.
  destruct (decide (w = ws)) as [->|Hne]; [by apply Hws|].
  rewrite (Hother w Hne) in Hr. apply Hmono. by eapply Hroots.
Qed.

(** The three nodes an insertion writes, and the container it links. *)
Lemma insert_shape_lookups sh left_ new split ls cs rk N :
  nodes_ok rk N sh →
  sh_nodes sh !! left_ = Some ls → sh_containers sh !! new = Some cs →
  let L := length (sh_nodes sh) in
  let sh' := insert_shape sh left_ new split in
  sh_nodes sh' !! L
  = Some (mk_nshape BSP_NODE_INTERNAL None (ns_parent ls) (Some left_)
            (Some (S L)) split)
  ∧ sh_nodes sh' !! S L
    = Some (mk_nshape BSP_NODE_LEAF (Some new) (Some L) None None
              BSP_SPLIT_AUTO)
  ∧ sh_nodes sh' !! left_ = Some (ns_set_parent (Some L) ls)
  ∧ sh_containers sh' !! new = Some (cs_set_bsp_node (Some (S L)) cs).
Proof.
  intros Hok Hls Hcs L sh'.
  assert (HlL : (left_ < L)%nat) by (by eapply lookup_lt_Some).
  destruct (Hok left_ ls Hls) as (_ & Hpar & _).
  subst sh'. unfold insert_shape. simpl. rewrite Hls. simpl. fold L.
  set (nodes' := match ns_parent ls with
                 | Some g => _
                 | None => _
                 end).
  assert (Hlen : length nodes' = L).
  { subst nodes'. destruct (ns_parent ls); by rewrite ?length_alter. }
  split_and!.
  - by apply list_lookup_middle.
  - rewrite lookup_app_r by lia. rewrite Hlen.
    by replace (S L - L)%nat with 1%nat by lia.
  - rewrite lookup_app_l by lia. subst nodes'.
    destruct (ns_parent ls) as [g|] eqn:Eg.
    + destruct (Hpar g eq_refl) as (_ & _ & Hrk & _).
      rewrite list_lookup_alter_ne by (intros ->; lia).
      by rewrite list_lookup_alter_eq, Hls.
    + by rewrite list_lookup_alter_eq, Hls.
  - by rewrite list_lookup_alter_eq, Hcs.
Qed.

Lemma insert_shape_length sh left_ new split :
  length (sh_nodes (insert_shape sh left_ new split))
  = S (S (length (sh_nodes sh))).
Proof.
  unfold insert_shape. simpl. rewrite length_app.
  destruct (sh_nodes sh !! left_ ≫= _); rewrite !length_alter; simpl; lia.
Qed.

(** The effect of [bsp_insert_container] on a workspace whose tree has a
    root. *)
Lemma bsp_insert_beside_effect s ws new cont sibling sib left_ l r :
  wf_server s →
  containers s !! new = Some cont → c_bsp_node cont = None →
  root (vi_bsp_root_entry (view_info (output s) ws)) = Some r →
  last_focused (vi_bsp_root_entry (view_info (output s) ws)) = Some sibling →
  containers s !! sibling = Some sib → c_bsp_node sib = Some left_ →
  bsp_nodes s !! left_ = Some l →
  let L := length (bsp_nodes s) in
  let split := if n_height l <=? n_width l then BSP_SPLIT_VERTICAL
               else BSP_SPLIT_HORIZONTAL in
  ∃ N, ∀ fuel, (N < fuel)%nat →
    ∃ s' p cont',
      bsp_insert_container fuel new ws s = Some s'
      ∧ wf_server s'
      ∧ shape_of s' = insert_shape (shape_of s) left_ new split
      ∧ sh_nodes (shape_of s') !! L
        = Some (mk_nshape BSP_NODE_INTERNAL None (n_parent l) (Some left_)
                  (Some (S L)) split)
      ∧ sh_nodes (shape_of s') !! S L
        = Some (mk_nshape BSP_NODE_LEAF (Some new) (Some L) None None
                  BSP_SPLIT_AUTO)
      ∧ sh_nodes (shape_of s') !! left_
        = Some (ns_set_parent (Some L) (shape_of_node l))
      ∧ vi_bsp_root_entry (view_info (output s') ws)
        = mk_entry (if Nat.eqb left_ r then Some L else Some r) (Some new)
      ∧ (∀ w, w ≠ ws → view_info (output s') w = view_info (output s) w)
      ∧ bsp_nodes s' !! L = Some p ∧ n_left_wfact p = CDouble.d0_5
      ∧ containers s' !! new = Some cont'
      ∧ c_bsp_node cont' = Some (S L)
      ∧ c_state cont' = state_clear (c_state cont) CONTAINER_STATE_FLOATING.
Proof.
  intros [Hwf Hviews] Hc Hnone Hroot Hlast Hsib Hleft Hl L split.
  destruct (wf_nodes _ Hwf) as (rk & N & Hok).
  exists (2 * N + 2)%nat. intros fuel Hfuel.
  unfold bsp_insert_container. rewrite Hc. simpl. rewrite Hnone.
  erewrite modify_container_run by exact Hc. simpl.
  set (s0 := with_containers s _).
  assert (Sh0 : shape_of s0 = shape_of s).
  { unfold shape_of. subst s0. simpl. f_equal.
    by apply fmap_alter_same. }
  assert (Hne : sibling ≠ new) by (intros ->; congruence).
  assert (Hsib0 : containers s0 !! sibling = Some sib).
  { subst s0. simpl. by rewrite list_lookup_alter_ne. }
  assert (Hc0 : containers s0 !! new
                = Some (c_set_state
                          (state_clear (c_state cont) CONTAINER_STATE_FLOATING)
                          cont)).
  { subst s0. simpl. by rewrite list_lookup_alter_eq, Hc. }
  unfold bsp_entry_get. change (output s0) with (output s).
  rewrite Hroot, Hlast. simpl.
  destruct (_bsp_insert_toplevel_run rk N fuel ws
              (vi_bsp_root_entry (view_info (output s) ws)) sibling new s0
              sib left_ l _ (eq_ind_r (nodes_ok rk N) Hok Sh0) Hsib0 Hleft Hl Hc0)
    as (s7 & p & E7 & Sh7 & Hc7 & Ht7 & Hcf7 & Ho7 & Hp7 & Hw7).
  change (bsp_nodes s0) with (bsp_nodes s) in *. fold L in E7, Hc7, Ho7, Hp7.
  fold split in Sh7. rewrite Sh0 in Sh7. rewrite Hroot, Hlast in Ho7.
  simpl node_id_eqb in Ho7.
  rewrite E7. clear E7.
  destruct (insert_shape_wf (shape_of s) left_ new split (shape_of_node l)
              rk N Hwf Hok) as [Hwf' Hok'].
  { by rewrite shape_node_lookup, Hl. }
  { rewrite shape_container_lookup, Hc. eauto. }
  { subst split. by destruct (n_height l <=? n_width l). }
  set (sh' := insert_shape (shape_of s) left_ new split) in *.
  assert (Hmono : ∀ n, is_Some (sh_nodes (shape_of s) !! n) →
            is_Some (sh_nodes sh' !! n)).
  { intros n. rewrite !lookup_lt_is_Some. subst sh'.
    rewrite insert_shape_length. lia. }
  assert (HLs : length (sh_nodes (shape_of s)) = L).
  { simpl. by rewrite length_fmap. }
  assert (HexL : is_Some (sh_nodes sh' !! L)
                 ∧ is_Some (sh_nodes sh' !! S L)).
  { rewrite !lookup_lt_is_Some. subst sh'.
    rewrite insert_shape_length, HLs. lia. }
  assert (Hvi7 : ∀ w, w ≠ ws → view_info (output s7) w = view_info (output s) w).
  { intros w Hw. rewrite Ho7. destruct (left_ =? r)%nat; [|done].
    simpl. by destruct (Z.eq_dec w ws). }
  assert (Hroot7 : root (vi_bsp_root_entry (view_info (output s7) ws))
                   = if (left_ =? r)%nat then Some L else Some r).
  { rewrite Ho7. destruct (left_ =? r)%nat; [|done].
    simpl. by destruct (Z.eq_dec ws ws). }
  assert (Hms7 : ∀ w, vi_master_state (view_info (output s7) w)
                      = vi_master_state (view_info (output s) w)).
  { intros w. rewrite Ho7. destruct (left_ =? r)%nat; [|done].
    simpl. by destruct (Z.eq_dec w ws) as [->|]. }
  assert (Hroots7 : roots_ok sh' (output s7)).
  { apply (insert_roots_ok (shape_of s) sh' (output s) (output s7) ws None);
      [done|by apply wf_views_roots_ok|done|].
    intros r0. rewrite Hroot7. destruct (left_ =? r)%nat.
    - intros [= <-]. apply HexL.
    - intros [= <-]. apply Hmono. rewrite shape_node_lookup.
      apply fmap_is_Some. by apply (Hviews ws). }
  destruct (bsp_node_enable_total sh' _ _ fuel (S L) s7 Hwf' Hok' Hroots7 Sh7)
    as (s8 & E8 & Sh8); [apply HexL|lia|].
  rewrite E8. simpl.
  destruct (bsp_node_enable_erased _ _ _ _ E8) as [O8 C8].
  pose proof (bsp_node_enable_wfact _ _ _ _ E8) as W8.
  assert (Hc7new : containers s7 !! new
                   = Some (c_set_bsp_node (Some (S L))
                             (c_set_state
                                (state_clear (c_state cont)
                                   CONTAINER_STATE_FLOATING) cont))).
  { by rewrite Hc7, list_lookup_alter_eq, Hc0. }
  destruct (erased_lookup s7 s8 new _ C8 Hc7new) as (cont8 & Hc8 & He8).
  assert (Hp8 : ∃ p8, bsp_nodes s8 !! L = Some p8
                      ∧ n_left_wfact p8 = CDouble.d0_5).
  { pose proof (f_equal (fun l => l !! L) W8) as H. simpl in H.
    rewrite !list_lookup_fmap, Hp7 in H. simpl in H.
    destruct (bsp_nodes s8 !! L) as [p8|]; [|done].
    exists p8. split; [done|]. simpl in H. congruence. }
  destruct Hp8 as (p8 & Hp8 & Hw8).
  eexists _, p8, cont8. split; [reflexivity|].
  rewrite O8, Hroot7.
  assert (Sh' : shape_of
                  (set_bsp_root_entry ws
                     {| root := if (left_ =? r)%nat then Some L else Some r;
                        last_focused := Some new |} s8) = sh').
  { rewrite <- Sh8. done. }
  destruct (insert_shape_lookups (shape_of s) left_ new split
              (shape_of_node l) (shape_of_container cont) rk N Hok)
    as (HlkP & HlkR & Hlkl & Hlkc).
  { by rewrite shape_node_lookup, Hl. }
  { by rewrite shape_container_lookup, Hc. }
  rewrite HLs in HlkP, HlkR, Hlkl, Hlkc. fold sh' in HlkP, HlkR, Hlkl, Hlkc.
  rewrite <- Sh' in HlkP, HlkR, Hlkl.
  split_and!.
  - split.
    + by rewrite <- Sh8 in Hwf'.
    + intros w. simpl. rewrite O8. split.
      * destruct (Z.eq_dec w ws) as [->|]; simpl; rewrite Hms7;
          apply (Hviews _).
      * intros r0 Hr0.
        assert (H : is_Some (sh_nodes sh' !! r0)).
        { destruct (Z.eq_dec w ws) as [->|Hw].
          - simpl in Hr0. destruct (left_ =? r)%nat.
            + injection Hr0 as <-. apply HexL.
            + injection Hr0 as <-. apply Hmono. rewrite shape_node_lookup.
              apply fmap_is_Some. by apply (Hviews ws).
          - rewrite (Hvi7 w Hw) in Hr0. apply Hmono.
            rewrite shape_node_lookup. apply fmap_is_Some.
            by apply (Hviews w). }
        rewrite <- Sh8, shape_node_lookup in H. by apply fmap_is_Some in H.
  - exact Sh'.
  - exact HlkP.
  - exact HlkR.
  - exact Hlkl.
  - simpl. by destruct (Z.eq_dec ws ws).
  - intros w Hw. simpl. rewrite O8. destruct (Z.eq_dec w ws); [done|].
    by apply Hvi7.
  - done.
  - done.
  - done.
  - exact (f_equal c_bsp_node He8).
  - exact (f_equal c_state He8).
Qed.


Lemma view_info_set_bsp_root_entry ws e s w :
  view_info (output (set_bsp_root_entry ws e s)) w
  = if Z.eq_dec w ws then vi_set_bsp_root_entry e (view_info (output s) ws)
    else view_info (output s) w.
Proof. done. Qed.

Lemma first_leaf_shape_length sh new :
  length (sh_nodes (first_leaf_shape sh new)) = S (length (sh_nodes sh)).
Proof. unfold first_leaf_shape. simpl. rewrite length_app. simpl. lia. Qed.

(** The effect of [bsp_insert_container] on a workspace without a tree. *)
Lemma bsp_insert_empty_effect s ws new cont :
  wf_server s →
  containers s !! new = Some cont → c_bsp_node cont = None →
  root (vi_bsp_root_entry (view_info (output s) ws)) = None →
  let L := length (bsp_nodes s) in
  let ua := usable_area (output s) in
  let gaps := useless_gaps (cwc_output_get_current_view_info (output s)) in
  ∃ N, ∀ fuel, (N < fuel)%nat →
    ∃ s' cont',
      bsp_insert_container fuel new ws s = Some s'
      ∧ wf_server s'
      ∧ shape_of s' = first_leaf_shape (shape_of s) new
      ∧ vi_bsp_root_entry (view_info (output s') ws)
        = mk_entry (Some L) (Some new)
      ∧ (∀ w, w ≠ ws → view_info (output s') w = view_info (output s) w)
      ∧ containers s' !! new = Some cont'
      ∧ c_bsp_node cont' = Some L
      ∧ c_state cont' = state_clear (c_state cont) CONTAINER_STATE_FLOATING
      ∧ (c_workspace cont = ws →
         cwc_container_is_configure_allowed cont = true →
         layout_mode (cwc_output_get_current_view_info (output s))
         ≠ CWC_LAYOUT_FLOATING →
         cwc_container_get_box cont'
         = mk_box (box_x ua + gaps) (box_y ua + gaps) (box_width ua)
             (box_height ua)).
Proof.
  intros [Hwf Hviews] Hc Hnone Hroot L ua gaps.
  destruct (wf_nodes _ Hwf) as (rk & N & Hok).
  exists (S N). intros fuel Hfuel.
  unfold bsp_insert_container. rewrite Hc. simpl. rewrite Hnone.
  erewrite modify_container_run by exact Hc. simpl.
  unfold bsp_entry_get. simpl. rewrite Hroot. simpl.
  erewrite modify_container_run
    by (simpl; by rewrite list_lookup_alter_eq, Hc).
  simpl. rewrite list_lookup_alter_eq, list_lookup_alter_eq, Hc. simpl.
  fold L.
  set (cont3 := c_set_bsp_node (Some L)
                  (c_set_state
                     (state_clear (c_state cont) CONTAINER_STATE_FLOATING)
                     cont)).
  set (s3 := set_bsp_root_entry ws _ _).
  assert (Hcs3 : containers s3 !! new = Some cont3).
  { subst s3. simpl. by rewrite !list_lookup_alter_eq, Hc. }
  assert (Sh3 : shape_of s3 = first_leaf_shape (shape_of s) new).
  { unfold shape_of at 1, first_leaf_shape. subst s3. simpl.
    rewrite length_fmap. fold L. f_equal.
    - rewrite (list_fmap_alter shape_of_container _
                 (cs_set_bsp_node (Some L))) by (by apply Forall_true).
      f_equal. by apply fmap_alter_same.
    - by rewrite fmap_app. }
  destruct (first_leaf_shape_wf (shape_of s) new rk N Hwf Hok)
    as [Hwf' Hok'].
  { rewrite shape_container_lookup, Hc. eauto. }
  set (sh' := first_leaf_shape (shape_of s) new) in *.
  assert (HLs : length (sh_nodes (shape_of s)) = L).
  { simpl. by rewrite length_fmap. }
  assert (Hmono : ∀ n, is_Some (sh_nodes (shape_of s) !! n) →
            is_Some (sh_nodes sh' !! n)).
  { intros n. rewrite !lookup_lt_is_Some. subst sh'.
    rewrite first_leaf_shape_length. lia. }
  assert (HexL : is_Some (sh_nodes sh' !! L)).
  { rewrite lookup_lt_is_Some. subst sh'.
    rewrite first_leaf_shape_length, HLs. lia. }
  assert (Hvi3 : ∀ w, w ≠ ws → view_info (output s3) w = view_info (output s) w).
  { intros w Hw. subst s3. simpl. by destruct (Z.eq_dec w ws). }
  assert (Hroot3 : root (vi_bsp_root_entry (view_info (output s3) ws))
                   = Some L).
  { subst s3. simpl. by destruct (Z.eq_dec ws ws). }
  assert (Hms3 : ∀ w, vi_master_state (view_info (output s3) w)
                      = vi_master_state (view_info (output s) w)).
  { intros w. subst s3. simpl. by destruct (Z.eq_dec w ws) as [->|]. }
  assert (Hlm3 : ∀ w, layout_mode (view_info (output s3) w)
                      = layout_mode (view_info (output s) w)
                      ∧ useless_gaps (view_info (output s3) w)
                        = useless_gaps (view_info (output s) w)).
  { intros w. subst s3. simpl. by destruct (Z.eq_dec w ws) as [->|]. }
  assert (Hua3 : usable_area (output s3) = usable_area (output s)) by done.
  assert (Haw3 : active_workspace (output s3) = active_workspace (output s))
    by done.
  assert (Hn3 : bsp_nodes s3 !! L = Some (bsp_node_leaf_create None new)).
  { subst s3. simpl. by apply list_lookup_middle. }
  clearbody s3.
  assert (Hroots3 : roots_ok sh' (output s3)).
  { apply (insert_roots_ok (shape_of s) sh' (output s) (output s3) ws None);
      [done|by apply wf_views_roots_ok|done|].
    intros r0. rewrite Hroot3. by intros [= <-]. }
  rewrite HLs in Hok'.
  destruct (bsp_update_root_total sh' _ _ fuel (c_workspace cont) s3
              Hwf' Hok' Hroots3 Sh3) as (s4 & E4 & Sh4); [lia|].
  rewrite E4. simpl.
  pose proof (bsp_update_root_geom _ _ _ _ E4) as G4.
  destruct (geom_only_container _ _ _ _ G4 Hcs3) as (cont4 & Hc4 & He4).
  eexists _, cont4. split; [reflexivity|].
  rewrite (go_output _ _ G4), Hroot3.
  split_and!.
  - split.
    + by rewrite <- Sh4 in Hwf'.
    + intros w. rewrite view_info_set_bsp_root_entry, (go_output _ _ G4).
      split.
      * destruct (Z.eq_dec w ws) as [->|]; simpl; rewrite Hms3;
          apply (Hviews _).
      * intros r0 Hr0.
        assert (H : is_Some (sh_nodes sh' !! r0)).
        { destruct (Z.eq_dec w ws) as [->|Hw].
          - simpl in Hr0. by injection Hr0 as <-.
          - rewrite (Hvi3 w Hw) in Hr0. apply Hmono.
            rewrite shape_node_lookup. apply fmap_is_Some.
            by apply (Hviews w). }
        rewrite <- Sh4, shape_node_lookup in H. by apply fmap_is_Some in H.
  - done.
  - rewrite view_info_set_bsp_root_entry. by destruct (Z.eq_dec ws ws).
  - intros w Hw. rewrite view_info_set_bsp_root_entry, (go_output _ _ G4).
    destruct (Z.eq_dec w ws); [done|]. by apply Hvi3.
  - done.
  - exact (f_equal c_bsp_node He4).
  - exact (f_equal c_state He4).
  - intros Hws Hallowed Hmode.
    rewrite Hws in E4. unfold bsp_update_root, bsp_entry_get in E4.
    rewrite Hroot3 in E4. simpl in E4. rewrite Hroot3 in E4. simpl in E4.
    rewrite Hn3 in E4. simpl in E4.
    unfold bsp_node_leaf_configure in E4. rewrite Hn3 in E4. simpl in E4.
    rewrite Hcs3 in E4. simpl in E4.
    assert (Ha3 : cwc_container_is_configure_allowed cont3 = true).
    { rewrite <- Hallowed. subst cont3.
      unfold cwc_container_is_configure_allowed. by state_bits. }
    assert (Hf3 : cwc_container_is_floating s3 cont3 = false).
    { subst cont3. unfold cwc_container_is_floating. simpl c_state.
      unfold CONTAINER_STATE_FLOATING. rewrite state_test_clear by lia.
      simpl. rewrite andb_false_r. simpl.
      unfold cwc_output_get_current_view_info in *.
      rewrite (proj1 (Hlm3 _)), Haw3.
      by destruct (layout_mode
                     (view_info (output s) (active_workspace (output s)))). }
    rewrite Ha3, Hf3 in E4. simpl in E4.
    destruct (configure_size_position new
                (box_width (usable_area (output s3)))
                (box_height (usable_area (output s3)))
                (box_x (usable_area (output s3)))
                (box_y (usable_area (output s3))) s3)
      as (sa & sb & Ea & Eb & _ & _ & Hrect); [by rewrite Sh3|by eauto|].
    rewrite Ea in E4. simpl in E4. rewrite Eb in E4. simpl in E4.
    assert (Hcb : containers s4 = containers sb).
    { clear -E4. bind_inv.
      repeat match goal with
             | E : modify_node _ _ _ = Some _ |- _ =>
                 unfold modify_node in E; bind_inv
             end. done. }
    unfold rect_of in Hrect. rewrite <- Hcb, Hc4 in Hrect. simpl in Hrect.
    injection Hrect as Hx Hy Hw Hh. unfold cwc_container_get_box.
    rewrite Hx, Hy, Hw, Hh.
    subst ua gaps. unfold cwc_output_get_current_view_info.
    by rewrite Hua3, (proj2 (Hlm3 _)), Haw3.
Qed.


Lemma dialog_only_wf : wf_server BspInstances.dialog_only.
Proof.
  split; [apply (wf_shape_b_sound [] 0); vm_compute; reflexivity|].
  intros ws. split; [reflexivity|]. intros r Hr. discriminate Hr.
Qed.

Lemma two_and_dialog_wf : wf_server BspInstances.two_and_dialog.
Proof.
  split; [apply (wf_shape_b_sound [0; 1; 0]%nat 2); vm_compute; reflexivity|].
  intros ws.
  destruct ws as [|[p|p|]|p]; (split; [reflexivity|]); intros r Hr;
    vm_compute in Hr; try discriminate Hr.
  injection Hr as <-. vm_compute. eauto.
Qed.


Import BspUpdateSpec.

(** *** What a BSP update writes *)

#[global] Instance same_nodes_refl : Reflexive same_nodes.
Proof. by intros s. Qed.
#[global] Instance same_nodes_trans : Transitive same_nodes.
Proof. unfold same_nodes. intros s1 s2 s3 H1 H2. congruence. Qed.

Lemma with_containers_nodes s cs : same_nodes s (with_containers s cs).
Proof. done. Qed.
Lemma with_toplevels_nodes s ts : same_nodes s (with_toplevels s ts).
Proof. done. Qed.
Lemma with_output_nodes s o : same_nodes s (with_output s o).
Proof. done. Qed.
#[global] Hint Resolve with_containers_nodes with_toplevels_nodes
  with_output_nodes : frame.

Lemma modify_container_nodes c f s s' :
  modify_container c f s = Some s' → same_nodes s s'.
Proof. unfold modify_container. intros H. by bind_inv. Qed.
#[global] Hint Resolve modify_container_nodes : frame.

Lemma modify_toplevel_nodes t f s s' :
  modify_toplevel t f s = Some s' → same_nodes s s'.
Proof. unfold modify_toplevel. intros H. by bind_inv. Qed.
#[global] Hint Resolve modify_toplevel_nodes : frame.

Lemma all_toplevel_set_size_nodes t box s box' s' :
  all_toplevel_set_size t box s = Some (box', s') → same_nodes s s'.
Proof. unfold all_toplevel_set_size. intros H. bind_inv; chain. Qed.
#[global] Hint Resolve all_toplevel_set_size_nodes : frame.

Lemma for_each_bottom_to_top_nodes ts : ∀ box s box' s',
  cwc_container_for_each_bottom_to_top ts box s = Some (box', s') →
  same_nodes s s'.
Proof.
  induction ts as [|t ts IH]; simpl; intros box s box' s' H; bind_inv.
  - reflexivity.
  - destruct x. chain.
Qed.
#[global] Hint Resolve for_each_bottom_to_top_nodes : frame.

Lemma set_size_nodes c w h s s' :
  cwc_container_set_size c w h s = Some s' → same_nodes s s'.
Proof.
  unfold cwc_container_set_size. intros H. bind_inv. destruct x0.
  simplify_eq. bind_inv. chain.
Qed.
#[global] Hint Resolve set_size_nodes : frame.

Lemma set_position_nodes c x y s s' :
  cwc_container_set_position c x y s = Some s' → same_nodes s s'.
Proof. unfold cwc_container_set_position. intros H. bind_inv. chain. Qed.
#[global] Hint Resolve set_position_nodes : frame.

Lemma set_position_gap_nodes c x y s s' :
  cwc_container_set_position_gap c x y s = Some s' → same_nodes s s'.
Proof. unfold cwc_container_set_position_gap. eauto with frame. Qed.
#[global] Hint Resolve set_position_gap_nodes : frame.

#[global] Instance keeps_node_refl m : Reflexive (keeps_node m).
Proof. by intros s. Qed.
#[global] Instance keeps_node_trans m : Transitive (keeps_node m).
Proof. unfold keeps_node. intros s1 s2 s3 H1 H2. congruence. Qed.

Lemma same_nodes_keeps m s s' : same_nodes s s' → keeps_node m s s'.
Proof. unfold same_nodes, keeps_node. by intros ->. Qed.

Lemma modify_node_keeps k m f s s' :
  k ≠ m → modify_node k f s = Some s' → keeps_node m s s'.
Proof.
  intros Hne H. unfold modify_node in H. bind_inv. unfold keeps_node. simpl.
  by apply list_lookup_insert_ne.
Qed.

Lemma leaf_configure_keeps k m x y w h s s' :
  k ≠ m → bsp_node_leaf_configure k x y w h s = Some s' → keeps_node m s s'.
Proof.
  intros Hne H. unfold bsp_node_leaf_configure in H.
  bind_inv; try reflexivity;
    repeat match goal with
    | E : cwc_container_set_size _ _ _ _ = Some _ |- _ =>
        apply set_size_nodes, (same_nodes_keeps m) in E
    | E : cwc_container_set_position_gap _ _ _ _ = Some _ |- _ =>
        apply set_position_gap_nodes, (same_nodes_keeps m) in E
    | E : modify_node k _ _ = Some _ |- _ =>
        apply (modify_node_keeps k m _ _ _ Hne) in E
    end; unfold keeps_node in *; congruence.
Qed.

(** Configuring a leaf whose node already has the rectangle writes no
    node. *)
Lemma leaf_configure_same_nodes k kv s s' :
  bsp_nodes s !! k = Some kv →
  bsp_node_leaf_configure k (n_x kv) (n_y kv) (n_width kv) (n_height kv) s
  = Some s' →
  same_nodes s s'.
Proof.
  intros Hk H. unfold bsp_node_leaf_configure in H.
  assert (Hid : ∀ s1 s2 s3,
            same_nodes s s1 →
            modify_node k (n_set_position (n_x kv) (n_y kv)) s1 = Some s2 →
            modify_node k (n_set_size (n_width kv) (n_height kv)) s2
            = Some s3 →
            same_nodes s s3).
  { intros s1 s2 s3 H1 E2 E3. unfold same_nodes in *.
    erewrite modify_node_run in E2 by (by rewrite H1).
    injection E2 as <-.
    erewrite modify_node_run in E3
      by (simpl; by rewrite list_lookup_alter_eq, H1, Hk).
    injection E3 as <-. simpl. rewrite H1.
    rewrite list_alter_alter_eq. apply list_eq. intros i.
    destruct (decide (i = k)) as [->|Hne].
    - rewrite list_lookup_alter_eq, Hk. simpl. by destruct kv.
    - by rewrite list_lookup_alter_ne. }
  bind_inv; try reflexivity.
  - eapply Hid; [|done|done].
    match goal with
    | E1 : cwc_container_set_size _ _ _ s = Some ?a,
      E2 : cwc_container_set_position_gap _ _ _ ?a = Some ?b |- _ =>
        transitivity a;
        [by eapply set_size_nodes|by eapply set_position_gap_nodes]
    end.
  - eapply Hid; [|done|done]. reflexivity.
Qed.

#[global] Hint Resolve modify_node_keeps leaf_configure_keeps : frame.

(** [bsp_update_node n] writes only nodes below [n]: a node whose parent
    ranks above [n] is left alone. *)
Lemma bsp_update_node_frame rk N sh :
  nodes_ok rk N sh → tree_like sh →
  ∀ fuel n s s', shape_of s = sh → bsp_update_node fuel n s = Some s' →
    ∀ m ms, sh_nodes sh !! m = Some ms →
      (∀ q, ns_parent ms = Some q → (rk n < rk q)%nat) →
      keeps_node m s s'.
Proof.
  intros Hok Htree. induction fuel as [|fuel IH];
    intros n s s' Hsh H m ms Hm Hq; [done|].
  simpl in H.
  apply bind_Some in H as (p & Hp & H).
  apply bind_Some in H as (left_ & Hleft & H).
  apply bind_Some in H as (right_ & Hright & H).
  assert (Hps : sh_nodes sh !! n = Some (shape_of_node p)).
  { by rewrite <- Hsh, shape_node_lookup, Hp. }
  destruct (Htree n _ left_ right_ Hps Hleft Hright) as [Hlr Hback].
  assert (Hml : left_ ≠ m).
  { intros ->. specialize (Hq n (Hback m ms (or_introl eq_refl) Hm)). lia. }
  assert (Hmr : right_ ≠ m).
  { intros ->. specialize (Hq n (Hback m ms (or_intror eq_refl) Hm)). lia. }
  assert (Hrec : ∀ k si sj, k = left_ ∨ k = right_ → geom_only s si →
            bsp_update_node fuel k si = Some sj → keeps_node m si sj).
  { intros k si sj Hk G E.
    assert (Hks : is_Some (sh_nodes sh !! k)).
    { destruct (Hok n _ Hps) as (_ & _ & Hkind).
      rewrite <- Hsh, <- (geom_only_shape _ _ G), shape_node_lookup.
      apply fmap_is_Some. simpl in E.
      destruct fuel; [done|]. simpl in E.
      by destruct (bsp_nodes si !! k). }
    destruct Hks as [ks Hks].
    eapply (IH k si sj); [by rewrite (geom_only_shape _ _ G)|done|done|].
    intros q Hmq. specialize (Hq q Hmq).
    destruct (Hok k ks Hks) as (_ & Hpar & _).
    destruct (Hpar n (Hback k ks Hk Hks)) as (_ & _ & Hrk & _). lia. }
  (* the rectangle of the left child *)
  apply bind_Some in H as (s1 & E1 & H).
  assert (K1 : keeps_node m s s1) by eauto with frame.
  assert (G1 : geom_only s s1) by eauto with frame.
  (* the split *)
  apply bind_Some in H as (s2 & E2 & H).
  assert (K2 : keeps_node m s1 s2) by (clear H E1; bind_inv; chain).
  assert (G2 : geom_only s1 s2) by (clear H E1; bind_inv; chain).
  apply bind_Some in H as (r & Hr & H).
  apply bind_Some in H as (s3 & E3 & H).
  assert (K3 : keeps_node m s2 s3) by (clear H E1 E2; bind_inv; chain).
  assert (G3 : geom_only s2 s3) by (clear H E1 E2; bind_inv; chain).
  apply bind_Some in H as (l & Hl & H).
  (* the left child *)
  apply bind_Some in H as (s4 & E4 & H).
  assert (G03 : geom_only s s3) by (do 2 (etransitivity; [|done]); done).
  assert (K4 : keeps_node m s3 s4).
  { clear H E1 E2 E3. bind_inv; try chain.
    match goal with
    | Ea : modify_node left_ _ s3 = Some ?a,
      Eb : bsp_update_node fuel left_ ?a = Some s4 |- _ =>
        transitivity a; [eauto with frame|];
        eapply Hrec; [by left| |exact Eb];
        etransitivity; [exact G03|eauto with frame]
    end. }
  assert (G4 : geom_only s3 s4) by (clear H E1 E2 E3; bind_inv; chain).
  apply bind_Some in H as (r4 & Hr4 & H).
  (* the right child *)
  assert (K5 : keeps_node m s4 s').
  { clear E1 E2 E3 E4. bind_inv; try chain.
    eapply Hrec; [by right| |done]. by do 2 (etransitivity; [|done]). }
  unfold keeps_node in *. congruence.
Qed.

Lemma modify_node_effect k f s s' v :
  modify_node k f s = Some s' → bsp_nodes s !! k = Some v →
  bsp_nodes s' !! k = Some (f v)
  ∧ ∀ m, m ≠ k → bsp_nodes s' !! m = bsp_nodes s !! m.
Proof.
  intros H Hk. unfold modify_node in H. rewrite Hk in H. simpl in H.
  injection H as <-. simpl. split.
  - apply list_lookup_insert_eq. by eapply lookup_lt_Some.
  - intros m Hm. by apply list_lookup_insert_ne.
Qed.

(** The first half of [bsp_update_node]: the rectangles of the two
    children are computed from the parent's. *)
Lemma split_phase s s1 s2 s3 parent p left_ right_ l r rr :
  parent ≠ left_ → parent ≠ right_ → left_ ≠ right_ →
  bsp_nodes s !! parent = Some p →
  bsp_nodes s !! left_ = Some l → bsp_nodes s !! right_ = Some r →
  modify_node left_ (n_set_position (n_x p) (n_y p)) s = Some s1 →
  match n_split_type p with
  | BSP_SPLIT_VERTICAL =>
      s ← modify_node left_
            (n_set_size
               (CDouble.int_mul_double (n_width p) (n_left_wfact p))
               (n_height p)) s1;
      l ← bsp_nodes s !! left_;
      s ← modify_node right_
            (n_set_size (n_width p - n_width l) (n_height p)) s;
      modify_node right_ (n_set_position (n_x l + n_width l) (n_y l)) s
  | BSP_SPLIT_HORIZONTAL =>
      s ← modify_node left_
            (n_set_size (n_width p)
               (CDouble.int_mul_double (n_height p) (n_left_wfact p)))
            s1;
      l ← bsp_nodes s !! left_;
      s ← modify_node right_
            (n_set_size (n_width p) (n_height p - n_height l)) s;
      modify_node right_ (n_set_position (n_x l) (n_y l + n_height l)) s
  | BSP_SPLIT_AUTO => None
  end = Some s2 →
  bsp_nodes s2 !! right_ = Some rr →
  (if negb (n_enabled rr)
   then modify_node left_ (n_set_size (n_width p) (n_height p)) s2
   else Some s2) = Some s3 →
  ∃ l3 r3,
    bsp_nodes s3 !! parent = Some p
    ∧ bsp_nodes s3 !! left_ = Some l3 ∧ bsp_nodes s3 !! right_ = Some r3
    ∧ rr = r3
    ∧ n_enabled l3 = n_enabled l ∧ n_enabled r3 = n_enabled r
    ∧ n_type l3 = n_type l ∧ n_type r3 = n_type r
    ∧ n_x l3 = n_x p ∧ n_y l3 = n_y p
    ∧ (n_enabled r = true →
       (node_rect l3, node_rect r3)
       = split_rects (n_split_type p) (n_left_wfact p) (node_rect p))
    ∧ (n_enabled r = false → node_rect l3 = node_rect p).
Proof.
  intros Hpl Hpr Hlr Hp Hl Hr E1 E2 Hrr E3.
  destruct (modify_node_effect _ _ _ _ _ E1 Hl) as [Hl1 Ho1].
  pose proof (Ho1 parent Hpl) as Hp1. rewrite Hp in Hp1.
  pose proof (Ho1 right_ (not_eq_sym Hlr)) as Hr1. rewrite Hr in Hr1.
  clear Ho1 E1.
  assert (∃ l2 r2,
            bsp_nodes s2 !! parent = Some p
            ∧ bsp_nodes s2 !! left_ = Some l2
            ∧ bsp_nodes s2 !! right_ = Some r2
            ∧ n_enabled l2 = n_enabled l ∧ n_enabled r2 = n_enabled r
            ∧ n_type l2 = n_type l ∧ n_type r2 = n_type r
            ∧ n_x l2 = n_x p ∧ n_y l2 = n_y p
            ∧ (node_rect l2, node_rect r2)
              = split_rects (n_split_type p) (n_left_wfact p) (node_rect p))
    as (l2 & r2 & Hp2 & Hl2 & Hr2 & Hel & Her & Htl & Htr & Hx & Hy & Hsp).
  { destruct (n_split_type p) eqn:Esplit; [done| |].
    - apply bind_Some in E2 as (sa & Ea & E2).
      destruct (modify_node_effect _ _ _ _ _ Ea Hl1) as [Hla Hoa].
      rewrite Hla in E2. simpl in E2.
      apply bind_Some in E2 as (sb & Eb & E2).
      pose proof (Hoa right_ (not_eq_sym Hlr)) as Hra. rewrite Hr1 in Hra.
      destruct (modify_node_effect _ _ _ _ _ Eb Hra) as [Hrb Hob].
      destruct (modify_node_effect _ _ _ _ _ E2 Hrb) as [Hrc Hoc].
      eexists _, _. split_and!.
      + by rewrite (Hoc parent Hpr), (Hob parent Hpr), (Hoa parent Hpl).
      + rewrite (Hoc left_ Hlr), (Hob left_ Hlr). exact Hla.
      + exact Hrc.
      + done.
      + done.
      + done.
      + done.
      + done.
      + done.
      + done.
    - apply bind_Some in E2 as (sa & Ea & E2).
      destruct (modify_node_effect _ _ _ _ _ Ea Hl1) as [Hla Hoa].
      rewrite Hla in E2. simpl in E2.
      apply bind_Some in E2 as (sb & Eb & E2).
      pose proof (Hoa right_ (not_eq_sym Hlr)) as Hra. rewrite Hr1 in Hra.
      destruct (modify_node_effect _ _ _ _ _ Eb Hra) as [Hrb Hob].
      destruct (modify_node_effect _ _ _ _ _ E2 Hrb) as [Hrc Hoc].
      eexists _, _. split_and!.
      + by rewrite (Hoc parent Hpr), (Hob parent Hpr), (Hoa parent Hpl).
      + rewrite (Hoc left_ Hlr), (Hob left_ Hlr). exact Hla.
      + exact Hrc.
      + done.
      + done.
      + done.
      + done.
      + done.
      + done.
      + done. }
  assert (rr = r2) as -> by congruence.
  destruct (n_enabled r2) eqn:Eer; simpl in E3.
  - injection E3 as <-. exists l2, r2.
    split_and!; try done; try congruence; intros ?; congruence.
  - destruct (modify_node_effect _ _ _ _ _ E3 Hl2) as [Hl3 Ho3].
    eexists _, r2. split_and!.
    + by rewrite (Ho3 parent Hpl).
    + exact Hl3.
    + by rewrite (Ho3 right_ (not_eq_sym Hlr)).
    + done.
    + done.
    + congruence.
    + done.
    + done.
    + done.
    + done.
    + intros ?; congruence.
    + intros _. unfold node_rect. simpl. by rewrite Hx, Hy.
Qed.

(** Property X24.  [bsp_update_node] on an internal node of a well-formed
    forest of trees returns.  It leaves the node itself as it is and keeps
    the enabled flags of its two children.  When both children are enabled
    they get the two parts of the node's rectangle that the split direction
    and [left_wfact] give: the same origin for the left part, the right
    part beside (vertical) or below (horizontal) it, the widths (heights)
    adding up to the node's.  When only one child is enabled it gets the
    node's whole rectangle. *)
Theorem bsp_update_node_partitions s parent p left_ right_ l r :
  wf_shape (shape_of s) → tree_like (shape_of s) →
  bsp_nodes s !! parent = Some p → n_type p = BSP_NODE_INTERNAL →
  n_left p = Some left_ → n_right p = Some right_ →
  bsp_nodes s !! left_ = Some l → bsp_nodes s !! right_ = Some r →
  ∃ N, ∀ fuel, (N < fuel)%nat →
    ∃ s' l' r',
      bsp_update_node fuel parent s = Some s'
      ∧ bsp_nodes s' !! parent = Some p
      ∧ bsp_nodes s' !! left_ = Some l' ∧ bsp_nodes s' !! right_ = Some r'
      ∧ n_enabled l' = n_enabled l ∧ n_enabled r' = n_enabled r
      ∧ (n_enabled l = true → n_enabled r = true →
         (node_rect l', node_rect r')
         = split_rects (n_split_type p) (n_left_wfact p) (node_rect p)
         ∧ match n_split_type p with
           | BSP_SPLIT_HORIZONTAL =>
               n_height l' + n_height r' = n_height p
               ∧ n_width l' = n_width p ∧ n_width r' = n_width p
           | _ =>
               n_width l' + n_width r' = n_width p
               ∧ n_height l' = n_height p ∧ n_height r' = n_height p
           end)
      ∧ (n_enabled l = true → n_enabled r = false →
         node_rect l' = node_rect p)
      ∧ (n_enabled l = false → node_rect r' = node_rect p).
Proof.
  intros Hwf Htree Hp Hint Hleft Hright Hl Hr.
  destruct (wf_nodes _ Hwf) as (rk & N & Hok).
  exists N. intros fuel Hfuel.
  set (sh := shape_of s) in *.
  assert (Hps : sh_nodes sh !! parent = Some (shape_of_node p)).
  { subst sh. by rewrite shape_node_lookup, Hp. }
  assert (Hls : sh_nodes sh !! left_ = Some (shape_of_node l)).
  { subst sh. by rewrite shape_node_lookup, Hl. }
  assert (Hrs : sh_nodes sh !! right_ = Some (shape_of_node r)).
  { subst sh. by rewrite shape_node_lookup, Hr. }
  destruct (Htree parent _ left_ right_ Hps Hleft Hright) as [Hlr Hback].
  pose proof (Hback left_ _ (or_introl eq_refl) Hls) as Hpl.
  pose proof (Hback right_ _ (or_intror eq_refl) Hrs) as Hpr.
  destruct (Hok parent _ Hps) as (HNp & Hparp & _).
  destruct (Hok left_ _ Hls) as (_ & Hparl & _).
  destruct (Hok right_ _ Hrs) as (_ & Hparr & _).
  destruct (Hparl parent Hpl) as (_ & _ & Hrkl & _).
  destruct (Hparr parent Hpr) as (_ & _ & Hrkr & _).
  assert (Hnel : parent ≠ left_) by (intros <-; lia).
  assert (Hner : parent ≠ right_) by (intros <-; lia).
  destruct (bsp_update_node_total sh rk N Hwf Hok fuel parent s _ eq_refl Hps)
    as (s' & E & _); [done|lia|].
  (* the three nodes are not below the children *)
  assert (Hkeep : ∀ k si sj, k = left_ ∨ k = right_ → geom_only s si →
            ∀ fuel', bsp_update_node fuel' k si = Some sj →
            keeps_node parent si sj ∧ keeps_node left_ si sj
            ∧ keeps_node right_ si sj).
  { intros k si sj Hk G fuel' Ek.
    assert (Hrkk : (rk k < rk parent)%nat) by (by destruct Hk as [-> | ->]).
    pose proof (bsp_update_node_frame rk N sh Hok Htree fuel' k si sj
                  (geom_only_shape _ _ G) Ek) as F.
    split_and!.
    - eapply F; [exact Hps|]. intros q Hq.
      destruct (Hparp q Hq) as (_ & _ & ? & _). lia.
    - eapply F; [exact Hls|]. intros q Hq.
      assert (q = parent) as -> by congruence. done.
    - eapply F; [exact Hrs|]. intros q Hq.
      assert (q = parent) as -> by congruence. done. }
  destruct fuel as [|fuel]; [lia|]. pose proof E as E'. simpl in E.
  rewrite Hp in E. simpl in E. rewrite Hleft, Hright in E. simpl in E.
  apply bind_Some in E as (s1 & E1 & E).
  apply bind_Some in E as (s2 & E2 & E).
  apply bind_Some in E as (rr & Hrr & E).
  apply bind_Some in E as (s3 & E3 & E).
  assert (G3 : geom_only s s3).
  { transitivity s1; [eauto with frame|].
    transitivity s2; [clear E E3 E1; bind_inv; chain|].
    clear E E1 E2. bind_inv; chain. }
  destruct (split_phase s s1 s2 s3 parent p left_ right_ l r rr)
    as (l3 & r3 & Hp3 & Hl3 & Hr3 & -> & Hel & Her & Htl & Htr & Hx & Hy
        & Hboth & Hleftonly); try done.
  clear E1 E2 E3 Hrr.
  rewrite Hl3 in E. simpl in E.
  apply bind_Some in E as (s4 & E4 & E).
  (* the left child *)
  assert (Hl3id : n_set_position (n_x p) (n_y p) l3 = l3).
  { destruct l3. simpl in *. by subst. }
  assert (∃ r4,
            bsp_nodes s4 !! parent = Some p
            ∧ bsp_nodes s4 !! left_ = Some l3
            ∧ bsp_nodes s4 !! right_ = Some r4
            ∧ n_enabled r4 = n_enabled r ∧ n_type r4 = n_type r
            ∧ (n_enabled l = true → r4 = r3)
            ∧ (n_enabled l = false → node_rect r4 = node_rect p)
            ∧ geom_only s s4)
    as (r4 & Hp4 & Hl4 & Hr4 & Her4 & Htr4 & Hr4on & Hr4off & G4).
  { rewrite Hel in E4. destruct (n_enabled l) eqn:Eel.
    - destruct (n_type l3) eqn:Ety.
      + apply bind_Some in E4 as (sa & Ea & E4).
        destruct (modify_node_effect _ _ _ _ _ Ea Hl3) as [Hla Hoa].
        rewrite Hl3id in Hla.
        assert (Ga : geom_only s sa)
          by (etransitivity; [exact G3|eauto with frame]).
        destruct (Hkeep left_ sa s4 (or_introl eq_refl) Ga _ E4)
          as (Kp & Kl & Kr).
        exists r3. unfold keeps_node in *. split_and!; try done.
        * by rewrite Kp, (Hoa parent Hnel).
        * by rewrite Kl.
        * by rewrite Kr, (Hoa right_ (not_eq_sym Hlr)).
        * etransitivity; [exact Ga|eauto with frame].
      + rewrite <- Hx, <- Hy in E4.
        pose proof (leaf_configure_same_nodes _ _ _ _ Hl3 E4) as Sn.
        exists r3. unfold same_nodes in Sn. rewrite Sn.
        split_and!; try done.
        etransitivity; [exact G3|eauto with frame].
    - apply bind_Some in E4 as (sa & Ea & E4).
      destruct (modify_node_effect _ _ _ _ _ Ea Hr3) as [Hra Hoa].
      destruct (modify_node_effect _ _ _ _ _ E4 Hra) as [Hrb Hob].
      eexists. split_and!.
      + by rewrite (Hob parent Hner), (Hoa parent Hner).
      + by rewrite (Hob left_ Hlr), (Hoa left_ Hlr).
      + exact Hrb.
      + done.
      + done.
      + done.
      + done.
      + etransitivity; [exact G3|].
        transitivity sa; eauto with frame. }
  clear E4. rewrite Hr4 in E. simpl in E.
  (* the right child *)
  assert (bsp_nodes s' !! parent = Some p
          ∧ bsp_nodes s' !! left_ = Some l3
          ∧ bsp_nodes s' !! right_ = Some r4) as (Hp' & Hl' & Hr').
  { destruct (n_enabled r4).
    - destruct (n_type r4).
      + destruct (Hkeep right_ s4 s' (or_intror eq_refl) G4 _ E)
          as (Kp & Kl & Kr).
        unfold keeps_node in *. by rewrite Kp, Kl, Kr.
      + pose proof (leaf_configure_same_nodes _ _ _ _ Hr4 E) as Sn.
        unfold same_nodes in Sn. by rewrite Sn.
    - by injection E as <-. }
  exists s', l3, r4. split_and!; try done.
  - intros H1 H2. rewrite (Hr4on H1). split; [by apply Hboth|].
    pose proof (Hboth H2) as Hb. unfold split_rects in Hb.
    unfold node_rect in Hb.
    destruct (n_split_type p); simpl in Hb;
      injection Hb as Hx3 Hy3 Hw3 Hh3 Hx4 Hy4 Hw4 Hh4;
      rewrite Hw3, Hh3, Hw4, Hh4; split_and!; lia.
Qed.

Lemma bsp_four_wf : wf_shape (shape_of Instances.bsp_four).
Proof.
  apply (wf_shape_b_sound [0; 3; 0; 2; 0; 1; 0]%nat 4). vm_compute.
  reflexivity.
Qed.

Lemma bsp_four_tree_like : tree_like (shape_of Instances.bsp_four).
Proof.
  intros n ns l r Hn Hl Hr.
  do 7 (destruct n as [|n];
        [vm_compute in Hn; injection Hn as <-; simpl in Hl, Hr;
         try discriminate Hl; injection Hl as <-; injection Hr as <-;
         (split; [discriminate|]); intros k ks [-> | ->] Hk;
         vm_compute in Hk; injection Hk as <-; reflexivity|]).
  vm_compute in Hn. discriminate Hn.
Qed.

(** Node 3 of the example, at (800,0) and 800x900 large, splits
    horizontally between its children 2 and 5. *)
Lemma bsp_update_node_partitions_witness :
  ∃ N, ∀ fuel, (N < fuel)%nat →
    ∃ s' l' r',
      bsp_update_node fuel 3%nat Instances.bsp_four = Some s'
      ∧ bsp_nodes s' !! 2%nat = Some l' ∧ bsp_nodes s' !! 5%nat = Some r'
      ∧ (node_rect l', node_rect r')
        = (mk_box 800 0 800 450, mk_box 800 450 800 450).
Proof.
  destruct (bsp_update_node_partitions Instances.bsp_four 3%nat
              (BspUpdateInstances.bsp_four_node 3) 2%nat 5%nat
              (BspUpdateInstances.bsp_four_node 2)
              (BspUpdateInstances.bsp_four_node 5)
              bsp_four_wf bsp_four_tree_like) as (N & H).
  - vm_compute. reflexivity.
  - vm_compute. reflexivity.
  - vm_compute. reflexivity.
  - vm_compute. reflexivity.
  - vm_compute. reflexivity.
  - vm_compute. reflexivity.
  - exists N. intros fuel Hfuel.
    destruct (H fuel Hfuel)
      as (s' & l' & r' & E & _ & Hl & Hr & _ & _ & Hboth & _).
    exists s', l', r'. split_and!; [done..|].
    destruct Hboth as [Hb _].
    + vm_compute. reflexivity.
    + vm_compute. reflexivity.
    + rewrite Hb. vm_compute. reflexivity.
Defined.
Import BspTreeSpec.

(** *** Insertion keeps the forest a forest of trees *)

(** The children of a node are nodes. *)
Lemma children_in_range sh rk N n ns k :
  nodes_ok rk N sh → leaves_bare sh → sh_nodes sh !! n = Some ns →
  ns_left ns = Some k ∨ ns_right ns = Some k →
  is_Some (sh_nodes sh !! k).
Proof.
  intros Hok Hbare Hn Hk. destruct (Hok n ns Hn) as (_ & _ & Hkind).
  destruct (ns_type ns) eqn:Ety.
  - destruct Hkind as (_ & l0 & r0 & El & Er & Hl0 & Hr0 & _).
    destruct Hk; congruence.
  - destruct (Hbare n ns Hn Ety) as [? ?]. destruct Hk; congruence.
Qed.

Lemma first_leaf_shape_trees sh new rk N :
  nodes_ok rk N sh → tree_like sh → leaves_bare sh →
  tree_like (first_leaf_shape sh new) ∧ leaves_bare (first_leaf_shape sh new).
Proof.
  intros Hok Htree Hbare. split.
  - intros n ns l r Hn Hl Hr. simpl in Hn.
    apply lookup_app_Some in Hn as [Hn|[_ Hn]].
    + destruct (Htree n ns l r Hn Hl Hr) as [Hne Hback].
      split; [done|]. intros k ks Hk Hks. simpl in Hks.
      apply lookup_app_Some in Hks as [Hks|[Hge Hks]]; [by eapply Hback|].
      assert (is_Some (sh_nodes sh !! k)) as Hex.
      { eapply children_in_range; [done..|]. destruct Hk as [-> | ->]; auto. }
      apply lookup_lt_is_Some in Hex. lia.
    + destruct (n - length (sh_nodes sh))%nat as [|i]; [|by destruct i].
      simpl in Hn. injection Hn as <-. done.
  - intros n ns Hn Hty. simpl in Hn.
    apply lookup_app_Some in Hn as [Hn|[_ Hn]]; [by eapply Hbare|].
    destruct (n - length (sh_nodes sh))%nat as [|i]; [|by destruct i].
    simpl in Hn. by injection Hn as <-.
Qed.

Lemma insert_shape_old sh left_ new split ls n ns :
  sh_nodes sh !! left_ = Some ls → sh_nodes sh !! n = Some ns →
  sh_nodes (insert_shape sh left_ new split) !! n
  = Some (inserted_old left_ (ns_parent ls) (length (sh_nodes sh)) n ns).
Proof.
  intros Hls Hn. unfold insert_shape, inserted_old. cbv beta zeta.
  rewrite Hls. simpl. apply lookup_app_l_Some.
  destruct (ns_parent ls) as [g|] eqn:Eg.
  - destruct (decide (g = n)) as [->|Hgn];
      destruct (decide (n = left_)) as [->|Hnl];
      rewrite ?list_lookup_alter_eq, ?list_lookup_alter_ne by done;
      rewrite ?list_lookup_alter_eq, ?list_lookup_alter_ne by done;
      rewrite ?Hls, ?Hn; simpl; repeat case_decide; try done; congruence.
  - destruct (decide (n = left_)) as [->|Hnl];
      rewrite ?list_lookup_alter_eq, ?list_lookup_alter_ne by done;
      rewrite ?Hls, ?Hn; simpl; repeat case_decide; try done; congruence.
Qed.

Lemma insert_shape_new sh left_ new split ls n ns' :
  sh_nodes sh !! left_ = Some ls →
  sh_nodes (insert_shape sh left_ new split) !! n = Some ns' →
  let L := length (sh_nodes sh) in
  (∃ ns, sh_nodes sh !! n = Some ns
         ∧ ns' = inserted_old left_ (ns_parent ls) L n ns)
  ∨ n = L
    ∧ ns' = mk_nshape BSP_NODE_INTERNAL None (ns_parent ls) (Some left_)
              (Some (S L)) split
  ∨ n = S L
    ∧ ns' = mk_nshape BSP_NODE_LEAF (Some new) (Some L) None None
              BSP_SPLIT_AUTO.
Proof.
  intros Hls Hn L.
  destruct (sh_nodes sh !! n) as [ns|] eqn:En.
  - left. exists ns. split; [done|].
    rewrite (insert_shape_old sh left_ new split ls n ns Hls En) in Hn.
    by injection Hn as <-.
  - right. apply lookup_ge_None in En. fold L in En.
    unfold insert_shape in Hn. cbv beta zeta in Hn. rewrite Hls in Hn.
    simpl in Hn. fold L in Hn.
    set (nodes' := match ns_parent ls with
                   | Some g => _
                   | None => _
                   end) in Hn.
    assert (Hlen : length nodes' = L).
    { subst nodes'. destruct (ns_parent ls); by rewrite ?length_alter. }
    rewrite lookup_app_r in Hn by lia. rewrite Hlen in Hn.
    destruct (n - L)%nat as [|[|i]] eqn:Ei; simpl in Hn; [| |done].
    + left. split; [lia|]. by injection Hn as <-.
    + right. split; [lia|]. by injection Hn as <-.
Qed.

Lemma inserted_old_parent left_ grand L n ns :
  ns_parent (inserted_old left_ grand L n ns)
  = if decide (n = left_) then Some L else ns_parent ns.
Proof.
  unfold inserted_old. cbv zeta.
  destruct (decide (grand = Some n));
    rewrite ?(proj1 (proj2 (proj2 (ns_replace_child_fields _ _ _))));
    by destruct (decide (n = left_)).
Qed.

Lemma inserted_old_type left_ grand L n ns :
  ns_type (inserted_old left_ grand L n ns) = ns_type ns.
Proof.
  unfold inserted_old. cbv zeta.
  destruct (decide (grand = Some n));
    rewrite ?(proj1 (ns_replace_child_fields _ _ _));
    by destruct (decide (n = left_)).
Qed.

Lemma inserted_old_not_grand left_ grand L n ns :
  grand ≠ Some n →
  ns_left (inserted_old left_ grand L n ns) = ns_left ns
  ∧ ns_right (inserted_old left_ grand L n ns) = ns_right ns.
Proof.
  intros Hg. unfold inserted_old. cbv zeta.
  rewrite decide_False by done. by destruct (decide (n = left_)).
Qed.

Lemma insert_shape_trees sh left_ new split ls rk N :
  nodes_ok rk N sh → tree_like sh → leaves_bare sh →
  sh_nodes sh !! left_ = Some ls →
  tree_like (insert_shape sh left_ new split)
  ∧ leaves_bare (insert_shape sh left_ new split).
Proof.
  intros Hok Htree Hbare Hls.
  set (L := length (sh_nodes sh)).
  assert (HlL : (left_ < L)%nat) by (by eapply lookup_lt_Some).
  assert (Hlt : ∀ k ks, sh_nodes sh !! k = Some ks → (k < L)%nat)
    by (intros k ks Hk; by eapply lookup_lt_Some).
  pose proof (insert_shape_new sh left_ new split ls) as Hnew.
  pose proof (insert_shape_old sh left_ new split ls) as Hold.
  cbv zeta in Hnew. fold L in Hnew, Hold.
  set (sh' := insert_shape sh left_ new split) in *. clearbody sh'.
  (* parent of a node of the new forest that was a child before *)
  assert (Hchild : ∀ n ns k ks',
            sh_nodes sh !! n = Some ns →
            ns_left ns = Some k ∨ ns_right ns = Some k →
            k ≠ left_ → (∃ l r, ns_left ns = Some l ∧ ns_right ns = Some r) →
            sh_nodes sh' !! k = Some ks' → ns_parent ks' = Some n).
  { intros n ns k ks' Hn Hk Hkl (l & r & El & Er) Hks'.
    destruct (children_in_range sh rk N n ns k Hok Hbare Hn Hk) as [ks Hks].
    rewrite (Hold k ks Hls Hks) in Hks'. injection Hks' as <-.
    rewrite inserted_old_parent, decide_False by done.
    destruct (Htree n ns l r Hn El Er) as [_ Hback].
    apply (Hback k ks); [|done]. destruct Hk; [left|right]; congruence. }
  split.
  - intros n ns' l r Hn Hl Hr.
    destruct (Hnew n ns' Hls Hn) as [(ns & En & ->)|[[-> ->]|[-> ->]]].
    + destruct (decide (ns_parent ls = Some n)) as [Hg|Hg].
      * (* the parent of [left_]: the new internal node replaces [left_] *)
        destruct (Hok left_ ls Hls) as (_ & Hpar & _).
        destruct (Hpar n Hg) as (ps & Eps & Hrk & _ & Hside).
        rewrite En in Eps. injection Eps as <-.
        assert (Hnl : n ≠ left_) by (intros ->; lia).
        assert (∃ l0 r0, ns_left ns = Some l0 ∧ ns_right ns = Some r0)
          as (l0 & r0 & El0 & Er0).
        { destruct (Hok n ns En) as (_ & _ & Hkind).
          destruct (ns_type ns) eqn:Ety.
          - destruct Hkind as (_ & l0 & r0 & ? & ? & _). eauto.
          - destruct (Hbare n ns En Ety). destruct Hside; congruence. }
        destruct (Htree n ns l0 r0 En El0 Er0) as [Hne Hback].
        assert (HP : ∀ ks, sh_nodes sh' !! L = Some ks →
                  ns_parent ks = Some n).
        { intros ks Hks.
          destruct (Hnew L ks Hls Hks) as [(x & Ex & _)|[[_ ->]|[? _]]];
            [apply Hlt in Ex; lia|done|lia]. }
        unfold inserted_old in Hl, Hr. cbv zeta in Hl, Hr.
        rewrite decide_True in Hl, Hr by done.
        rewrite decide_False in Hl, Hr by done.
        unfold ns_replace_child in Hl, Hr. rewrite El0, Er0 in Hl, Hr.
        simpl in Hl, Hr.
        assert (Hl0 : (l0 < L)%nat).
        { destruct (children_in_range sh rk N n ns l0 Hok Hbare En) as [? ?];
            eauto. }
        assert (Hr0 : (r0 < L)%nat).
        { destruct (children_in_range sh rk N n ns r0 Hok Hbare En) as [? ?];
            eauto. }
        destruct (Nat.eqb_spec l0 left_) as [Hl0l|Hl0l];
          [|destruct (Nat.eqb_spec r0 left_) as [Hr0l|Hr0l]];
          simpl in Hl, Hr; rewrite ?El0, ?Er0 in Hl, Hr.
        -- assert (l = L) as -> by congruence.
           assert (r = r0) as -> by congruence.
           split; [lia|]. intros k ks' [-> | ->] Hks'; [by apply HP|].
           eapply (Hchild n ns r0); eauto. congruence.
        -- assert (l = l0) as -> by congruence.
           assert (r = L) as -> by congruence.
           split; [lia|]. intros k ks' [-> | ->] Hks'; [|by apply HP].
           eapply (Hchild n ns l0); eauto.
        -- destruct Hside; congruence.
      * destruct (inserted_old_not_grand left_ _ L n ns Hg) as [El' Er'].
        rewrite El' in Hl. rewrite Er' in Hr.
        destruct (Htree n ns l r En Hl Hr) as [Hne Hback].
        assert (Hkl : ∀ k ks, k = l ∨ k = r → sh_nodes sh !! k = Some ks →
                  k ≠ left_).
        { intros k ks Hk Hks ->. rewrite Hls in Hks. injection Hks as <-.
          apply Hg. by apply (Hback left_ ls). }
        split; [done|]. intros k ks' Hk Hks'.
        assert (is_Some (sh_nodes sh !! k)) as [ks Hks].
        { eapply children_in_range; [done..|].
          destruct Hk as [-> | ->]; auto. }
        eapply (Hchild n ns k); eauto.
        destruct Hk as [-> | ->]; auto.
    + (* the new internal node *)
      simpl in Hl, Hr. injection Hl as <-. injection Hr as <-.
      split; [lia|]. intros k ks' [-> | ->] Hks'.
      * rewrite (Hold left_ ls Hls Hls) in Hks'. injection Hks' as <-.
        by rewrite inserted_old_parent, decide_True.
      * destruct (Hnew (S L) ks' Hls Hks') as [(x & Ex & _)|[[? _]|[_ ->]]];
          [apply Hlt in Ex; lia|lia|done].
    + done.
  - intros n ns' Hn Hty.
    destruct (Hnew n ns' Hls Hn) as [(ns & En & ->)|[[-> ->]|[-> ->]]];
      [|done..].
    rewrite inserted_old_type in Hty.
    destruct (Hbare n ns En Hty) as [El Er].
    unfold inserted_old. cbv zeta.
    assert (Hrep : ∀ x, ns_left x = None → ns_right x = None →
              ns_replace_child left_ L x = x).
    { intros x Hxl Hxr. unfold ns_replace_child. by rewrite Hxl, Hxr. }
    destruct (decide (n = left_)); destruct (decide (ns_parent ls = Some n));
      rewrite ?Hrep by done; done.
Qed.

(** A container outside the tree that is inserted does not disturb what
    the other workspaces need for an insertion. *)
Lemma insert_ready_kept s s' new cont (n' : option node_id) w :
  containers s !! new = Some cont → c_bsp_node cont = None →
  sh_containers (shape_of s')
  = alter (cs_set_bsp_node n') new (sh_containers (shape_of s)) →
  view_info (output s') w = view_info (output s) w →
  insert_ready s w → insert_ready s' w.
Proof.
  intros Hc Hnone Hsh Hv. unfold insert_ready. cbv zeta. rewrite Hv.
  destruct (root _); [|done].
  intros (sibling & sib & left_ & Hlast & Hsib & Hleft).
  assert (Hne : sibling ≠ new) by (intros ->; congruence).
  pose proof (shape_container_lookup s' sibling) as E.
  rewrite Hsh, list_lookup_alter_ne, shape_container_lookup, Hsib in E
    by done.
  destruct (containers s' !! sibling) as [sib'|] eqn:Es'; [|done].
  apply (f_equal (fmap cs_bsp_node)) in E. simpl in E.
  exists sibling, sib', left_. split_and!; [done..|]. congruence.
Qed.


Lemma two_and_dialog_trees : bsp_trees BspInstances.two_and_dialog.
Proof.
  split; [exact two_and_dialog_wf|]. split.
  - intros n ns l r Hn Hl Hr.
    do 3 (destruct n as [|n];
          [vm_compute in Hn; injection Hn as <-; simpl in Hl, Hr;
           try discriminate Hl; injection Hl as <-; injection Hr as <-;
           (split; [discriminate|]); intros k ks [-> | ->] Hk;
           vm_compute in Hk; injection Hk as <-; reflexivity|]).
    vm_compute in Hn. discriminate Hn.
  - intros n ns Hn Hty.
    do 3 (destruct n as [|n];
          [vm_compute in Hn; injection Hn as <-; simpl in Hty;
           try discriminate Hty; by split|]).
    vm_compute in Hn. discriminate Hn.
Qed.

Lemma two_and_dialog_ready : insert_ready BspInstances.two_and_dialog 1.
Proof.
  exists 1%nat, (BspInstances.two_and_dialog_container 1), 2%nat.
  split_and!; vm_compute; reflexivity.
Qed.


End LayoutFacts.

(** ** Interactive resize: the inferred edges *)

Module CursorFacts.
Set Warnings "-inexact-float".
Import Layout Cursor CursorSpec.

(** The decision on the normalized coordinates, region by region. *)
Lemma edge_of_normdevice_coord_regions nx ny :
  let edges := edge_of_normdevice_coord nx ny in
  (in_band nx = true → dle ny (-0.4)%float = true → edges = WLR_EDGE_TOP)
  ∧ (in_band nx = true → dle ny (-0.4)%float = false →
       dge ny 0.6%float = true → edges = WLR_EDGE_BOTTOM)
  ∧ (in_band nx = false → in_band ny = true →
       dle nx (-0.4)%float = true → edges = WLR_EDGE_LEFT)
  ∧ (in_band nx = false → in_band ny = true →
       dle nx (-0.4)%float = false → dge nx 0.6%float = true →
       edges = WLR_EDGE_RIGHT)
  ∧ (single_region nx ny = false → edges = corner nx ny).
Proof.
  unfold edge_of_normdevice_coord, single_region, corner, in_band.
  destruct (dge nx (-0.3)%float && dle nx 0.3%float) eqn:Ex;
    destruct (dge ny (-0.3)%float && dle ny 0.3%float) eqn:Ey;
    destruct (dle ny (-0.4)%float) eqn:E1;
    destruct (dge ny 0.6%float) eqn:E2;
    destruct (dle nx (-0.4)%float) eqn:E3;
    destruct (dge nx 0.6%float) eqn:E4;
    simpl; split_and!; try done;
    intros _; by destruct (dge nx (-0.05)%float), (dge ny (-0.05)%float).
Qed.

(** An eligible toplevel under the cursor is grabbed. *)
Lemma start_interactive_resize_under s cursor t top c cont sx0 sy0 :
  toplevels s !! t = Some top →
  toplevel_container s top = Some (c, cont) →
  cwc_toplevel_can_enter_interactive s t = Some true →
  ∃ cur,
    start_interactive_resize s cursor (Some t) sx0 sy0 None 0 = Some cur
    ∧ grabbed_toplevel cur = Some t
    ∧ cursor_state cur = CWC_CURSOR_STATE_RESIZE
    ∧ resize_edges cur
      = decide_which_edge_to_resize
          (cursor_x cursor - CDouble.of_int (c_x cont))%float
          (cursor_y cursor - CDouble.of_int (c_y cont))%float
          (t_geometry top).
Proof.
  intros Ht Hc Hok. unfold start_interactive_resize.
  unfold cwc_toplevel_at_with_deep_check. simpl.
  rewrite Ht. simpl. rewrite Hc. simpl. rewrite Hok. simpl.
  rewrite Ht. simpl. rewrite Hc. simpl. eauto.
Qed.




End CursorFacts.

(** ** Interactive resize: what it never does *)

Module CursorMore.
Set Warnings "-inexact-float".
Import Layout Cursor CursorSpec.

Lemma edge_of_normdevice_coord_valid nx ny :
  edge_of_normdevice_coord nx ny
  ∈ [WLR_EDGE_TOP; WLR_EDGE_BOTTOM; WLR_EDGE_LEFT; WLR_EDGE_RIGHT;
     Z.lor WLR_EDGE_LEFT WLR_EDGE_TOP; Z.lor WLR_EDGE_LEFT WLR_EDGE_BOTTOM;
     Z.lor WLR_EDGE_RIGHT WLR_EDGE_TOP; Z.lor WLR_EDGE_RIGHT WLR_EDGE_BOTTOM].
Proof.
  unfold edge_of_normdevice_coord.
  destruct (dge nx (-0.3)%float && dle nx 0.3%float);
    destruct (dge ny (-0.3)%float && dle ny 0.3%float);
    destruct (dle ny (-0.4)%float); destruct (dge ny 0.6%float);
    destruct (dle nx (-0.4)%float); destruct (dge nx 0.6%float);
    destruct (dge nx (-0.05)%float); destruct (dge ny (-0.05)%float);
    cbv [Z.lor WLR_EDGE_TOP WLR_EDGE_BOTTOM WLR_EDGE_LEFT WLR_EDGE_RIGHT
         Pos.lor]; set_solver.
Qed.

(** Property X13.  Whenever [start_interactive_resize] starts a resize, the
    grabbed toplevel belongs to a container that is floating, neither
    fullscreen nor maximized, and the toplevel is not unmanaged; edges given
    by the caller are used as they are; inferred edges are one edge or two
    adjacent edges, never none and never two opposite ones, whatever the
    coordinates; and the grab box is the toplevel's geometry box moved by
    the container's position. *)
Theorem resize_starts_only_when_allowed s cursor under sx0 sy0 toplevel
    edges cur :
  start_interactive_resize s cursor under sx0 sy0 toplevel edges = Some cur →
  ∃ t top c cont,
    grabbed_toplevel cur = Some t
    ∧ toplevels s !! t = Some top
    ∧ toplevel_container s top = Some (c, cont)
    ∧ cwc_container_is_floating s cont = true
    ∧ cwc_container_is_fullscreen cont = false
    ∧ cwc_container_is_maximized cont = false
    ∧ cwc_toplevel_is_unmanaged top = false
    ∧ cursor_state cur = CWC_CURSOR_STATE_RESIZE
    ∧ (edges ≠ 0 → resize_edges cur = edges)
    ∧ (edges = 0 →
       resize_edges cur
       ∈ [WLR_EDGE_TOP; WLR_EDGE_BOTTOM; WLR_EDGE_LEFT; WLR_EDGE_RIGHT;
          Z.lor WLR_EDGE_LEFT WLR_EDGE_TOP;
          Z.lor WLR_EDGE_LEFT WLR_EDGE_BOTTOM;
          Z.lor WLR_EDGE_RIGHT WLR_EDGE_TOP;
          Z.lor WLR_EDGE_RIGHT WLR_EDGE_BOTTOM])
    ∧ grab_geobox cur
      = mk_box (box_x (t_geometry top) + c_x cont)
          (box_y (t_geometry top) + c_y cont)
          (box_width (t_geometry top)) (box_height (t_geometry top)).
Proof.
  unfold start_interactive_resize. intros H.
  apply bind_Some in H as ([[t sx] sy] & Hsel & H).
  apply bind_Some in H as (ok & Hok & H).
  destruct ok; simpl in H; [|done].
  apply bind_Some in H as (top & Htop & H).
  apply bind_Some in H as ([c cont] & Hcont & H).
  injection H as <-. simpl.
  unfold cwc_toplevel_can_enter_interactive in Hok.
  rewrite Htop in Hok. simpl in Hok. rewrite Hcont in Hok. simpl in Hok.
  injection Hok as Hok.
  repeat (apply andb_true_iff in Hok as [Hok ?]).
  exists t, top, c, cont.
  split_and!; try done; try (by apply negb_true_iff).
  - intros Hne. by apply Z.eqb_neq in Hne as ->.
  - intros ->. simpl. unfold decide_which_edge_to_resize.
    destruct (surface_coord_to_normdevice_coord _ _ _) as [nx ny].
    apply edge_of_normdevice_coord_valid.
Qed.

Lemma resize_started_eval :
  start_interactive_resize Instances.resize_server resize_cursor
    (Some 0%nat) 0 0 None 0
  = Some Instances.resize_started.
Proof. vm_compute. reflexivity. Qed.

(** The resize of the example grabs toplevel 0 by its bottom right
    corner. *)
Lemma resize_starts_only_when_allowed_witness :
  ∃ t top c cont,
    grabbed_toplevel Instances.resize_started = Some t
    ∧ toplevels Instances.resize_server !! t = Some top
    ∧ toplevel_container Instances.resize_server top = Some (c, cont)
    ∧ cwc_container_is_floating Instances.resize_server cont = true.
Proof.
  destruct (resize_starts_only_when_allowed _ _ _ _ _ _ _ _
              resize_started_eval)
    as (t & top & c & cont & H1 & H2 & H3 & H4 & _).
  exists t, top, c, cont. by split_and!.
Defined.

End CursorMore.

(** ** Interactive resize in progress *)

Module CursorMotionFacts.
Set Warnings "-inexact-float".
Import Layout LayoutSpec LayoutFacts Cursor CursorMotion.




(** *** The end of a resize drag *)

(** The pending box applied as [stop_interactive] does. *)
Lemma apply_pending t top c cont x y w h s :
  wf_shape (shape_of s) →
  toplevels s !! t = Some top → toplevel_container s top = Some (c, cont) →
  cwc_container_should_save_floating_box s cont = true →
  let outside :=
    (cwc_border_get_thickness (c_border cont)
     + useless_gaps (cwc_output_get_current_view_info (output s))) * 2 in
  ∃ s1 s2 cont2,
    cwc_container_set_position c x y s = Some s1
    ∧ cwc_toplevel_set_size_surface t w h s1 = Some s2
    ∧ geom_only s s2
    ∧ containers s2 !! c = Some cont2
    ∧ cwc_container_get_box cont2 = mk_box x y (w + outside) (h + outside)
    ∧ c_floating_box cont2 = cwc_container_get_box cont2
    ∧ container_erase cont2 = container_erase cont.
Proof.
  intros Hwf Ht Htc Hsave outside.
  destruct (toplevel_container_geom s s top top c cont) as (? & _ & _ & Hc & _);
    [reflexivity|done|done|].
  destruct (set_position_total c x y s) as [s1 E1]; [by eauto|].
  pose proof (set_position_geom _ _ _ _ _ E1) as G1.
  destruct (set_position_spec _ _ _ _ _ _ Hc E1)
    as (cont1 & Hc1 & He1 & Hx1 & Hy1 & _ & _ & _ & Hf1).
  rewrite Hsave in Hf1.
  destruct (geom_only_toplevel _ _ _ _ G1 Ht) as (top1 & Ht1 & Het1).
  destruct (toplevel_container_geom _ _ _ _ _ _ G1 Het1 Htc)
    as (cont1' & Htc1 & Hc1' & _ & _).
  assert (cont1' = cont1) as -> by congruence.
  assert (Es : cwc_toplevel_set_size_surface t w h s1
               = cwc_container_set_size c (w + outside) (h + outside) s1).
  { unfold cwc_toplevel_set_size_surface.
    rewrite Ht1. simpl. rewrite Htc1. simpl.
    by rewrite (thickness_erase _ _ He1), (go_output _ _ G1). }
  destruct (set_size_total c (w + outside) (h + outside) s1) as [s2 E2];
    [by eapply geom_only_wf_shape|by eauto|].
  pose proof (set_size_geom _ _ _ _ _ E2) as G2.
  destruct (set_size_spec _ _ _ _ _ _ Hc1 E2)
    as (cont2 & Hc2 & He2 & Hx2 & Hy2 & Hw2 & Hh2 & Hf2).
  rewrite (should_save_stable s s1 cont cont1 (go_output _ _ G1) He1),
    Hsave in Hf2.
  exists s1, s2, cont2.
  split_and!; [done|by rewrite Es|by etransitivity|done| | |congruence].
  - unfold cwc_container_get_box. by rewrite Hx2, Hy2, Hw2, Hh2, Hx1, Hy1.
  - unfold cwc_container_get_box.
    rewrite Hf2, Hf1, Hx2, Hy2, Hw2, Hh2, Hx1, Hy1. done.
Qed.

Lemma can_enter_should_save s t top c cont :
  toplevels s !! t = Some top → toplevel_container s top = Some (c, cont) →
  cwc_toplevel_can_enter_interactive s t = Some true →
  cwc_container_should_save_floating_box s cont = true.
Proof.
  intros Ht Htc H. unfold cwc_toplevel_can_enter_interactive in H.
  rewrite Ht in H. simpl in H. rewrite Htc in H. simpl in H.
  injection H as H. apply andb_true_iff in H as [H _].
  exact H.
Qed.

Lemma schedule_resize_effect due t top c cont nb s st :
  wf_shape (shape_of s) →
  toplevels s !! t = Some top → toplevel_container s top = Some (c, cont) →
  ∃ s1,
    schedule_resize due t nb s st = Some (s1, i_set_pending nb st)
    ∧ geom_only s s1.
Proof.
  intros Hwf Ht Htc. unfold schedule_resize.
  rewrite Ht. simpl. rewrite Htc. simpl.
  destruct due; simpl; [|exists s; split; [done|reflexivity]].
  destruct (toplevel_container_geom s s top top c cont) as (? & _ & _ & Hc & _);
    [reflexivity|done|done|].
  destruct (modify_container_total c
              (c_set_position (box_x nb) (box_y nb)) s) as [s0 E0];
    [by eauto|].
  assert (G0 : geom_only s s0) by eauto with frame.
  rewrite E0. simpl.
  destruct (geom_only_toplevel _ _ _ _ G0 Ht) as (top0 & Ht0 & Het0).
  destruct (toplevel_container_geom _ _ _ _ _ _ G0 Het0 Htc)
    as (cont0 & Htc0 & Hc0 & _ & _).
  destruct (set_size_surface_total t c (box_width nb) (box_height nb) s0)
    as [s1 E1].
  { by eapply geom_only_wf_shape. }
  { eauto. }
  { rewrite shape_toplevel_lookup, Ht0. simpl. f_equal.
    unfold toplevel_container in Htc0.
    destruct (t_container top0) as [c0|]; [|done]. simpl in Htc0.
    destruct (containers s0 !! c0); [|done]. simpl in Htc0. congruence. }
  rewrite E1. simpl. exists s1. split; [done|].
  etransitivity; [exact G0|]. by eapply set_size_surface_geom.
Qed.

(** Property X15.  A resize drag on an eligible toplevel: a pointer motion
    leaves the computed box pending, whether or not it was applied at
    once; when the drag stops the pending box is applied, the cursor
    returns to the normal state without a grabbed toplevel, and the
    container is at the pending position with the pending size plus twice
    (border + gap), its state unchanged, and its saved floating box equal
    to that rectangle. *)
Theorem resize_drag_ends due s st t top c cont :
  wf_shape (shape_of s) →
  cursor_state (i_cursor st) = CWC_CURSOR_STATE_RESIZE →
  grabbed_toplevel (i_cursor st) = Some t →
  toplevels s !! t = Some top → toplevel_container s top = Some (c, cont) →
  cwc_toplevel_can_enter_interactive s t = Some true →
  let nb := process_cursor_resize_box (i_cursor st) (t_geometry top) in
  let outside :=
    (cwc_border_get_thickness (c_border cont)
     + useless_gaps (cwc_output_get_current_view_info (output s))) * 2 in
  ∃ s1 st1 s2 st2 cont2,
    process_cursor_resize due s st = Some (s1, st1)
    ∧ pending_box st1 = nb
    ∧ stop_interactive s1 st1 = Some (s2, st2)
    ∧ cursor_state (i_cursor st2) = CWC_CURSOR_STATE_NORMAL
    ∧ grabbed_toplevel (i_cursor st2) = None
    ∧ containers s2 !! c = Some cont2
    ∧ cwc_container_get_box cont2
      = mk_box (box_x nb) (box_y nb) (box_width nb + outside)
          (box_height nb + outside)
    ∧ c_floating_box cont2 = cwc_container_get_box cont2
    ∧ c_state cont2 = c_state cont.
Proof.
  intros Hwf Hstate Hgrab Ht Htc Hok nb outside.
  pose proof (can_enter_should_save _ _ _ _ _ Ht Htc Hok) as Hsave.
  destruct (schedule_resize_effect due t top c cont nb s st Hwf Ht Htc)
    as (s1 & E1 & G1).
  destruct (geom_only_toplevel _ _ _ _ G1 Ht) as (top1 & Ht1 & Het1).
  destruct (toplevel_container_geom _ _ _ _ _ _ G1 Het1 Htc)
    as (cont1 & Htc1 & Hc1 & _ & He1).
  destruct (apply_pending t top1 c cont1 (box_x nb) (box_y nb)
              (box_width nb) (box_height nb) s1)
    as (s1a & s2 & cont2 & Ea & Eb & G2 & Hc2 & Hbox & Hfb & He2).
  { by eapply geom_only_wf_shape. }
  { done. }
  { done. }
  { by rewrite (should_save_stable s s1 cont cont1 (go_output _ _ G1) He1). }
  rewrite (thickness_erase _ _ He1), (go_output _ _ G1) in Hbox.
  fold outside in Hbox.
  destruct (geom_only_toplevel _ _ _ _ G2 Ht1) as (top2 & Ht2 & _).
  exists s1, (i_set_pending nb st), s2.
  eexists. exists cont2.
  split_and!.
  - unfold process_cursor_resize. rewrite Hgrab. simpl. rewrite Ht. simpl.
    exact E1.
  - done.
  - unfold stop_interactive. simpl. rewrite Hstate, Hgrab. simpl.
    rewrite Ht1. simpl. rewrite Htc1. simpl. rewrite Ea. simpl.
    rewrite Eb. simpl. rewrite Ht2. simpl. reflexivity.
  - done.
  - done.
  - done.
  - done.
  - done.
  - rewrite (f_equal c_state He2 : c_state cont2 = c_state cont1).
    exact (f_equal c_state He1).
Qed.

Lemma resize_server_wf : wf_shape (shape_of Instances.resize_server).
Proof. apply (wf_shape_b_sound [] 0). vm_compute. reflexivity. Qed.

Lemma resize_server_can_enter :
  cwc_toplevel_can_enter_interactive Instances.resize_server 0%nat
  = Some true.
Proof. vm_compute. reflexivity. Qed.

(** The drag of the example ends with the container at (100,100) and
    260x250 large. *)
Lemma resize_drag_ends_witness :
  ∃ s1 st1 s2 st2 cont2,
    process_cursor_resize true Instances.resize_server
      ResizeInstances.resize_dragged = Some (s1, st1)
    ∧ stop_interactive s1 st1 = Some (s2, st2)
    ∧ cursor_state (i_cursor st2) = CWC_CURSOR_STATE_NORMAL
    ∧ grabbed_toplevel (i_cursor st2) = None
    ∧ containers s2 !! 0%nat = Some cont2
    ∧ cwc_container_get_box cont2 = mk_box 100 100 260 250
    ∧ c_floating_box cont2 = mk_box 100 100 260 250.
Proof.
  destruct (resize_drag_ends true Instances.resize_server
              ResizeInstances.resize_dragged 0%nat
              ResizeInstances.resize_toplevel 0%nat
              ResizeInstances.resize_container resize_server_wf)
    as (s1 & st1 & s2 & st2 & cont2 & E1 & _ & E2 & Hn & Hg & Hc & Hb & Hf
        & _).
  - vm_compute. reflexivity.
  - vm_compute. reflexivity.
  - vm_compute. reflexivity.
  - vm_compute. reflexivity.
  - exact resize_server_can_enter.
  - exists s1, st1, s2, st2, cont2.
    split_and!; [done..| |].
    + rewrite Hb. vm_compute. reflexivity.
    + rewrite Hf, Hb. vm_compute. reflexivity.
Defined.

(** *** Pointer buttons *)

Section Buttons.
Variable XXH3_64bits : Z → Z.

Lemma Binding_not_notify (e : list Keybinding.effect) x :
  (∀ f, x ≠ Binding f) → x ∉ (Binding <$> e).
Proof.
  intros Hx Hin. apply list_elem_of_fmap in Hin as (f & -> & _).
  by eapply Hx.
Qed.

Lemma mouse_execute_handled s modifiers button press :
  fst (Keybinding.keybind_mouse_execute XXH3_64bits s modifiers button press)
  = bool_decide
      (is_Some (Keybinding.keybind_mouse_map s
                !! XXH3_64bits
                     (Keybinding.keybind_generate_key modifiers button))).
Proof.
  unfold Keybinding.keybind_mouse_execute, Keybinding.__keybind_execute,
    Keybinding.cwc_hhmap_nget.
  destruct (Keybinding.keybind_mouse_map s !! _) as [info|]; cbn [fst].
  - symmetry. rewrite bool_decide_eq_true. eauto.
  - symmetry. rewrite bool_decide_eq_false. by intros [? ?].
Qed.


End Buttons.

End CursorMotionFacts.

(** ** Key bindings: dispatch and registration *)

Module KeybindingFacts.
Import Keybinding KeybindingSpec.

Section WithHash.
Variable XXH3_64bits : Z -> Z.

Local Abbreviation nget := (cwc_hhmap_nget XXH3_64bits).
Local Abbreviation execute := (__keybind_execute XXH3_64bits).

Lemma callbacks_app l1 l2 : callbacks (l1 ++ l2) = callbacks l1 ++ callbacks l2.
Proof. apply List.filter_app. Qed.

(** [__keybind_execute] reports a binding exactly when the map has one. *)
Lemma execute_handled map modifiers key press :
  (execute map modifiers key press).1
  = bool_decide (is_Some (binding_of XXH3_64bits map modifiers key)).
Proof.
  unfold __keybind_execute, binding_of.
  by destruct (nget map (keybind_generate_key modifiers key)).
Qed.

(** It runs nothing else than callbacks. *)
Lemma execute_only_callbacks map modifiers key press :
  callbacks (execute map modifiers key press).2
  = (execute map modifiers key press).2.
Proof.
  unfold __keybind_execute.
  destruct (nget map (keybind_generate_key modifiers key)) as [info|]; [|done].
  simpl. destruct (kb_type info).
  - by destruct (_ =? 0).
  - by destruct press, (on_press info), (on_release info).
Qed.

Lemma execute_press_C map modifiers key info f :
  binding_of XXH3_64bits map modifiers key = Some info →
  kb_type info = CWC_KEYBIND_TYPE_C → on_press info = Some f →
  (execute map modifiers key true).2 = [CCall f (kb_args info)].
Proof.
  unfold __keybind_execute, binding_of. intros -> Ht Hp. simpl.
  by rewrite Ht, Hp.
Qed.

Lemma execute_release_C map modifiers key info f :
  binding_of XXH3_64bits map modifiers key = Some info →
  kb_type info = CWC_KEYBIND_TYPE_C → on_release info = Some f →
  (execute map modifiers key false).2 = [CCall f (kb_args info)].
Proof.
  unfold __keybind_execute, binding_of. intros -> Ht Hp. simpl.
  by rewrite Ht, Hp.
Qed.

Lemma execute_lua map modifiers key info (press : bool) :
  binding_of XXH3_64bits map modifiers key = Some info →
  kb_type info = CWC_KEYBIND_TYPE_LUA →
  (if press then luaref_press info else luaref_release info) ≠ 0 →
  (execute map modifiers key press).2
  = [LuaCall (if press then luaref_press info else luaref_release info)].
Proof.
  unfold __keybind_execute, binding_of. intros -> Ht Hp. simpl.
  rewrite Ht. destruct press; by apply Z.eqb_neq in Hp as ->.
Qed.

Lemma execute_none map modifiers key press :
  binding_of XXH3_64bits map modifiers key = None →
  execute map modifiers key press = (false, []).
Proof. unfold __keybind_execute, binding_of. by intros ->. Qed.

Lemma forward_not_callback event : is_callback (forward_of event) = false.
Proof. done. Qed.

Lemma callbacks_elem e effs : e ∈ callbacks effs → is_callback e = true.
Proof.
  unfold callbacks. rewrite list_elem_of_In, List.filter_In. by intros [_ ?].
Qed.

(** The shape of what [on_kbd_key] does, case by case. *)
Lemma on_kbd_key_cases xkb_sym modifiers event s :
  let keysym := xkb_sym (ev_keycode event + 8) in
  let forward := [SeatSetKeyboard; forward_of event] in
  on_kbd_key XXH3_64bits xkb_sym modifiers event s
  = match ev_pressed event, session_lock_locked s with
    | true, true => IdleNotifyActivity :: forward
    | true, false =>
        let r := keybind_kbd_execute XXH3_64bits s modifiers keysym true in
        r.2 ++ IdleNotifyActivity :: (if r.1 then [] else forward)
    | false, true => forward
    | false, false =>
        (keybind_kbd_execute XXH3_64bits s modifiers keysym false).2
        ++ forward
    end.
Proof.
  unfold on_kbd_key, forward_of.
  destruct (ev_pressed event), (session_lock_locked s); simpl; try done.
  - destruct (keybind_kbd_execute _ _ _ _ _) as [[] e]; simpl; [done|].
    by rewrite <- app_assoc.
  - by destruct (keybind_kbd_execute _ _ _ _ _) as [[] e].
Qed.

(** *** Registration *)

Lemma clean_info_released info : clean_info info = released (Some info).
Proof.
  unfold clean_info, released. destruct (kb_type info); [|done].
  simpl. by destruct (luaref_press info =? 0), (luaref_release info =? 0).
Qed.

Lemma remove_if_exist_spec map g :
  __keybind_remove_if_exist XXH3_64bits map g
  = (delete (XXH3_64bits g) map, released (nget map g)).
Proof.
  unfold __keybind_remove_if_exist, cwc_hhmap_nget, cwc_hhmap_nremove.
  destruct (map !! XXH3_64bits g) as [info|] eqn:E.
  - by rewrite clean_info_released.
  - by rewrite delete_id.
Qed.

Lemma register_spec map modifiers key info :
  let g := keybind_generate_key modifiers key in
  __keybind_register XXH3_64bits map modifiers key info
  = (<[XXH3_64bits g := info_set_key g info]> map,
     released (binding_of XXH3_64bits map modifiers key)).
Proof.
  unfold __keybind_register. rewrite remove_if_exist_spec. simpl.
  unfold cwc_hhmap_ninsert. by rewrite insert_delete_eq.
Qed.

Lemma map_keyed_empty : map_keyed XXH3_64bits ∅.
Proof. intros h info H. by rewrite lookup_empty in H. Qed.

Lemma map_keyed_delete map h :
  map_keyed XXH3_64bits map → map_keyed XXH3_64bits (delete h map).
Proof.
  intros Hk h' info H. apply lookup_delete_Some in H as [_ H]. by apply Hk.
Qed.

Lemma map_keyed_register map modifiers key info :
  map_keyed XXH3_64bits map →
  map_keyed XXH3_64bits
    (__keybind_register XXH3_64bits map modifiers key info).1.
Proof.
  intros Hk. rewrite register_spec. simpl. intros h i H.
  apply lookup_insert_Some in H as [[<- <-]|[_ H]]; [done|by apply Hk].
Qed.

Lemma map_keyed_remove map g :
  map_keyed XXH3_64bits map →
  map_keyed XXH3_64bits (__keybind_remove_if_exist XXH3_64bits map g).1.
Proof. intros Hk. rewrite remove_if_exist_spec. by apply map_keyed_delete. Qed.

(** The two maps of a server. *)
Lemma kbd_register_maps modifiers key info s :
  keybind_kbd_map (keybind_kbd_register XXH3_64bits modifiers key info s).1
  = (__keybind_register XXH3_64bits (keybind_kbd_map s) modifiers key info).1
  ∧ keybind_mouse_map
      (keybind_kbd_register XXH3_64bits modifiers key info s).1
    = keybind_mouse_map s.
Proof.
  unfold keybind_kbd_register.
  by destruct (__keybind_register _ _ _ _ _).
Qed.

Lemma mouse_register_maps modifiers key info s :
  keybind_mouse_map
    (keybind_mouse_register XXH3_64bits modifiers key info s).1
  = (__keybind_register XXH3_64bits (keybind_mouse_map s) modifiers key
       info).1
  ∧ keybind_kbd_map
      (keybind_mouse_register XXH3_64bits modifiers key info s).1
    = keybind_kbd_map s.
Proof.
  unfold keybind_mouse_register.
  by destruct (__keybind_register _ _ _ _ _).
Qed.

Lemma both_keyed_kbd_register modifiers key info s :
  both_keyed XXH3_64bits s →
  both_keyed XXH3_64bits (keybind_kbd_register XXH3_64bits modifiers key info s).1.
Proof.
  intros [Hk Hm]. unfold both_keyed.
  destruct (kbd_register_maps modifiers key info s) as [-> ->].
  split; [by apply map_keyed_register|done].
Qed.

Lemma both_keyed_common_keys k : ∀ i s,
  both_keyed XXH3_64bits s → both_keyed XXH3_64bits (register_common_keys XXH3_64bits k i s).1.
Proof.
  induction k as [|k IH]; intros i s Hs; [done|]. simpl.
  pose proof (both_keyed_kbd_register
    (Z.lor WLR_MODIFIER_CTRL WLR_MODIFIER_ALT) (XKB_KEY_F1 + (i - 1))
    (mk_info CWC_KEYBIND_TYPE_C 0 0 0 (Some _chvt) None i None None) s Hs)
    as H1.
  destruct (keybind_kbd_register _ _ _ _ s) as [s1 e1]. simpl in H1.
  specialize (IH (i + 1) s1 H1).
  by destruct (register_common_keys _ k (i + 1) s1).
Qed.

Lemma kbd_step_keyed s s' :
  kbd_step XXH3_64bits s s' → both_keyed XXH3_64bits s → both_keyed XXH3_64bits s'.
Proof.
  intros Hstep [Hk Hm]. destruct Hstep.
  - by apply both_keyed_kbd_register.
  - unfold both_keyed.
    destruct (mouse_register_maps modifiers button info s) as [-> ->].
    split; [done|by apply map_keyed_register].
  - unfold keybind_kbd_remove, both_keyed.
    pose proof (map_keyed_remove (keybind_kbd_map s)
                  (keybind_generate_key modifiers key) Hk).
    by destruct (__keybind_remove_if_exist _ _ _).
  - unfold keybind_mouse_remove, both_keyed.
    pose proof (map_keyed_remove (keybind_mouse_map s)
                  (keybind_generate_key modifiers button) Hm).
    by destruct (__keybind_remove_if_exist _ _ _).
  - by apply both_keyed_common_keys.
  - unfold keybind_kbd_clear.
    assert (both_keyed XXH3_64bits (mk_kbd_server ∅ (keybind_mouse_map s)
                          (session_lock_locked s))) as H0
      by (split; [apply map_keyed_empty|done]).
    destruct clear_common_key; [done|].
    pose proof (both_keyed_common_keys 12 1 _ H0) as H1.
    unfold keybind_register_common_key.
    by destruct (register_common_keys _ _ _ _).
  - split; [done|apply map_keyed_empty].
Qed.

Lemma kbd_reachable_keyed s : kbd_reachable XXH3_64bits s → both_keyed XXH3_64bits s.
Proof.
  induction 1 as [locked|s s' _ IH Hstep].
  - split; apply map_keyed_empty.
  - by eapply kbd_step_keyed.
Qed.

(** *** At most one binding per pair *)

Lemma filter_none {A} (P : A → bool) (l : list A) :
  (∀ x, x ∈ l → P x = false) → List.filter P l = [].
Proof.
  induction l as [|x l IH]; intros H; [done|]. simpl.
  rewrite (H x) by left. apply IH. intros y Hy. apply H. by right.
Qed.

Lemma filter_keyed_length (P : cwc_keybind_info → bool) (h : Z)
    (l : list (Z * cwc_keybind_info)) :
  NoDup l.*1 →
  (∀ k i, (k, i) ∈ l → P i = true → k = h) →
  (length (List.filter P l.*2) <= 1)%nat.
Proof.
  induction l as [|[k i] l IH]; intros Hnd Hh; [simpl; lia|].
  simpl in *. apply NoDup_cons in Hnd as [Hk Hnd].
  destruct (P i) eqn:EP.
  - rewrite filter_none; [simpl; lia|].
    intros i' Hi'. apply list_elem_of_fmap in Hi' as ([k' i''] & -> & Hin).
    simpl. destruct (P i'') eqn:EP'; [|done].
    assert (k' = h) by (eapply Hh; [by right|done]).
    assert (k = h) by (eapply Hh; [by left|done]).
    destruct Hk. subst. apply list_elem_of_fmap. by exists (h, i'').
  - apply IH; [done|]. intros k' i' Hin. apply Hh. by right.
Qed.

Lemma keyed_at_most_one map :
  map_keyed XXH3_64bits map → at_most_one_per_pair map.
Proof.
  intros Hk modifiers key. unfold bindings_of_pair.
  apply (filter_keyed_length _
           (XXH3_64bits (keybind_generate_key modifiers key))).
  - apply NoDup_fst_map_to_list.
  - intros k i Hin HP. apply elem_of_map_to_list in Hin.
    apply Z.eqb_eq in HP. rewrite <- HP. by apply Hk.
Qed.

Lemma bindings_of_pair_elem map modifiers key info h :
  map !! h = Some info → kb_key info = keybind_generate_key modifiers key →
  info ∈ bindings_of_pair map modifiers key.
Proof.
  intros Hm Hkey. unfold bindings_of_pair.
  apply list_elem_of_In, List.filter_In. split.
  - apply list_elem_of_In, list_elem_of_fmap. exists (h, info).
    split; [done|]. by apply elem_of_map_to_list.
  - by apply Z.eqb_eq.
Qed.

Lemma bindings_after_register map modifiers key info :
  map_keyed XXH3_64bits map →
  let g := keybind_generate_key modifiers key in
  let map' := (__keybind_register XXH3_64bits map modifiers key info).1 in
  bindings_of_pair map' modifiers key = [info_set_key g info]
  ∧ binding_of XXH3_64bits map' modifiers key = Some (info_set_key g info).
Proof.
  intros Hk g map'.
  assert (map' !! XXH3_64bits g = Some (info_set_key g info)) as Hl.
  { subst map'. rewrite register_spec. simpl. apply lookup_insert_eq. }
  split; [|done].
  pose proof (keyed_at_most_one map'
                (map_keyed_register map modifiers key info Hk)
                modifiers key) as Hlen.
  pose proof (bindings_of_pair_elem map' modifiers key _ _ Hl eq_refl) as Hin.
  destruct (bindings_of_pair map' modifiers key) as [|x [|y l]];
    [by apply elem_of_nil in Hin| |simpl in Hlen; lia].
  by apply list_elem_of_singleton in Hin as ->.
Qed.

(** *** The claims *)



End WithHash.

(** The example server is reachable: its two bindings were registered on
    empty maps. *)
Lemma example_kbd_server_reachable locked :
  kbd_reachable id (example_kbd_server locked).
Proof.
  unfold example_kbd_server.
  eapply kbd_reachable_step;
    [eapply kbd_reachable_step; [apply kbd_reachable_init|]|];
    apply kbd_step_kbd_register.
Qed.



End KeybindingFacts.

(** ** Key bindings: keys, removal, lookup *)

Module KeybindingMore.
Import Keybinding KeybindingSpec KeybindingSpec2.

(** *** The generated key *)

Lemma generate_key_sum modifiers keysym :
  is_uint32 modifiers → is_uint32 keysym →
  keybind_generate_key modifiers keysym = modifiers * 2 ^ 32 + keysym.
Proof.
  unfold is_uint32, keybind_generate_key, uint64. intros Hm Hk.
  rewrite Z.shiftl_mul_pow2 by lia.
  rewrite Z.mod_small by lia.
  rewrite <- Z.lxor_lor, <- Z.add_nocarry_lxor; [done| |].
  all: apply Z.bits_inj'; intros n Hn; rewrite Z.land_spec, Z.bits_0.
  all: destruct (Z.lt_ge_cases n 32).
  all: try (rewrite Z.mul_pow2_bits_low by lia; done).
  all: rewrite (Z.bits_above_log2 keysym n);
         [apply andb_false_r|lia|].
  all: destruct (Z.eq_dec keysym 0) as [->|?]; [simpl; lia|].
  all: apply Z.log2_lt_pow2; [lia|].
  all: apply Z.lt_le_trans with (2 ^ 32); [lia|].
  all: apply Z.pow_le_mono_r; lia.
Qed.

(** Property X9.  The generated key packs the modifier mask into the upper
    and the keysym into the lower 32 bits: for 32-bit arguments both are
    recovered from it, so different (modifiers, keysym) pairs have different
    generated keys. *)
Theorem generated_key_round_trip modifiers keysym :
  is_uint32 modifiers → is_uint32 keysym →
  generated_key_get_modifier (keybind_generate_key modifiers keysym)
  = modifiers
  ∧ generated_key_get_key (keybind_generate_key modifiers keysym) = keysym
  ∧ ∀ modifiers' keysym',
      is_uint32 modifiers' → is_uint32 keysym' →
      keybind_generate_key modifiers' keysym'
      = keybind_generate_key modifiers keysym →
      modifiers' = modifiers ∧ keysym' = keysym.
Proof.
  intros Hm Hk. rewrite generate_key_sum by done.
  unfold generated_key_get_modifier, generated_key_get_key.
  unfold is_uint32 in *.
  assert (Hhi : Z.shiftr (modifiers * 2 ^ 32 + keysym) 32 = modifiers).
  { rewrite Z.shiftr_div_pow2 by lia.
    rewrite Z.div_add_l by lia. rewrite Z.div_small by lia. lia. }
  assert (Hlo : Z.land (modifiers * 2 ^ 32 + keysym) 0xffffffff = keysym).
  { change 0xffffffff with (Z.ones 32). rewrite Z.land_ones by lia.
    rewrite Z.add_comm, Z.mod_add by lia. apply Z.mod_small. lia. }
  split_and!; [done|done|].
  intros m' k' Hm' Hk' E. rewrite generate_key_sum in E by done.
  unfold is_uint32 in *. lia.
Qed.

Lemma generated_key_round_trip_witness :
  generated_key_get_modifier (keybind_generate_key 12 XKB_KEY_F1) = 12
  ∧ generated_key_get_key (keybind_generate_key 12 XKB_KEY_F1) = XKB_KEY_F1.
Proof.
  destruct (generated_key_round_trip 12 XKB_KEY_F1) as (H1 & H2 & _).
  - unfold is_uint32. lia.
  - unfold is_uint32, XKB_KEY_F1. lia.
  - by split.
Defined.

Section WithHash.
Variable XXH3_64bits : Z -> Z.

(** *** Removal *)

Lemma remove_map map g :
  (__keybind_remove_if_exist XXH3_64bits map g).1
  = delete (XXH3_64bits g) map.
Proof.
  unfold __keybind_remove_if_exist, cwc_hhmap_nget, cwc_hhmap_nremove.
  destruct (map !! XXH3_64bits g) eqn:E; [done|]. simpl.
  by rewrite delete_id.
Qed.

Lemma remove_effects map g :
  (__keybind_remove_if_exist XXH3_64bits map g).2
  = from_option (clean_info) [] (cwc_hhmap_nget XXH3_64bits map g).
Proof.
  unfold __keybind_remove_if_exist.
  by destruct (cwc_hhmap_nget XXH3_64bits map g).
Qed.


(** *** Registration and lookup *)

Lemma register_map map modifiers key info :
  (__keybind_register XXH3_64bits map modifiers key info).1
  = <[XXH3_64bits (keybind_generate_key modifiers key)
      := info_set_key (keybind_generate_key modifiers key) info]> map.
Proof.
  unfold __keybind_register.
  pose proof (remove_map map (keybind_generate_key modifiers key)) as Hm.
  destruct (__keybind_remove_if_exist XXH3_64bits map
              (keybind_generate_key modifiers key)) as [m effs].
  simpl in *. subst m. unfold cwc_hhmap_ninsert. apply insert_delete_eq.
Qed.


End WithHash.



(** *** The VT-switch bindings *)

Section CommonKeys.
Variable XXH3_64bits : Z -> Z.

Lemma register_common_keys_spec k : ∀ i s,
  (∀ a b, i <= a < i + Z.of_nat k → i <= b < i + Z.of_nat k →
     XXH3_64bits (common_key a) = XXH3_64bits (common_key b) → a = b) →
  let s' := (register_common_keys XXH3_64bits k i s).1 in
  (∀ j, i <= j < i + Z.of_nat k →
     keybind_kbd_map s' !! XXH3_64bits (common_key j) = Some (chvt_info j))
  ∧ (∀ h, (∀ j, i <= j < i + Z.of_nat k → h ≠ XXH3_64bits (common_key j)) →
       keybind_kbd_map s' !! h = keybind_kbd_map s !! h)
  ∧ keybind_mouse_map s' = keybind_mouse_map s
  ∧ session_lock_locked s' = session_lock_locked s.
Proof.
  induction k as [|k IH]; intros i s Hinj; simpl.
  - split_and!; [|done..]. intros j Hj. lia.
  - set (info := mk_info CWC_KEYBIND_TYPE_C 0 0 0 (Some _chvt) None i None None).
    pose proof (register_map XXH3_64bits (keybind_kbd_map s)
                  (Z.lor WLR_MODIFIER_CTRL WLR_MODIFIER_ALT)
                  (XKB_KEY_F1 + (i - 1)) info) as Hm.
    unfold keybind_kbd_register.
    destruct (__keybind_register XXH3_64bits (keybind_kbd_map s) _ _ info)
      as [m e1]. simpl in Hm. subst m.
    fold (common_key i).
    set (s1 := mk_kbd_server _ (keybind_mouse_map s) (session_lock_locked s)).
    destruct (IH (i + 1) s1) as (Hin & Hout & Hmouse & Hlock).
    { intros a b Ha Hb. apply Hinj; lia. }
    destruct (register_common_keys XXH3_64bits k (i + 1) s1) as [s2 e2].
    simpl in *. split_and!; [| |done|done].
    + intros j Hj. destruct (decide (j = i)) as [->|Hne].
      * rewrite Hout.
        -- subst s1. simpl. by rewrite lookup_insert_eq.
        -- intros j Hj' Heq. apply Hinj in Heq; lia.
      * apply Hin. lia.
    + intros h Hh. rewrite Hout by (intros j Hj; apply Hh; lia).
      subst s1. simpl. rewrite lookup_insert_ne; [done|].
      intros Heq. by apply (Hh i); [lia|].
Qed.


End CommonKeys.

Lemma common_key_injective a b :
  1 <= a <= 12 → 1 <= b <= 12 → common_key a = common_key b → a = b.
Proof.
  intros Ha Hb E. unfold common_key in E.
  assert (is_uint32 (Z.lor WLR_MODIFIER_CTRL WLR_MODIFIER_ALT))
    by (vm_compute; split; [discriminate|reflexivity]).
  rewrite !generate_key_sum in E;
    try done; unfold is_uint32, XKB_KEY_F1 in *; lia.
Qed.


End KeybindingMore.
